(* ===== verification/_CoqProject ===== *)
-Q . S2P
Prelude.v
Text.v
Sys.v
Logging.v
Errors.v
Openssl.v
Der.v
Sample.v
X509Ext.v
Certificate.v
HostBinding.v
Gost.v
Trust.v
MacLabel.v
MacOrchestrator.v
MacAudit.v
PdpFfi.v
Proto.v
Registry.v
State.v
Enforce.v
Store.v
Server.v
Hooks.v
RawConfig.v
Config.v
Exec.v
Client.v
Usb.v
Events.v
HostIdentity.v
Startup.v
DumpHostId.v
Wallpaper.v
Daemon.v
EndToEnd.v
Pkcs12.v
Pkcs11.v
Token.v
PamHandle.v
Wiring.v
Flow.v
FlowRun.v
FlowSpec.v
Entry.v
Real.v
Doubles.v
