(* ===== verification/Prelude.v ===== *)
(** * pam_certauth: a verification development

    The program authenticates a user at a PAM prompt by a certificate and the
    private key that belongs to it, and watches the device they came from.  It
    has two processes.  The PAM module ([src/crates/pam_certauth], over the
    library [src/crates/pam_certauth_core]) reads a PKCS#12 bundle from a USB
    stick or talks to a PKCS#11 token, proves possession of the key, verifies
    the certificate against configured anchors, checks that the certificate
    names this host and the user, runs hooks, caps the session's integrity
    label, and tells the daemon.  The daemon ([src/crates/pam_certauth_cli])
    tracks the sessions, and locks or ends them when the stick is pulled.  They
    speak a line protocol over a Unix socket ([src/crates/pam_certauth_proto]).

    ** Conventions

    A [Result] that may also panic is [res]; an arithmetic overflow, a slice
    out of range and a loop out of fuel are all [Panic], so that a theorem that
    excludes [Panic] also shows termination.  Machine integers are [Z] with
    their width written out where the code can leave it; a byte is
    [Byte.byte], a string its UTF-8 bytes; times and durations are nanoseconds.
    State is passed explicitly.  Code that is not part of the repository
    (OpenSSL, cryptoki, serde_json, uuid, the kernel, libpam, libpdp) enters
    through type classes whose fields are its operations; a theorem states
    what it needs of them as hypotheses, and a witness instantiates them with
    the concrete functions of the [*Sample] modules.  Error texts of other libraries stay opaque.

    ** Files, parts of the program, and what is shown

    Names of source files are relative to the [src] of their crate.

    - [Prelude], [Text], [Sys]: results, bytes, slices, big-endian numbers,
      UTF-8, hex, decimal numbers, trimming and splitting, paths, and the monad
      [io] of a world with errors, as the Rust standard library has them.
      [Logging] ([logging.rs] of both programs): the set-up of the log and the
      writer that turns a formatted event into syslog records.
      [Errors], [Openssl], [Sample]: shared error types, the OpenSSL interface
      and its sample instance.
    - [Der] ([x509/der.rs]): the TLV reader inverts an X.690 encoder written
      down beside it, the OID renderer is right below second arc 40.
    - [X509Ext] ([x509/ext.rs], [x509/der_helpers.rs]): the extension walkers
      find the first extension with the identifier, the key usage test returns
      the named bit.
    - [Certificate] ([x509/mod.rs], [x509/sig_alg.rs]): the certificate wrapper.
    - [HostBinding] ([host_binding.rs], [mapping.rs], [x509/*_binding_ext.rs]):
      [verify_cert_scope] accepts only certificates that name host and user, and
      all of them whose host entries the parser can cut; the legacy mapping;
      where the entry parser panics.
    - [Gost] ([gost/{engine,sys,errors}.rs]): the engine handle with its
      structural and functional references, and the load-once cell; every
      reference is owned by one handle and given back once.
    - [Trust] ([trust/openssl_verifier.rs], [x509/{chain,signatures,
      basic_constraints,pre_validate,pinning}.rs], [crl/store.rs]): a returned
      chain is [trusted], every outcome of the revocation check has its reason
      and no other, a release build never panics.
    - [MacLabel] ([mac/{label,text_codec}.rs], [x509/max_integrity_ext.rs]) and
      [MacOrchestrator] ([mac/{orchestrator,backend}.rs]): both codecs
      round-trip, the applied label is the greatest within the user's and the
      certificate's or administrator's bound, [Required] never skips.  [MacAudit] ([mac/audit.rs]):
      the audit records, and that every verdict but one leaves its record.
      [PdpFfi] ([mac/ffi.rs]): the wrappers of libpdp give back every label.
    - [Proto] ([pam_certauth_proto]): messages, codes and frames; frames
      round-trip.
    - [Registry] ([registry.rs]): the invariant of the two indexes and when the
      lookup by uid is exact.
    - [State] ([state.rs]): the state manager as a step relation over requests,
      udev and logind events, timers and time.  By rule induction, in every
      interleaving: an action has a removal and an undisturbed grace period
      behind it; the registry invariant; the file agrees with the memory.
      [Enforce]: a removal that counts is acted on once the grace is over.
    - [Store] ([registry/store.rs], the atomic write of [state.rs]): no crash
      tears the session file, and the store implements the abstract step that
      [State] uses.
    - [Server] ([server.rs], [peercred.rs]): the byte-level connection refines
      an abstract session (acknowledgement, then one reply per request), peers
      that are not root or did not say hello never reach the manager, serving
      ends on every input.
    - [Hooks] ([hooks/*.rs], [pam_data.rs]): templates round-trip, the
      environment of a child is clean, hooks run in order under their policy.
      [Exec] ([hooks/{fork_exec,child_setup,pipe_reader,executor,user}.rs]): the
      child up to [execve], the pipe readers, the group lists, and the wait with
      its kills; what the program inherits, and that the waits and loops end.
    - [RawConfig] and [Config] ([config/{raw,validated,mod}.rs]): the raw form
      with its defaults and every validator; an accepted configuration is
      well-formed.
    - [Client] ([ipc/*.rs]): the client of the daemon; together with [Server]
      and [State], opening a session over the socket registers exactly it.
    - [Usb] ([usb/*.rs], [mount/*.rs], [mount_guard.rs], [discovery.rs]):
      enumeration, waiting, hardened mounts and their guard, the search for the
      bundle.
    - [Events] ([udev_monitor.rs], [udev_query.rs], [logind/*.rs],
      [actions.rs]): what flows into the manager and out of it, as runs labelled
      with the history of the manager.  Every call of the daemon on logind is
      justified by a device event of that history, the thread loses no
      event, the runner does what was requested, and module and daemon agree on
      the serial of a stick.
    - [HostIdentity] ([host_identity/*.rs]): every source, the chain and its
      fallback.  [Startup] ([startup_check/*.rs], [check.rs]): the checks before
      the daemon starts.  [DumpHostId] ([dump_host_id.rs]): the report of the
      identities, its dates against a calendar, its predictions.  [Wallpaper]
      ([fly_dm_wallpaper_writer.rs]): the banner of the greeter, down to
      single-precision arithmetic; drawing stays in the image, the original
      image is kept.
    - [Daemon] ([daemon/mod.rs], [notify.rs], [shutdown.rs], [main.rs], the
      binding of [server.rs]): start-up composes the parts above; what readiness
      guarantees, that the socket is never exposed, and that the check command
      predicts the start.
    - [EndToEnd]: [Client], [Server], [State] and [Events] together: a session
      opened over the socket whose stick is pulled and stays away ends in the
      call on logind that is configured, once the daemon is at rest.
    - [Pkcs12] ([pkcs12/*.rs], [challenge/*.rs], [gost/algorithms.rs]),
      [Pkcs11] and [Token] ([token/pkcs11/*.rs]): the PIN loops are bounded and
      exact, a passed challenge is a signature that verifies, the waiter ends,
      the key object has the certificate's identifier, the global lock
      serialises the calls of every set of threads without a deadlock.
    - [PamHandle] ([data_handle.rs], [pam_conv.rs], [pam_helpers.rs]): items,
      conversation and the stored context, with the ownership of every buffer.
    - [Wiring] ([di.rs], [pam_args.rs], [self_check.rs]): the verifier and the
      collaborators are built as configured.
    - [Flow] ([flow.rs]) models both authentication paths in a small state and
      error monad whose state carries a trace of effects.  [FlowRun] says which
      worlds belong to a run: those between its first and its last, along calls
      of the collaborators.  [FlowSpec] shows that a success passed every gate
      with one certificate, with PIN, nonce and time taken from calls made in
      that very run, and that the trace is
      always a word of an automaton: hooks, mounts, PINs, release and
      notification come in the intended order, in every outcome.
    - [Entry] ([entry.rs], [session.rs], [panic_guard.rs], [lib.rs],
      [xdg_capture.rs]): the PAM entries.  [PAM_SUCCESS] means the gates were
      passed and the context stored, every other way out leaves nothing stored
      and nothing mounted; a MAC refusal releases the daemon's record, the
      close entry and a missing required runtime do not.
    - [Real]: the entries over the production adapters of [flow.rs], that is
      over [Usb], [Token], [Client], [Exec], [HostIdentity], [Wiring] and
      [PamHandle]: the end-to-end statement of a login.
    - [Doubles] ([testing.rs], [InMemoryFlowIo], [MockMounter], [trust/stub.rs]):
      the stand-ins of the test suites; the mount double records exactly the
      calls the real mounter would make, and a login over the in-memory adapter
      passes the same gates.

    The order of this list is the order of dependency.  The interfaces between
    the parts are classes ([MacBackend], [Json], [Cryptoki], [FlowIo],
    [Pkcs11Io], [Udev], [Runtime] and the like) and the specifications the
    client proofs use ([trusted], [verifies], [registry_wf], [config_wf]).
    Where a theorem speaks about every state on the way ([Store], [Daemon]), the
    world is replaced by one that records its states.

    ** Fuel and bounds

    Loops over bytes take the length of the input (plus one) as fuel, and the
    no-panic lemmas show it is enough; path building takes [max_depth] rounds;
    [serve_loop] takes the length of the input plus two.  PIN loops recurse on
    the number of attempts.  Waits poll as often as their time and interval
    allow: [wait_fuel] for a hook, which is shown to be enough when sleeping
    lets time pass; [wait_for_token_with_clock], the custom command of
    [HostIdentity] and the waits of [Usb] take a number of polls.  The udev
    thread has no end but the shutdown: its fuel is how much of it is looked
    at, and its theorem holds for every fuel.

    ** What is not modelled

    Other people's code: libcrypto, libpam, libpdp, the PKCS#11 module, udev,
    D-Bus, the kernel, the async runtime, the TOML, JSON, regex, font and image
    crates are interfaces.  The log is modelled up to the records it
    sends; which line each function logs is left out, but audit records and the
    start-up report are not.  Wiping of secrets ([secret.rs]) has no observable
    result in the model, and the builder of test certificates
    ([x509/test_utils.rs]) only calls OpenSSL.  Allocation never fails in the
    model.  Of the scheduler one thing is assumed, [may_fire] of [State]: a timer
    task that is cancelled before its deadline is polled before the deadline, so
    that the two branches of its [select!] are not ready at once. *)

From Stdlib Require Ascii Strings.Byte.
From stdpp Require Export prelude.
From stdpp Require Export gmap strings list fin_maps pretty.

(** [lia] sees [/] and [mod] by literals. *)
Ltac Zify.zify_post_hook ::= Z.to_euclidean_division_equations.

(** ** Rust results

    A Rust computation returns a value, fails with an error of its
    [Result], or panics (an out-of-range index or slice, a failed
    [expect], a checked arithmetic overflow).  A panic is not an error
    value: no [?] or [map_err] sees it, it unwinds to the PAM boundary. *)

Declare Scope rust_scope.
Delimit Scope rust_scope with rust.

Inductive res (E A : Type) : Type :=
| Ok (a : A)
| Err (e : E)
| Panic.

Arguments Ok {E A} a.
Arguments Err {E A} e.
Arguments Panic {E A}.

Definition rbind {E A B} (c : res E A) (k : A → res E B) : res E B :=
  match c with
  | Ok a => k a
  | Err e => Err e
  | Panic => Panic
  end.

Definition map_err {E F A} (f : E → F) (c : res E A) : res F A :=
  match c with
  | Ok a => Ok a
  | Err e => Err (f e)
  | Panic => Panic
  end.

Definition ok_or {E A} (o : option A) (e : E) : res E A :=
  match o with
  | Some a => Ok a
  | None => Err e
  end.

Definition is_ok {E A} (c : res E A) : bool :=
  match c with Ok _ => true | _ => false end.

Notation "'let?' x := c 'in' k" := (rbind c (fun x => k))
  (at level 10, x pattern, c at level 100, k at level 200,
   format "'[v' 'let?'  x  :=  c  'in' '/' k ']'") : rust_scope.

Notation "'check' c ; k" := (rbind c (fun _ => k))
  (at level 10, c at level 100, k at level 200,
   format "'[v' 'check'  c ; '/' k ']'") : rust_scope.

Open Scope rust_scope.

(** [no_panic c]: the computation returns or fails, it does not unwind. *)
Definition no_panic {E A} (c : res E A) : Prop := c ≠ Panic.

Lemma rbind_Ok_inv {E A B} (c : res E A) (k : A → res E B) b :
  rbind c k = Ok b → ∃ a, c = Ok a ∧ k a = Ok b.
Proof. destruct c; simpl; naive_solver. Qed.

Lemma rbind_no_panic {E A B} (c : res E A) (k : A → res E B) :
  no_panic c → (∀ a, c = Ok a → no_panic (k a)) → no_panic (rbind c k).
Proof. unfold no_panic. destruct c; naive_solver. Qed.

Lemma map_err_Ok_inv {E F A} (f : E → F) (c : res E A) a :
  map_err f c = Ok a → c = Ok a.
Proof. destruct c; simpl; naive_solver. Qed.

Lemma map_err_no_panic {E F A} (f : E → F) (c : res E A) :
  no_panic c → no_panic (map_err f c).
Proof. unfold no_panic. destruct c; naive_solver. Qed.

Lemma Ok_no_panic {E A} (a : A) : no_panic (@Ok E A a).
Proof. done. Qed.

Lemma Err_no_panic {E A} (e : E) : no_panic (@Err E A e).
Proof. done. Qed.

Create HintDb rust.
#[export] Hint Resolve Ok_no_panic Err_no_panic map_err_no_panic : rust.

(** [invert_ok H] peels the [let?]s of [H : ... = Ok _], naming nothing. *)
Ltac invert_ok H :=
  repeat match type of H with
  | rbind ?c _ = Ok _ =>
      let a := fresh "a" in let Ha := fresh "Hok" in
      apply rbind_Ok_inv in H as (a & Ha & H); simpl in H
  | Ok _ = Ok _ => injection H as H
  end.

(** ** Bytes and byte strings

    A [u8] is a [Byte.byte]; [bz] is its value and [zb] the truncating
    cast [as u8].  A Rust [String]/[&str] is a [string], the sequence of its
    UTF-8 bytes. *)

Abbreviation byte := Byte.byte.

Definition bz (b : byte) : Z := Z.of_N (Byte.to_N b).

Definition zb (z : Z) : byte :=
  default Byte.x00 (Byte.of_N (Z.to_N (z mod 256))).

Lemma bz_range b : (0 ≤ bz b < 256)%Z.
Proof. unfold bz. pose proof (Byte.to_N_bounded b). lia. Qed.

Lemma bz_zb z : bz (zb z) = (z mod 256)%Z.
Proof.
  unfold bz, zb. pose proof (Z.mod_pos_bound z 256 ltac:(lia)) as Hz.
  destruct (Byte.of_N (Z.to_N (z mod 256))) as [b|] eqn:E; simpl.
  - apply Byte.to_of_N in E. rewrite E. lia.
  - apply Byte.of_N_None_iff in E. lia.
Qed.

Lemma bz_inj b c : bz b = bz c → b = c.
Proof.
  unfold bz. intros H. apply N2Z.inj in H.
  pose proof (Byte.of_to_N b). pose proof (Byte.of_to_N c). congruence.
Qed.

Lemma zb_bz b : zb (bz b) = b.
Proof. apply bz_inj. rewrite bz_zb. apply Z.mod_small, bz_range. Qed.

Lemma bz_zb_small z : (0 ≤ z < 256)%Z → bz (zb z) = z.
Proof. intros. rewrite bz_zb. by apply Z.mod_small. Qed.

#[export] Instance byte_eq_dec : EqDecision byte := Byte.byte_eq_dec.

(** ** Slices and indices

    [usize] values are [Z]s; indexing and slicing panic out of range. *)

Definition zlen {A} (l : list A) : Z := Z.of_nat (length l).

Definition idx {E A} (l : list A) (i : Z) : res E A :=
  if decide (0 ≤ i)%Z then
    match l !! Z.to_nat i with
    | Some a => Ok a
    | None => Panic
    end
  else Panic.

Definition slice {E A} (l : list A) (a b : Z) : res E (list A) :=
  if decide (0 ≤ a ≤ b ∧ b ≤ zlen l)%Z
  then Ok (take (Z.to_nat (b - a)) (drop (Z.to_nat a) l))
  else Panic.

(** [l[a..]] and [l[..b]]. *)
Definition slice_from {E A} (l : list A) (a : Z) : res E (list A) :=
  slice l a (zlen l).

Definition slice_to {E A} (l : list A) (b : Z) : res E (list A) :=
  slice l 0 b.

Definition usize_max : Z := (2 ^ 64 - 1)%Z.

Definition checked_add_usize (a b : Z) : option Z :=
  if decide (a + b ≤ usize_max)%Z then Some (a + b)%Z else None.

Lemma zlen_nonneg {A} (l : list A) : (0 ≤ zlen l)%Z.
Proof. unfold zlen. lia. Qed.

Lemma zlen_app {A} (l k : list A) : zlen (l ++ k) = (zlen l + zlen k)%Z.
Proof. unfold zlen. rewrite length_app. lia. Qed.

Lemma zlen_cons {A} (a : A) l : zlen (a :: l) = (1 + zlen l)%Z.
Proof. unfold zlen. simpl. lia. Qed.

Lemma zlen_nil {A} : zlen (@nil A) = 0%Z.
Proof. done. Qed.

Lemma slice_in {E A} (l : list A) a b :
  (0 ≤ a ≤ b)%Z → (b ≤ zlen l)%Z →
  @slice E A l a b = Ok (take (Z.to_nat (b - a)) (drop (Z.to_nat a) l)).
Proof. intros. unfold slice. by rewrite decide_True. Qed.

(** The slice that lies between a known prefix and a known suffix. *)
Lemma slice_mid {E A} (l l1 l2 l3 : list A) a b :
  l = l1 ++ l2 ++ l3 → a = zlen l1 → b = (zlen l1 + zlen l2)%Z →
  @slice E A l a b = Ok l2.
Proof.
  intros -> -> ->. rewrite slice_in; rewrite ?zlen_app; unfold zlen; [|lia|lia].
  rewrite drop_app_length' by lia. rewrite take_app_length' by lia. done.
Qed.

Lemma slice_from_app {E A} (l l1 l2 : list A) a :
  l = l1 ++ l2 → a = zlen l1 → @slice_from E A l a = Ok l2.
Proof.
  intros -> ->. unfold slice_from. apply (slice_mid _ l1 _ []); [|done|].
  - by rewrite app_nil_r.
  - by rewrite zlen_app.
Qed.

Lemma idx_in {E A} (l : list A) i :
  (0 ≤ i < zlen l)%Z → ∃ a, @idx E A l i = Ok a ∧ l !! Z.to_nat i = Some a.
Proof.
  unfold zlen. intros Hi. unfold idx. rewrite decide_True by lia.
  destruct (lookup_lt_is_Some_2 l (Z.to_nat i)) as [a Ha]; [lia|].
  exists a. by rewrite Ha.
Qed.

Lemma idx_no_panic {E A} (l : list A) i :
  (0 ≤ i < zlen l)%Z → no_panic (@idx E A l i).
Proof. intros Hi. destruct (@idx_in E A l i Hi) as (a & -> & _). done. Qed.

Lemma slice_no_panic {E A} (l : list A) a b :
  (0 ≤ a ≤ b)%Z → (b ≤ zlen l)%Z → no_panic (@slice E A l a b).
Proof. intros. rewrite slice_in by done. done. Qed.

(** ** Big-endian words *)

(** [acc = (acc << 8) | b] over the bytes, starting from [acc]. *)
Definition be_fold (acc : Z) (bs : list byte) : Z :=
  foldl (λ a b, Z.lor (Z.shiftl a 8) (bz b)) acc bs.

(** The [n] low bytes of [z], most significant first. *)
Fixpoint be_bytes (n : nat) (z : Z) : list byte :=
  match n with
  | O => []
  | S m => zb (Z.shiftr z (8 * Z.of_nat m)) :: be_bytes m z
  end.

Lemma shl_lor k a b :
  (0 ≤ k)%Z → (0 ≤ b < 2 ^ k)%Z → Z.lor (Z.shiftl a k) b = (a * 2 ^ k + b)%Z.
Proof.
  intros Hk Hb. rewrite Z.shiftl_mul_pow2 by lia.
  destruct (decide (b = 0)%Z) as [->|]; [rewrite Z.lor_0_r; lia|].
  rewrite <-Z.add_lor_land.
  assert (Z.land (a * 2 ^ k) b = 0)%Z as ->; [|lia].
  apply Z.bits_inj'. intros n0 Hn. rewrite Z.land_spec, Z.bits_0.
  destruct (decide (n0 < k)%Z).
  - rewrite Z.mul_pow2_bits_low by lia. done.
  - rewrite (Z.bits_above_log2 b n0), andb_false_r; [done|lia|].
    apply Z.log2_lt_pow2; [lia|].
    eapply Z.lt_le_trans; [apply Hb|]. apply Z.pow_le_mono_r; lia.
Qed.

Lemma shl8_lor a b : (0 ≤ b < 256)%Z → Z.lor (Z.shiftl a 8) b = (a * 256 + b)%Z.
Proof. intros Hb. rewrite shl_lor; [done|lia|done]. Qed.

Lemma be_fold_cons acc b bs :
  be_fold acc (b :: bs) = be_fold (acc * 256 + bz b) bs.
Proof. unfold be_fold. simpl. by rewrite shl8_lor by apply bz_range. Qed.

Lemma be_fold_app acc bs cs : be_fold acc (bs ++ cs) = be_fold (be_fold acc bs) cs.
Proof. unfold be_fold. apply foldl_app. Qed.

Lemma be_fold_bound acc bs :
  (0 ≤ acc)%Z →
  (acc * 256 ^ zlen bs ≤ be_fold acc bs < (acc + 1) * 256 ^ zlen bs)%Z.
Proof.
  revert acc. induction bs as [|b bs IH]; intros acc Hacc.
  - unfold be_fold, zlen. simpl. lia.
  - rewrite be_fold_cons, zlen_cons. pose proof (bz_range b).
    specialize (IH (acc * 256 + bz b)%Z ltac:(lia)).
    rewrite Z.pow_add_r by (pose proof (zlen_nonneg bs); lia).
    assert (0 < 256 ^ zlen bs)%Z by (apply Z.pow_pos_nonneg; [lia|apply zlen_nonneg]).
    nia.
Qed.

Lemma length_be_bytes n z : length (be_bytes n z) = n.
Proof. induction n; simpl; congruence. Qed.

Lemma be_fold_bytes n acc z :
  be_fold acc (be_bytes n z) = (acc * 256 ^ Z.of_nat n + z mod 256 ^ Z.of_nat n)%Z.
Proof.
  revert acc. induction n as [|n IH]; intros acc.
  - simpl. rewrite Z.mod_1_r. unfold be_fold. simpl. lia.
  - cbn [be_bytes]. rewrite be_fold_cons, IH, bz_zb, Z.shiftr_div_pow2 by lia.
    replace (2 ^ (8 * Z.of_nat n))%Z with (256 ^ Z.of_nat n)%Z
      by (change 256%Z with (2 ^ 8)%Z; rewrite <-Z.pow_mul_r by lia; f_equal; lia).
    rewrite Nat2Z.inj_succ, Z.pow_succ_r by lia.
    set (p := (256 ^ Z.of_nat n)%Z).
    assert (0 < p)%Z by (apply Z.pow_pos_nonneg; lia).
    rewrite (Z.mul_comm 256 p), Z.rem_mul_r by lia. nia.
Qed.

Lemma be_fold_acc acc bs : be_fold acc bs = (acc * 256 ^ zlen bs + be_fold 0 bs)%Z.
Proof.
  revert acc. induction bs as [|b bs IH]; intros acc.
  - unfold be_fold, zlen. simpl. lia.
  - rewrite !be_fold_cons, IH, (IH (0 * 256 + bz b)%Z), zlen_cons.
    rewrite Z.pow_add_r by (pose proof (zlen_nonneg bs); lia). lia.
Qed.

(** Bit [k] of byte [i], counted from the most significant byte. *)
Lemma be_fold_testbit bs i b k :
  bs !! i = Some b → (0 ≤ k < 8)%Z →
  Z.testbit (be_fold 0 bs) (8 * (zlen bs - 1 - Z.of_nat i) + k) = Z.testbit (bz b) k.
Proof.
  intros Hi Hk. apply list_elem_of_split_length in Hi as (l1 & l2 & -> & ->).
  rewrite zlen_app, zlen_cons. unfold zlen at 1. pose proof (zlen_nonneg l2).
  replace (8 * _ + k)%Z with (k + 8 * zlen l2)%Z by lia.
  rewrite be_fold_app, be_fold_cons, be_fold_acc, <-Z.div_pow2_bits by lia.
  replace (2 ^ (8 * zlen l2))%Z with (256 ^ zlen l2)%Z
    by (change 256%Z with (2 ^ 8)%Z; by rewrite <-Z.pow_mul_r by lia).
  pose proof (be_fold_bound 0 l2 ltac:(lia)) as Hb.
  rewrite Z.div_add_l, (Z.div_small (be_fold 0 l2)), Z.add_0_r by lia.
  rewrite <-(Z.mod_pow2_bits_low _ 8) by lia. change (2 ^ 8)%Z with 256%Z.
  by rewrite Z.add_comm, Z.mod_add, Z.mod_small by (pose proof (bz_range b); lia).
Qed.

Lemma land_pow2 a k :
  (0 ≤ k)%Z → Z.land a (2 ^ k) = if Z.testbit a k then (2 ^ k)%Z else 0%Z.
Proof.
  intros Hk. apply Z.bits_inj'. intros n Hn.
  rewrite Z.land_spec, Z.pow2_bits_eqb by lia. destruct (Z.eqb_spec k n) as [->|].
  - rewrite andb_true_r. destruct (Z.testbit a n).
    + by rewrite Z.pow2_bits_true by lia.
    + by rewrite Z.bits_0.
  - rewrite andb_false_r. destruct (Z.testbit a k); [|by rewrite Z.bits_0].
    by rewrite Z.pow2_bits_false.
Qed.

(** ** Hexadecimal rendering *)

Definition hex_digit (d : Z) : Ascii.ascii :=
  Ascii.ascii_of_N (Z.to_N (if decide (d < 10)%Z then d + 48 else d + 87)).

(** [{b:02x}]: two lowercase hex digits. *)
Definition hex_byte (b : byte) : string :=
  String (hex_digit (bz b / 16)) (String (hex_digit (bz b mod 16)) "").

(** [hex::encode]. *)
Fixpoint hex_encode (bs : list byte) : string :=
  match bs with
  | [] => ""
  | b :: r => hex_byte b +:+ hex_encode r
  end.

(** ** Build profiles

    Cargo's [dev] profile checks integer overflow and panics; the
    [release] profile of [Cargo.toml] leaves [overflow-checks] off and wraps. *)
Class BuildProfile := overflow_checks : bool.

Definition sub_u8 `{BuildProfile} {E} (a b : Z) : res E Z :=
  if decide (b ≤ a)%Z then Ok (a - b)%Z
  else if overflow_checks then Panic else Ok ((a - b) mod 256)%Z.

(** ** UTF-8 text *)

Definition in_range (lo hi : Z) (b : byte) : bool :=
  bool_decide (lo ≤ bz b ≤ hi)%Z.

(** [std::str::from_utf8] accepts exactly the well-formed byte sequences of
    the Unicode standard (table 3-7). *)
Fixpoint utf8_valid (bs : list byte) : bool :=
  match bs with
  | [] => true
  | b0 :: r =>
      if in_range 0x00 0x7F b0 then utf8_valid r
      else if in_range 0xC2 0xDF b0 then
        match r with
        | b1 :: r' => in_range 0x80 0xBF b1 && utf8_valid r'
        | _ => false
        end
      else if in_range 0xE0 0xEF b0 then
        match r with
        | b1 :: b2 :: r' =>
            in_range (if decide (bz b0 = 0xE0)%Z then 0xA0 else 0x80)
                     (if decide (bz b0 = 0xED)%Z then 0x9F else 0xBF) b1
            && in_range 0x80 0xBF b2 && utf8_valid r'
        | _ => false
        end
      else if in_range 0xF0 0xF4 b0 then
        match r with
        | b1 :: b2 :: b3 :: r' =>
            in_range (if decide (bz b0 = 0xF0)%Z then 0x90 else 0x80)
                     (if decide (bz b0 = 0xF4)%Z then 0x8F else 0xBF) b1
            && in_range 0x80 0xBF b2 && in_range 0x80 0xBF b3 && utf8_valid r'
        | _ => false
        end
      else false
  end.

Abbreviation bytes_of := String.list_byte_of_string.
Abbreviation text_of := String.string_of_list_byte.

Definition from_utf8 (bs : list byte) : option string :=
  if utf8_valid bs then Some (text_of bs) else None.

(** [s.is_char_boundary(i)]: the start, the end, or a byte that does not
    continue a character. *)
Definition is_char_boundary (s : string) (i : Z) : bool :=
  bool_decide (i = 0)%Z ||
  match bytes_of s !! Z.to_nat i with
  | None => bool_decide (i = zlen (bytes_of s))
  | Some b => negb (in_range 0x80 0xBF b)
  end.

(** [s[..i]] and [s[i..]] on a [str]: panic off a character boundary. *)
Definition str_to {E} (s : string) (i : Z) : res E string :=
  if is_char_boundary s i then
    let? bs := slice_to (bytes_of s) i in Ok (text_of bs)
  else Panic.

Definition str_from {E} (s : string) (i : Z) : res E string :=
  if is_char_boundary s i then
    let? bs := slice_from (bytes_of s) i in Ok (text_of bs)
  else Panic.

(** [s.len()] is the number of bytes. *)
Definition str_len (s : string) : Z := zlen (bytes_of s).

(** [s.chars().take(n).collect()]: a character starts at every byte that is
    not a continuation byte. *)
Fixpoint take_chars (n : nat) (bs : list byte) : list byte :=
  match bs with
  | [] => []
  | b :: r =>
      if in_range 0x80 0xBF b then b :: take_chars n r
      else match n with O => [] | S m => b :: take_chars m r end
  end.

Definition chars_take (n : nat) (s : string) : string := text_of (take_chars n (bytes_of s)).

Definition byte_lower (b : byte) : byte :=
  if in_range 0x41 0x5A b then zb (bz b + 32) else b.

Definition to_ascii_lowercase (s : string) : string :=
  text_of (byte_lower <$> bytes_of s).

Definition eq_ignore_ascii_case (s t : string) : bool :=
  bool_decide (to_ascii_lowercase s = to_ascii_lowercase t).

Definition is_ascii_hexdigit (b : byte) : bool :=
  in_range 0x30 0x39 b || in_range 0x41 0x46 b || in_range 0x61 0x66 b.

(** A third-party call that returns a [Result] and does not panic. *)
Definition of_sum {E A} (x : E + A) : res E A :=
  match x with inl e => Err e | inr a => Ok a end.

Lemma of_sum_no_panic {E A} (x : E + A) : no_panic (of_sum x).
Proof. by destruct x. Qed.
#[export] Hint Resolve of_sum_no_panic : rust.

Lemma of_sum_err_Ok {E F A} (f : E → F) (x : E + A) a : map_err f (of_sum x) = Ok a → x = inr a.
Proof. destruct x; simpl; [done|]. by intros [= ->]. Qed.

Lemma text_of_bytes_of s : text_of (bytes_of s) = s.
Proof. apply String.string_of_list_byte_of_string. Qed.

Lemma bytes_of_text_of bs : bytes_of (text_of bs) = bs.
Proof. apply String.list_byte_of_string_of_list_byte. Qed.

Lemma bytes_of_inj s t : bytes_of s = bytes_of t → s = t.
Proof. intros H. rewrite <-(text_of_bytes_of s), <-(text_of_bytes_of t). congruence. Qed.

Lemma bytes_of_app s t : bytes_of (s +:+ t) = bytes_of s ++ bytes_of t.
Proof.
  unfold String.list_byte_of_string. induction s as [|a s IH]; [done|].
  simpl. by rewrite IH.
Qed.

(** Well-formed text stays so when more text follows. *)
Lemma utf8_valid_app a b : utf8_valid a = true → utf8_valid (a ++ b) = utf8_valid b.
Proof.
  remember (length a) as n eqn:Hn. revert a Hn.
  induction (lt_wf n) as [n _ IH]. intros a -> Ha.
  destruct a as [|b0 r]; [done|]. cbn [utf8_valid app] in Ha |- *.
  destruct (in_range 0x00 0x7F b0); [by apply (IH (length r)); [simpl; lia|..]|].
  destruct (in_range 0xC2 0xDF b0).
  { destruct r as [|b1 r]; [done|]. cbn [app]. apply andb_true_iff in Ha as [-> Ha].
    by apply (IH (length r)); [simpl; lia|..]. }
  destruct (in_range 0xE0 0xEF b0).
  { destruct r as [|b1 [|b2 r]]; [done..|]. cbn [app]. rewrite !andb_true_iff in Ha.
    destruct Ha as [[-> ->] Ha]. by apply (IH (length r)); [simpl; lia|..]. }
  destruct (in_range 0xF0 0xF4 b0); [|done].
  destruct r as [|b1 [|b2 [|b3 r]]]; [done..|]. cbn [app]. rewrite !andb_true_iff in Ha.
  destruct Ha as [[[-> ->] ->] Ha]. by apply (IH (length r)); [simpl; lia|..].
Qed.

(** Hex text: its bytes, and that it determines what it encodes. *)
Lemma hex_digit_byte d : (0 ≤ d < 16)%Z →
  Ascii.byte_of_ascii (hex_digit d) = zb (if decide (d < 10)%Z then d + 48 else d + 87).
Proof.
  intros Hd. unfold hex_digit.
  assert (∀ k, (0 ≤ k < 16)%Z → Ascii.byte_of_ascii
    (Ascii.ascii_of_N (Z.to_N (if decide (k < 10)%Z then k + 48 else k + 87))) =
    zb (if decide (k < 10)%Z then k + 48 else k + 87)) as H; [|by apply H].
  intros k Hk. assert (k ∈ seqZ 0 16) as Hin by (apply elem_of_seqZ; lia). clear Hk. revert k Hin.
  apply Forall_forall. vm_compute. repeat constructor.
Qed.

Definition hex_pair_bytes (b : byte) : list byte :=
  [Ascii.byte_of_ascii (hex_digit (bz b / 16)); Ascii.byte_of_ascii (hex_digit (bz b mod 16))].

Lemma bytes_of_hex_encode bs : bytes_of (hex_encode bs) = flat_map hex_pair_bytes bs.
Proof.
  induction bs as [|b bs IH]; [done|]. cbn [hex_encode flat_map]. rewrite bytes_of_app, IH. done.
Qed.

Lemma hex_pair_bytes_range b :
  Forall (λ c, (0x30 ≤ bz c ≤ 0x39 ∨ 0x61 ≤ bz c ≤ 0x66)%Z) (hex_pair_bytes b).
Proof.
  unfold hex_pair_bytes. pose proof (bz_range b).
  rewrite !Forall_cons. split_and!; [..|constructor];
    rewrite hex_digit_byte by lia; case_decide; rewrite bz_zb_small by lia; lia.
Qed.

Lemma hex_encode_range bs :
  Forall (λ c, (0x30 ≤ bz c ≤ 0x39 ∨ 0x61 ≤ bz c ≤ 0x66)%Z) (bytes_of (hex_encode bs)).
Proof.
  rewrite bytes_of_hex_encode. induction bs as [|b bs IH]; [constructor|]. cbn [flat_map].
  apply Forall_app. split; [apply hex_pair_bytes_range|done].
Qed.

Lemma hex_pair_bytes_inj b c : hex_pair_bytes b = hex_pair_bytes c → b = c.
Proof.
  unfold hex_pair_bytes. pose proof (bz_range b). pose proof (bz_range c).
  rewrite !hex_digit_byte by lia. intros [= H1%(f_equal bz) H2%(f_equal bz)].
  apply bz_inj. repeat case_decide; rewrite !bz_zb_small in * by lia; lia.
Qed.

Lemma hex_encode_inj bs cs : hex_encode bs = hex_encode cs → bs = cs.
Proof.
  intros H%(f_equal bytes_of). rewrite !bytes_of_hex_encode in H. revert cs H.
  induction bs as [|b bs IH]; intros [|c cs] H; try done. cbn [flat_map] in H.
  apply app_inj_1 in H as [Hb H]; [|done]. apply hex_pair_bytes_inj in Hb as ->.
  f_equal. by apply IH.
Qed.

Lemma to_ascii_lowercase_hex bs : to_ascii_lowercase (hex_encode bs) = hex_encode bs.
Proof.
  unfold to_ascii_lowercase. apply bytes_of_inj. rewrite bytes_of_text_of.
  pose proof (hex_encode_range bs) as Hr. induction Hr as [|c l Hc Hl IH]; [done|].
  rewrite fmap_cons, IH. f_equal. unfold byte_lower, in_range.
  by rewrite bool_decide_eq_false_2 by lia.
Qed.

Lemma str_len_hex_encode bs : str_len (hex_encode bs) = (2 * zlen bs)%Z.
Proof.
  unfold str_len. rewrite bytes_of_hex_encode. induction bs as [|b bs IH]; [done|].
  cbn [flat_map]. rewrite zlen_app, IH, zlen_cons. unfold zlen at 1. simpl length. lia.
Qed.
