(* ===== verification/Text.v ===== *)
(** * Text handling of the Rust standard library

    The parts of [core::str] and [core::num] that the codecs use, over the
    UTF-8 bytes of a string: [split], [splitn], [trim], integer parsing
    ([from_str_radix]), the [{}] and [{:x}] integer formats, slicing, [replace]
    and [from_utf8_lossy]. *)

From S2P Require Import Prelude.
Local Open Scope Z_scope.

(** ** Splitting *)

(** [s.split(c)] for an ASCII separator; never empty. *)
Fixpoint split_bytes (c : byte) (bs : list byte) : list (list byte) :=
  match bs with
  | [] => [[]]
  | b :: r =>
      if decide (b = c) then [] :: split_bytes c r
      else match split_bytes c r with
           | [] => [[b]]
           | h :: t => (b :: h) :: t
           end
  end.

Definition str_split (c : byte) (s : string) : list string :=
  text_of <$> split_bytes c (bytes_of s).

(** The bytes before the first [c], and those after it if it occurs. *)
Fixpoint split_once_bytes (c : byte) (bs : list byte) : list byte * option (list byte) :=
  match bs with
  | [] => ([], None)
  | b :: r =>
      if decide (b = c) then ([], Some r)
      else let (h, t) := split_once_bytes c r in (b :: h, t)
  end.

(** [s.splitn(n, c)]: at most [n] pieces, the last one unsplit. *)
Fixpoint splitn_bytes (n : nat) (c : byte) (bs : list byte) : list (list byte) :=
  match n with
  | O => []
  | S O => [bs]
  | S m =>
      match split_once_bytes c bs with
      | (h, Some t) => h :: splitn_bytes m c t
      | (h, None) => [h]
      end
  end.

Definition str_splitn (n : nat) (c : byte) (s : string) : list string :=
  text_of <$> splitn_bytes n c (bytes_of s).

(** ** Searching *)

(** Does the text contain the needle? *)
Fixpoint is_prefix_bytes (p bs : list byte) : bool :=
  match p, bs with
  | [], _ => true
  | x :: p, y :: bs => bool_decide (x = y) && is_prefix_bytes p bs
  | _ :: _, [] => false
  end.

Fixpoint contains_bytes (needle bs : list byte) : bool :=
  is_prefix_bytes needle bs ||
  match bs with [] => false | _ :: r => contains_bytes needle r end.

Definition str_contains (s needle : string) : bool := contains_bytes (bytes_of needle) (bytes_of s).

(** ** Trimming *)

(** Leading bytes of [bs] that encode one [char::is_whitespace] character:
    U+0009-U+000D, U+0020, U+0085, U+00A0, U+1680, U+2000-U+200A, U+2028,
    U+2029, U+202F, U+205F and U+3000. *)
Definition whitespace_prefix (bs : list byte) : nat :=
  match bz <$> take 3 bs with
  | a :: r =>
      if bool_decide (9 ≤ a ≤ 13 ∨ a = 32) then 1%nat else
      match r with
      | b :: r' =>
          if bool_decide (a = 0xC2 ∧ (b = 0x85 ∨ b = 0xA0)) then 2%nat else
          match r' with
          | c :: _ =>
              if bool_decide (a = 0xE1 ∧ b = 0x9A ∧ c = 0x80) ||
                 bool_decide (a = 0xE2 ∧ b = 0x80 ∧
                              (0x80 ≤ c ≤ 0x8A ∨ c = 0xA8 ∨ c = 0xA9 ∨ c = 0xAF)) ||
                 bool_decide (a = 0xE2 ∧ b = 0x81 ∧ c = 0x9F) ||
                 bool_decide (a = 0xE3 ∧ b = 0x80 ∧ c = 0x80)
              then 3%nat else 0%nat
          | [] => 0%nat
          end
      | [] => 0%nat
      end
  | [] => 0%nat
  end.

Fixpoint trim_start_fuel (fuel : nat) (bs : list byte) : list byte :=
  match fuel with
  | O => bs
  | S f => match whitespace_prefix bs with
           | O => bs
           | n => trim_start_fuel f (drop n bs)
           end
  end.

Definition trim_start_bytes (bs : list byte) : list byte :=
  trim_start_fuel (length bs) bs.

(** Length of the whitespace character that ends [bs], 0 if there is none. *)
Definition whitespace_suffix (bs : list byte) : nat :=
  let at_ n := bool_decide (n ≤ length bs)%nat &&
               bool_decide (whitespace_prefix (drop (length bs - n) bs) = n) in
  if at_ 1%nat then 1%nat else if at_ 2%nat then 2%nat else if at_ 3%nat then 3%nat else 0%nat.

Fixpoint trim_end_fuel (fuel : nat) (bs : list byte) : list byte :=
  match fuel with
  | O => bs
  | S f => match whitespace_suffix bs with
           | O => bs
           | n => trim_end_fuel f (take (length bs - n) bs)
           end
  end.

Definition trim_end_bytes (bs : list byte) : list byte :=
  trim_end_fuel (length bs) bs.

Definition str_trim (s : string) : string :=
  text_of (trim_end_bytes (trim_start_bytes (bytes_of s))).

(** [s.trim_start()], and the words of [s.split_whitespace()]. *)
Definition str_trim_start (s : string) : string := text_of (trim_start_bytes (bytes_of s)).

Fixpoint take_word (fuel : nat) (bs : list byte) : list byte * list byte :=
  match fuel, bs with
  | S f, b :: r =>
      match whitespace_prefix bs with
      | O => let (w, rest) := take_word f r in (b :: w, rest)
      | _ => ([], bs)
      end
  | _, _ => ([], bs)
  end.

Fixpoint words_fuel (fuel : nat) (bs : list byte) : list (list byte) :=
  match fuel, trim_start_bytes bs with
  | _, [] => []
  | O, _ => []
  | S f, rest => let (w, rest) := take_word (length rest) rest in w :: words_fuel f rest
  end.

Definition split_whitespace (s : string) : list string :=
  text_of <$> words_fuel (length (bytes_of s)) (bytes_of s).

(** [s.lines()]: a line ends with a line feed, which goes with a carriage
    return before it; text after the last line feed is a line too. *)
Definition strip_cr (bs : list byte) : list byte :=
  match rev bs with
  | b :: r => if decide (b = zb 0x0D) then rev r else bs
  | [] => []
  end.

Fixpoint lines_of (parts : list (list byte)) : list (list byte) :=
  match parts with
  | [] => []
  | [last] => match last with [] => [] | _ => [last] end
  | part :: rest => strip_cr part :: lines_of rest
  end.

Definition str_lines (s : string) : list string :=
  text_of <$> lines_of (split_bytes (zb 0x0A) (bytes_of s)).

(** [s.trim_start_matches(p)]: drop [p] from the front as often as it is there. *)
Fixpoint trim_start_matches_fuel (fuel : nat) (p bs : list byte) : list byte :=
  match fuel with
  | O => bs
  | S f => if decide (take (length p) bs = p ∧ p ≠ [])
           then trim_start_matches_fuel f p (drop (length p) bs) else bs
  end.

Definition trim_start_matches (p s : string) : string :=
  text_of (trim_start_matches_fuel (length (bytes_of s)) (bytes_of p) (bytes_of s)).

(** ** Integers *)

Inductive IntErrorKind : Type :=
| IntEmpty
| InvalidDigit
| PosOverflow
| NegOverflow.

(** [char::to_digit]. *)
Definition to_digit (radix : Z) (b : byte) : option Z :=
  let d :=
    if in_range 0x30 0x39 b then Some (bz b - 0x30)
    else if in_range 0x41 0x5A b then Some (bz b - 0x41 + 10)
    else if in_range 0x61 0x7A b then Some (bz b - 0x61 + 10)
    else None in
  match d with
  | Some v => if decide (v < radix) then Some v else None
  | None => None
  end.

(** The digit loop with its checked multiply and add ([sign] 1) or subtract
    ([sign] -1) in the range [lo, hi]. *)
Fixpoint parse_digits (sign lo hi radix acc : Z) (bs : list byte) : IntErrorKind + Z :=
  match bs with
  | [] => inr acc
  | b :: r =>
      let over := if decide (sign = 1) then PosOverflow else NegOverflow in
      match to_digit radix b with
      | None => inl InvalidDigit
      | Some d =>
          let mul := acc * radix in
          if bool_decide (lo ≤ mul ≤ hi) && bool_decide (lo ≤ mul + sign * d ≤ hi)
          then parse_digits sign lo hi radix (mul + sign * d) r
          else inl over
      end
  end.

(** [from_str_radix] of an integer type with range [lo, hi]; a minus sign is
    only read by the signed types. *)
Definition from_str_radix (lo hi radix : Z) (s : string) : IntErrorKind + Z :=
  match bytes_of s with
  | [] => inl IntEmpty
  | b :: r =>
      if decide (b = zb 0x2B) then
        if decide (r = []) then inl InvalidDigit else parse_digits 1 lo hi radix 0 r
      else if decide (b = zb 0x2D) then
        if decide (r = []) then inl InvalidDigit
        else if decide (lo < 0) then parse_digits (-1) lo hi radix 0 r
        else inl InvalidDigit
      else parse_digits 1 lo hi radix 0 (b :: r)
  end.

Definition digit_byte (d : Z) : byte :=
  if decide (d < 10) then zb (d + 0x30) else zb (d + 0x57).

(** Digits of [n], most significant first, without leading zeros. *)
Fixpoint digits (fuel : nat) (radix n : Z) : list byte :=
  match fuel with
  | O => []
  | S f => if decide (n < radix) then [digit_byte n]
           else digits f radix (n / radix) ++ [digit_byte (n mod radix)]
  end.

Definition fmt_nat (radix n : Z) : list byte := digits (S (Z.to_nat (Z.log2 n))) radix n.

(** [{}] of a signed or unsigned integer. *)
Definition fmt_dec (n : Z) : string :=
  text_of (if decide (n < 0) then zb 0x2D :: fmt_nat 10 (- n) else fmt_nat 10 n).

(** [{:x}] of an unsigned integer. *)
Definition fmt_hex (n : Z) : string := text_of (fmt_nat 16 n).

(** [{}] of a [ParseIntError]. *)
Definition int_error_text (k : IntErrorKind) : string :=
  match k with
  | IntEmpty => "cannot parse integer from empty string"
  | InvalidDigit => "invalid digit found in string"
  | PosOverflow => "number too large to fit in target type"
  | NegOverflow => "number too small to fit in target type"
  end.

(** ** Slices and replacement *)

Definition starts_with (s p : string) : bool := is_prefix_bytes (bytes_of p) (bytes_of s).

(** [&s[a..b]]: panics out of range or off a character boundary. *)
Definition str_slice {E} (s : string) (a b : Z) : res E string :=
  if is_char_boundary s a && is_char_boundary s b then
    let? bs := slice (bytes_of s) a b in Ok (text_of bs)
  else Panic.

(** [s.replace(from, to)] for a non-empty [from]: occurrences are found from
    the left and do not overlap. *)
Fixpoint replace_fuel (fuel : nat) (from to bs : list byte) : list byte :=
  match fuel, bs with
  | S f, b :: r =>
      if is_prefix_bytes from bs then to ++ replace_fuel f from to (drop (length from) bs)
      else b :: replace_fuel f from to r
  | _, _ => bs
  end.

Definition str_replace (s from to : string) : string :=
  text_of (replace_fuel (length (bytes_of s)) (bytes_of from) (bytes_of to) (bytes_of s)).

(** ** Lossy decoding *)

(** The longest prefix of [bs] that is one character or one ill-formed
    subsequence: its length, and whether it is a character. *)
Definition utf8_chunk (bs : list byte) : nat * bool :=
  match bs with
  | [] => (0%nat, true)
  | b0 :: r =>
      let cont n k :=
        match r !! n with
        | Some b => if in_range 0x80 0xBF b then k else (S n, false)
        | None => (S n, false)
        end in
      if in_range 0x00 0x7F b0 then (1%nat, true)
      else if in_range 0xC2 0xDF b0 then cont 0%nat (2%nat, true)
      else if in_range 0xE0 0xEF b0 then
        match r with
        | b1 :: _ =>
            if in_range (if decide (bz b0 = 0xE0) then 0xA0 else 0x80)
                        (if decide (bz b0 = 0xED) then 0x9F else 0xBF) b1
            then cont 1%nat (3%nat, true) else (1%nat, false)
        | [] => (1%nat, false)
        end
      else if in_range 0xF0 0xF4 b0 then
        match r with
        | b1 :: _ =>
            if in_range (if decide (bz b0 = 0xF0) then 0x90 else 0x80)
                        (if decide (bz b0 = 0xF4) then 0x8F else 0xBF) b1
            then cont 1%nat (cont 2%nat (4%nat, true)) else (1%nat, false)
        | [] => (1%nat, false)
        end
      else (1%nat, false)
  end.

Definition REPLACEMENT : list byte := [zb 0xEF; zb 0xBF; zb 0xBD].

Fixpoint lossy_fuel (fuel : nat) (bs : list byte) : list byte :=
  match fuel, bs with
  | S f, _ :: _ =>
      let (n, ok) := utf8_chunk bs in
      (if ok : bool then take n bs else REPLACEMENT) ++ lossy_fuel f (drop n bs)
  | _, _ => []
  end.

(** [String::from_utf8_lossy]. *)
Definition from_utf8_lossy (bs : list byte) : string := text_of (lossy_fuel (length bs) bs).

(** ** Lemmas *)

Lemma to_digit_digit_byte radix d :
  2 ≤ radix ≤ 16 → 0 ≤ d < radix → to_digit radix (digit_byte d) = Some d.
Proof.
  intros Hr Hd. unfold to_digit, digit_byte, in_range.
  case_decide; rewrite bz_zb_small by lia;
    repeat (first [rewrite bool_decide_eq_true_2 by lia|rewrite bool_decide_eq_false_2 by lia]);
    simpl; (rewrite decide_True by lia; f_equal; lia).
Qed.

Lemma parse_digits_app sign lo hi radix acc bs cs :
  parse_digits sign lo hi radix acc (bs ++ cs) =
  match parse_digits sign lo hi radix acc bs with
  | inr v => parse_digits sign lo hi radix v cs
  | inl e => inl e
  end.
Proof.
  revert acc. induction bs as [|b bs IH]; intros acc; [done|]. simpl.
  destruct (to_digit radix b); [|done]. by case_match.
Qed.

Lemma parse_digits_digits fuel sign lo hi radix n :
  2 ≤ radix ≤ 16 → (sign = 1 ∨ sign = -1) → lo ≤ 0 ≤ hi →
  0 ≤ n < 2 ^ Z.of_nat fuel → lo ≤ sign * n ≤ hi →
  parse_digits sign lo hi radix 0 (digits fuel radix n) = inr (sign * n).
Proof.
  intros Hr Hs Hlh. revert n. induction fuel as [|f IH]; intros n Hn Hb.
  { replace n with 0 by lia. simpl. f_equal. lia. }
  cbn [digits]. case_decide as Hc.
  - cbn [parse_digits]. rewrite to_digit_digit_byte by lia.
    rewrite !bool_decide_eq_true_2 by lia. done.
  - rewrite Nat2Z.inj_succ, Z.pow_succ_r in Hn by lia.
    assert (0 ≤ n / radix ∧ n / radix * radix ≤ n ∧ n / radix * 2 ≤ n) as (? & ? & ?) by nia.
    rewrite parse_digits_app, IH by nia.
    cbn [parse_digits]. rewrite to_digit_digit_byte by (pose proof (Z.mod_pos_bound n radix); lia).
    assert (n = radix * (n / radix) + n mod radix) as Hdm by (apply Z.div_mod; lia).
    pose proof (Z.mod_pos_bound n radix).
    rewrite !bool_decide_eq_true_2 by nia. simpl. f_equal. nia.
Qed.

Lemma log2_fuel n : 0 ≤ n → n < 2 ^ Z.of_nat (S (Z.to_nat (Z.log2 n))).
Proof.
  intros Hn. rewrite Nat2Z.inj_succ, Z2Nat.id by apply Z.log2_nonneg.
  destruct (decide (n = 0)) as [->|]; [done|]. apply Z.log2_spec. lia.
Qed.

Lemma digits_range fuel radix n :
  2 ≤ radix ≤ 16 → 0 ≤ n →
  Forall (λ b, 0x30 ≤ bz b ≤ 0x39 ∨ 0x61 ≤ bz b ≤ 0x66) (digits fuel radix n).
Proof.
  intros Hr. revert n. induction fuel as [|f IH]; intros n Hn; [constructor|]. cbn [digits].
  assert (∀ d, 0 ≤ d < 16 → 0x30 ≤ bz (digit_byte d) ≤ 0x39 ∨ 0x61 ≤ bz (digit_byte d) ≤ 0x66).
  { intros d Hd. unfold digit_byte. case_decide; rewrite bz_zb_small by lia; lia. }
  case_decide; [constructor; [|constructor]; auto with lia|].
  apply Forall_app. split; [apply IH; apply Z.div_pos; lia|].
  constructor; [|constructor]. apply H. pose proof (Z.mod_pos_bound n radix). lia.
Qed.

Lemma digits_nonempty fuel radix n : digits (S fuel) radix n ≠ [].
Proof. cbn [digits]. case_decide; [done|]. by destruct (digits fuel _ _). Qed.

(** Parsing what [{}] or [{:x}] printed gives the number back. *)
Lemma from_str_radix_fmt_nat lo hi radix n :
  2 ≤ radix ≤ 16 → lo ≤ 0 → 0 ≤ n ≤ hi →
  from_str_radix lo hi radix (text_of (fmt_nat radix n)) = inr n.
Proof.
  intros Hr Hlo Hn. unfold from_str_radix. rewrite bytes_of_text_of.
  pose proof (digits_range (S (Z.to_nat (Z.log2 n))) radix n Hr ltac:(lia)) as Hd.
  pose proof (digits_nonempty (Z.to_nat (Z.log2 n)) radix n) as Hne.
  fold (fmt_nat radix n) in *.
  destruct (fmt_nat radix n) as [|b r] eqn:He; [done|]. inversion_clear Hd.
  rewrite !decide_False by (intros ->; rewrite bz_zb_small in *; lia). rewrite <-He.
  unfold fmt_nat. rewrite parse_digits_digits; [f_equal; lia|lia|auto|lia| |lia].
  split; [lia|]. apply log2_fuel. lia.
Qed.

Lemma from_str_radix_fmt_dec lo hi n :
  lo ≤ 0 ≤ hi → lo ≤ n ≤ hi → from_str_radix lo hi 10 (fmt_dec n) = inr n.
Proof.
  intros Hlh Hn. unfold fmt_dec. case_decide; [|by apply from_str_radix_fmt_nat; lia].
  unfold from_str_radix. rewrite bytes_of_text_of.
  rewrite decide_False by (intros He%(f_equal bz); by rewrite !bz_zb_small in He by lia).
  rewrite decide_True, decide_False, decide_True by (done || lia || apply digits_nonempty).
  unfold fmt_nat. rewrite parse_digits_digits; [f_equal; lia|lia|auto|lia| |lia].
  split; [lia|]. apply log2_fuel. lia.
Qed.

(** A byte that neither is nor ends a whitespace character. *)
Definition graphic (b : byte) : Prop := 0x21 ≤ bz b ≤ 0x7E.

Lemma trim_start_graphic b r : graphic b → trim_start_bytes (b :: r) = b :: r.
Proof.
  unfold graphic. intros Hb. unfold trim_start_bytes. cbn [length trim_start_fuel].
  assert (whitespace_prefix (b :: r) = 0%nat) as ->; [|done].
  unfold whitespace_prefix. cbn [take fmap list_fmap].
  rewrite bool_decide_eq_false_2 by lia.
  destruct r as [|c [|d r]]; cbn [take fmap list_fmap]; [done|..];
    rewrite !bool_decide_eq_false_2 by lia; done.
Qed.

Lemma whitespace_prefix_last l b :
  graphic b → (length l ≤ 2)%nat → whitespace_prefix (l ++ [b]) ≠ S (length l).
Proof.
  unfold graphic. intros Hb Hl. unfold whitespace_prefix.
  destruct l as [|x [|y [|z l]]]; simpl in *; [..|lia].
  - by rewrite bool_decide_eq_false_2 by lia.
  - case_bool_decide; [done|]. by rewrite bool_decide_eq_false_2 by lia.
  - case_bool_decide; [done|]. case_bool_decide; [done|].
    by rewrite !bool_decide_eq_false_2 by lia.
Qed.

Lemma trim_end_graphic l b : graphic b → trim_end_bytes (l ++ [b]) = l ++ [b].
Proof.
  intros Hb. unfold trim_end_bytes. rewrite length_app, Nat.add_1_r. cbn [trim_end_fuel].
  assert (whitespace_suffix (l ++ [b]) = 0%nat) as ->; [|done].
  assert (∀ n, (n ≤ 2)%nat → bool_decide (S n ≤ length (l ++ [b]))%nat &&
    bool_decide (whitespace_prefix (drop (length (l ++ [b]) - S n) (l ++ [b])) = S n) = false)
    as Hs.
  { intros n Hn. rewrite length_app. simpl.
    apply andb_false_iff. destruct (decide (n ≤ length l)%nat); [right|left];
      apply bool_decide_eq_false_2; [|lia].
    rewrite drop_app_le by lia.
    pose proof (whitespace_prefix_last (drop (length l + 1 - S n) l) b Hb) as Hp.
    rewrite length_drop in Hp.
    replace (length l - (length l + 1 - S n))%nat with n in Hp by lia. by apply Hp. }
  unfold whitespace_suffix. by rewrite !Hs by lia.
Qed.

Lemma str_trim_graphic a l b :
  graphic a → graphic b → str_trim (text_of (a :: l ++ [b])) = text_of (a :: l ++ [b]).
Proof.
  intros Ha Hb. unfold str_trim. rewrite bytes_of_text_of, trim_start_graphic by done.
  f_equal. by apply (trim_end_graphic (a :: l)).
Qed.

Lemma split_once_bytes_app c l r :
  c ∉ l → split_once_bytes c (l ++ c :: r) = (l, Some r).
Proof.
  induction l as [|b l IH]; intros Hc; simpl.
  - by rewrite decide_True.
  - rewrite decide_False by (intros ->; apply Hc; by left).
    rewrite IH; [done|]. intros ?. apply Hc. by right.
Qed.

Lemma split_once_bytes_none c l : c ∉ l → split_once_bytes c l = (l, None).
Proof.
  induction l as [|b l IH]; intros Hc; simpl; [done|].
  rewrite decide_False by (intros ->; apply Hc; by left).
  rewrite IH; [done|]. intros ?. apply Hc. by right.
Qed.

Lemma splitn_bytes_cons n c l r :
  c ∉ l → splitn_bytes (S (S n)) c (l ++ c :: r) = l :: splitn_bytes (S n) c r.
Proof.
  intros Hc. change (splitn_bytes (S (S n)) c (l ++ c :: r)) with
    (match split_once_bytes c (l ++ c :: r) with
     | (h, Some t) => h :: splitn_bytes (S n) c t | (h, None) => [h] end).
  by rewrite split_once_bytes_app.
Qed.

Lemma splitn_bytes_last n c l : c ∉ l → splitn_bytes (S n) c l = [l].
Proof.
  intros Hc. destruct n; [done|]. cbn [splitn_bytes]. by rewrite split_once_bytes_none.
Qed.

Lemma str_trim_all_graphic s : Forall graphic (bytes_of s) → str_trim s = s.
Proof.
  intros Hg. rewrite <-(text_of_bytes_of s). destruct (bytes_of s) as [|a l] eqn:He; [done|].
  inversion_clear Hg as [|? ? Ha Hl]. destruct (exists_last (l := a :: l)) as (k & b & Hk); [done|].
  destruct k as [|x k]; simplify_eq/=.
  - unfold str_trim. rewrite bytes_of_text_of, trim_start_graphic by done.
    f_equal. by apply (trim_end_graphic [] b).
  - apply str_trim_graphic; [done|]. apply Forall_app in Hl as [_ Hb].
    by inversion Hb.
Qed.

(** ** Replacing *)

Lemma split_bytes_ne c bs : split_bytes c bs ≠ [].
Proof. destruct bs; simpl; [done|]. case_decide; [done|]. by destruct (split_bytes c bs). Qed.

Lemma split_bytes_app c l r :
  c ∉ l → split_bytes c (l ++ r) =
          match split_bytes c r with [] => [l] | h :: t => (l ++ h) :: t end.
Proof.
  induction l as [|b l IH]; intros Hc; simpl.
  - destruct (split_bytes c r) eqn:He; [by destruct (split_bytes_ne c r)|done].
  - rewrite decide_False by (intros ->; apply Hc; by left).
    rewrite IH by (intros ?; apply Hc; by right). by destruct (split_bytes c r).
Qed.

Lemma split_bytes_none c l : c ∉ l → split_bytes c l = [l].
Proof.
  induction l as [|b l IH]; [done|]. intros [Hb Hl]%not_elem_of_cons. cbn [split_bytes].
  by rewrite decide_False, IH by done.
Qed.

Lemma split_bytes_sep c l r : c ∉ l → split_bytes c (l ++ c :: r) = l :: split_bytes c r.
Proof.
  intros Hc. rewrite split_bytes_app by done. cbn [split_bytes]. rewrite decide_True by done.
  by rewrite app_nil_r.
Qed.

(** Splitting undoes joining. *)
Lemma str_split_concat c cols :
  cols ≠ [] → Forall (λ s, c ∉ bytes_of s) cols →
  str_split c (String.concat (text_of [c]) cols) = cols.
Proof.
  unfold str_split. induction cols as [|s cols IH]; [done|]. intros _ [Hs Hc]%Forall_cons.
  destruct cols as [|t cols].
  - cbn [String.concat]. rewrite split_bytes_none by done. cbn. by rewrite text_of_bytes_of.
  - change (String.concat (text_of [c]) (s :: t :: cols))
      with (s +:+ text_of [c] +:+ String.concat (text_of [c]) (t :: cols)).
    rewrite !bytes_of_app, bytes_of_text_of. cbn [app]. rewrite split_bytes_sep by done.
    rewrite fmap_cons, IH by done. by rewrite text_of_bytes_of.
Qed.

Lemma str_split_line c s rest :
  c ∉ bytes_of s → str_split c (s +:+ text_of [c] +:+ rest) = s :: str_split c rest.
Proof.
  intros Hs. unfold str_split. rewrite !bytes_of_app, bytes_of_text_of. cbn [app].
  rewrite split_bytes_sep by done. rewrite fmap_cons. by rewrite text_of_bytes_of.
Qed.

Lemma split_bytes_head c bs h t : split_bytes c bs = h :: t → ∃ u, bs = h ++ u.
Proof.
  revert h t. induction bs as [|b r IH]; intros h t; simpl; [intros [= <- <-]; by exists []|].
  case_decide; [intros [= <- <-]; by eexists|]. destruct (split_bytes c r) as [|h' t'].
  - intros [= <- <-]. by exists r.
  - intros [= <- <-]. destruct (IH h' t' eq_refl) as [u ->]. by exists u.
Qed.

Lemma is_prefix_bytes_spec p bs : is_prefix_bytes p bs = true ↔ ∃ r, bs = p ++ r.
Proof.
  revert bs. induction p as [|x p IH]; intros bs; simpl; [split; [eauto|done]|].
  destruct bs as [|b bs]; [split; [done|by intros [r ?]]|].
  rewrite andb_true_iff, IH, bool_decide_eq_true.
  split; [intros [-> [r ->]]; by exists r|intros [r [= -> ->]]; eauto].
Qed.

Section replacing.
Variables from to : list byte.
Hypothesis from_ne : from ≠ [].

Lemma replace_fuel_enough f bs :
  (length bs ≤ f)%nat → replace_fuel f from to bs = replace_fuel (length bs) from to bs.
Proof.
  remember (length bs) as n eqn:Hn. assert (length bs ≤ n)%nat as Hle by lia. clear Hn.
  revert f bs Hle. induction n as [n IH] using lt_wf_ind. intros f bs Hbs Hf.
  destruct bs as [|b r]; [by destruct f, n|]. destruct n as [|n], f as [|f]; simpl in *; [lia..|].
  assert (0 < length from)%nat by (destruct from; simpl; [done|lia]).
  assert (∀ bs', length bs' ≤ length r → replace_fuel f from to bs' = replace_fuel n from to bs')%nat
    as Hboth.
  { intros bs' Hl. destruct (decide (n ≤ f)%nat).
    - apply IH; lia.
    - symmetry. destruct (decide (S f ≤ n)%nat); [|lia]. apply (IH f); lia. }
  rewrite !Hboth; [done|lia|]. rewrite length_drop. simpl. lia.
Qed.

(** The text is unchanged, or holds the replacement. *)
Lemma replace_fuel_cases f bs :
  replace_fuel f from to bs = bs ∨ ∃ l r, replace_fuel f from to bs = l ++ to ++ r.
Proof.
  revert bs. induction f as [|f IH]; intros bs; [by left|]. destruct bs as [|b r]; [by left|].
  simpl. destruct (is_prefix_bytes from (b :: r)); [right; by eexists [], _|].
  destruct (IH r) as [->|(l & r' & ->)]; [by left|]. right. by exists (b :: l), r'.
Qed.

Definition replace_all (bs : list byte) : list byte := replace_fuel (length bs) from to bs.

Lemma replace_all_hit r : replace_all (from ++ r) = to ++ replace_all r.
Proof.
  unfold replace_all. assert (is_prefix_bytes from (from ++ r) = true) as Hp
    by (apply is_prefix_bytes_spec; by exists r).
  pose proof (drop_app_length from r) as Hd. pose proof (length_app from r) as Hl.
  remember (from ++ r) as bs eqn:Hbs. destruct bs as [|b r'].
  { by destruct from. }
  cbn [length replace_fuel]. rewrite Hp, Hd. f_equal. apply replace_fuel_enough.
  destruct from; [done|]. simpl in Hl. lia.
Qed.

Lemma replace_all_miss b r :
  is_prefix_bytes from (b :: r) = false → replace_all (b :: r) = b :: replace_all r.
Proof. intros Hm. unfold replace_all. cbn [length replace_fuel]. by rewrite Hm. Qed.

(** A separator that is in neither text is left where it is. *)
Lemma split_replace_all c bs :
  c ∉ from → c ∉ to → split_bytes c (replace_all bs) = replace_all <$> split_bytes c bs.
Proof.
  intros Hf Ht. induction bs as [bs IH] using (induction_ltof1 _ (@length byte)); unfold ltof in IH.
  destruct bs as [|b r]; [done|]. destruct (is_prefix_bytes from (b :: r)) eqn:Hp.
  - apply is_prefix_bytes_spec in Hp as [rest Hrest]. rewrite Hrest, replace_all_hit.
    assert (length rest < length (b :: r))%nat as Hlt.
    { rewrite Hrest, length_app. destruct from; simpl; [done|lia]. }
    rewrite !split_bytes_app by done. rewrite (IH rest Hlt).
    destruct (split_bytes c rest) as [|h t]; simpl; [|by rewrite replace_all_hit].
    rewrite <-(app_nil_r from), replace_all_hit. by rewrite !app_nil_r.
  - rewrite replace_all_miss by done. cbn [split_bytes]. case_decide; [|].
    + rewrite IH by (simpl; lia). done.
    + rewrite IH by (simpl; lia). destruct (split_bytes c r) as [|h t] eqn:Hs; simpl.
      * by destruct (split_bytes_ne c r).
      * rewrite replace_all_miss; [done|]. apply not_true_iff_false in Hp. apply not_true_iff_false.
        intros Hh. apply Hp. apply is_prefix_bytes_spec in Hh as [q Hq]. apply is_prefix_bytes_spec.
        destruct (split_bytes_head c r h t Hs) as [u ->]. exists (q ++ u).
        by rewrite app_assoc, <-Hq.
Qed.

End replacing.

Ltac solve_chunk := simpl; rewrite ?drop_0; split_and!; (done || lia).

(** Well-formed text comes through the lossy conversion unchanged. *)
Lemma utf8_chunk_valid bs :
  utf8_valid bs = true → bs ≠ [] →
  (utf8_chunk bs).2 = true ∧ (0 < (utf8_chunk bs).1)%nat ∧ utf8_valid (drop (utf8_chunk bs).1 bs) = true.
Proof.
  destruct bs as [|b0 r]; [done|]. intros Hv _. cbn [utf8_valid] in Hv. unfold utf8_chunk.
  destruct (in_range 0x00 0x7F b0); [solve_chunk|].
  destruct (in_range 0xC2 0xDF b0).
  { destruct r as [|b1 r]; [done|]. apply andb_true_iff in Hv as [Hb Hv]. simpl. rewrite Hb. solve_chunk. }
  destruct (in_range 0xE0 0xEF b0).
  { destruct r as [|b1 [|b2 r]]; [done..|]. rewrite !andb_true_iff in Hv. destruct Hv as [[Hb1 Hb2] Hv].
    simpl. rewrite Hb1, Hb2. solve_chunk. }
  destruct (in_range 0xF0 0xF4 b0); [|done].
  destruct r as [|b1 [|b2 [|b3 r]]]; [done..|]. rewrite !andb_true_iff in Hv.
  destruct Hv as [[[Hb1 Hb2] Hb3] Hv]. simpl. rewrite Hb1, Hb2, Hb3. solve_chunk.
Qed.

Lemma from_utf8_lossy_valid bs s : from_utf8 bs = Some s → from_utf8_lossy bs = s.
Proof.
  unfold from_utf8, from_utf8_lossy. destruct (utf8_valid bs) eqn:Hv; [|done]. intros [= <-]. f_equal.
  assert (∀ fuel bs, (length bs ≤ fuel)%nat → utf8_valid bs = true → lossy_fuel fuel bs = bs) as H; [|by apply H].
  clear. intros fuel. induction fuel as [|f IH]; intros bs Hl Hv; destruct bs as [|b r]; try done; [simpl in Hl; lia|].
  destruct (utf8_chunk_valid (b :: r) Hv ltac:(done)) as (Hok & Hn & Hd). cbn [lossy_fuel].
  destruct (utf8_chunk (b :: r)) as [n ok] eqn:Hc. cbn [fst snd] in *. subst ok.
  rewrite IH; [apply take_drop| |done]. rewrite length_drop. simpl in *. lia.
Qed.
