(* ===== verification/Sys.v ===== *)
(** * Effects, the file system, and the results of system calls

    The state and error monad of the development, over any state: a
    computation may return, fail, or unwind, and keeps the state it reached in
    every case.  The class [Fs] is the part of [std::fs] the program reads
    with, [Clock] the monotonic clock; a call may change the world, so that two
    reads of one file need not agree. *)

From S2P Require Import Prelude Text.

(** ** A state and error monad *)

Definition io (S E A : Type) : Type := S → S * res E A.

Definition fret {S E A} (a : A) : io S E A := λ s, (s, Ok a).

Definition fbind {S E A B} (c : io S E A) (k : A → io S E B) : io S E B := λ s,
  match c s with
  | (s', Ok a) => k a s'
  | (s', Err e) => (s', Err e)
  | (s', Panic) => (s', Panic)
  end.

Definition lift {S E A} (r : res E A) : io S E A := λ s, (s, r).

Notation "'let!' x := c 'in' k" := (fbind c (fun x => k))
  (at level 10, x pattern, c at level 100, k at level 200,
   format "'[v' 'let!'  x  :=  c  'in' '/' k ']'") : rust_scope.

Notation "'do!' c ; k" := (fbind c (fun _ => k))
  (at level 10, c at level 100, k at level 200,
   format "'[v' 'do!'  c ; '/' k ']'") : rust_scope.

(** A call of the outside world that may fail, and one that does not. *)
Definition call {S E A} (f : S → S * (E + A)) : io S E A := λ s,
  let (s', r) := f s in (s', of_sum r).

Definition ask {S E A} (f : S → S * A) : io S E A := λ s,
  let (s', a) := f s in (s', Ok a).

Definition io_map_err {S E F A} (g : E → F) (c : io S E A) : io S F A := λ s,
  let (s', r) := c s in (s', map_err g r).

(** [c.ok()]: an error becomes [None]. *)
Definition io_ok {S E F A} (c : io S E A) : io S F (option A) := λ s,
  match c s with
  | (s', Ok a) => (s', Ok (Some a))
  | (s', Err _) => (s', Ok None)
  | (s', Panic) => (s', Panic)
  end.

(** The result of [c] as a value. *)
Definition io_try {S E F A} (c : io S E A) : io S F (E + A) := λ s,
  match c s with
  | (s', Ok a) => (s', Ok (inr a))
  | (s', Err e) => (s', Ok (inl e))
  | (s', Panic) => (s', Panic)
  end.

(** A [for] loop whose body may return early with an error. *)
Fixpoint io_each {S E A} (f : A → io S E unit) (l : list A) : io S E unit :=
  match l with
  | [] => fret tt
  | a :: r => do! f a; io_each f r
  end.

(** A [for] loop that pushes one result per element. *)
Fixpoint io_map {S E A B} (f : A → io S E B) (l : list A) : io S E (list B) :=
  match l with
  | [] => fret []
  | a :: r => let! b := f a in let! bs := io_map f r in fret (b :: bs)
  end.

(** [iter().map(f).collect::<Result<_, _>>()]. *)
Fixpoint res_map {E A B} (f : A → res E B) (l : list A) : res E (list B) :=
  match l with
  | [] => Ok []
  | a :: r => let? b := f a in let? bs := res_map f r in Ok (b :: bs)
  end.

(** ** System errors *)

Inductive ErrorKind : Type :=
| KindNotFound
| KindPermissionDenied
| KindInvalidData
| KindInvalidInput
| KindTimedOut
| KindWouldBlock
| KindInterrupted
| KindOther.

#[export] Instance ErrorKind_eq_dec : EqDecision ErrorKind.
Proof. solve_decision. Defined.

Record IoError := MkIoError {
  io_kind : ErrorKind;
  io_text : string;
}.

(** ** Files *)

Record Metadata := MkMetadata {
  md_is_file : bool;
  md_is_dir : bool;
  md_len : Z;
  (** [st_mode], with the permission bits. *)
  md_mode : Z;
}.

Class Fs (W : Type) := {
  (** [std::fs::read]. *)
  fs_read : string → W → W * (IoError + list byte);
  (** [std::fs::metadata]. *)
  fs_metadata : string → W → W * (IoError + Metadata);
}.

Section fs.
Context {W : Type} {FS : Fs W}.

(** [std::fs::read_to_string]. *)
Definition read_to_string (path : string) : io W IoError string :=
  let! bs := call (fs_read path) in
  lift (ok_or (from_utf8 bs) (MkIoError KindInvalidData "stream did not contain valid UTF-8")).

(** [Path::exists], [Path::is_file]. *)
Definition path_exists {E} (path : string) : io W E bool := λ w,
  match fs_metadata path w with
  | (w', inr _) => (w', Ok true)
  | (w', inl _) => (w', Ok false)
  end.

Definition path_is_file {E} (path : string) : io W E bool := λ w,
  match fs_metadata path w with
  | (w', inr md) => (w', Ok (md_is_file md))
  | (w', inl _) => (w', Ok false)
  end.

End fs.

(** The monotonic clock, in nanoseconds, and [std::thread::sleep]. *)
Class Clock (W : Type) := {
  instant_now : W → W * Z;
  sleep : Z → W → W;
}.

(** What the clock shows. *)
Definition clock {W} {CLK : Clock W} (w : W) : Z := (instant_now w).2.

(** Error numbers. *)
Definition EINTR : Z := 4.
Definition ENOENT : Z := 2.
Definition ESRCH : Z := 3.

(** [Path::join]: an absolute right side replaces the left one. *)
Definition path_join (base rel : string) : string :=
  if starts_with rel "/" then rel
  else match bytes_of base with
       | [] => rel
       | bs => if bool_decide (List.last bs Byte.x00 = zb 0x2F) then base +:+ rel
               else base +:+ "/" +:+ rel
       end.

(** The components of a path, from the last to the first: empty segments and
    [.] do not count, but for a leading [.]. *)
Fixpoint trim_segments (root : bool) (segs : list string) : list string :=
  match segs with
  | [] => []
  | seg :: rest =>
      if decide (seg = "") then trim_segments root rest
      else if decide (seg = "." ∧ (root = true ∨ rest ≠ [])) then trim_segments root rest
      else segs
  end.

Definition path_segments (path : string) : bool * list string :=
  let root := starts_with path "/" in
  let body := if root then text_of (drop 1 (bytes_of path)) else path in
  (root, trim_segments root (rev (str_split (zb 0x2F) body))).

Definition path_of_segments (root : bool) (segs : list string) : string :=
  (if root then "/" else "") +:+ String.concat "/" (rev segs).

(** [Path::parent], [Path::file_name]. *)
Definition path_parent (path : string) : option string :=
  match path_segments path with
  | (root, []) => None
  | (root, _ :: rest) => Some (path_of_segments root (trim_segments root rest))
  end.

Definition path_file_name (path : string) : option string :=
  match path_segments path with
  | (_, seg :: _) => if decide (seg = "." ∨ seg = "..") then None else Some seg
  | (_, []) => None
  end.

(** ** Lemmas *)

Lemma fbind_eq {S E A B} (c : io S E A) (k : A → io S E B) s :
  fbind c k s = match c s with
                | (s', Ok a) => k a s'
                | (s', Err e) => (s', Err e)
                | (s', Panic) => (s', Panic)
                end.
Proof. done. Qed.

Lemma fbind_Ok_inv {S E A B} (c : io S E A) (k : A → io S E B) s s' b :
  fbind c k s = (s', Ok b) → ∃ s1 a, c s = (s1, Ok a) ∧ k a s1 = (s', Ok b).
Proof. unfold fbind. destruct (c s) as [s1 [a|e|]]; [eauto|done..]. Qed.

(** [peel H s a Ha] takes the first step off a run [H] that returned. *)
Ltac peel H s a Ha := apply fbind_Ok_inv in H as (s & a & Ha & H).

Lemma lift_Ok_inv {S E A} (r : res E A) (s s' : S) a : lift r s = (s', Ok a) → s' = s ∧ r = Ok a.
Proof. unfold lift. by intros [= -> ->]. Qed.

Lemma call_Ok_inv {S E A} (f : S → S * (E + A)) s s' a :
  call f s = (s', Ok a) → f s = (s', inr a).
Proof. unfold call. destruct (f s) as [s1 [e|b]]; simpl; [done|]. by intros [= -> ->]. Qed.

Lemma io_map_err_Ok_inv {S E F A} (g : E → F) (c : io S E A) s s' a :
  io_map_err g c s = (s', Ok a) → c s = (s', Ok a).
Proof. unfold io_map_err. destruct (c s) as [s1 [b|e|]]; simpl; by intros [= -> ->]. Qed.

Lemma io_each_Ok {S E A} (f : A → io S E unit) l s s' :
  io_each f l s = (s', Ok tt) → Forall (λ a, ∃ s1 s2, f a s1 = (s2, Ok tt)) l.
Proof.
  revert s. induction l as [|a l IH]; intros s H; [constructor|].
  peel H s1 u Hu. destruct u. constructor; [eauto|by eapply IH].
Qed.

Lemma io_map_Ok {S E A B} (f : A → io S E B) l s s' bs :
  io_map f l s = (s', Ok bs) → Forall2 (λ a b, ∃ s1 s2, f a s1 = (s2, Ok b)) l bs.
Proof.
  revert s bs. induction l as [|a l IH]; intros s bs H; simpl in H.
  - injection H as ? <-. constructor.
  - peel H s1 b Hb. peel H s2 r Hr. injection H as -> <-. constructor; [eauto|by eapply IH].
Qed.

Lemma res_map_Ok {E A B} (f : A → res E B) l bs :
  res_map f l = Ok bs → Forall2 (λ a b, f a = Ok b) l bs.
Proof.
  revert bs. induction l as [|a l IH]; intros bs H; simpl in H.
  - injection H as <-. constructor.
  - apply rbind_Ok_inv in H as (b & Hb & H). apply rbind_Ok_inv in H as (r & Hr & H).
    injection H as <-. constructor; eauto.
Qed.

Lemma res_map_no_panic {E A B} (f : A → res E B) l :
  (∀ a, a ∈ l → no_panic (f a)) → no_panic (res_map f l).
Proof.
  induction l as [|a l IH]; intros Hf; simpl; [auto with rust|].
  apply rbind_no_panic; [apply Hf; by left|]. intros b _.
  apply rbind_no_panic; [|auto with rust]. apply IH. intros ? ?. apply Hf. by right.
Qed.

Lemma path_join_rel base rel :
  base ≠ "" → starts_with rel "/" = false →
  path_join base rel = base +:+ rel ∨ path_join base rel = base +:+ "/" +:+ rel.
Proof.
  intros Hb Hr. unfold path_join. rewrite Hr. destruct (bytes_of base) eqn:He.
  - destruct Hb. by apply bytes_of_inj.
  - case_bool_decide; auto.
Qed.

(** ** Computations that do not unwind *)

Definition io_safe {S E A} (c : io S E A) : Prop := ∀ s, no_panic (c s).2.

Lemma io_safe_ret {S E A} (a : A) : io_safe (@fret S E A a).
Proof. done. Qed.

Lemma io_safe_lift {S E A} (r : res E A) : no_panic r → io_safe (@lift S E A r).
Proof. by intros Hr s. Qed.

Lemma io_safe_bind {S E A B} (c : io S E A) (k : A → io S E B) :
  io_safe c → (∀ a, io_safe (k a)) → io_safe (fbind c k).
Proof.
  intros Hc Hk s. unfold fbind. specialize (Hc s). destruct (c s) as [s1 [a|e|]]; simpl in *.
  - apply Hk.
  - done.
  - done.
Qed.

Lemma io_safe_call {S E A} (f : S → S * (E + A)) : io_safe (call f).
Proof. intros s. unfold call. destruct (f s) as [s1 r]. apply of_sum_no_panic. Qed.

Lemma io_safe_ask {S E A} (f : S → S * A) : io_safe (@ask S E A f).
Proof. intros s. unfold ask. by destruct (f s). Qed.

Lemma io_safe_map_err {S E F A} (g : E → F) (c : io S E A) : io_safe c → io_safe (io_map_err g c).
Proof.
  intros Hc s. unfold io_map_err. specialize (Hc s). destruct (c s) as [s1 r].
  by apply map_err_no_panic.
Qed.

Lemma io_safe_each_Forall {S E A} (f : A → io S E unit) l :
  Forall (λ a, io_safe (f a)) l → io_safe (io_each f l).
Proof.
  induction 1 as [|a l Ha Hl IH]; [apply io_safe_ret|]. by apply io_safe_bind; [|intros _].
Qed.

Lemma io_safe_each {S E A} (f : A → io S E unit) l : (∀ a, io_safe (f a)) → io_safe (io_each f l).
Proof. intros Hf. apply io_safe_each_Forall. by apply Forall_true. Qed.

Lemma io_safe_list {S E A B} (f : A → io S E B) l : (∀ a, io_safe (f a)) → io_safe (io_map f l).
Proof.
  intros Hf. induction l as [|a l IH]; [apply io_safe_ret|]. apply io_safe_bind; [done|].
  intros b. apply io_safe_bind; [done|]. intros bs. apply io_safe_ret.
Qed.

Lemma ok_or_no_panic {E A} (o : option A) (e : E) : no_panic (ok_or o e).
Proof. by destruct o. Qed.

#[export] Hint Resolve io_safe_ret io_safe_call io_safe_ask io_safe_map_err io_safe_each
  io_safe_list ok_or_no_panic : rust.
#[export] Hint Extern 1 (io_safe (lift _)) => apply io_safe_lift : rust.
#[export] Hint Extern 2 (io_safe (fbind _ _)) => (apply io_safe_bind; [|intros ?]) : rust.
#[export] Hint Extern 3 (io_safe (match ?x with _ => _ end)) => destruct x : rust.
#[export] Hint Extern 3 (no_panic (match ?x with _ => _ end)) => destruct x : rust.
#[export] Hint Extern 2 (no_panic (rbind _ _)) => (apply rbind_no_panic; [|intros ? ?]) : rust.

Lemma read_to_string_safe {W} {FS : Fs W} path : io_safe (read_to_string path).
Proof. unfold read_to_string. auto with rust. Qed.

Lemma path_is_file_safe {W} {FS : Fs W} {E} path : io_safe (@path_is_file W FS E path).
Proof. intros w. unfold path_is_file. by destruct (fs_metadata path w) as [w1 [e|md]]. Qed.

Lemma path_exists_safe {W} {FS : Fs W} {E} path : io_safe (@path_exists W FS E path).
Proof. intros w. unfold path_exists. by destruct (fs_metadata path w) as [w1 [e|md]]. Qed.

#[export] Hint Resolve read_to_string_safe path_is_file_safe path_exists_safe : rust.
