(* ===== verification/Logging.v ===== *)
(** * Log set-up ([pam_certauth/src/logging.rs], [pam_certauth_cli/src/logging.rs])

    The module installs a subscriber that writes to syslog, once per process;
    the daemon one that writes to its standard error.  [tracing] and [syslog]
    are third-party: a formatted event reaches the writer as bytes, and the
    writer makes one syslog record of each line that is not blank.  The two
    [OnceLock] cells are part of the process. *)

From S2P Require Import Prelude Text Sys.
Local Open Scope Z_scope.

(** ** The module's log *)

(** [Formatter3164] and the options of the subscriber. *)
Record Formatter3164 (F : Type) := MkFormatter {
  fmt_facility : F;
  fmt_hostname : option string;
  fmt_process : string;
  fmt_pid : Z;
}.
Arguments MkFormatter {F}.

Record SubscriberOptions := MkSubscriber {
  sub_ansi : bool;
  sub_target : bool;
  sub_level : bool;
  sub_time : bool;
  sub_compact : bool;
}.

(** The [syslog] crate, [tracing::subscriber] and the [INIT] cell. *)
Class SyslogSys (W : Type) := {
  Facility : Type;
  LOG_AUTH : Facility;
  Logger : Type;
  syslog_unix : Formatter3164 Facility → W → W * (string + Logger);
  logger_info : Logger → string → W → W * (string + unit);
  set_global_default : SubscriberOptions → Logger → W → W * (string + unit);
  log_eprintln : string → W → W;
  (** [INIT.get().is_some()], [INIT.set(())]. *)
  log_installed : W → bool;
  mark_installed : W → W;
}.

(** The logger behind its mutex, which a panic in a holder poisons. *)
Record SyslogWriter (L : Type) := MkWriter {
  sw_inner : L;
  sw_poisoned : bool;
}.
Arguments MkWriter {L}.
Arguments sw_inner {L}.
Arguments sw_poisoned {L}.

Definition is_blank (line : string) : bool := bool_decide (str_trim line = "").

Section syslog.
Context {W : Type} {SY : SyslogSys W}.

Definition install_subscriber : io W string unit :=
  let! logger := call (syslog_unix (MkFormatter LOG_AUTH None "pam_certauth" 0)) in
  call (set_global_default (MkSubscriber false true true false true) logger).

(** A failure is told to the standard error; it is not tried again. *)
Definition init_once (w : W) : W :=
  if log_installed w then w else
  mark_installed
    match install_subscriber w with
    | (w', Err err) => log_eprintln ("pam_certauth: failed to install tracing subscriber: " +:+ err) w'
    | (w', _) => w'
    end.

(** The loop over the pieces; a record that cannot be sent is dropped. *)
Fixpoint send_pieces (writer : SyslogWriter Logger) (pieces : list string) (w : W) : W :=
  match pieces with
  | [] => w
  | piece :: r =>
      send_pieces writer r
        (if sw_poisoned writer then w else (logger_info (sw_inner writer) piece w).1)
  end.

Definition syslog_write (writer : SyslogWriter Logger) (buf : list byte) : io W IoError Z := λ w,
  let line := from_utf8_lossy buf in
  (send_pieces writer (List.filter (λ l, negb (is_blank l)) (str_lines line)) w, Ok (zlen buf)).

Definition syslog_flush (writer : SyslogWriter Logger) : io W IoError unit := fret tt.

End syslog.

(** ** The daemon's log *)

Class StderrLog (W : Type) := {
  EnvFilter : Type;
  (** [EnvFilter::try_from_env] and [EnvFilter::new]. *)
  env_filter_try_from_env : string → W → W * (string + EnvFilter);
  env_filter_new : string → EnvFilter;
  (** [registry().with(env).with(fmt::layer().with_writer(stderr)).try_init()]. *)
  registry_try_init : EnvFilter → W → W * (string + unit);
  daemon_log_installed : W → bool;
  mark_daemon_log : W → W;
}.

Definition logging_init {W} {SL : StderrLog W} : io W string unit := λ w,
  if daemon_log_installed w then (w, Ok tt) else
  (let! env := io_try (call (env_filter_try_from_env "PAM_CERTAUTH_LOG")) in
   do! call (registry_try_init match env with inr f => f | inl _ => env_filter_new "info" end);
   ask (λ w, (mark_daemon_log w, tt))) w.

(** ** Lemmas *)

(** Text that is a sequence of lines, each ended by a line feed. *)
Definition frame_lines (ls : list (list byte)) : list byte := concat ((λ l, l ++ [zb 0x0A]) <$> ls).

Lemma split_bytes_no_sep c bs : Forall (λ l, c ∉ l) (split_bytes c bs).
Proof.
  induction bs as [|b bs IH]; cbn [split_bytes]; [by repeat constructor; apply not_elem_of_nil|].
  case_decide; [constructor; [apply not_elem_of_nil|done]|].
  destruct (split_bytes c bs) as [|h t]; [by repeat constructor; set_solver|].
  inversion_clear IH. constructor; [set_solver|done].
Qed.

Lemma split_frame_lines ls :
  Forall (λ l, zb 0x0A ∉ l) ls → split_bytes (zb 0x0A) (frame_lines ls) = ls ++ [[]].
Proof.
  unfold frame_lines. induction 1 as [|l ls Hl _ IH]; [done|]. cbn [fmap list_fmap concat].
  rewrite <-app_assoc. cbn [app]. by rewrite split_bytes_sep, IH.
Qed.

Lemma lines_of_closed ls : lines_of (ls ++ [[]]) = strip_cr <$> ls.
Proof.
  induction ls as [|l ls IH]; [done|]. cbn [app lines_of fmap list_fmap]. rewrite IH.
  destruct (ls ++ [[]]) eqn:E; [by destruct ls|done].
Qed.

Lemma strip_cr_subset bs : strip_cr bs ⊆ bs.
Proof.
  unfold strip_cr. destruct (rev bs) as [|b r] eqn:E; [set_solver|]. case_decide; [|done].
  intros x Hx. rewrite <-(rev_involutive bs), E. cbn. set_solver.
Qed.

Lemma lines_of_part parts l : l ∈ lines_of parts → ∃ p, p ∈ parts ∧ l ⊆ p.
Proof.
  induction parts as [|p ps IH]; [by intros ?%not_elem_of_nil|]. cbn [lines_of].
  destruct ps as [|q qs].
  - destruct p; [by intros ?%not_elem_of_nil|]. intros ->%list_elem_of_singleton. eexists. by split; [left|].
  - intros [->|Hl]%elem_of_cons; [exists p; split; [by left|apply strip_cr_subset]|].
    destruct (IH Hl) as (p' & Hp & Hs). exists p'. by split; [right|].
Qed.

(** A line of [str_lines] has no line feed. *)
Lemma str_lines_no_lf s l : l ∈ str_lines s → zb 0x0A ∉ bytes_of l.
Proof.
  unfold str_lines. intros (bs & -> & (p & Hp & Hs)%lines_of_part)%list_elem_of_fmap.
  rewrite bytes_of_text_of. intros Hb%Hs. revert Hb.
  by apply (proj1 (Forall_forall _ _) (split_bytes_no_sep (zb 0x0A) (bytes_of s))).
Qed.

Lemma str_lines_frame ls :
  Forall (λ l, zb 0x0A ∉ l) ls →
  str_lines (text_of (frame_lines ls)) = (λ l, text_of (strip_cr l)) <$> ls.
Proof.
  intros H. unfold str_lines. rewrite bytes_of_text_of, split_frame_lines, lines_of_closed by done.
  by rewrite <-list_fmap_compose.
Qed.

(** The records that reach syslog through a logger. *)
Definition records_law {W} {SY : SyslogSys W} (sent : W → list string) : Prop :=
  ∀ logger piece w, sent (logger_info logger piece w).1 = sent w ++ [piece].

Lemma send_pieces_sent {W} {SY : SyslogSys W} sent logger pieces w :
  records_law sent → sent (send_pieces (MkWriter logger false) pieces w) = sent w ++ pieces.
Proof.
  intros Hl. revert w. induction pieces as [|p r IH]; intros w; cbn; [by rewrite app_nil_r|].
  by rewrite IH, Hl, <-app_assoc.
Qed.

Lemma send_pieces_poisoned {W} {SY : SyslogSys W} (logger : Logger) pieces (w : W) :
  send_pieces (MkWriter logger true) pieces w = w.
Proof. revert w. induction pieces as [|p r IH]; intros w; cbn; [done|apply IH]. Qed.

Module LoggingSample.

(** Syslog as the list of its records. *)
Definition syslog : SyslogSys (list string) := {|
  Facility := unit;
  LOG_AUTH := tt;
  Logger := unit;
  syslog_unix _ w := (w, inr tt);
  logger_info _ piece w := (w ++ [piece], inr tt);
  set_global_default _ _ w := (w, inr tt);
  log_eprintln _ w := w;
  log_installed _ := false;
  mark_installed w := w;
|}.

(** A host without a syslog socket. *)
Definition silent {W} : SyslogSys W := {|
  Facility := unit;
  LOG_AUTH := tt;
  Logger := unit;
  syslog_unix _ w := (w, inl "no socket");
  logger_info _ _ w := (w, inr tt);
  set_global_default _ _ w := (w, inr tt);
  log_eprintln _ w := w;
  log_installed _ := false;
  mark_installed w := w;
|}.

End LoggingSample.

(** ** Theorems *)

(** C28: A write to the log takes the whole buffer, whatever is in it, and syslog
    gets one record per line that is not blank: no record contains a line feed
    or is blank, and of a text of lines in UTF-8 exactly the lines that are not
    blank arrive, in order and without their line ends.  Behind a poisoned
    mutex nothing is sent. *)
Theorem syslog_write_records {W} {SY : SyslogSys W} sent logger poisoned buf w
    (Hlog : records_law sent) :
  let (w', r) := syslog_write (MkWriter logger poisoned) buf w in
  r = Ok (zlen buf) ∧
  if poisoned : bool then w' = w else
  ∃ recs, sent w' = sent w ++ recs ∧
    Forall (λ p, (zb 0x0A ∉ bytes_of p) ∧ str_trim p ≠ "") recs ∧
    ∀ ls, utf8_valid buf = true → buf = frame_lines ls → Forall (λ l, zb 0x0A ∉ l) ls →
      recs = List.filter (λ l, negb (is_blank l)) ((λ l, text_of (strip_cr l)) <$> ls).
Proof.
  unfold syslog_write. split; [done|]. destruct poisoned; [apply send_pieces_poisoned|].
  eexists. split; [by apply send_pieces_sent|]. split.
  - apply Forall_forall. intros p [Hp%list_elem_of_In Hb]%list_elem_of_In%filter_In.
    split; [by eapply str_lines_no_lf|]. by apply negb_true_iff, bool_decide_eq_false in Hb.
  - intros ls Hu -> Hls. rewrite (from_utf8_lossy_valid _ (text_of (frame_lines ls))).
    + by rewrite str_lines_frame.
    + unfold from_utf8. by rewrite Hu.
Qed.

Lemma syslog_write_records_witness :
  let buf := bytes_of "INFO a
 
WARN b
" in
  ∃ recs, (syslog_write (SY := LoggingSample.syslog) (MkWriter tt false) buf []).1 = recs ∧
    Forall (λ p, (zb 0x0A ∉ bytes_of p) ∧ str_trim p ≠ "") recs ∧ recs = ["INFO a"; "WARN b"].
Proof.
  intros buf. pose proof (syslog_write_records (SY := LoggingSample.syslog) id tt false buf []
    ltac:(intros ? ? ?; reflexivity)) as H.
  destruct H as (_ & recs & Hs & Hf & _). exists recs. split_and!; [exact Hs|exact Hf|].
  cbn in Hs. rewrite <-Hs. vm_compute. reflexivity.
Defined.

(** However often the entries of the module set up the log, the subscriber is
    installed, or fails to be, in the first of the calls only. *)
Theorem init_once_idempotent {W} {SY : SyslogSys W} n w
    (Hmark : ∀ w, log_installed (mark_installed w) = true) :
  Nat.iter (S n) init_once w = init_once w.
Proof.
  assert (log_installed (init_once w) = true) as Hi.
  { unfold init_once. destruct (log_installed w) eqn:E; [done|]. apply Hmark. }
  induction n as [|n IH]; [done|]. change (init_once (Nat.iter (S n) init_once w) = init_once w).
  rewrite IH. unfold init_once at 1. by rewrite Hi.
Qed.

(** The daemon's set-up is done once it has succeeded; until then a call tries
    again. *)
Theorem logging_init_done {W} {SL : StderrLog W} w w'
    (Hmark : ∀ w, daemon_log_installed (mark_daemon_log w) = true) :
  logging_init w = (w', Ok tt) → logging_init w' = (w', Ok tt).
Proof.
  intros H. enough (daemon_log_installed w' = true) as E by (unfold logging_init; by rewrite E).
  unfold logging_init in H. destruct (daemon_log_installed w) eqn:E; [by injection H as <-|].
  peel H w1 env He. peel H w2 u Hu. unfold ask in H. injection H as <-. apply Hmark.
Qed.
