(* ===== verification/Errors.v ===== *)
(** * Error types of the trust subsystem

    [TrustError] of [x509/error.rs] and [GostEngineError] of
    [gost/errors.rs].  An OpenSSL [ErrorStack] is carried as the text it
    renders to; a [PathBuf] as its text. *)

From S2P Require Import Prelude.

Definition ErrorStack : Type := string.

Inductive GostEngineError : Type :=
| PathMissing (path : string)
| NotAvailable (msg : string)
| LoadFailed (msg : string)
| SetDefaultFailed (msg : string)
| DigestUnavailable (name : string).

Inductive TrustError : Type :=
| CertParse (msg : string)
| FieldMissing (field : string)
| Validity (msg : string)
| SignatureAlgorithm (alg : string)
| KeyUsage
| Eku
| BasicConstraints (msg : string)
| PathBuild (msg : string)
| DepthExceeded (len max : Z)
| AnchorMismatch
| BadSignature (depth : Z)
| TrustCrl (msg : string)
| Revoked (serial : string)
| PinMismatch
| Openssl (e : ErrorStack)
| EngineLoadFailed (source : GostEngineError).

(** The text of an error inside another one: given, or [format!("{label}: {e}")]
    with the certificate error kept as it is. *)
Inductive ErrText : Type :=
| PlainText (msg : string)
| LabelledTrust (label : string) (e : TrustError).

#[export] Instance GostEngineError_eq_dec : EqDecision GostEngineError.
Proof. solve_decision. Defined.

#[export] Instance TrustError_eq_dec : EqDecision TrustError.
Proof. solve_decision. Defined.
