(* ===== verification/Openssl.v ===== *)
(** * The OpenSSL interface

    The [openssl] crate is third-party code: its objects are abstract types
    and its calls are the fields of this class.  Every call used here is
    documented to return a [Result] or an [Option], so none of them panics.
    Names, times and keys are only compared or handed back to OpenSSL. *)

From S2P Require Import Prelude Errors.

(** An attribute of a distinguished name: its NID, the NID's short name and
    the value as UTF-8, where they exist. *)
Record NameEntry := MkNameEntry {
  ne_nid : Z;
  ne_short_name : option string;
  ne_utf8 : option string;
}.

(** [Nid::COMMONNAME]. *)
Definition NID_COMMONNAME : Z := 13.

Class OpenSSL := {
  X509 : Type;
  X509Name : Type;
  PKey : Type;
  X509Crl : Type;
  X509_from_der : list byte → ErrorStack + X509;
  X509_from_pem : list byte → ErrorStack + X509;
  X509_to_der : X509 → ErrorStack + list byte;
  (** The content octets of [Asn1Object::from_str]. *)
  Asn1Object_from_str : string → ErrorStack + list byte;
  X509_subject_name : X509 → X509Name;
  X509_issuer_name : X509 → X509Name;
  (** [try_cmp(..).is_ok_and(Equal)]. *)
  X509Name_eq : X509Name → X509Name → bool;
  X509Name_to_der : X509Name → ErrorStack + list byte;
  X509Name_entries : X509Name → list NameEntry;
  (** The general names of [subjectAltName], if the extension is present;
      [Some] for an [rfc822Name]. *)
  X509_subject_alt_names : X509 → option (list (option string));
  (** The serial as the uppercase hex of its [BIGNUM]. *)
  X509_serial_hex : X509 → option string;
  (** [TimeDiff] (days, seconds) from the epoch to [notBefore]/[notAfter],
      [None] when [Asn1Time::from_unix] or [diff] fails. *)
  X509_not_before : X509 → option (Z * Z);
  X509_not_after : X509 → option (Z * Z);
  (** Display form of the signature algorithm object. *)
  X509_signature_algorithm : X509 → string;
  X509_version : X509 → Z;
  X509_subject_key_id : X509 → option (list byte);
  X509_authority_key_id : X509 → option (list byte);
  X509_public_key : X509 → ErrorStack + PKey;
  (** Does the signature verify under the key? *)
  X509_verify : X509 → PKey → ErrorStack + bool;
  (** SHA-256 digest of the certificate. *)
  X509_digest_sha256 : X509 → ErrorStack + list byte;
  PKey_to_der : PKey → ErrorStack + list byte;
  X509Crl_from_pem : list byte → ErrorStack + X509Crl;
  X509Crl_from_der : list byte → ErrorStack + X509Crl;
  X509Crl_last_update : X509Crl → ErrorStack + (Z * Z);
  X509Crl_next_update : X509Crl → option (ErrorStack + (Z * Z));
  (** Serials of [get_revoked] as hex; an entry is [None] where the number
      did not render. *)
  X509Crl_revoked : X509Crl → option (list (option string));
  X509Crl_issuer_name : X509Crl → X509Name;
  X509Crl_verify : X509Crl → PKey → ErrorStack + bool;
}.

(** A [TimeDiff] has [i32] fields. *)
Definition time_diff_i32 (diff : option (Z * Z)) : Prop :=
  ∀ days secs, diff = Some (days, secs) →
    (- 2 ^ 31 ≤ days < 2 ^ 31 ∧ - 2 ^ 31 ≤ secs < 2 ^ 31)%Z.

(** SHA-256 of the [sha2] crate. *)
Class Sha256 := sha256 : list byte → list byte.
