(* ===== verification/Der.v ===== *)
(** * The minimal DER reader ([x509/der.rs])

    [read_tlv], [read_tlv_expect] and [oid_to_dotted] over byte lists.
    The header gives one element's tag, its definite length (short form or
    up to four length bytes) and its value; everything after it is [rest].
    [encode_tlv] and [oid_encode] are X.690 reference encoders that the
    reader is compared with; they model no code. *)

From S2P Require Import Prelude Errors.
Local Open Scope Z_scope.

Definition TAG_BOOLEAN : byte := zb 0x01.
Definition TAG_INTEGER : byte := zb 0x02.
Definition TAG_BIT_STRING : byte := zb 0x03.
Definition TAG_OCTET_STRING : byte := zb 0x04.
Definition TAG_OID : byte := zb 0x06.
Definition TAG_SEQUENCE : byte := zb 0x30.

Record Tlv := MkTlv {
  tlv_tag : byte;
  tlv_value : list byte;
  tlv_rest : list byte;
}.

(** The length accumulator is a [usize]; at most four bytes enter it, so the
    shift never drops a bit. *)
Definition read_tlv (input : list byte) : res TrustError Tlv :=
  if decide (zlen input < 2) then Err (CertParse "der: header truncated") else
  let? tag := idx input 0 in
  let? len_byte := idx input 1 in
  let? (len, header_len) :=
    if decide (Z.land (bz len_byte) 0x80 = 0) then Ok (bz len_byte, 2)
    else
      let n_bytes := Z.land (bz len_byte) 0x7F in
      if decide (n_bytes = 0 ∨ 4 < n_bytes) then
        Err (CertParse "der: indefinite or oversized length")
      else if decide (zlen input < 2 + n_bytes) then
        Err (CertParse "der: length truncated")
      else
        let? len_bytes := slice input 2 (2 + n_bytes) in
        Ok (be_fold 0 len_bytes, 2 + n_bytes) in
  let? end_ := ok_or (checked_add_usize header_len len)
                     (CertParse "der: length overflow") in
  if decide (zlen input < end_) then Err (CertParse "der: value truncated") else
  let? value := slice input header_len end_ in
  let? rest := slice_from input end_ in
  Ok (MkTlv tag value rest).

Definition read_tlv_expect (input : list byte) (tag : byte) : res TrustError Tlv :=
  let? tlv := read_tlv input in
  if decide (tlv_tag tlv = tag) then Ok tlv
  else Err (CertParse ("der: expected tag 0x" +:+ hex_byte tag +:+
                       ", got 0x" +:+ hex_byte (tlv_tag tlv))).

Definition u128_max : Z := 2 ^ 128 - 1.

(** The arc loop: [value] is the arc being accumulated, [in_arc] tells that
    at least one of its bytes has been read. *)
Fixpoint oid_arcs (bs : list byte) (value : Z) (in_arc : bool)
    : res TrustError (list Z) :=
  match bs with
  | [] => if in_arc then Err (CertParse "der: truncated oid arc") else Ok []
  | b :: r =>
      if decide (Z.shiftr u128_max 7 < value) then
        Err (CertParse "der: oid arc overflow")
      else
        let value' := Z.lor (Z.shiftl value 7) (Z.land (bz b) 0x7F) in
        if decide (Z.land (bz b) 0x80 = 0) then
          let? parts := oid_arcs r 0 false in Ok (value' :: parts)
        else oid_arcs r value' true
  end.

(** The arcs in decimal, separated by dots. *)
Definition dotted (parts : list Z) : string :=
  String.concat "." ((λ p, pretty (Z.to_N p)) <$> parts).

Definition oid_to_dotted (content : list byte) : res TrustError string :=
  match content with
  | [] => Err (CertParse "der: empty oid")
  | first :: r =>
      let arc1 := bz first / 40 in
      let arc2 := bz first mod 40 in
      let? parts := oid_arcs r 0 false in
      Ok (dotted (arc1 :: arc2 :: parts))
  end.

(** ** Reference encoders *)

(** Minimal definite length of X.690 for lengths below 2^32. *)
Definition der_len (n : Z) : list byte :=
  if decide (n < 128) then [zb n]
  else if decide (n < 256) then zb 0x81 :: be_bytes 1 n
  else if decide (n < 65536) then zb 0x82 :: be_bytes 2 n
  else if decide (n < 16777216) then zb 0x83 :: be_bytes 3 n
  else zb 0x84 :: be_bytes 4 n.

Definition encode_tlv (tag : byte) (value : list byte) : list byte :=
  tag :: der_len (zlen value) ++ value.

Arguments encode_tlv : simpl never.

(** [n] base-128 groups of [v], continuation bit on all but the last. *)
Fixpoint base128 (n : nat) (v : Z) : list byte :=
  match n with
  | O => []
  | S O => [zb (v mod 128)]
  | S m => zb (128 + (v / 128 ^ Z.of_nat m) mod 128) :: base128 m v
  end.

Definition arc_groups (v : Z) : nat := Z.to_nat (Z.log2 v / 7 + 1).

Definition oid_encode (a1 a2 : Z) (arcs : list Z) : list byte :=
  base128 (arc_groups (40 * a1 + a2)) (40 * a1 + a2) ++
  mjoin ((λ v, base128 (arc_groups v) v) <$> arcs).

(** ** The reader never panics and splits its input *)

Lemma land_0x7F z : Z.land z 0x7F = z mod 128.
Proof. change 0x7F with (Z.ones 7). by rewrite Z.land_ones by lia. Qed.

Lemma land_0x80 b : Z.land (bz b) 0x80 = 0 ↔ bz b < 128.
Proof.
  pose proof (bz_range b).
  assert (Z.land (bz b) 0x80 = if Z.testbit (bz b) 7 then 0x80 else 0) as ->.
  { apply Z.bits_inj'. intros n Hn. rewrite Z.land_spec.
    change 0x80 with (2 ^ 7). rewrite Z.pow2_bits_eqb by lia.
    destruct (Z.eqb_spec 7 n) as [<-|Hne].
    - destruct (Z.testbit (bz b) 7); [|by rewrite Z.bits_0].
      by rewrite Z.pow2_bits_eqb by lia.
    - rewrite andb_false_r. destruct (Z.testbit (bz b) 7); [|by rewrite Z.bits_0].
      rewrite Z.pow2_bits_eqb by lia. symmetry. by apply Z.eqb_neq. }
  rewrite Z.testbit_odd, Z.shiftr_div_pow2 by lia. change (2 ^ 7) with 128.
  destruct (decide (bz b < 128)).
  - rewrite Z.div_small by lia. simpl. lia.
  - assert (bz b / 128 = 1) as -> by lia.
    simpl. lia.
Qed.

(** What a successful read says: the input is a header of two to six bytes
    that starts with the tag, then the value, then the rest. *)
Definition tlv_split (input : list byte) (t : Tlv) : Prop :=
  ∃ header, input = header ++ tlv_value t ++ tlv_rest t ∧
    2 ≤ zlen header ≤ 6 ∧ header !! 0%nat = Some (tlv_tag t).

Lemma slice_split {A} (l : list A) a b :
  0 ≤ a ≤ b → b ≤ zlen l →
  l = take (Z.to_nat a) l ++ take (Z.to_nat (b - a)) (drop (Z.to_nat a) l)
      ++ drop (Z.to_nat b) l.
Proof.
  intros Ha Hb.
  replace (drop (Z.to_nat b) l)
    with (drop (Z.to_nat (b - a)) (drop (Z.to_nat a) l))
    by (rewrite drop_drop; f_equal; lia).
  by rewrite !take_drop.
Qed.

(** The header's length field, however it is encoded. *)
Lemma read_tlv_cases input :
  (∃ e, read_tlv input = Err e) ∨
  (∃ t hl, read_tlv input = Ok t ∧ 2 ≤ hl ≤ 6 ∧
     hl + zlen (tlv_value t) ≤ zlen input ∧
     input !! 0%nat = Some (tlv_tag t) ∧
     tlv_value t = take (length (tlv_value t)) (drop (Z.to_nat hl) input) ∧
     tlv_rest t = drop (Z.to_nat (hl + zlen (tlv_value t))) input).
Proof.
  unfold read_tlv. case_decide as Hlen; [by eauto|].
  destruct (@idx_in TrustError _ input 0) as (tag & -> & Htag); [lia|].
  destruct (@idx_in TrustError _ input 1) as (lb & -> & _); [lia|]. simpl.
  assert (∀ len hl, 2 ≤ hl ≤ 6 → 0 ≤ len →
    let c := (let? end_ := ok_or (checked_add_usize hl len)
                     (CertParse "der: length overflow") in
      if decide (zlen input < end_) then Err (CertParse "der: value truncated") else
      let? value := slice input hl end_ in
      let? rest := slice_from input end_ in
      Ok (MkTlv tag value rest)) in
    (∃ e, c = Err e) ∨
    (∃ t hl, c = Ok t ∧ 2 ≤ hl ≤ 6 ∧ hl + zlen (tlv_value t) ≤ zlen input ∧
     input !! 0%nat = Some (tlv_tag t) ∧
     tlv_value t = take (length (tlv_value t)) (drop (Z.to_nat hl) input) ∧
     tlv_rest t = drop (Z.to_nat (hl + zlen (tlv_value t))) input)) as Hfinish.
  { intros len hl Hhl Hl c. subst c. unfold checked_add_usize.
    case_decide as Hov; simpl; [|by eauto]. case_decide as Htr; [by eauto|]. right.
    rewrite slice_in by lia. unfold slice_from. simpl. rewrite slice_in by lia. simpl.
    eexists _, hl. split; [done|]. simpl.
    assert (zlen (take (Z.to_nat (hl + len - hl)) (drop (Z.to_nat hl) input)) = len) as Hv.
    { unfold zlen in *. rewrite length_take, length_drop. lia. }
    rewrite Hv. split_and!; [lia|lia|lia|done| |].
    - f_equal. unfold zlen in Hv. lia.
    - apply take_ge. unfold zlen in *. rewrite length_drop. lia. }
  case_decide as Hshort.
  - simpl. pose proof (bz_range lb). apply Hfinish; lia.
  - rewrite land_0x7F. case_decide as Hn; [by eauto|].
    case_decide as Htr; [by eauto|]. pose proof (bz_range lb).
    rewrite slice_in by lia. simpl. apply Hfinish; [lia|].
    pose proof (be_fold_bound 0 (take (Z.to_nat (2 + bz lb mod 128 - 2))
      (drop (Z.to_nat 2) input))). lia.
Qed.

Lemma read_tlv_no_panic input : no_panic (read_tlv input).
Proof.
  destruct (read_tlv_cases input) as [(e & ->)|(t & hl & -> & _)]; done.
Qed.

Lemma read_tlv_split input t : read_tlv input = Ok t → tlv_split input t.
Proof.
  intros Hr. destruct (read_tlv_cases input)
    as [(e & He)|(t' & hl & Ht & Hhl & Hle & Htag & Hv & Hrest)]; [congruence|].
  rewrite Hr in Ht. injection Ht as <-.
  exists (take (Z.to_nat hl) input). unfold tlv_split, zlen in *. split_and!.
  - rewrite Hrest, Hv. etrans; [apply (slice_split input hl (hl + zlen (tlv_value t)));
      unfold zlen; lia|]. unfold zlen.
    replace (Z.to_nat (hl + Z.of_nat (length (tlv_value t)) - hl))
      with (length (tlv_value t)) by lia.
    rewrite <-Hv. done.
  - rewrite length_take. lia.
  - rewrite length_take. lia.
  - rewrite lookup_take_lt by lia. done.
Qed.

(** The loops over TLVs terminate because every read consumes its header. *)
Lemma read_tlv_shrinks input t :
  read_tlv input = Ok t → (length (tlv_rest t) < length input)%nat.
Proof.
  intros (h & -> & Hh & _)%read_tlv_split. unfold zlen in Hh.
  rewrite !length_app. lia.
Qed.

Lemma read_tlv_expect_inv input tag t :
  read_tlv_expect input tag = Ok t → read_tlv input = Ok t ∧ tlv_tag t = tag.
Proof.
  unfold read_tlv_expect. intros H. invert_ok H. case_decide; naive_solver.
Qed.

Lemma read_tlv_expect_no_panic input tag : no_panic (read_tlv_expect input tag).
Proof.
  apply rbind_no_panic; [apply read_tlv_no_panic|].
  intros t _. case_decide; done.
Qed.

#[export] Hint Resolve read_tlv_no_panic read_tlv_expect_no_panic : rust.

(** ** The reader inverts the X.690 encoder *)

Lemma land_0x80_zb n : 0 ≤ n < 128 → Z.land (bz (zb n)) 0x80 = 0.
Proof. intros. apply land_0x80. rewrite bz_zb_small; lia. Qed.

Lemma read_tlv_short tag value rest :
  zlen value < 128 →
  read_tlv (tag :: zb (zlen value) :: value ++ rest) = Ok (MkTlv tag value rest).
Proof.
  intros Hv. pose proof (zlen_nonneg value). pose proof (zlen_nonneg rest).
  unfold read_tlv. rewrite !zlen_cons, zlen_app. rewrite decide_False by lia.
  simpl. rewrite decide_True by (apply land_0x80_zb; lia). simpl.
  rewrite bz_zb_small by lia. unfold checked_add_usize.
  destruct (decide (2 + zlen value ≤ usize_max)) as [_|Hc];
    [|unfold usize_max in Hc; lia]. simpl.
  rewrite decide_False by lia.
  rewrite (slice_mid _ [tag; zb (zlen value)] value rest) by done. simpl.
  rewrite (slice_from_app _ ([tag; zb (zlen value)] ++ value) rest); [done..|].
  by rewrite zlen_app.
Qed.

Lemma read_tlv_long k tag value rest :
  (1 ≤ k ≤ 4)%nat → zlen value < 256 ^ Z.of_nat k →
  read_tlv (tag :: zb (0x80 + Z.of_nat k) :: be_bytes k (zlen value) ++ value ++ rest)
  = Ok (MkTlv tag value rest).
Proof.
  intros Hk Hv. pose proof (zlen_nonneg value). pose proof (zlen_nonneg rest).
  assert (zlen (be_bytes k (zlen value)) = Z.of_nat k) as Hbl
    by (unfold zlen; by rewrite length_be_bytes).
  assert (zlen value < 2 ^ 32).
  { eapply Z.lt_le_trans; [done|]. change (2 ^ 32) with (256 ^ 4).
    apply Z.pow_le_mono_r; lia. }
  unfold read_tlv. rewrite !zlen_cons, !zlen_app, Hbl. rewrite decide_False by lia.
  simpl. rewrite decide_False by (rewrite land_0x80, bz_zb_small; lia).
  rewrite land_0x7F, bz_zb_small by lia.
  replace ((128 + Z.of_nat k) mod 128) with (Z.of_nat k) by lia.
  rewrite decide_False by lia. rewrite decide_False by lia.
  set (h := [tag; zb (128 + Z.of_nat k)]).
  rewrite (slice_mid _ h (be_bytes k (zlen value)) (value ++ rest));
    [|done|done|by rewrite Hbl].
  simpl. rewrite be_fold_bytes, Z.mod_small, Z.mul_0_l, Z.add_0_l by lia.
  unfold checked_add_usize. rewrite decide_True by (unfold usize_max; lia). simpl.
  rewrite decide_False by lia.
  rewrite (slice_mid _ (h ++ be_bytes k (zlen value)) value rest);
    [|by rewrite <-app_assoc|rewrite zlen_app, Hbl; done|rewrite zlen_app, Hbl; done].
  simpl. rewrite (slice_from_app _ ((h ++ be_bytes k (zlen value)) ++ value) rest);
    [done|by rewrite <-!app_assoc|by rewrite !zlen_app, Hbl].
Qed.

Lemma read_tlv_enc tag value rest :
  zlen value < 2 ^ 32 →
  read_tlv (encode_tlv tag value ++ rest) = Ok (MkTlv tag value rest).
Proof.
  intros Hv. unfold encode_tlv, der_len. pose proof (zlen_nonneg value).
  rewrite <-app_comm_cons, <-app_assoc.
  repeat case_decide; [by apply (read_tlv_short tag value rest)|..].
  - apply (read_tlv_long 1 tag value rest); lia.
  - apply (read_tlv_long 2 tag value rest); lia.
  - apply (read_tlv_long 3 tag value rest); lia.
  - apply (read_tlv_long 4 tag value rest); [lia|]. change (256 ^ Z.of_nat 4) with (2 ^ 32). lia.
Qed.

(** [read_tlv] inverts the X.690 encoder: for every tag, every value
    shorter than 2^32 bytes and whatever follows, reading the encoded element
    gives back the tag and the value and leaves exactly what follows. *)
Theorem read_tlv_encode tag value rest :
  zlen value < 2 ^ 32 →
  read_tlv (encode_tlv tag value ++ rest) = Ok (MkTlv tag value rest).
Proof.
  apply read_tlv_enc.
Qed.

Lemma read_tlv_encode_witness :
  let v := replicate 200 (zb 0x41) in
  zlen v < 2 ^ 32 ∧
  read_tlv (encode_tlv TAG_OCTET_STRING v ++ [zb 7]) =
    Ok (MkTlv TAG_OCTET_STRING v [zb 7]).
Proof. split; [vm_compute; done|]. apply read_tlv_encode. vm_compute. done. Defined.

(** The reader is safe on arbitrary bytes: it never indexes or slices out
    of range, and when it returns an element, the input is a header of two to
    six bytes starting with the tag, then the value, then the rest, so every
    read consumes input. *)
Theorem read_tlv_safe input :
  read_tlv input ≠ Panic ∧ ∀ t, read_tlv input = Ok t → tlv_split input t.
Proof. split; [apply read_tlv_no_panic|apply read_tlv_split]. Qed.

(** ** Object identifiers *)

Lemma oid_arcs_step b r acc f :
  0 ≤ acc → acc * 128 + bz b mod 128 ≤ u128_max →
  oid_arcs (b :: r) acc f =
    if decide (bz b < 128)
    then let? parts := oid_arcs r 0 false in
         Ok ((acc * 128 + bz b mod 128) :: parts)
    else oid_arcs r (acc * 128 + bz b mod 128) true.
Proof.
  intros Hacc Hmax. cbn [oid_arcs]. pose proof (bz_range b).
  rewrite decide_False
    by (rewrite Z.shiftr_div_pow2 by lia; change (2 ^ 7) with 128; lia).
  rewrite land_0x7F, shl_lor by (change (2 ^ 7) with 128; lia).
  change (2 ^ 7) with 128.
  destruct (decide (bz b < 128)).
  - rewrite decide_True; [done|]. by apply land_0x80.
  - rewrite decide_False; [done|]. by rewrite land_0x80.
Qed.

Lemma oid_arcs_base128 m v r acc f :
  0 ≤ acc → acc * 128 ^ Z.of_nat (S m) + v mod 128 ^ Z.of_nat (S m) ≤ u128_max →
  oid_arcs (base128 (S m) v ++ r) acc f =
    let? parts := oid_arcs r 0 false in
    Ok ((acc * 128 ^ Z.of_nat (S m) + v mod 128 ^ Z.of_nat (S m)) :: parts).
Proof.
  revert acc f. induction m as [|m IH]; intros acc f Hacc Hmax.
  - change (Z.of_nat 1) with 1 in *. rewrite Z.pow_1_r in *.
    change (base128 1 v ++ r) with (zb (v mod 128) :: r).
    assert (bz (zb (v mod 128)) = v mod 128) as Hb by (apply bz_zb_small; lia).
    assert ((v mod 128) mod 128 = v mod 128) as Hm by lia.
    rewrite oid_arcs_step; rewrite ?Hb, ?Hm; [|done..].
    rewrite decide_True by lia. done.
  - change (base128 (S (S m)) v)
      with (zb (128 + (v / 128 ^ Z.of_nat (S m)) mod 128) :: base128 (S m) v).
    set (p := 128 ^ Z.of_nat (S m)) in *.
    assert (0 < p) by (apply Z.pow_pos_nonneg; lia).
    assert (128 ^ Z.of_nat (S (S m)) = p * 128) as Hp.
    { subst p. rewrite (Nat2Z.inj_succ (S m)), Z.pow_succ_r by lia. lia. }
    rewrite Hp in *. rewrite Z.rem_mul_r in * by lia.
    set (d := (v / p) mod 128) in *. assert (0 ≤ d < 128) by lia.
    pose proof (Z.mod_pos_bound v p ltac:(lia)).
    assert (bz (zb (128 + d)) = 128 + d) as Hb by (apply bz_zb_small; lia).
    assert ((128 + d) mod 128 = d) as Hm by lia.
    rewrite <-app_comm_cons. rewrite oid_arcs_step; rewrite ?Hb, ?Hm;
      [|done|unfold u128_max in *; nia].
    rewrite decide_False by lia. rewrite IH; [|lia|nia].
    destruct (oid_arcs r 0 false); simpl; [|done..]. do 2 f_equal. lia.
Qed.

Lemma arc_groups_spec v :
  0 ≤ v → ∃ m, arc_groups v = S m ∧ v mod 128 ^ Z.of_nat (S m) = v.
Proof.
  intros Hv. unfold arc_groups. pose proof (Z.log2_nonneg v).
  exists (Z.to_nat (Z.log2 v / 7)). split; [lia|].
  apply Z.mod_small. split; [done|].
  destruct (decide (v = 0)) as [->|]; [apply Z.pow_pos_nonneg; lia|].
  change 128 with (2 ^ 7).
  rewrite <-Z.pow_mul_r by lia. apply Z.log2_lt_pow2; lia.
Qed.

Lemma oid_arcs_encode arcs :
  Forall (λ v, 0 ≤ v ≤ u128_max) arcs →
  oid_arcs (mjoin ((λ v, base128 (arc_groups v) v) <$> arcs)) 0 false = Ok arcs.
Proof.
  induction 1 as [|v arcs Hv _ IH]; [done|]. csimpl.
  destruct (arc_groups_spec v) as (m & -> & Hm); [lia|].
  rewrite oid_arcs_base128; [|done|lia]. rewrite IH, Hm. done.
Qed.

Lemma oid_encode_head a1 a2 arcs :
  0 ≤ 40 * a1 + a2 < 128 →
  oid_encode a1 a2 arcs =
    zb (40 * a1 + a2) :: mjoin ((λ v, base128 (arc_groups v) v) <$> arcs).
Proof.
  intros H. unfold oid_encode. set (s := 40 * a1 + a2) in *.
  assert (arc_groups s = 1%nat) as ->.
  { unfold arc_groups. assert (Z.log2 s < 7).
    { destruct (decide (s = 0)) as [->|]; [done|].
      apply Z.log2_lt_pow2; [lia|]. change (2 ^ 7) with 128. lia. }
    pose proof (Z.log2_nonneg s). lia. }
  simpl. by rewrite Z.mod_small.
Qed.

Lemma oid_to_dotted_head s arcs :
  0 ≤ s < 128 → Forall (λ v, 0 ≤ v ≤ u128_max) arcs →
  oid_to_dotted (zb s :: mjoin ((λ v, base128 (arc_groups v) v) <$> arcs))
  = Ok (dotted (s / 40 :: s mod 40 :: arcs)).
Proof.
  intros Hs Harcs. unfold oid_to_dotted.
  rewrite oid_arcs_encode, bz_zb_small by (done || lia). done.
Qed.

(** [oid_to_dotted] renders the X.690 encoding of every object identifier
    whose first arc is 0, 1 or 2 and second arc is below 40, with any further
    arcs of up to 128 bits (the project's [2.25.<UUID>] identifiers among
    them), as exactly its arcs in dotted decimal. *)
Theorem oid_to_dotted_encode a1 a2 arcs :
  0 ≤ a1 ≤ 2 → 0 ≤ a2 < 40 → Forall (λ v, 0 ≤ v < 2 ^ 128) arcs →
  oid_to_dotted (oid_encode a1 a2 arcs) = Ok (dotted (a1 :: a2 :: arcs)).
Proof.
  intros H1 H2 Harcs. rewrite oid_encode_head by lia.
  rewrite oid_to_dotted_head; [|lia|].
  - do 3 f_equal; [|f_equal]; lia.
  - eapply Forall_impl; [done|]. unfold u128_max. intros. lia.
Qed.

Lemma oid_to_dotted_encode_witness :
  oid_to_dotted (oid_encode 2 25 [183976554325829274683049824615098])
  = Ok (dotted [2; 25; 183976554325829274683049824615098]).
Proof.
  apply oid_to_dotted_encode; [lia|lia|]. constructor; [lia|constructor].
Defined.

(** For an identifier under [joint-iso-itu-t] (first arc 2) whose second
    arc is 40 to 47, [oid_to_dotted] returns a wrong identifier: it splits the
    first byte with [/ 40] and [% 40] and reports arcs 3 and [a2 - 40]. *)
Theorem oid_to_dotted_second_arc_above_39 a2 arcs :
  40 ≤ a2 < 48 → Forall (λ v, 0 ≤ v < 2 ^ 128) arcs →
  oid_to_dotted (oid_encode 2 a2 arcs) = Ok (dotted (3 :: a2 - 40 :: arcs)).
Proof.
  intros H2 Harcs. rewrite oid_encode_head by lia.
  rewrite oid_to_dotted_head; [|lia|].
  - do 3 f_equal; [|f_equal]; lia.
  - eapply Forall_impl; [done|]. unfold u128_max. intros. lia.
Qed.

Lemma oid_to_dotted_second_arc_above_39_witness :
  oid_to_dotted (oid_encode 2 47 [1]) = Ok (dotted [3; 7; 1])
  ∧ dotted [3; 7; 1] ≠ dotted [2; 47; 1].
Proof.
  split; [|by vm_compute].
  apply (oid_to_dotted_second_arc_above_39 47 [1]); [lia|].
  constructor; [lia|constructor].
Defined.
