(* ===== verification/Sample.v ===== *)
(** * A sample instance of the third-party interfaces

    Concrete certificates, keys and digests at which the witnesses of the
    theorems are evaluated.  A name or a key is a string, a signature names
    the key that made it, a certificate is the record of its fields, with its
    validity in days since the epoch.  Nothing
    here models code, and no theorem depends on it. *)

From S2P Require Import Prelude Errors Openssl Der.
Local Open Scope Z_scope.

Module Sample.

Record cert := MkCert {
  c_der : list byte;
  c_subject : string;
  c_issuer : string;
  c_emails : option (list string);
  c_serial : string;
  c_not_before : Z;
  c_not_after : Z;
  c_alg : string;
  c_key : string;
  c_signer : string;
}.

Record crl := MkCrl {
  r_last : Z;
  r_next : Z;
  r_revoked : list string;
}.

(** Content octets of the identifiers the program looks up. *)
Definition oid_table : list (string * list byte) :=
  [("2.25.183976554325829274683049824615098",
    oid_encode 2 25 [183976554325829274683049824615098]);
   ("2.25.215438916728501023845629178354627",
    oid_encode 2 25 [215438916728501023845629178354627]);
   ("2.25.273824307386008814506455310913083078403",
    oid_encode 2 25 [273824307386008814506455310913083078403])].

Definition oid_lookup (s : string) : ErrorStack + list byte :=
  match List.find (λ p, bool_decide (p.1 = s)) oid_table with
  | Some p => inr p.2
  | None => inl "unknown object identifier"
  end.

(** Reading DER gives the known certificate with these bytes, or one without
    fields. *)
Definition read_der (known : list cert) (der : list byte) : ErrorStack + cert :=
  match List.find (λ c, bool_decide (c_der c = der)) known with
  | Some c => inr c
  | None => inr (MkCert der "" "" None "" 0 0 "" "" "")
  end.

(** The PEM text of a certificate is its marker and its subject. *)
Definition pem_text (c : cert) : list byte :=
  bytes_of ("-----BEGIN CERTIFICATE-----" +:+ c_subject c).

Definition read_pem (known : list cert) (pem : list byte) : ErrorStack + cert :=
  match List.find (λ c, bool_decide (pem_text c = pem)) known with
  | Some c => inr c
  | None => inl "no start line"
  end.

Definition openssl_over (known : list cert) : OpenSSL := {|
  X509 := cert;
  X509Name := string;
  PKey := string;
  X509Crl := crl;
  X509_from_der := read_der known;
  X509_from_pem := read_pem known;
  X509_to_der c := inr (c_der c);
  Asn1Object_from_str := oid_lookup;
  X509_subject_name := c_subject;
  X509_issuer_name := c_issuer;
  X509Name_eq a b := bool_decide (a = b);
  X509Name_to_der n := inr (bytes_of n);
  X509Name_entries n := [MkNameEntry NID_COMMONNAME (Some "CN") (Some n)];
  X509_subject_alt_names c := fmap (M := list) Some <$> c_emails c;
  X509_serial_hex c := Some (c_serial c);
  X509_not_before c := Some (c_not_before c mod 2 ^ 31, 0);
  X509_not_after c := Some (c_not_after c mod 2 ^ 31, 0);
  X509_signature_algorithm := c_alg;
  X509_version _ := 2;
  X509_subject_key_id c := Some (bytes_of (c_key c));
  X509_authority_key_id c := Some (bytes_of (c_signer c));
  X509_public_key c := inr (c_key c);
  X509_verify c k := inr (bool_decide (c_signer c = k));
  X509_digest_sha256 c := inr (bytes_of (c_serial c));
  PKey_to_der k := inr (bytes_of k);
  X509Crl_from_pem _ := inl "no PEM reader";
  X509Crl_from_der _ := inl "no DER reader";
  X509Crl_last_update r := inr (r_last r, 0);
  X509Crl_next_update r := Some (inr (r_next r, 0));
  X509Crl_revoked r := Some (Some <$> r_revoked r);
  X509Crl_issuer_name _ := "";
  X509Crl_verify _ _ := inr true;
|}.

Definition openssl : OpenSSL := openssl_over [].

(** A 32-byte digest that depends on its input. *)
Definition digest : Sha256 := λ bs, take 32 (bs ++ replicate 32 Byte.x00).

(** The build profiles of [Cargo.toml]. *)
Definition release : BuildProfile := false.
Definition dev : BuildProfile := true.

End Sample.
