(* ===== verification/X509Ext.v ===== *)
(** * X.509 extension access ([x509/ext.rs], [x509/der_helpers.rs])

    Two walkers look for an extension in a certificate's DER: [ext.rs]
    compares identifiers in dotted form, [der_helpers.rs] compares the raw
    identifier octets with the ones OpenSSL computes for the target.  Both
    skip the [tbsCertificate] fields up to the [[3] EXPLICIT] block and then
    go through its [Extension]s; they share [find_extension] here, with the
    comparison as an argument.  A [while] loop carries fuel one above the
    number of bytes left; running out of fuel is [Panic], so the theorems that
    exclude a panic also show that the loops end. *)

From S2P Require Import Prelude Errors Openssl Der Sample.
Local Open Scope Z_scope.

Definition TAG_UTF8_STRING : byte := zb 0x0C.
Definition TAG_EXPLICIT_3 : byte := zb 0xA3.

(** An error that only carries the text of another error carries that error. *)
Inductive DerError : Type :=
| UnexpectedTag (tag : byte)
| InvalidUtf8
| Truncated
| DerTlv (e : TrustError)
| InvalidOid (e : ErrorStack).

Fixpoint find_explicit3 (fuel : nat) (rest : list byte)
    : res TrustError (option (list byte)) :=
  match fuel with
  | O => Panic
  | S f =>
      match rest with
      | [] => Ok None
      | _ =>
          let? tlv := read_tlv rest in
          if decide (tlv_tag tlv = TAG_EXPLICIT_3) then Ok (Some (tlv_value tlv))
          else find_explicit3 f (tlv_rest tlv)
      end
  end.

(** One [Extension]: its identifier octets and the content of its [extnValue]. *)
Definition read_extension (ext_tlv : Tlv) : res TrustError (list byte * list byte) :=
  let? oid := read_tlv_expect (tlv_value ext_tlv) TAG_OID in
  let inner := tlv_rest oid in
  let? inner' :=
    match inner with
    | [] => Ok inner
    | _ =>
        let? peek := read_tlv inner in
        Ok (if decide (tlv_tag peek = TAG_BOOLEAN) then tlv_rest peek else inner)
    end in
  let? octet := read_tlv_expect inner' TAG_OCTET_STRING in
  Ok (tlv_value oid, tlv_value octet).

Fixpoint walk_extensions (want : list byte → res TrustError bool)
    (fuel : nat) (walker : list byte) : res TrustError (option (list byte)) :=
  match fuel with
  | O => Panic
  | S f =>
      match walker with
      | [] => Ok None
      | _ =>
          let? ext_tlv := read_tlv_expect walker TAG_SEQUENCE in
          let? (oid, octets) := read_extension ext_tlv in
          let? hit := want oid in
          if (hit : bool) then Ok (Some octets)
          else walk_extensions want f (tlv_rest ext_tlv)
      end
  end.

Definition find_extension (want : list byte → res TrustError bool)
    (cert_der : list byte) : res TrustError (option (list byte)) :=
  let? outer := read_tlv_expect cert_der TAG_SEQUENCE in
  let? tbs := read_tlv_expect (tlv_value outer) TAG_SEQUENCE in
  let? extensions_octets :=
    find_explicit3 (S (length (tlv_value tbs))) (tlv_value tbs) in
  match extensions_octets with
  | None => Ok None
  | Some ext_outer =>
      let? ext_seq := read_tlv_expect ext_outer TAG_SEQUENCE in
      walk_extensions want (S (length (tlv_value ext_seq))) (tlv_value ext_seq)
  end.

(** [parse_seq_of_utf8] of [der_helpers.rs]. *)
Fixpoint utf8_items (fuel : nat) (rest : list byte) : res DerError (list string) :=
  match fuel with
  | O => Panic
  | S f =>
      match rest with
      | [] => Ok []
      | _ =>
          let? tlv := map_err DerTlv (read_tlv rest) in
          if decide (tlv_tag tlv = TAG_UTF8_STRING) then
            let? s := ok_or (from_utf8 (tlv_value tlv)) InvalidUtf8 in
            let? out := utf8_items f (tlv_rest tlv) in
            Ok (s :: out)
          else Err (UnexpectedTag (tlv_tag tlv))
      end
  end.

Definition parse_seq_of_utf8 (value_der : list byte) : res DerError (list string) :=
  match value_der with
  | [] => Err Truncated
  | _ =>
      let? seq := map_err DerTlv (read_tlv_expect value_der TAG_SEQUENCE) in
      utf8_items (S (length (tlv_value seq))) (tlv_value seq)
  end.

Definition OID_KEY_USAGE : string := "2.5.29.15".
Definition OID_BASIC_CONSTRAINTS : string := "2.5.29.19".
Definition OID_EXT_KEY_USAGE : string := "2.5.29.37".

Record BasicConstraintsView := MkBC {
  is_ca : bool;
  path_len : option Z;
}.

Fixpoint eku_items (fuel : nat) (rest : list byte) : res TrustError (list string) :=
  match fuel with
  | O => Panic
  | S f =>
      match rest with
      | [] => Ok []
      | _ =>
          let? oid := read_tlv_expect rest TAG_OID in
          let? d := oid_to_dotted (tlv_value oid) in
          let? out := eku_items f (tlv_rest oid) in
          Ok (d :: out)
      end
  end.

(** The [pathLenConstraint] accumulator (a [u64], checked against [u32::MAX]
    after every byte, so the shift never overflows). *)
Fixpoint path_len_acc (acc : Z) (bs : list byte) : res TrustError Z :=
  match bs with
  | [] => Ok acc
  | b :: r =>
      let acc' := Z.lor (Z.shiftl acc 8) (bz b) in
      if decide (2 ^ 32 - 1 < acc') then
        Err (CertParse "basicConstraints: pathLen overflow")
      else path_len_acc acc' r
  end.

(** The body of [basic_constraints] once the extension is found. *)
Definition parse_basic_constraints (value : list byte)
    : res TrustError BasicConstraintsView :=
  let? seq := read_tlv_expect value TAG_SEQUENCE in
  let? (ca, rest) :=
    match tlv_value seq with
    | [] => Ok (false, [])
    | rest =>
        let? first := read_tlv rest in
        if decide (tlv_tag first = TAG_BOOLEAN)
        then Ok (bool_decide (default 0 (bz <$> tlv_value first !! 0%nat) ≠ 0),
                 tlv_rest first)
        else Ok (false, rest)
    end in
  match rest with
  | [] => Ok (MkBC ca None)
  | _ =>
      let? next := read_tlv rest in
      if decide (tlv_tag next = TAG_INTEGER) then
        let? acc := path_len_acc 0 (tlv_value next) in Ok (MkBC ca (Some acc))
      else Ok (MkBC ca None)
  end.

(** The body of [key_usage_bit] once the extension is found. *)
Definition test_key_usage_bit `{BuildProfile} (value : list byte) (bit : Z)
    : res TrustError bool :=
  let? bs := read_tlv_expect value TAG_BIT_STRING in
  if decide (tlv_value bs = []) then Ok false else
  let? unused := idx (tlv_value bs) 0 in
  let? bytes := slice_from (tlv_value bs) 1 in
  if decide (bytes = []) then Ok false else
  let byte_index := bit / 8 in
  if decide (zlen bytes ≤ byte_index) then Ok false else
  let bit_in_byte := bit mod 8 in
  let mask := Z.shiftr 0x80 bit_in_byte in
  let last_byte := zlen bytes - 1 in
  let? in_unused :=
    if decide (byte_index = last_byte) then
      let? used := sub_u8 8 (bz unused) in Ok (bool_decide (used ≤ bit_in_byte))
    else Ok false in
  if (in_unused : bool) then Ok false else
  let? b := idx bytes byte_index in
  Ok (bool_decide (Z.land (bz b) mask ≠ 0)).

Section with_openssl.
Context `{OpenSSL}.

Definition extract_extension_by_oid (cert_der : list byte) (target_oid : string)
    : res DerError (option (list byte)) :=
  let? target_bytes := map_err InvalidOid (of_sum (Asn1Object_from_str target_oid)) in
  map_err DerTlv
    (find_extension (λ oid, Ok (bool_decide (oid = target_bytes))) cert_der).

Definition extension_value (cert : X509) (target_oid : string)
    : res TrustError (option (list byte)) :=
  let? stack := map_err Openssl (of_sum (X509_to_der cert)) in
  find_extension
    (λ oid, let? d := oid_to_dotted oid in Ok (bool_decide (d = target_oid))) stack.

Definition ext_eku_oids (cert : X509) : res TrustError (list string) :=
  let? value := extension_value cert OID_EXT_KEY_USAGE in
  match value with
  | None => Ok []
  | Some value =>
      let? seq := read_tlv_expect value TAG_SEQUENCE in
      eku_items (S (length (tlv_value seq))) (tlv_value seq)
  end.

Definition key_usage_bit `{BuildProfile} (cert : X509) (bit : Z) : res TrustError bool :=
  let? value := extension_value cert OID_KEY_USAGE in
  match value with
  | None => Ok false
  | Some value => test_key_usage_bit value bit
  end.

Definition ext_basic_constraints (cert : X509)
    : res TrustError (option BasicConstraintsView) :=
  let? value := extension_value cert OID_BASIC_CONSTRAINTS in
  match value with
  | None => Ok None
  | Some value => let? bc := parse_basic_constraints value in Ok (Some bc)
  end.

Definition ext_ski (cert : X509) : option (list byte) := X509_subject_key_id cert.

Definition ext_aki_key_id (cert : X509) : option (list byte) :=
  X509_authority_key_id cert.

End with_openssl.

(** ** Reference encoding of certificates and extensions *)

Record extension := MkExt {
  x_oid : list byte;
  x_critical : bool;
  x_value : list byte;
}.

Definition encode_ext (x : extension) : list byte :=
  encode_tlv TAG_SEQUENCE
    (encode_tlv TAG_OID (x_oid x) ++
     (if x_critical x then encode_tlv TAG_BOOLEAN [zb 0xFF] else []) ++
     encode_tlv TAG_OCTET_STRING (x_value x)).

Definition encode_exts (xs : list extension) : list byte := mjoin (encode_ext <$> xs).

Definition encode_fields (fs : list (byte * list byte)) : list byte :=
  mjoin ((λ f, encode_tlv f.1 f.2) <$> fs).

(** A certificate: the [tbsCertificate] fields before the extensions, the
    extensions in their [[3] EXPLICIT] wrapper, and the outer signature part. *)
Definition encode_cert (fs : list (byte * list byte)) (xs : list extension)
    (signature : list byte) : list byte :=
  encode_tlv TAG_SEQUENCE
    (encode_tlv TAG_SEQUENCE
       (encode_fields fs ++
        encode_tlv TAG_EXPLICIT_3 (encode_tlv TAG_SEQUENCE (encode_exts xs))) ++
     signature).

Definition encode_utf8_items (ss : list string) : list byte :=
  mjoin ((λ s, encode_tlv TAG_UTF8_STRING (bytes_of s)) <$> ss).

Definition encode_utf8_seq (ss : list string) : list byte :=
  encode_tlv TAG_SEQUENCE (encode_utf8_items ss).

(** ** The walkers are total *)

Lemma read_tlv_nil : read_tlv [] = Err (CertParse "der: header truncated").
Proof. done. Qed.

Lemma find_explicit3_no_panic fuel rest :
  (length rest < fuel)%nat → no_panic (find_explicit3 fuel rest).
Proof.
  revert rest. induction fuel as [|f IH]; intros rest Hf; [lia|].
  destruct rest as [|b r]; [done|]. cbn [find_explicit3].
  apply rbind_no_panic; [auto with rust|]. intros t Ht. case_decide; [done|].
  apply IH. apply read_tlv_shrinks in Ht. lia.
Qed.

Lemma read_extension_no_panic t : no_panic (read_extension t).
Proof.
  apply rbind_no_panic; [auto with rust|]. intros oid _.
  apply rbind_no_panic.
  - destruct (tlv_rest oid); [done|].
    apply rbind_no_panic; [auto with rust|]. by intros.
  - intros inner _. apply rbind_no_panic; [auto with rust|]. by intros.
Qed.

#[export] Hint Resolve read_extension_no_panic : rust.

Lemma walk_extensions_no_panic want fuel walker :
  (∀ oid, no_panic (want oid)) →
  (length walker < fuel)%nat → no_panic (walk_extensions want fuel walker).
Proof.
  intros Hw. revert walker. induction fuel as [|f IH]; intros walker Hf; [lia|].
  destruct walker as [|b r]; [done|]. cbn [walk_extensions].
  apply rbind_no_panic; [auto with rust|]. intros t Ht.
  apply rbind_no_panic; [auto with rust|]. intros [oid v] _.
  apply rbind_no_panic; [auto with rust|]. intros [] _; [done|]. apply IH.
  apply read_tlv_expect_inv in Ht as [Ht%read_tlv_shrinks _]. lia.
Qed.

Lemma find_extension_no_panic want der :
  (∀ oid, no_panic (want oid)) → no_panic (find_extension want der).
Proof.
  intros Hw. apply rbind_no_panic; [auto with rust|]. intros outer _.
  apply rbind_no_panic; [auto with rust|]. intros tbs _.
  apply rbind_no_panic; [apply find_explicit3_no_panic; lia|].
  intros [o|] _; [|done].
  apply rbind_no_panic; [auto with rust|]. intros seq _.
  apply walk_extensions_no_panic; [done|lia].
Qed.

Lemma utf8_items_no_panic fuel rest :
  (length rest < fuel)%nat → no_panic (utf8_items fuel rest).
Proof.
  revert rest. induction fuel as [|f IH]; intros rest Hf; [lia|].
  destruct rest as [|b r]; [done|]. cbn [utf8_items].
  apply rbind_no_panic; [auto with rust|]. intros t Ht%map_err_Ok_inv.
  case_decide; [|done]. apply rbind_no_panic; [by destruct (from_utf8 _)|].
  intros s _. apply rbind_no_panic; [|by intros]. apply IH.
  apply read_tlv_shrinks in Ht. lia.
Qed.

Lemma parse_seq_of_utf8_no_panic der : no_panic (parse_seq_of_utf8 der).
Proof.
  destruct der as [|b r]; [done|].
  apply rbind_no_panic; [auto with rust|]. intros seq _.
  apply utf8_items_no_panic. lia.
Qed.

Lemma oid_arcs_no_panic bs v f : no_panic (oid_arcs bs v f).
Proof.
  revert v f. induction bs as [|b r IH]; intros v f; simpl; [by destruct f|].
  case_decide; [done|]. case_decide; [|apply IH].
  apply rbind_no_panic; [apply IH|done].
Qed.

Lemma oid_to_dotted_no_panic bs : no_panic (oid_to_dotted bs).
Proof.
  destruct bs; [done|]. apply rbind_no_panic; [apply oid_arcs_no_panic|done].
Qed.

#[export] Hint Resolve find_extension_no_panic parse_seq_of_utf8_no_panic
  oid_to_dotted_no_panic : rust.

(** ** The walkers on encoded certificates *)

Lemma zlen_encode_tlv tag v : zlen v + 2 ≤ zlen (encode_tlv tag v).
Proof.
  unfold encode_tlv. rewrite zlen_cons, zlen_app.
  enough (1 ≤ zlen (der_len (zlen v))) by lia.
  unfold der_len. repeat case_decide; rewrite zlen_cons;
    match goal with |- 1 ≤ 1 + zlen ?l => pose proof (zlen_nonneg l); lia end.
Qed.

Lemma read_tlv_expect_enc tag v r :
  zlen v < 2 ^ 32 →
  read_tlv_expect (encode_tlv tag v ++ r) tag = Ok (MkTlv tag v r).
Proof.
  intros Hv. unfold read_tlv_expect. rewrite read_tlv_enc by done. simpl.
  by rewrite decide_True.
Qed.

Lemma read_tlv_enc_nil tag v :
  zlen v < 2 ^ 32 → read_tlv (encode_tlv tag v) = Ok (MkTlv tag v []).
Proof. intros. rewrite <-(app_nil_r (encode_tlv tag v)). by apply read_tlv_enc. Qed.

Lemma read_tlv_expect_enc_nil tag v :
  zlen v < 2 ^ 32 → read_tlv_expect (encode_tlv tag v) tag = Ok (MkTlv tag v []).
Proof. intros. rewrite <-(app_nil_r (encode_tlv tag v)). by apply read_tlv_expect_enc. Qed.

Lemma find_explicit3_step f rest t :
  read_tlv rest = Ok t →
  find_explicit3 (S f) rest =
    if decide (tlv_tag t = TAG_EXPLICIT_3) then Ok (Some (tlv_value t))
    else find_explicit3 f (tlv_rest t).
Proof. intros Ht. destruct rest; [done|]. cbn [find_explicit3]. by rewrite Ht. Qed.

Lemma walk_extensions_step want f walker t oid v :
  read_tlv_expect walker TAG_SEQUENCE = Ok t → read_extension t = Ok (oid, v) →
  walk_extensions want (S f) walker =
    let? hit := want oid in
    if (hit : bool) then Ok (Some v) else walk_extensions want f (tlv_rest t).
Proof.
  intros Ht Hx. destruct walker; [done|]. cbn [walk_extensions].
  rewrite Ht. simpl. by rewrite Hx.
Qed.

Lemma utf8_items_step f rest v r :
  read_tlv rest = Ok (MkTlv TAG_UTF8_STRING v r) → utf8_valid v = true →
  utf8_items (S f) rest = let? out := utf8_items f r in Ok (text_of v :: out).
Proof.
  intros Ht Hv. destruct rest; [done|]. cbn [utf8_items]. rewrite Ht. simpl.
  unfold from_utf8. by rewrite Hv.
Qed.

Lemma find_explicit3_encode fs v r fuel :
  Forall (λ f, f.1 ≠ TAG_EXPLICIT_3) fs →
  zlen (encode_fields fs ++ encode_tlv TAG_EXPLICIT_3 v ++ r) < 2 ^ 32 →
  (length (encode_fields fs ++ encode_tlv TAG_EXPLICIT_3 v ++ r) < fuel)%nat →
  find_explicit3 fuel (encode_fields fs ++ encode_tlv TAG_EXPLICIT_3 v ++ r) = Ok (Some v).
Proof.
  intros Hfs. revert fuel. induction Hfs as [|[tag x] fs Htag _ IH]; intros fuel Hsz Hf.
  - destruct fuel as [|fuel]; [lia|]. change (encode_fields []) with (@nil byte) in *.
    rewrite app_nil_l in *. pose proof (zlen_encode_tlv TAG_EXPLICIT_3 v).
    rewrite zlen_app in Hsz. pose proof (zlen_nonneg r).
    erewrite find_explicit3_step by (apply read_tlv_enc; lia).
    by rewrite decide_True.
  - destruct fuel as [|fuel]; [lia|].
    change (encode_fields ((tag, x) :: fs)) with (encode_tlv tag x ++ encode_fields fs) in *.
    rewrite <-app_assoc in *. rewrite zlen_app in Hsz. pose proof (zlen_encode_tlv tag x).
    pose proof (zlen_nonneg x).
    erewrite find_explicit3_step by (apply read_tlv_enc;
      pose proof (zlen_nonneg (encode_fields fs ++ encode_tlv TAG_EXPLICIT_3 v ++ r)); lia).
    rewrite decide_False by done. apply IH; [lia|].
    rewrite length_app in Hf. unfold zlen in *. lia.
Qed.

Lemma read_extension_encode x r :
  zlen (encode_ext x) < 2 ^ 32 →
  ∃ t, read_tlv_expect (encode_ext x ++ r) TAG_SEQUENCE = Ok t ∧ tlv_rest t = r ∧
       read_extension t = Ok (x_oid x, x_value x).
Proof.
  intros Hsz. unfold encode_ext in *.
  set (body := encode_tlv TAG_OID (x_oid x) ++ _) in *.
  pose proof (zlen_encode_tlv TAG_SEQUENCE body) as Hb.
  exists (MkTlv TAG_SEQUENCE body r). split_and!;
    [apply read_tlv_expect_enc; lia|done|].
  unfold read_extension. simpl. subst body. rewrite !zlen_app in Hb.
  pose proof (zlen_encode_tlv TAG_OID (x_oid x)).
  pose proof (zlen_encode_tlv TAG_OCTET_STRING (x_value x)).
  set (crit := if x_critical x then _ else _) in *. pose proof (zlen_nonneg crit).
  pose proof (zlen_nonneg (x_oid x)). pose proof (zlen_nonneg (x_value x)).
  rewrite read_tlv_expect_enc by lia. simpl. subst crit.
  destruct (x_critical x).
  - destruct (encode_tlv TAG_BOOLEAN _ ++ _) eqn:He; [done|]. rewrite <-He.
    rewrite read_tlv_enc by done. simpl. by rewrite read_tlv_expect_enc_nil by lia.
  - rewrite app_nil_l.
    destruct (encode_tlv TAG_OCTET_STRING (x_value x)) eqn:He; [done|]. rewrite <-He.
    rewrite read_tlv_enc_nil by lia. simpl. by rewrite read_tlv_expect_enc_nil by lia.
Qed.

(** The first extension of [xs] whose identifier satisfies [want]. *)
Definition first_ext (want : list byte → bool) (xs : list extension) : option (list byte) :=
  x_value <$> List.find (λ x, want (x_oid x)) xs.

Lemma walk_extensions_encode want (wantb : list byte → bool) xs fuel :
  Forall (λ x, want (x_oid x) = Ok (wantb (x_oid x))) xs →
  zlen (encode_exts xs) < 2 ^ 32 →
  (length (encode_exts xs) < fuel)%nat →
  walk_extensions want fuel (encode_exts xs) = Ok (first_ext wantb xs).
Proof.
  intros Hw. revert fuel. induction Hw as [|x xs Hx _ IH]; intros fuel Hsz Hf.
  - by destruct fuel as [|fuel]; [lia|].
  - destruct fuel as [|fuel]; [lia|].
    change (encode_exts (x :: xs)) with (encode_ext x ++ encode_exts xs) in *.
    rewrite zlen_app in Hsz. pose proof (zlen_nonneg (encode_exts xs)).
    destruct (read_extension_encode x (encode_exts xs)) as (t & Ht & Hrest & Hxt); [lia|].
    rewrite (walk_extensions_step _ _ _ _ _ _ Ht Hxt), Hx, Hrest. simpl.
    unfold first_ext. simpl. destruct (wantb (x_oid x)); [done|]. apply IH.
    + pose proof (zlen_nonneg (encode_ext x)). lia.
    + rewrite length_app in Hf.
      pose proof (zlen_encode_tlv TAG_SEQUENCE (encode_tlv TAG_OID (x_oid x) ++
       (if x_critical x then encode_tlv TAG_BOOLEAN [zb 0xFF] else []) ++
       encode_tlv TAG_OCTET_STRING (x_value x))).
      unfold encode_ext, zlen in *. lia.
Qed.

Lemma find_extension_encode want wantb fs xs sig :
  Forall (λ f, f.1 ≠ TAG_EXPLICIT_3) fs →
  Forall (λ x, want (x_oid x) = Ok (wantb (x_oid x))) xs →
  zlen (encode_cert fs xs sig) < 2 ^ 32 →
  find_extension want (encode_cert fs xs sig) = Ok (first_ext wantb xs).
Proof.
  intros Hfs Hxs Hsz. unfold encode_cert in *.
  set (exts := encode_tlv TAG_SEQUENCE (encode_exts xs)) in *.
  set (tbs := encode_fields fs ++ _) in *.
  pose proof (zlen_encode_tlv TAG_SEQUENCE (encode_tlv TAG_SEQUENCE tbs ++ sig)) as H1.
  rewrite zlen_app in H1. pose proof (zlen_encode_tlv TAG_SEQUENCE tbs).
  pose proof (zlen_nonneg sig).
  assert (zlen exts + 2 ≤ zlen tbs).
  { subst tbs. rewrite zlen_app. pose proof (zlen_encode_tlv TAG_EXPLICIT_3 exts).
    pose proof (zlen_nonneg (encode_fields fs)). lia. }
  pose proof (zlen_encode_tlv TAG_SEQUENCE (encode_exts xs)) as Hx2. fold exts in Hx2.
  pose proof (zlen_nonneg (encode_exts xs)).
  unfold find_extension. rewrite read_tlv_expect_enc_nil by (rewrite zlen_app; lia).
  cbn [rbind tlv_value]. rewrite read_tlv_expect_enc by lia. cbn [rbind tlv_value].
  replace (find_explicit3 _ _) with (@Ok TrustError _ (Some exts)).
  - cbn [rbind]. subst exts. rewrite read_tlv_expect_enc_nil by lia.
    apply walk_extensions_encode; [done|lia|simpl; lia].
  - symmetry. subst tbs. rewrite <-(app_nil_r (encode_tlv TAG_EXPLICIT_3 exts)) in *.
    apply find_explicit3_encode; [done|lia|lia].
Qed.

Lemma utf8_items_encode ss fuel :
  Forall (λ s, utf8_valid (bytes_of s) = true) ss →
  zlen (encode_utf8_items ss) < 2 ^ 32 →
  (length (encode_utf8_items ss) < fuel)%nat →
  utf8_items fuel (encode_utf8_items ss) = Ok ss.
Proof.
  intros Hss. revert fuel.
  induction Hss as [|s ss Hs _ IH]; intros fuel Hsz Hf; [by destruct fuel; [lia|]|].
  destruct fuel as [|fuel]; [lia|].
  change (encode_utf8_items (s :: ss)) with
    (encode_tlv TAG_UTF8_STRING (bytes_of s) ++ encode_utf8_items ss) in *.
  pose proof (zlen_encode_tlv TAG_UTF8_STRING (bytes_of s)).
  rewrite zlen_app in Hsz. pose proof (zlen_nonneg (encode_utf8_items ss)).
  pose proof (zlen_nonneg (bytes_of s)).
  erewrite utf8_items_step by (done || (apply read_tlv_enc; lia)).
  rewrite text_of_bytes_of, IH; [done|lia|]. rewrite length_app in Hf. unfold zlen in *. lia.
Qed.

Lemma parse_seq_of_utf8_enc ss :
  Forall (λ s, utf8_valid (bytes_of s) = true) ss →
  zlen (encode_utf8_seq ss) < 2 ^ 32 →
  parse_seq_of_utf8 (encode_utf8_seq ss) = Ok ss.
Proof.
  intros Hss Hsz. pose proof (zlen_encode_tlv TAG_SEQUENCE (encode_utf8_items ss)).
  fold (encode_utf8_seq ss) in *.
  unfold parse_seq_of_utf8. destruct (encode_utf8_seq ss) eqn:He; [done|]. rewrite <-He in *.
  unfold encode_utf8_seq. rewrite read_tlv_expect_enc_nil by lia. cbn [rbind map_err tlv_value].
  apply utf8_items_encode; [done|lia|lia].
Qed.

Lemma mask_shiftr j : 0 ≤ j < 8 → Z.shiftr 0x80 j = 2 ^ (7 - j).
Proof.
  intros Hj. change 0x80 with (2 ^ 7).
  rewrite Z.shiftr_div_pow2, <-Z.pow_sub_r by lia. done.
Qed.

Lemma mask_testbit z j :
  0 ≤ j < 8 → bool_decide (Z.land z (Z.shiftr 0x80 j) ≠ 0) = Z.testbit z (7 - j).
Proof.
  intros Hj. rewrite mask_shiftr, land_pow2 by lia.
  assert (0 < 2 ^ (7 - j)) by (apply Z.pow_pos_nonneg; lia).
  destruct (Z.testbit z _); [apply bool_decide_eq_true_2|apply bool_decide_eq_false_2]; lia.
Qed.

(** ** Theorems *)

(** C22: On the DER of a certificate whose [tbsCertificate] fields precede an
    extension list, [extract_extension_by_oid] returns the value of the first
    extension whose identifier is the target's, and [None] if there is none;
    whether an extension is marked critical does not matter. *)
Theorem extract_extension_by_oid_encode `{OpenSSL} fs xs sig target octets
    (Hoid : Asn1Object_from_str target = inr octets)
    (Hfs : Forall (λ f, f.1 ≠ TAG_EXPLICIT_3) fs)
    (Hsz : zlen (encode_cert fs xs sig) < 2 ^ 32) :
  extract_extension_by_oid (encode_cert fs xs sig) target =
    Ok (first_ext (λ oid, bool_decide (oid = octets)) xs).
Proof.
  unfold extract_extension_by_oid. rewrite Hoid. simpl.
  erewrite find_extension_encode; [done|done| |done]. by apply Forall_forall.
Qed.

Lemma extract_extension_by_oid_encode_witness :
  let oid := oid_encode 2 25 [183976554325829274683049824615098] in
  extract_extension_by_oid (H := Sample.openssl)
    (encode_cert [(TAG_INTEGER, [zb 7])]
       [MkExt [zb 0x55] true [zb 1]; MkExt oid true [zb 2; zb 3]; MkExt oid false [zb 4]] [])
    "2.25.183976554325829274683049824615098" = Ok (Some [zb 2; zb 3]).
Proof.
  intros oid. rewrite (extract_extension_by_oid_encode (H := Sample.openssl) _ _ _ _ oid).
  - by vm_compute.
  - by vm_compute.
  - repeat constructor. by vm_compute.
  - by vm_compute.
Defined.

(** Looking an extension up never panics and always ends, whatever the
    certificate bytes are, and neither does reading its list of strings. *)
Theorem extension_lookup_safe `{OpenSSL} der target value :
  no_panic (extract_extension_by_oid der target) ∧ no_panic (parse_seq_of_utf8 value).
Proof.
  split; [|auto with rust]. apply rbind_no_panic; [auto with rust|].
  intros octets _. apply map_err_no_panic, find_extension_no_panic. done.
Qed.

(** [parse_seq_of_utf8] reads back the strings of any encoded
    [SEQUENCE OF UTF8String], in order. *)
Theorem parse_seq_of_utf8_encode ss
    (Hss : Forall (λ s, utf8_valid (bytes_of s) = true) ss)
    (Hsz : zlen (encode_utf8_seq ss) < 2 ^ 32) :
  parse_seq_of_utf8 (encode_utf8_seq ss) = Ok ss.
Proof. by apply parse_seq_of_utf8_enc. Qed.

Lemma parse_seq_of_utf8_encode_witness :
  parse_seq_of_utf8 (encode_utf8_seq ["*"; "root"]) = Ok ["*"; "root"].
Proof. apply parse_seq_of_utf8_encode; [repeat constructor|done]. Defined.

(** [key_usage_bit] on a BIT STRING with at most eight unused bits returns
    bit [bit] of the string, counted from its most significant bit, and
    [false] from the first unused bit on; both build profiles agree. *)
Theorem test_key_usage_bit_spec `{BuildProfile} u bytes bit
    (Hbit : 0 ≤ bit) (Hu : bz u ≤ 8) (Hsz : zlen bytes < 2 ^ 31) :
  test_key_usage_bit (encode_tlv TAG_BIT_STRING (u :: bytes)) bit =
    Ok (bool_decide (bit < 8 * zlen bytes - bz u) &&
        Z.testbit (be_fold 0 bytes) (8 * zlen bytes - 1 - bit)).
Proof.
  unfold test_key_usage_bit.
  rewrite read_tlv_expect_enc_nil by (rewrite zlen_cons; lia). cbn [rbind tlv_value].
  rewrite decide_False by done. change (idx (u :: bytes) 0) with (@Ok TrustError _ u).
  rewrite (slice_from_app _ [u] bytes) by done. cbn [rbind].
  pose proof (bz_range u). pose proof (zlen_nonneg bytes).
  destruct (decide (bytes = [])) as [->|Hne].
  { rewrite bool_decide_eq_false_2 by (change (zlen (@nil byte)) with 0; lia). done. }
  destruct (decide (zlen bytes ≤ bit / 8)).
  { rewrite bool_decide_eq_false_2 by lia. done. }
  destruct (@idx_in TrustError _ bytes (bit / 8)) as (b & -> & Hb); [lia|].
  cbn [rbind]. rewrite mask_testbit by lia.
  set (last := decide (bit / 8 = zlen bytes - 1)).
  replace (if last then _ else _) with
    (@Ok TrustError _ (bool_decide (8 * zlen bytes - bz u ≤ bit))).
  - cbn [rbind]. case_bool_decide; [rewrite bool_decide_eq_false_2 by lia; done|].
    rewrite bool_decide_eq_true_2 by lia. simpl.
    apply (be_fold_testbit _ _ _ (7 - bit mod 8)) in Hb; [|lia].
    replace (8 * _ + _) with (8 * zlen bytes - 1 - bit) in Hb by lia. by rewrite Hb.
  - subst last. case_decide.
    + unfold sub_u8. rewrite decide_True by done. simpl. f_equal. apply bool_decide_ext. lia.
    + rewrite bool_decide_eq_false_2 by lia. done.
Qed.

Lemma test_key_usage_bit_spec_witness :
  test_key_usage_bit (H := Sample.release)
    (encode_tlv TAG_BIT_STRING [zb 5; zb 0xA0]) 2 = Ok true.
Proof.
  rewrite (test_key_usage_bit_spec (H := Sample.release)); [by vm_compute|lia| |done].
  by vm_compute.
Defined.

(** With more than eight unused bits (malformed, and not rejected) the two
    build profiles differ: a checked build panics, a release build wraps
    [8 - unused] and reads bits the string declares unused. *)
Theorem test_key_usage_bit_overlong_unused u b bit
    (Hbit : 0 ≤ bit < 8) (Hu : 8 < bz u) :
  test_key_usage_bit (H := Sample.dev)
    (encode_tlv TAG_BIT_STRING [u; b]) bit = Panic ∧
  test_key_usage_bit (H := Sample.release)
    (encode_tlv TAG_BIT_STRING [u; b]) bit = Ok (Z.testbit (bz b) (7 - bit)).
Proof.
  assert (∀ P : BuildProfile, @test_key_usage_bit P (encode_tlv TAG_BIT_STRING [u; b]) bit =
    let? used := sub_u8 8 (bz u) in
    if bool_decide (used ≤ bit) then Ok false
    else Ok (bool_decide (Z.land (bz b) (Z.shiftr 0x80 bit) ≠ 0))) as Heq.
  { intros P. unfold test_key_usage_bit. rewrite read_tlv_expect_enc_nil by done.
    cbn [rbind tlv_value]. rewrite decide_False by done.
    change (idx [u; b] 0) with (@Ok TrustError _ u).
    rewrite (slice_from_app _ [u] [b]) by done. cbn [rbind].
    rewrite Z.div_small, Z.mod_small by done. cbn. by destruct (sub_u8 8 (bz u)). }
  pose proof (bz_range u). rewrite !Heq. unfold sub_u8. rewrite !decide_False by lia.
  split; [done|]. cbn [Sample.release overflow_checks rbind].
  replace ((8 - bz u) mod 256) with (264 - bz u) by lia.
  rewrite bool_decide_eq_false_2 by lia. by rewrite mask_testbit by lia.
Qed.

Lemma test_key_usage_bit_overlong_unused_witness :
  test_key_usage_bit (H := Sample.release)
    (encode_tlv TAG_BIT_STRING [zb 9; zb 0x80]) 0 = Ok true.
Proof. apply (test_key_usage_bit_overlong_unused (zb 9) (zb 0x80) 0); [lia|by vm_compute]. Defined.
