(* ===== verification/Certificate.v ===== *)
(** * Certificates ([x509/mod.rs])

    The [Certificate] facade over OpenSSL, its accessors, the classification
    of signature algorithms ([x509/sig_alg.rs]) and the audit identity
    [CertIdent].  Times are [Z] nanoseconds since the Unix epoch;
    [SystemTime + Duration] panics past the [i64] seconds a Linux
    [SystemTime] holds. *)

From S2P Require Import Prelude Errors Openssl Der X509Ext.
Local Open Scope Z_scope.

Definition NANOS_PER_SEC : Z := 1000000000.

(** The largest Linux [SystemTime]: [i64::MAX] seconds and 999999999 ns. *)
Definition SYSTEM_TIME_MAX : Z := 2 ^ 63 * NANOS_PER_SEC - 1.

(** [SystemTime + Duration]. *)
Definition systime_add {E} (t d : Z) : res E Z :=
  if decide (t + d ≤ SYSTEM_TIME_MAX) then Ok (t + d) else Panic.

(** The [TimeDiff] in days and seconds, both [i32], so that the [i64]
    arithmetic and the [SystemTime] are in range. *)
Definition asn1_to_system (diff : option (Z * Z)) : Z :=
  match diff with
  | None => 0
  | Some (days, secs) =>
      let s := days * 86400 + secs in
      if decide (0 ≤ s) then 0 + s * NANOS_PER_SEC else 0 - (- s) * NANOS_PER_SEC
  end.

Inductive SignatureAlg : Type :=
| RsaWithSha256
| RsaWithSha384
| RsaWithSha512
| EcdsaWithSha256
| EcdsaWithSha384
| EcdsaWithSha512
| IdTc26SignWithDigestGostR341012_256
| IdTc26SignWithDigestGostR341012_512
| Other (s : string).

Definition from_oid_string (s : string) : SignatureAlg :=
  let one_of l := bool_decide (s ∈ l) in
  if one_of ["1.2.840.113549.1.1.11"; "rsa-with-sha256"; "sha256WithRSAEncryption"]
  then RsaWithSha256
  else if one_of ["1.2.840.113549.1.1.12"; "rsa-with-sha384"; "sha384WithRSAEncryption"]
  then RsaWithSha384
  else if one_of ["1.2.840.113549.1.1.13"; "rsa-with-sha512"; "sha512WithRSAEncryption"]
  then RsaWithSha512
  else if one_of ["1.2.840.10045.4.3.2"; "ecdsa-with-sha256"; "ecdsa-with-SHA256"]
  then EcdsaWithSha256
  else if one_of ["1.2.840.10045.4.3.3"; "ecdsa-with-sha384"; "ecdsa-with-SHA384"]
  then EcdsaWithSha384
  else if one_of ["1.2.840.10045.4.3.4"; "ecdsa-with-sha512"; "ecdsa-with-SHA512"]
  then EcdsaWithSha512
  else if one_of ["1.2.643.7.1.1.3.2"; "id-tc26-signwithdigest-gost3410-2012-256"]
  then IdTc26SignWithDigestGostR341012_256
  else if one_of ["1.2.643.7.1.1.3.3"; "id-tc26-signwithdigest-gost3410-2012-512"]
  then IdTc26SignWithDigestGostR341012_512
  else Other s.

Definition sig_alg_oid (a : SignatureAlg) : string :=
  match a with
  | RsaWithSha256 => "1.2.840.113549.1.1.11"
  | RsaWithSha384 => "1.2.840.113549.1.1.12"
  | RsaWithSha512 => "1.2.840.113549.1.1.13"
  | EcdsaWithSha256 => "1.2.840.10045.4.3.2"
  | EcdsaWithSha384 => "1.2.840.10045.4.3.3"
  | EcdsaWithSha512 => "1.2.840.10045.4.3.4"
  | IdTc26SignWithDigestGostR341012_256 => "1.2.643.7.1.1.3.2"
  | IdTc26SignWithDigestGostR341012_512 => "1.2.643.7.1.1.3.3"
  | Other s => s
  end.

Definition is_gost (a : SignatureAlg) : bool :=
  match a with
  | IdTc26SignWithDigestGostR341012_256 | IdTc26SignWithDigestGostR341012_512 => true
  | _ => false
  end.

Definition OID_CLIENT_AUTH : string := "1.3.6.1.5.5.7.3.2".

(** Serial, issuer, common name and fingerprint for the audit events. *)
Record CertIdent := MkCertIdent {
  ci_serial : string;
  ci_issuer : string;
  ci_cn : string;
  ci_fingerprint : string;
}.

Section with_openssl.
Context `{OpenSSL}.

Record Certificate := MkCertificate {
  inner : X509;
  der_cache : list byte;
}.

Definition from_der (der : list byte) : res TrustError Certificate :=
  let? x := map_err CertParse (of_sum (X509_from_der der)) in
  Ok (MkCertificate x der).

Definition from_pem (pem : list byte) : res TrustError Certificate :=
  let? x := map_err CertParse (of_sum (X509_from_pem pem)) in
  let? der := map_err CertParse (of_sum (X509_to_der x)) in
  Ok (MkCertificate x der).

(** The first entry with the NID, as UTF-8. *)
Definition first_text_by_nid (name : X509Name) (nid : Z) : option string :=
  match List.filter (λ e, bool_decide (ne_nid e = nid)) (X509Name_entries name) with
  | [] => None
  | e :: _ => ne_utf8 e
  end.

Definition subject_cn (c : Certificate) : res TrustError string :=
  ok_or (first_text_by_nid (X509_subject_name (inner c)) NID_COMMONNAME)
        (FieldMissing "subject CN").

Definition san_emails (c : Certificate) : list string :=
  match X509_subject_alt_names (inner c) with
  | Some stack => omap id stack
  | None => []
  end.

Definition serial_hex (c : Certificate) : string :=
  default "" (X509_serial_hex (inner c)).

Definition not_before (c : Certificate) : Z :=
  asn1_to_system (X509_not_before (inner c)).

Definition not_after (c : Certificate) : Z :=
  asn1_to_system (X509_not_after (inner c)).

Definition signature_algorithm (c : Certificate) : string :=
  X509_signature_algorithm (inner c).

Definition signature_alg (c : Certificate) : SignatureAlg :=
  from_oid_string (signature_algorithm c).

Definition version (c : Certificate) : Z := X509_version (inner c).

Definition key_usage_digital_signature `{BuildProfile} (c : Certificate) : res TrustError bool :=
  key_usage_bit (inner c) 0.

Definition key_usage_key_cert_sign `{BuildProfile} (c : Certificate) : res TrustError bool :=
  key_usage_bit (inner c) 5.

Definition eku_oids (c : Certificate) : res TrustError (list string) :=
  ext_eku_oids (inner c).

Definition eku_client_auth (c : Certificate) : res TrustError bool :=
  let? oids := eku_oids c in
  Ok (existsb (λ o, bool_decide (o = OID_CLIENT_AUTH)) oids).

Definition ski (c : Certificate) : option (list byte) := ext_ski (inner c).

Definition aki (c : Certificate) : option (list byte) := ext_aki_key_id (inner c).

Definition basic_constraints (c : Certificate)
    : res TrustError (option BasicConstraintsView) :=
  ext_basic_constraints (inner c).

Definition public_key (c : Certificate) : res TrustError PKey :=
  map_err Openssl (of_sum (X509_public_key (inner c))).

(** [format!("{nid}={val}")] of each entry, joined by commas. *)
Definition render_issuer (name : X509Name) : string :=
  String.concat ","
    ((λ e, default "" (ne_short_name e) +:+ "=" +:+ default "" (ne_utf8 e))
       <$> X509Name_entries name).

(** [CertIdent::from(&VerifiedX509)]. *)
Definition cert_ident (x : X509) : CertIdent :=
  MkCertIdent
    (default "" (X509_serial_hex x))
    (render_issuer (X509_issuer_name x))
    (default "" (first_text_by_nid (X509_subject_name x) NID_COMMONNAME))
    (match X509_digest_sha256 x with inr d => hex_encode d | inl _ => "" end).

End with_openssl.

(** ** Lemmas *)

Lemma eku_items_no_panic fuel rest :
  (length rest < fuel)%nat → no_panic (eku_items fuel rest).
Proof.
  revert rest. induction fuel as [|f IH]; intros rest Hf; [lia|].
  destruct rest as [|b r]; [done|]. cbn [eku_items].
  apply rbind_no_panic; [auto with rust|]. intros t Ht.
  apply rbind_no_panic; [auto with rust|]. intros d _.
  apply rbind_no_panic; [|done]. apply IH.
  apply read_tlv_expect_inv in Ht as [Ht%read_tlv_shrinks _]. lia.
Qed.

Lemma path_len_acc_no_panic acc bs : no_panic (path_len_acc acc bs).
Proof. revert acc. induction bs; intros acc; simpl; [done|]. case_decide; auto with rust. Qed.

Lemma parse_basic_constraints_no_panic v : no_panic (parse_basic_constraints v).
Proof.
  apply rbind_no_panic; [auto with rust|]. intros seq _.
  apply rbind_no_panic.
  - destruct (tlv_value seq); [done|]. apply rbind_no_panic; [auto with rust|].
    intros t _. by case_decide.
  - intros [ca rest] _. destruct rest; [done|]. apply rbind_no_panic; [auto with rust|].
    intros t _. case_decide; [|done]. apply rbind_no_panic; [apply path_len_acc_no_panic|done].
Qed.

#[export] Hint Resolve eku_items_no_panic parse_basic_constraints_no_panic : rust.

Section no_panic.
Context `{OpenSSL}.

Lemma extension_value_no_panic x oid : no_panic (extension_value x oid).
Proof.
  apply rbind_no_panic; [auto with rust|]. intros der _. apply find_extension_no_panic.
  intros o. apply rbind_no_panic; [auto with rust|done].
Qed.

Lemma eku_client_auth_no_panic c : no_panic (eku_client_auth c).
Proof.
  apply rbind_no_panic; [|done]. apply rbind_no_panic; [apply extension_value_no_panic|].
  intros [v|] _; [|done]. apply rbind_no_panic; [auto with rust|].
  intros seq _. apply eku_items_no_panic. lia.
Qed.

Lemma basic_constraints_no_panic c : no_panic (basic_constraints c).
Proof.
  apply rbind_no_panic; [apply extension_value_no_panic|].
  intros [v|] _; [|done]. apply rbind_no_panic; [auto with rust|done].
Qed.

Lemma public_key_no_panic c : no_panic (public_key c).
Proof. apply map_err_no_panic. auto with rust. Qed.

End no_panic.

#[export] Hint Resolve extension_value_no_panic eku_client_auth_no_panic
  basic_constraints_no_panic public_key_no_panic : rust.

Lemma from_oid_string_oid a : (∀ s, a ≠ Other s) → from_oid_string (sig_alg_oid a) = a.
Proof. destruct a; intros Ho; try by vm_compute. by destruct (Ho s). Qed.
