(* ===== verification/HostBinding.v ===== *)
(** * Host and user authorisation by the certificate

    The extension parsers [x509/host_binding_ext.rs] and
    [x509/user_binding_ext.rs], the gate [verify_cert_scope] of
    [host_binding.rs], and the legacy [[user_mapping]] lookup of
    [mapping.rs].  Where the code stores the text of another error, the model
    keeps that error ([BindingDiag]). *)

From S2P Require Import Prelude Errors Openssl Der Sample X509Ext Certificate.
Local Open Scope Z_scope.

Definition HOST_BINDING_OID : string := "2.25.183976554325829274683049824615098".
Definition USER_BINDING_OID : string := "2.25.215438916728501023845629178354627".
Definition MAX_INTEGRITY_OID : string := "2.25.273824307386008814506455310913083078403".

Inductive HostDescriptor : Type :=
| HostWildcard
| Sha256Hex (hex : string)
| Raw (s : string).

Inductive UserDescriptor : Type :=
| UserWildcard
| Exact (s : string).

Inductive BindingDiag : Type :=
| DiagOpenssl (e : ErrorStack)
| DiagDer (e : DerError)
| DiagDigest (rest : string)
| DiagNoEntries.

Inductive HostBindingExtError : Type :=
| HostMissing
| HostMalformed (d : BindingDiag)
| HostEmpty.

Inductive UserBindingExtError : Type :=
| UserMissing
| UserMalformed (d : BindingDiag)
| UserEmpty.

Inductive HostBindingError : Type :=
| HostExtensionMissing
| UserExtensionMissing
| HostExtensionMalformed (d : BindingDiag)
| UserExtensionMalformed (d : BindingDiag)
| HostNotAllowed (host_id_hash_prefix : string)
| UserNotAllowed (pam_user : string).

(** [From<HostBindingExtError> for HostBindingError]. *)
Definition from_host_ext (e : HostBindingExtError) : HostBindingError :=
  match e with
  | HostMissing => HostExtensionMissing
  | HostMalformed m => HostExtensionMalformed m
  | HostEmpty => HostExtensionMalformed DiagNoEntries
  end.

(** [From<UserBindingExtError> for HostBindingError]. *)
Definition from_user_ext (e : UserBindingExtError) : HostBindingError :=
  match e with
  | UserMissing => UserExtensionMissing
  | UserMalformed m => UserExtensionMalformed m
  | UserEmpty => UserExtensionMalformed DiagNoEntries
  end.

Definition classify (s : string) : res HostBindingExtError HostDescriptor :=
  if decide (s = "*") then Ok HostWildcard else
  let? is_sha :=
    if decide (7 ≤ str_len s) then
      let? head := str_to s 7 in Ok (eq_ignore_ascii_case head "sha256:")
    else Ok false in
  if (is_sha : bool) then
    let? rest := str_from s 7 in
    let lowered := to_ascii_lowercase rest in
    if bool_decide (str_len lowered ≠ 64) || negb (forallb is_ascii_hexdigit (bytes_of lowered))
    then Err (HostMalformed (DiagDigest rest))
    else Ok (Sha256Hex lowered)
  else Ok (Raw s).

Fixpoint classify_all (ss : list string) : res HostBindingExtError (list HostDescriptor) :=
  match ss with
  | [] => Ok []
  | s :: r =>
      let? d := classify s in
      let? out := classify_all r in
      Ok (d :: out)
  end.

Section binding.
Context `{OpenSSL}.

Definition host_binding_parse (cert : X509) : res HostBindingExtError (list HostDescriptor) :=
  let? der := map_err (HostMalformed ∘ DiagOpenssl) (of_sum (X509_to_der cert)) in
  let? found := map_err (HostMalformed ∘ DiagDer) (extract_extension_by_oid der HOST_BINDING_OID) in
  let? value := ok_or found HostMissing in
  let? strings := map_err (HostMalformed ∘ DiagDer) (parse_seq_of_utf8 value) in
  if decide (strings = []) then Err HostEmpty else classify_all strings.

Definition user_binding_parse (cert : X509) : res UserBindingExtError (list UserDescriptor) :=
  let? der := map_err (UserMalformed ∘ DiagOpenssl) (of_sum (X509_to_der cert)) in
  let? found := map_err (UserMalformed ∘ DiagDer) (extract_extension_by_oid der USER_BINDING_OID) in
  let? value := ok_or found UserMissing in
  let? strings := map_err (UserMalformed ∘ DiagDer) (parse_seq_of_utf8 value) in
  if decide (strings = []) then Err UserEmpty else
  Ok ((λ s, if decide (s = "*") then UserWildcard else Exact s) <$> strings).

Definition sha256_hex `{Sha256} (input : string) : string :=
  hex_encode (sha256 (bytes_of input)).

Definition host_matches `{Sha256} (host_id_hash : string) (d : HostDescriptor) : bool :=
  match d with
  | HostWildcard => true
  | Sha256Hex hex => eq_ignore_ascii_case hex host_id_hash
  | Raw s => eq_ignore_ascii_case (sha256_hex s) host_id_hash
  end.

Definition verify_host_binding `{Sha256} (cert : X509) (host_id_hash : string)
    : res HostBindingError unit :=
  let? descriptors := map_err from_host_ext (host_binding_parse cert) in
  if existsb (host_matches host_id_hash) descriptors then Ok tt
  else Err (HostNotAllowed (chars_take 8 host_id_hash)).

Definition user_matches (pam_user : string) (d : UserDescriptor) : bool :=
  match d with
  | UserWildcard => true
  | Exact s => bool_decide (s = pam_user)
  end.

Definition verify_user_binding (cert : X509) (pam_user : string)
    : res HostBindingError unit :=
  let? descriptors := map_err from_user_ext (user_binding_parse cert) in
  if existsb (user_matches pam_user) descriptors then Ok tt
  else Err (UserNotAllowed pam_user).

Definition verify_cert_scope `{Sha256} (cert : X509) (host_id_hash pam_user : string)
    : res HostBindingError unit :=
  check verify_host_binding cert host_id_hash;
  check verify_user_binding cert pam_user;
  Ok tt.

End binding.

(** ** The legacy mapping *)

Inductive UserMatchCriteria : Type :=
| SubjectCn (want : string)
| SanEmail (want : string)
| SanUpn (want : string).

Record UserMapping := MkUserMapping {
  um_pam_user : string;
  criteria : UserMatchCriteria;
}.

Inductive MatchReason : Type :=
| ByCnExact
| BySanEmail
| BySanUpn.

Record MatchedMapping := MkMatchedMapping {
  mm_pam_user : string;
  matched_by : MatchReason;
}.

Inductive MappingError : Type :=
| NoMappingForUser (pam_user : string)
| EmptyMapping (pam_user : string)
| SubjectMismatch (pam_user : string) (expected_cn found_cn expected_email : option string)
                  (found_emails : list string)
| MappingCert (e : TrustError).

(** The loop over the candidates: [inl] is an early return, [inr] the first
    expected CN and email seen. *)
Fixpoint match_candidates (cn : option string) (sans : list string)
    (candidates : list UserMapping) (expected_cn expected_email : option string)
    : MatchedMapping + (option string * option string) :=
  match candidates with
  | [] => inr (expected_cn, expected_email)
  | m :: r =>
      match criteria m with
      | SubjectCn want =>
          let expected_cn := Some (default want expected_cn) in
          if decide (cn = Some want) then inl (MkMatchedMapping (um_pam_user m) ByCnExact)
          else match_candidates cn sans r expected_cn expected_email
      | SanEmail want =>
          let expected_email := Some (default want expected_email) in
          if existsb (λ e, bool_decide (e = want)) sans
          then inl (MkMatchedMapping (um_pam_user m) BySanEmail)
          else match_candidates cn sans r expected_cn expected_email
      | SanUpn _ => match_candidates cn sans r expected_cn expected_email
      end
  end.

Definition match_user `{OpenSSL} (end_entity : Certificate) (pam_user : string)
    (mappings : list UserMapping) : res MappingError MatchedMapping :=
  let cn := match subject_cn end_entity with Ok c => Some c | _ => None end in
  let sans := san_emails end_entity in
  let candidates := List.filter (λ m, bool_decide (um_pam_user m = pam_user)) mappings in
  if decide (candidates = []) then Err (NoMappingForUser pam_user) else
  match match_candidates cn sans candidates None None with
  | inl m => Ok m
  | inr (None, None) => Err (EmptyMapping pam_user)
  | inr (expected_cn, expected_email) =>
      Err (SubjectMismatch pam_user expected_cn cn expected_email sans)
  end.

(** ** What the descriptors promise

    An entry of the host extension, read as a string, authorises the host
    hash: the wildcard, a [sha256:] digest equal to the hash, or a raw machine
    id that hashes to it.  Comparisons of hex ignore case. *)

Definition has_sha_prefix (s : string) : Prop :=
  to_ascii_lowercase (text_of (take 7 (bytes_of s))) = "sha256:".

Definition sha_digest (s : string) : string :=
  to_ascii_lowercase (text_of (drop 7 (bytes_of s))).

Definition is_digest (h : string) : Prop :=
  str_len h = 64 ∧ forallb is_ascii_hexdigit (bytes_of h) = true.

(** A well-formed entry: what follows [sha256:] has 64 hex digits; any other
    string is a raw machine id. *)
Definition entry_wf (s : string) : Prop := has_sha_prefix s → is_digest (sha_digest s).

(** Byte 7 is not inside a character: the slice [s[..7]] of [classify] does not
    panic. *)
Definition cuts_at_7 (s : string) : Prop := str_len s < 7 ∨ is_char_boundary s 7 = true.

Definition host_authorises `{Sha256} (host_id_hash s : string) : Prop :=
  s = "*" ∨
  s ≠ "*" ∧ has_sha_prefix s ∧ sha_digest s = to_ascii_lowercase host_id_hash ∨
  s ≠ "*" ∧ ¬ has_sha_prefix s ∧
    to_ascii_lowercase (sha256_hex s) = to_ascii_lowercase host_id_hash.

Definition user_authorises (pam_user s : string) : Prop := s = "*" ∨ s = pam_user.

(** The strings of the extension [oid] of the certificate. *)
Definition ext_strings `{OpenSSL} (cert : X509) (oid : string) (ss : list string) : Prop :=
  ∃ der value, X509_to_der cert = inr der ∧
    extract_extension_by_oid der oid = Ok (Some value) ∧
    parse_seq_of_utf8 value = Ok ss ∧ ss ≠ [].

(** What the two extensions promise: both are present, well formed and not
    empty, a host entry authorises the hash and a user entry the user. *)
Definition in_scope `{OpenSSL, Sha256} (cert : X509) (host_id_hash pam_user : string) : Prop :=
  ∃ hosts users,
    ext_strings cert HOST_BINDING_OID hosts ∧ ext_strings cert USER_BINDING_OID users ∧
    Forall entry_wf hosts ∧ Exists (host_authorises host_id_hash) hosts ∧
    Exists (user_authorises pam_user) users.

Definition criterion_holds `{OpenSSL} (c : Certificate) (k : UserMatchCriteria) : Prop :=
  match k with
  | SubjectCn want => subject_cn c = Ok want
  | SanEmail want => want ∈ san_emails c
  | SanUpn _ => False
  end.

(** ** Lemmas *)

Lemma byte_lower_idem b : byte_lower (byte_lower b) = byte_lower b.
Proof. by destruct b; vm_compute. Qed.

Lemma to_ascii_lowercase_idem s :
  to_ascii_lowercase (to_ascii_lowercase s) = to_ascii_lowercase s.
Proof.
  unfold to_ascii_lowercase. rewrite bytes_of_text_of. f_equal.
  rewrite <-list_fmap_compose. apply list_fmap_ext. intros i b _. apply byte_lower_idem.
Qed.

Lemma str_len_lower s : str_len (to_ascii_lowercase s) = str_len s.
Proof. unfold str_len, to_ascii_lowercase, zlen. by rewrite bytes_of_text_of, length_fmap. Qed.

Lemma str_to_ok {E} s i :
  0 ≤ i ≤ str_len s → is_char_boundary s i = true →
  @str_to E s i = Ok (text_of (take (Z.to_nat i) (bytes_of s))).
Proof.
  intros Hi Hb. unfold str_to, slice_to. rewrite Hb.
  rewrite slice_in by (unfold str_len in Hi; lia). simpl. by rewrite Z.sub_0_r, drop_0.
Qed.

Lemma str_from_ok {E} s i :
  0 ≤ i ≤ str_len s → is_char_boundary s i = true →
  @str_from E s i = Ok (text_of (drop (Z.to_nat i) (bytes_of s))).
Proof.
  intros Hi Hb. unfold str_from, slice_from. rewrite Hb. unfold str_len in Hi.
  rewrite slice_in by lia. cbn [rbind]. rewrite take_ge; [done|].
  rewrite length_drop. unfold zlen in *. lia.
Qed.

Lemma has_sha_prefix_len s : has_sha_prefix s → 7 ≤ str_len s.
Proof.
  intros Hp. assert (str_len (text_of (take 7 (bytes_of s))) = 7) as Hl.
  { by rewrite <-str_len_lower, Hp. }
  unfold str_len, zlen in *. rewrite bytes_of_text_of, length_take in Hl. lia.
Qed.

(** [classify] by cases, for a string whose byte 7 does not continue a
    character. *)
Lemma classify_eq s :
  s ≠ "*" → cuts_at_7 s →
  (has_sha_prefix s ∧
   classify s =
     if bool_decide (str_len (sha_digest s) ≠ 64) ||
        negb (forallb is_ascii_hexdigit (bytes_of (sha_digest s)))
     then Err (HostMalformed (DiagDigest (text_of (drop 7 (bytes_of s)))))
     else Ok (Sha256Hex (sha_digest s)))
  ∨ (¬ has_sha_prefix s ∧ classify s = Ok (Raw s)).
Proof.
  intros Hs Hb. unfold classify. rewrite decide_False by done.
  destruct (decide (7 ≤ str_len s)) as [Hl|Hl].
  - destruct Hb as [Hb|Hb]; [lia|]. rewrite str_to_ok, str_from_ok by (done || lia).
    cbn [rbind]. unfold eq_ignore_ascii_case.
    change (to_ascii_lowercase "sha256:") with "sha256:". case_bool_decide; [left|right]; done.
  - right. split; [|done]. by intros Hp%has_sha_prefix_len.
Qed.

Lemma is_digest_spec h :
  is_digest h ↔
  bool_decide (str_len h ≠ 64) || negb (forallb is_ascii_hexdigit (bytes_of h)) = false.
Proof.
  rewrite orb_false_iff, negb_false_iff, bool_decide_eq_false. unfold is_digest.
  split; intros [? ?]; (split; [lia|done]).
Qed.

Lemma classify_all_inv ss ds :
  classify_all ss = Ok ds → Forall2 (λ s d, classify s = Ok d) ss ds.
Proof.
  revert ds. induction ss as [|s ss IH]; intros ds Hc; simpl in Hc; invert_ok Hc; subst;
    constructor; eauto.
Qed.

Lemma classify_all_Ok ss ds :
  Forall2 (λ s d, classify s = Ok d) ss ds → classify_all ss = Ok ds.
Proof. induction 1 as [|s d ss ds Hs _ IH]; [done|]. simpl. by rewrite Hs, IH. Qed.

Lemma classify_star : classify "*" = Ok HostWildcard.
Proof. done. Qed.

Lemma off_boundary_panics s :
  s ≠ "*" → 7 ≤ str_len s → is_char_boundary s 7 = false → classify s = Panic.
Proof.
  intros Hs Hl Hb. unfold classify. rewrite decide_False, decide_True by done.
  unfold str_to. by rewrite Hb.
Qed.

Lemma cuts_at_7_dec s : cuts_at_7 s ∨ 7 ≤ str_len s ∧ is_char_boundary s 7 = false.
Proof.
  unfold cuts_at_7. destruct (is_char_boundary s 7); [by left; right|].
  destruct (decide (str_len s < 7)); [by left; left|]. right. split; [lia|done].
Qed.

Lemma classify_ok_iff s : (∃ d, classify s = Ok d) ↔ cuts_at_7 s ∧ entry_wf s.
Proof.
  unfold entry_wf. destruct (decide (s = "*")) as [->|Hs].
  { split; [intros _|by eauto]. by split; [left|intros Hp%has_sha_prefix_len]. }
  destruct (cuts_at_7_dec s) as [Hb|[Hl Hf]].
  - pose proof (is_digest_spec (sha_digest s)) as Hd.
    destruct (classify_eq s Hs Hb) as [[Hp ->]|[Hp ->]].
    2:{ split; [intros _; by split|by eauto]. }
    destruct (_ || _).
    + split; [by intros [? [=]]|]. intros [_ Hi]. by apply Hi, Hd in Hp.
    + split; [|by eauto]. intros _. split; [done|]. intros _. by apply Hd.
  - rewrite off_boundary_panics by done. split; [by intros [? [=]]|].
    intros [[?|?] _]; [lia|congruence].
Qed.

Lemma host_matches_classify `{Sha256} h s d :
  classify s = Ok d → host_matches h d = true ↔ host_authorises h s.
Proof.
  intros Hc. unfold host_authorises. destruct (decide (s = "*")) as [->|Hs].
  { injection Hc as <-. split; [by left|done]. }
  destruct (proj1 (classify_ok_iff s)) as [Hb _]; [eauto|].
  destruct (classify_eq s Hs Hb) as [[Hp Heq]|[Hp Heq]]; rewrite Heq in Hc.
  - destruct (_ || _); [done|]. injection Hc as <-. simpl. unfold eq_ignore_ascii_case.
    assert (to_ascii_lowercase (sha_digest s) = sha_digest s) as ->
      by apply to_ascii_lowercase_idem.
    rewrite bool_decide_eq_true. split; [by right; left|].
    intros [?|[(_ & _ & ?)|(_ & ? & _)]]; done.
  - injection Hc as <-. simpl. unfold eq_ignore_ascii_case.
    rewrite bool_decide_eq_true. split; [by right; right|].
    intros [?|[(_ & ? & _)|(_ & _ & ?)]]; done.
Qed.

Lemma existsb_Forall2 {A B} (P : A → B → Prop) (f : B → bool) (Q : A → Prop) l k :
  Forall2 P l k → (∀ a b, P a b → f b = true ↔ Q a) → existsb f k = true ↔ Exists Q l.
Proof.
  intros Hlk HPQ. induction Hlk as [|a b l k Hab _ IH]; simpl.
  - by rewrite Exists_nil.
  - rewrite orb_true_iff, Exists_cons, IH, (HPQ a b) by done. done.
Qed.

Lemma if_Ok_iff {E} (b : bool) (e : E) : (if b then Ok tt else Err e) = Ok tt ↔ b = true.
Proof. by destruct b. Qed.

Lemma verify_host_binding_iff `{OpenSSL, Sha256} cert h :
  verify_host_binding cert h = Ok tt ↔
  ∃ ss, ext_strings cert HOST_BINDING_OID ss ∧ Forall (λ s, cuts_at_7 s ∧ entry_wf s) ss ∧
    Exists (host_authorises h) ss.
Proof.
  unfold verify_host_binding, ext_strings. split.
  - intros Hv. apply rbind_Ok_inv in Hv as (ds & Hd%map_err_Ok_inv & Hv%if_Ok_iff).
    unfold host_binding_parse in Hd. invert_ok Hd.
    destruct a0 as [value|]; simplify_eq/=. case_decide as Hne; [done|].
    apply map_err_Ok_inv in Hok, Hok0, Hok2. apply classify_all_inv in Hd.
    exists a2. split_and!.
    + exists a, a1. destruct (X509_to_der cert); by simplify_eq/=.
    + apply Forall_forall. intros s Hs. apply classify_ok_iff.
      apply list_elem_of_lookup in Hs as [i Hi].
      destruct (Forall2_lookup_l _ _ _ _ _ Hd Hi) as (d & _ & ?). eauto.
    + eapply existsb_Forall2; [apply Hd| |done]. intros s d. apply host_matches_classify.
  - intros (ss & (der & value & Hder & Hx & Hp & Hne) & Hok & Hex).
    assert (∃ ds, Forall2 (λ s d, classify s = Ok d) ss ds) as [ds Hds].
    { clear -Hok. induction Hok as [|s ss Hs _ [ds IH]]; [by exists []|].
      apply classify_ok_iff in Hs as [d Hd]. exists (d :: ds). by constructor. }
    unfold host_binding_parse. rewrite Hder. simpl. rewrite Hx. simpl. rewrite Hp. simpl.
    rewrite decide_False by done. rewrite (classify_all_Ok _ _ Hds). simpl.
    apply if_Ok_iff. eapply existsb_Forall2; [apply Hds| |done].
    intros s d. apply host_matches_classify.
Qed.

Lemma verify_user_binding_iff `{OpenSSL} cert u :
  verify_user_binding cert u = Ok tt ↔
  ∃ ss, ext_strings cert USER_BINDING_OID ss ∧ Exists (user_authorises u) ss.
Proof.
  assert (∀ ss, existsb (user_matches u)
    ((λ s, if decide (s = "*") then UserWildcard else Exact s) <$> ss) = true ↔
    Exists (user_authorises u) ss) as Hm.
  { intros ss. eapply (existsb_Forall2 (λ s d, d = if decide (s = "*") then _ else _)).
    - apply Forall2_fmap_r, Forall_Forall2_diag. by apply Forall_forall.
    - intros s d ->. unfold user_authorises. case_decide; simpl.
      + split; [by left|done].
      + rewrite bool_decide_eq_true. split; [by right|]. by intros [?|?]. }
  unfold verify_user_binding, ext_strings. split.
  - intros Hv. apply rbind_Ok_inv in Hv as (ds & Hd%map_err_Ok_inv & Hv%if_Ok_iff).
    unfold user_binding_parse in Hd. invert_ok Hd.
    destruct a0 as [value|]; simplify_eq/=. case_decide as Hne; [done|]. simplify_eq.
    apply map_err_Ok_inv in Hok, Hok0, Hok2. exists a2. split; [|by apply Hm].
    exists a, a1. destruct (X509_to_der cert); by simplify_eq/=.
  - intros (ss & (der & value & Hder & Hx & Hp & Hne) & Hex).
    unfold user_binding_parse. rewrite Hder. simpl. rewrite Hx. simpl. rewrite Hp. simpl.
    rewrite decide_False by done. simpl. apply if_Ok_iff. by apply Hm.
Qed.

Definition matched_on (cn : option string) (sans : list string)
    (m : MatchedMapping) (k : UserMapping) : Prop :=
  um_pam_user k = mm_pam_user m ∧
  match criteria k with
  | SubjectCn want => cn = Some want ∧ matched_by m = ByCnExact
  | SanEmail want => want ∈ sans ∧ matched_by m = BySanEmail
  | SanUpn _ => False
  end.

Lemma match_candidates_inl cn sans ms ec ee m :
  match_candidates cn sans ms ec ee = inl m → ∃ k, k ∈ ms ∧ matched_on cn sans m k.
Proof.
  revert ec ee. induction ms as [|k ms IH]; intros ec ee Hm; [done|]. simpl in Hm.
  assert (∀ ec ee, match_candidates cn sans ms ec ee = inl m →
                   ∃ k', k' ∈ k :: ms ∧ matched_on cn sans m k') as IH'.
  { intros ec' ee' (k' & Hk' & Hrest)%IH. exists k'. split; [by right|exact Hrest]. }
  unfold matched_on in *. destruct (criteria k) as [want|want|want] eqn:Hk; [| |by eauto].
  - case_decide; [|by eauto]. simplify_eq. exists k. rewrite Hk. split; [by left|done].
  - destruct (existsb _ sans) eqn:He; [|by eauto]. simplify_eq. exists k. rewrite Hk.
    apply existsb_exists in He as (e & He%list_elem_of_In & ->%bool_decide_eq_true).
    split; [by left|done].
Qed.

Lemma match_candidates_inr cn sans ms ec ee r :
  match_candidates cn sans ms ec ee = inr r →
  ∀ k, k ∈ ms → match criteria k with
    | SubjectCn want => cn ≠ Some want
    | SanEmail want => want ∉ sans
    | SanUpn _ => True
    end.
Proof.
  revert ec ee. induction ms as [|k ms IH]; intros ec ee Hm k' Hk'; [by apply elem_of_nil in Hk'|].
  simpl in Hm. apply elem_of_cons in Hk' as [->|Hk'].
  - destruct (criteria k) as [want|want|want]; [by case_decide| |done].
    destruct (existsb _ sans) eqn:He; [done|]. intros Hin. apply not_true_iff_false in He.
    apply He, existsb_exists. exists want. rewrite <-list_elem_of_In, bool_decide_eq_true. done.
  - destruct (criteria k); [case_decide; [done|]|destruct (existsb _ sans); [done|]|];
      by eapply IH.
Qed.

(** ** Theorems *)

(** C4: [verify_cert_scope] accepts a certificate for a host hash and a user
    only when both binding extensions are present, well formed and non-empty,
    some host entry authorises the hash and some user entry the user; and it
    accepts every such certificate, provided that no host entry has a character
    across its byte 7, where the parser panics. *)
Theorem verify_cert_scope_iff `{OpenSSL, Sha256} cert host_id_hash pam_user :
  (verify_cert_scope cert host_id_hash pam_user = Ok tt → in_scope cert host_id_hash pam_user) ∧
  ((∀ hosts, ext_strings cert HOST_BINDING_OID hosts → Forall cuts_at_7 hosts) →
   in_scope cert host_id_hash pam_user → verify_cert_scope cert host_id_hash pam_user = Ok tt).
Proof.
  unfold verify_cert_scope. split.
  - intros Hv. apply rbind_Ok_inv in Hv as ([] & (hs & ? & [_ ?]%Forall_and & ?)%verify_host_binding_iff & Hv).
    apply rbind_Ok_inv in Hv as ([] & (us & ? & ?)%verify_user_binding_iff & _).
    by exists hs, us.
  - intros Hcut (hs & us & Hx & ? & ? & ? & ?).
    assert (verify_host_binding cert host_id_hash = Ok tt) as ->.
    { apply verify_host_binding_iff. exists hs. rewrite Forall_and. eauto. }
    assert (verify_user_binding cert pam_user = Ok tt) as ->
      by (apply verify_user_binding_iff; eauto). done.
Qed.

(** [classify] panics exactly on the host entries, other than the wildcard,
    of at least seven bytes whose byte 7 lies inside a UTF-8 character. *)
Theorem classify_panic_iff s :
  classify s = Panic ↔ s ≠ "*" ∧ 7 ≤ str_len s ∧ is_char_boundary s 7 = false.
Proof.
  split; [|intros (? & ? & ?); by apply off_boundary_panics].
  intros Hp. assert (s ≠ "*") as Hs by (intros ->; done). split; [done|].
  destruct (cuts_at_7_dec s) as [Hb|Hb]; [|done].
  destruct (classify_eq s Hs Hb) as [[_ Heq]|[_ Heq]]; rewrite Heq in Hp; [|done].
  by destruct (_ || _).
Qed.

(** A host binding entry of four Cyrillic letters makes the parser of the
    extension panic: [parse] unwinds on a certificate that carries it. *)
Theorem host_binding_parse_panics `{OpenSSL} cert der value
    (Hder : X509_to_der cert = inr der)
    (Hx : extract_extension_by_oid der HOST_BINDING_OID = Ok (Some value))
    (Hv : value = encode_utf8_seq
       [text_of (zb <$> [0xD0; 0xB0; 0xD0; 0xB1; 0xD0; 0xB2; 0xD0; 0xB3])]) :
  host_binding_parse cert = Panic.
Proof.
  unfold host_binding_parse. rewrite Hder. cbn [map_err of_sum rbind]. rewrite Hx.
  cbn [map_err ok_or rbind]. subst value. rewrite parse_seq_of_utf8_enc.
  - by vm_compute.
  - repeat constructor.
  - by vm_compute.
Qed.

Lemma host_binding_parse_panics_witness :
  let value := encode_utf8_seq
    [text_of (zb <$> [0xD0; 0xB0; 0xD0; 0xB1; 0xD0; 0xB2; 0xD0; 0xB3])] in
  let oid := oid_encode 2 25 [183976554325829274683049824615098] in
  let der := encode_cert [] [MkExt oid false value] [] in
  host_binding_parse (H := Sample.openssl)
    (Sample.MkCert der "" "" None "" 0 0 "" "" "") = Panic.
Proof.
  intros value oid der.
  apply (host_binding_parse_panics (H := Sample.openssl) _ der value); [done| |done].
  by vm_compute.
Defined.

Lemma match_user_Ok `{OpenSSL} c pam_user mappings m :
  match_user c pam_user mappings = Ok m → mm_pam_user m = pam_user.
Proof.
  unfold match_user. set (cands := List.filter _ mappings). case_decide; [done|].
  destruct (match_candidates _ _ cands _ _) as [m'|[[?|] [?|]]] eqn:Hmc; try done.
  intros [= ->]. apply match_candidates_inl in Hmc as (k & Hin & <- & _).
  unfold cands in Hin. by apply list_elem_of_In, filter_In in Hin as [_ ?%bool_decide_eq_true].
Qed.

Lemma match_user_exists `{OpenSSL} c pam_user mappings :
  (∃ m, match_user c pam_user mappings = Ok m ∧ mm_pam_user m = pam_user) ↔
  Exists (λ k, um_pam_user k = pam_user ∧ criterion_holds c (criteria k)) mappings.
Proof.
  unfold match_user. rewrite Exists_exists.
  set (cn := match subject_cn c with Ok n => Some n | _ => None end).
  set (cands := List.filter _ mappings).
  assert (∀ k, k ∈ cands ↔ k ∈ mappings ∧ um_pam_user k = pam_user) as Hc.
  { intros k. unfold cands. by rewrite !list_elem_of_In, filter_In, bool_decide_eq_true. }
  assert (∀ w, subject_cn c = Ok w ↔ cn = Some w) as Hcn.
  { intros w. subst cn. destruct (subject_cn c); split; congruence. }
  split.
  - intros (m & Hm & _). case_decide; [done|].
    destruct (match_candidates _ _ cands _ _) as [m'|[[?|] [?|]]] eqn:Hmc; try done.
    apply match_candidates_inl in Hmc as (k & [Hin Hu]%Hc & _ & Hk).
    exists k. split_and!; [done..|]. unfold criterion_holds.
    destruct (criteria k); [apply Hcn|..]; by destruct Hk.
  - intros (k & Hin & Hu & Hk). assert (k ∈ cands) as Hkc by by apply Hc.
    rewrite decide_False by (intros ->; by apply elem_of_nil in Hkc).
    destruct (match_candidates _ _ cands _ _) as [m|r] eqn:Hmc.
    + exists m. split; [done|]. apply match_candidates_inl in Hmc as (k' & [_ ?]%Hc & ? & _).
      congruence.
    + pose proof (match_candidates_inr _ _ _ _ _ _ Hmc k Hkc) as Hno. exfalso.
      unfold criterion_holds in Hk. destruct (criteria k); [apply Hno, Hcn|apply Hno|]; done.
Qed.

(** [match_user] succeeds exactly when some configured mapping for the user
    has a criterion the certificate meets (subject CN or SAN email; a UPN
    mapping never matches), and then returns that user. *)
Theorem match_user_iff `{OpenSSL} c pam_user mappings :
  (∃ m, match_user c pam_user mappings = Ok m ∧ mm_pam_user m = pam_user) ↔
  Exists (λ k, um_pam_user k = pam_user ∧ criterion_holds c (criteria k)) mappings.
Proof. apply match_user_exists. Qed.
