(* ===== verification/Gost.v ===== *)
(** * The GOST engine ([gost/{sys,engine}.rs])

    The [ENGINE_*] calls of libcrypto are the class [GostSys], over the state
    of its engine table; the handle that owns a reference, the two ways to
    load the engine and the process-wide cell that keeps the first outcome are
    defined on them.  [LOAD_MUTEX] serialises the calls, so they are run one
    after the other. *)

From S2P Require Import Prelude Text Errors Openssl Der X509Ext Certificate.
Local Open Scope Z_scope.

(** [engine.h] and [evp.h]; a path is looked up in the file system of the
    process.  The argument of a command may be null. *)
Class GostSys := {
  EngTable : Type;
  ENGINE : Type;
  engine_path_exists : string → EngTable → bool;
  ENGINE_load_builtin_engines : EngTable → EngTable;
  ENGINE_by_id : string → EngTable → EngTable * option ENGINE;
  ENGINE_init : ENGINE → EngTable → EngTable * Z;
  ENGINE_finish : ENGINE → EngTable → EngTable * Z;
  ENGINE_free : ENGINE → EngTable → EngTable * Z;
  ENGINE_set_default : ENGINE → Z → EngTable → EngTable * Z;
  ENGINE_ctrl_cmd_string : ENGINE → string → option string → Z → EngTable → EngTable * Z;
  EVP_get_digestbyname : string → EngTable → bool;
}.

Definition ENGINE_METHOD_ALL : Z := 0xFFFF.

Definition QUOTE : string := text_of [zb 0x22].

(** [CString::new]: the text of the error names the first NUL. *)
Fixpoint nul_position (n : Z) (bs : list byte) : option Z :=
  match bs with
  | [] => None
  | b :: r => if decide (b = zb 0) then Some n else nul_position (n + 1) r
  end.

Definition nul_error (s : string) : option string :=
  match nul_position 0 (bytes_of s) with
  | Some n => Some ("nul byte found in provided data at position: " +:+ fmt_dec n)
  | None => None
  end.

Section sys.
Context {GS : GostSys}.

Record EngineHandle := MkHandle { eh_raw : ENGINE }.

(** Calls on the table that may fail. *)
Definition gost_call (A : Type) : Type := EngTable → EngTable * (GostEngineError + A).

(** [ENGINE_free], and the error. *)
Definition free_and_fail {A} (raw : ENGINE) (e : GostEngineError) : gost_call A := λ t,
  ((ENGINE_free raw t).1, inl e).

(** [{id:?}] adds quotes: an id has no characters to escape. *)
Definition by_id (id : string) : gost_call EngineHandle := λ t,
  match nul_error id with
  | Some e => (t, inl (NotAvailable ("engine id contains NUL byte: " +:+ e)))
  | None =>
      let t := ENGINE_load_builtin_engines t in
      match ENGINE_by_id id t with
      | (t, None) =>
          (t, inl (NotAvailable ("ENGINE_by_id(" +:+ QUOTE +:+ id +:+ QUOTE +:+
             ") returned NULL — engine not registered (check OPENSSL_ENGINES and that the .so is installed)")))
      | (t, Some raw) =>
          let (t, init_rc) := ENGINE_init raw t in
          if decide (init_rc ≠ 1) then
            free_and_fail raw (LoadFailed ("ENGINE_init(" +:+ QUOTE +:+ id +:+ QUOTE +:+ ") returned " +:+
                                           fmt_dec init_rc)) t
          else (t, inr (MkHandle raw))
      end
  end.

(** The conversions of the command names cannot fail. *)
Definition load_dynamic (path engine_id : string) : gost_call EngineHandle := λ t,
  if negb (engine_path_exists path t) then (t, inl (PathMissing path)) else
  match nul_error path, nul_error engine_id with
  | Some e, _ => (t, inl (LoadFailed ("engine path contains NUL byte: " +:+ e)))
  | None, Some e => (t, inl (LoadFailed ("engine id contains NUL byte: " +:+ e)))
  | None, None =>
      let t := ENGINE_load_builtin_engines t in
      match ENGINE_by_id "dynamic" t with
      | (t, None) =>
          (t, inl (NotAvailable "libcrypto has no `dynamic` engine — built without ENGINE support"))
      | (t, Some raw) =>
          let (t, r1) := ENGINE_ctrl_cmd_string raw "SO_PATH" (Some path) 0 t in
          let (t, r2) := if decide (r1 = 1)
                         then ENGINE_ctrl_cmd_string raw "ID" (Some engine_id) 0 t else (t, 0) in
          let (t, r3) := if decide (r2 = 1)
                         then ENGINE_ctrl_cmd_string raw "LOAD" None 0 t else (t, 0) in
          if decide ((r1, r2, r3) ≠ (1, 1, 1)) then
            free_and_fail raw (LoadFailed ("ENGINE_ctrl_cmd_string sequence (SO_PATH=" +:+ fmt_dec r1 +:+
              ", ID=" +:+ fmt_dec r2 +:+ ", LOAD=" +:+ fmt_dec r3 +:+ ") failed for " +:+ path)) t
          else
            let (t, init_rc) := ENGINE_init raw t in
            if decide (init_rc ≠ 1) then
              free_and_fail raw (LoadFailed ("ENGINE_init after LOAD returned " +:+ fmt_dec init_rc +:+
                                             " for " +:+ path)) t
            else (t, inr (MkHandle raw))
      end
  end.

Definition set_default_all (h : EngineHandle) : gost_call unit := λ t,
  let (t, rc) := ENGINE_set_default (eh_raw h) ENGINE_METHOD_ALL t in
  (t, if decide (rc = 1) then inr tt
      else inl (SetDefaultFailed ("ENGINE_set_default returned " +:+ fmt_dec rc))).

(** [Drop for EngineHandle]. *)
Definition drop_handle (h : EngineHandle) (t : EngTable) : EngTable :=
  let t := (ENGINE_finish (eh_raw h) t).1 in
  (ENGINE_free (eh_raw h) t).1.

Definition digest_available (name : string) (t : EngTable) : bool :=
  match nul_error name with
  | Some _ => false
  | None => EVP_get_digestbyname name t
  end.

(** ** The cell *)

(** [static ENGINE_RESULT: OnceLock<Result<EngineHandle, GostEngineError>>],
    and the table it is about. *)
Record EngineCell := MkCell {
  ec_result : option (GostEngineError + EngineHandle);
  ec_table : EngTable;
}.

(** An early return drops the handle. *)
Definition try_load_path (path : option string) : gost_call EngineHandle := λ t,
  match
    match path with
    | Some p => if negb (engine_path_exists p t) then (t, inl (PathMissing p)) else load_dynamic p "gost" t
    | None => by_id "gost" t
    end
  with
  | (t, inl e) => (t, inl e)
  | (t, inr handle) =>
      match set_default_all handle t with
      | (t, inl e) => (drop_handle handle t, inl e)
      | (t, inr _) =>
          if negb (digest_available "md_gost12_256" t) && negb (digest_available "streebog256" t)
          then (drop_handle handle t,
                inl (DigestUnavailable "md_gost12_256 not registered after engine load"))
          else (t, inr handle)
      end
  end.

(** [get_or_init]: the first call decides, later calls return its result. *)
Definition ensure_loaded_with_path (cell : EngineCell) (path : option string)
    : EngineCell * res GostEngineError unit :=
  let (t, r) := match ec_result cell with
                | Some r => (ec_table cell, r)
                | None => try_load_path path (ec_table cell)
                end in
  (MkCell (Some r) t, match r with inr _ => Ok tt | inl e => Err e end).

Definition ensure_loaded_if_signature_alg_gost (cell : EngineCell) (alg : SignatureAlg)
    (path : option string) : EngineCell * res GostEngineError unit :=
  if is_gost alg then ensure_loaded_with_path cell path else (cell, Ok tt).

Definition is_available (cell : EngineCell) : bool :=
  match ec_result cell with Some (inr _) => true | _ => false end.

Definition is_available_after_attempt (cell : EngineCell) (path : option string) : EngineCell * bool :=
  let cell := (ensure_loaded_with_path cell path).1 in
  (cell, is_available cell).

Definition ensure_loaded_if_any_gost `{OpenSSL} (cell : EngineCell)
    (certs : list Certificate) (path : option string)
    : EngineCell * res GostEngineError unit :=
  if existsb (λ c, is_gost (signature_alg c)) certs
  then ensure_loaded_with_path cell path else (cell, Ok tt).

End sys.

(** ** Lemmas *)

Section proofs.
Context {GS : GostSys}.

Lemma ensure_loaded_no_panic cell path : no_panic (ensure_loaded_with_path cell path).2.
Proof. unfold ensure_loaded_with_path. by destruct (match ec_result cell with Some _ => _ | _ => _ end) as [t []]. Qed.

Lemma ensure_loaded_if_any_no_panic `{OpenSSL} cell certs path :
  no_panic (ensure_loaded_if_any_gost cell certs path).2.
Proof. unfold ensure_loaded_if_any_gost. case_match; [apply ensure_loaded_no_panic|done]. Qed.

Lemma ensure_loaded_available cell path :
  is_available (ensure_loaded_with_path cell path).1 = is_ok (ensure_loaded_with_path cell path).2.
Proof. unfold ensure_loaded_with_path. by destruct (match ec_result cell with Some _ => _ | _ => _ end) as [t []]. Qed.

Lemma ensure_loaded_again cell path path' :
  ensure_loaded_with_path (ensure_loaded_with_path cell path).1 path' =
    ensure_loaded_with_path cell path.
Proof. unfold ensure_loaded_with_path. by destruct (match ec_result cell with Some _ => _ | _ => _ end) as [t []]. Qed.

End proofs.

(** ** References

    What the manual says of the references a program holds to an engine:
    structural ones from [ENGINE_by_id] to [ENGINE_free], functional ones
    from [ENGINE_init] to [ENGINE_finish]. *)

Class EngineRefs `{GostSys} := {
  engine_eq_dec :: EqDecision ENGINE;
  refs : EngTable → ENGINE → Z * Z;
  refs_builtin : ∀ t, refs (ENGINE_load_builtin_engines t) = refs t;
  refs_by_id_none : ∀ id t t', ENGINE_by_id id t = (t', None) → refs t' = refs t;
  refs_by_id : ∀ id t t' e, ENGINE_by_id id t = (t', Some e) →
    ∀ x, refs t' x = ((refs t x).1 + (if decide (x = e) then 1 else 0), (refs t x).2);
  refs_init : ∀ e t x, refs (ENGINE_init e t).1 x =
    ((refs t x).1, (refs t x).2 +
       (if decide (x = e ∧ (ENGINE_init e t).2 = 1) then 1 else 0));
  refs_finish : ∀ e t x, refs (ENGINE_finish e t).1 x =
    ((refs t x).1, (refs t x).2 - (if decide (x = e) then 1 else 0));
  refs_free : ∀ e t x, refs (ENGINE_free e t).1 x =
    ((refs t x).1 - (if decide (x = e) then 1 else 0), (refs t x).2);
  refs_set_default : ∀ e f t, refs (ENGINE_set_default e f t).1 = refs t;
  refs_ctrl : ∀ e c a o t, refs (ENGINE_ctrl_cmd_string e c a o t).1 = refs t;
}.

Section refs.
Context {GS : GostSys} {ER : EngineRefs}.

(** A call holds what its handle owns, and nothing when it failed. *)
Definition owns (t t' : EngTable) (r : GostEngineError + EngineHandle) : Prop :=
  ∀ x, refs t' x =
    match r with
    | inl _ => refs t x
    | inr h => if decide (x = eh_raw h) then ((refs t x).1 + 1, (refs t x).2 + 1) else refs t x
    end.

Lemma init_owns e t t1 t2 rc err :
  (∀ x, refs t1 x = ((refs t x).1 + (if decide (x = e) then 1 else 0), (refs t x).2)) →
  ENGINE_init e t1 = (t2, rc) →
  let out := if decide (rc ≠ 1) then free_and_fail e err t2 else (t2, inr (MkHandle e)) in
  owns t out.1 out.2.
Proof.
  intros Ht Hi. pose proof (refs_init e t1) as Hri. rewrite Hi in Hri. cbn [fst snd] in Hri.
  unfold owns, free_and_fail. destruct (decide (rc ≠ 1)) as [Hrc|Hrc]; cbn [fst snd]; intros x.
  - rewrite refs_free, Hri, Ht. cbn [fst snd]. rewrite (decide_False (P := x = e ∧ _)) by (by intros []).
    destruct (refs t x). cbn. f_equal; lia.
  - apply dec_stable in Hrc. rewrite Hri, Ht. cbn [fst snd eh_raw].
    destruct (decide (x = e)); [rewrite decide_True by done|rewrite decide_False by (by intros [])];
      destruct (refs t x); cbn; f_equal; lia.
Qed.

Lemma by_id_owns id t : owns t (by_id id t).1 (by_id id t).2.
Proof.
  unfold by_id. destruct (nul_error id); [done|].
  destruct (ENGINE_by_id id _) as [t1 [e|]] eqn:Hb.
  - destruct (ENGINE_init e t1) as [t2 rc] eqn:Hi. eapply init_owns; [|done].
    intros x. by rewrite (refs_by_id _ _ _ _ Hb), refs_builtin.
  - intros x. cbn. by rewrite (refs_by_id_none _ _ _ Hb), refs_builtin.
Qed.

Lemma load_dynamic_owns path id t : owns t (load_dynamic path id t).1 (load_dynamic path id t).2.
Proof.
  unfold load_dynamic. destruct (engine_path_exists path t); cbn [negb]; [|done].
  destruct (nul_error path), (nul_error id); try done.
  destruct (ENGINE_by_id "dynamic" _) as [t1 [e|]] eqn:Hb;
    [|intros x; cbn; by rewrite (refs_by_id_none _ _ _ Hb), refs_builtin].
  destruct (ENGINE_ctrl_cmd_string e "SO_PATH" _ _ _) as [t2 r1] eqn:H1.
  assert (refs t2 = refs t1) as E1 by (by rewrite <-(refs_ctrl e "SO_PATH" (Some path) 0 t1), H1).
  destruct (if decide (r1 = 1) then _ else (t2, 0)) as [t3 r2] eqn:H2.
  assert (refs t3 = refs t2) as E2.
  { case_decide; [by rewrite <-(refs_ctrl e "ID" (Some id) 0 t2), H2|by simplify_eq]. }
  destruct (if decide (r2 = 1) then _ else (t3, 0)) as [t4 r3] eqn:H3.
  assert (refs t4 = refs t3) as E3.
  { case_decide; [by rewrite <-(refs_ctrl e "LOAD" None 0 t3), H3|by simplify_eq]. }
  assert (∀ x, refs t4 x = ((refs t x).1 + (if decide (x = e) then 1 else 0), (refs t x).2)) as E.
  { intros x. by rewrite E3, E2, E1, (refs_by_id _ _ _ _ Hb), refs_builtin. }
  destruct (decide ((r1, r2, r3) ≠ (1, 1, 1))).
  - unfold owns, free_and_fail. cbn. intros x. rewrite refs_free, E. destruct (refs t x). cbn. f_equal; lia.
  - destruct (ENGINE_init e t4) as [t5 rc] eqn:Hi. by eapply init_owns.
Qed.

Lemma drop_handle_owns h t t' err :
  owns t t' (inr h) → owns t (drop_handle h t') (inl err).
Proof.
  intros Ho x. unfold drop_handle. rewrite refs_free, refs_finish, (Ho x).
  destruct (decide (x = eh_raw h)); destruct (refs t x); cbn; f_equal; lia.
Qed.

Lemma try_load_path_owns path t : owns t (try_load_path path t).1 (try_load_path path t).2.
Proof.
  unfold try_load_path.
  destruct (match path with Some p => _ | None => by_id "gost" t end) as [t1 r] eqn:Hl.
  assert (owns t t1 r) as Ho.
  { destruct path as [p|].
    - destruct (engine_path_exists p t); cbn [negb] in Hl; [|by simplify_eq].
      pose proof (load_dynamic_owns p "gost" t) as H. by rewrite Hl in H.
    - pose proof (by_id_owns "gost" t) as H. by rewrite Hl in H. }
  destruct r as [e|h]; [done|].
  unfold set_default_all. destruct (ENGINE_set_default _ _ t1) as [t2 rc] eqn:Hd.
  assert (owns t t2 (inr h)) as Ho2.
  { intros x. pose proof (refs_set_default (eh_raw h) ENGINE_METHOD_ALL t1) as Hr.
    rewrite Hd in Hr. cbn in Hr. rewrite Hr. apply Ho. }
  case_decide; [|by apply drop_handle_owns].
  destruct (_ && _); [by apply drop_handle_owns|done].
Qed.

End refs.

(** ** A sample *)

Module GostSample.

(** A libcrypto with the engine on its search path: the table is the numbers of
    structural and functional references held. *)
Definition gost : GostSys := {|
  EngTable := Z * Z;
  ENGINE := unit;
  engine_path_exists _ _ := false;
  ENGINE_load_builtin_engines t := t;
  ENGINE_by_id id t := if decide (id = "gost") then ((t.1 + 1, t.2), Some tt) else (t, None);
  ENGINE_init _ t := ((t.1, t.2 + 1), 1);
  ENGINE_finish _ t := ((t.1, t.2 - 1), 1);
  ENGINE_free _ t := ((t.1 - 1, t.2), 1);
  ENGINE_set_default _ _ t := (t, 1);
  ENGINE_ctrl_cmd_string _ _ _ _ t := (t, 0);
  EVP_get_digestbyname _ _ := true;
|}.

Definition cell0 : @EngineCell gost := @MkCell gost None (0, 0).

Lemma engine_refs : EngineRefs (H := gost).
Proof.
  refine (@Build_EngineRefs gost unit_eq_dec (λ t _, t) _ _ _ _ _ _ _ _).
  - done.
  - intros id t t'. simpl. by case_decide; intros [= <-].
  - intros id t t' [] H []. simpl in *. case_decide; simplify_eq/=. by rewrite Z.add_0_r || done.
  - intros [] t []. simpl. by destruct t.
  - intros [] t []. simpl. by destruct t.
  - intros [] t []. simpl. by destruct t.
  - done.
  - done.
Defined.

End GostSample.

(** ** Theorems *)

(** The module owns what it holds: the first use of the engine either fails
    and leaves no reference behind, on every path through the loader, or
    keeps exactly one structural and one functional reference to the engine
    it pinned; every later use holds nothing more. *)
Theorem engine_references_owned {GS : GostSys} {ER : EngineRefs} cell path path'
    (Hfresh : ec_result cell = None) :
  let first := ensure_loaded_with_path cell path in
  (∀ e, first.2 = Err e → ∀ x, refs (ec_table first.1) x = refs (ec_table cell) x) ∧
  (first.2 = Ok tt → ∃ h, ec_result first.1 = Some (inr h) ∧
     ∀ x, refs (ec_table first.1) x =
       if decide (x = eh_raw h)
       then ((refs (ec_table cell) x).1 + 1, (refs (ec_table cell) x).2 + 1)
       else refs (ec_table cell) x) ∧
  ec_table (ensure_loaded_with_path first.1 path').1 = ec_table first.1.
Proof.
  intros first. split_and!; [| |unfold first; by rewrite ensure_loaded_again].
  all: unfold first, ensure_loaded_with_path; rewrite Hfresh;
    pose proof (try_load_path_owns path (ec_table cell)) as Ho;
    destruct (try_load_path path (ec_table cell)) as [t [e|h]]; cbn in *; try done.
  intros _. by exists h.
Qed.

Lemma engine_references_owned_witness :
  ∃ h, ec_result (ensure_loaded_with_path GostSample.cell0 None).1 = Some (inr h) ∧
    ∀ x, refs (EngineRefs := GostSample.engine_refs)
           (ec_table (ensure_loaded_with_path GostSample.cell0 None).1) x =
      if decide (x = eh_raw h) then (0 + 1, 0 + 1) else (0, 0).
Proof.
  apply (engine_references_owned (ER := GostSample.engine_refs) GostSample.cell0 None None);
    reflexivity.
Defined.
