(* ===== verification/Trust.v ===== *)
(** * Chain verification

    The stage-2 verifier of [trust/openssl_verifier.rs] and the steps it
    composes: pre-validation of the leaf ([x509/pre_validate.rs]), path
    building ([x509/chain.rs]), signatures ([x509/signatures.rs]),
    [basicConstraints] and per-link constraints
    ([x509/basic_constraints.rs]), revocation ([crl/store.rs]), pinning
    ([x509/pinning.rs]).

    [trusted] says what a verified chain promises; [verify_at_sound] shows
    that the verifier only returns such chains. *)

From S2P Require Import Prelude Errors Openssl Der Sample X509Ext Certificate Gost.
Local Open Scope Z_scope.

(** ** Configuration *)

Record PreValidateConfig := MkPreValidate {
  clock_skew : Z;
  signature_alg_whitelist : list string;
}.

Record RevocationConfig := MkRevocation { crl_strict : bool }.

Definition SpkiPin : Type := list byte.

Section trust.
Context {SSL : OpenSSL} {SHA : Sha256} {BP : BuildProfile}.

(** ** Leaf pre-validation *)

Definition pre_validate_end_entity (cert : Certificate) (cfg : PreValidateConfig) (now : Z)
    : res TrustError unit :=
  if decide (version cert ≠ 2) then Err (Validity "not X.509 v3") else
  let nb := not_before cert in
  let na := not_after cert in
  let? early := systime_add now (clock_skew cfg) in
  if decide (early < nb) then Err (Validity "not yet valid") else
  let? late := systime_add na (clock_skew cfg) in
  if decide (late < now) then Err (Validity "expired") else
  let sig_alg := signature_algorithm cert in
  if negb (bool_decide (signature_alg_whitelist cfg = [])) &&
     negb (existsb (λ w, bool_decide (w = sig_alg)) (signature_alg_whitelist cfg))
  then Err (SignatureAlgorithm sig_alg) else
  let? ku := key_usage_digital_signature cert in
  if negb ku then Err KeyUsage else
  let? eku := eku_client_auth cert in
  if negb eku then Err Eku else
  let? bc := basic_constraints cert in
  match bc with
  | Some v => if is_ca v then Err (BasicConstraints "end-entity must not be CA") else Ok tt
  | None => Ok tt
  end.

(** ** Path building *)

Definition is_self_signed (cert : Certificate) : bool :=
  if negb (X509Name_eq (X509_issuer_name (inner cert)) (X509_subject_name (inner cert)))
  then false else
  match aki cert, ski cert with
  | Some a, Some s => bool_decide (a = s)
  | None, _ => true
  | _, _ => false
  end.

(** Does [cand] pass for the issuer of [cert]? *)
Definition issuer_matches (cert cand : Certificate) : bool :=
  let aki_ski_ok :=
    match aki cert, ski cand with
    | Some a, Some s => bool_decide (a = s)
    | _, _ => false
    end in
  let dn_ok := X509Name_eq (X509_issuer_name (inner cert)) (X509_subject_name (inner cand)) in
  dn_ok && (match aki cert with None => true | Some _ => false end || aki_ski_ok).

Definition find_issuer (cert : Certificate) (haystack : list Certificate)
    : option Certificate :=
  List.find (issuer_matches cert) haystack.

(** The loop of [build_chain]; the fuel is the number of iterations left
    before the depth check fires. *)
Fixpoint build_chain_loop (fuel : nat) (presented pool anchors : list Certificate)
    (max_depth : Z) (chain : list Certificate) : res TrustError (list Certificate) :=
  match fuel with
  | O => Panic
  | S f =>
      match last chain with
      | None => Err (PathBuild "internal: empty chain")
      | Some current =>
          match find_issuer current anchors with
          | Some anchor =>
              if is_self_signed anchor then Ok (chain ++ [anchor])
              else Err (PathBuild "anchor not self-signed")
          | None =>
              match
                match find_issuer current presented with
                | Some p => Some p
                | None => find_issuer current pool
                end
              with
              | Some parent =>
                  let chain := chain ++ [parent] in
                  if decide (max_depth < zlen chain)
                  then Err (DepthExceeded (zlen chain) max_depth)
                  else build_chain_loop f presented pool anchors max_depth chain
              | None => Err (PathBuild "no issuer found")
              end
          end
      end
  end.

(** Allocation is not modelled here or elsewhere: the source reserves room for
    [max_depth] certificates, which a valid configuration bounds by 16. *)
Definition build_chain (leaf : Certificate) (presented pool anchors : list Certificate)
    (max_depth : Z) : res TrustError (list Certificate) :=
  if decide (max_depth = 0) then Err (DepthExceeded 1 0) else
  build_chain_loop (Z.to_nat max_depth) presented pool anchors max_depth [leaf].

(** ** Signatures *)

Definition x509_verify (child : Certificate) (pk : PKey) : res TrustError bool :=
  map_err Openssl (of_sum (X509_verify (inner child) pk)).

(** The pairs of [chain.windows(2).enumerate()]. *)
Fixpoint verify_links (depth : Z) (chain : list Certificate) : res TrustError unit :=
  match chain with
  | child :: (parent :: _) as r =>
      let? pk := public_key parent in
      let? ok := x509_verify child pk in
      if negb ok then Err (BadSignature depth) else verify_links (depth + 1) r
  | _ => Ok tt
  end.

Definition verify_chain_signatures (chain : list Certificate) : res TrustError unit :=
  if decide (zlen chain < 2) then Err (PathBuild "chain too short") else
  check verify_links 0 chain;
  let last_idx := zlen chain - 1 in
  match last chain with
  | None => Err (PathBuild "internal: empty chain")
  | Some anchor =>
      let? pk := public_key anchor in
      let? ok := x509_verify anchor pk in
      if negb ok then Err (BadSignature last_idx) else Ok tt
  end.

(** ** Constraints on the non-leaf links *)

Definition required_ca (cert : Certificate) : res TrustError BasicConstraintsView :=
  let? bc := basic_constraints cert in
  let? bc := ok_or bc (BasicConstraints "missing on intermediate/anchor") in
  if negb (is_ca bc) then Err (BasicConstraints "intermediate not CA") else Ok bc.

(** The loop of [verify_basic_constraints] from chain index [i]. *)
Fixpoint basic_constraints_from (i : Z) (certs : list Certificate) : res TrustError unit :=
  match certs with
  | [] => Ok tt
  | cert :: r =>
      let? bc := required_ca cert in
      let exceeded :=
        match path_len bc with
        | Some allowed =>
            let intermediates_below := Z.max 0 (i - 1) in
            bool_decide (allowed < intermediates_below)
        | None => false
        end in
      if exceeded then Err (BasicConstraints "pathLenConstraint exceeded")
      else basic_constraints_from (i + 1) r
  end.

Definition verify_basic_constraints (chain : list Certificate) : res TrustError unit :=
  if decide (zlen chain < 2) then Err (PathBuild "chain too short") else
  basic_constraints_from 1 (drop 1 chain).

Fixpoint intermediate_constraints (certs : list Certificate) (now clock_skew : Z)
    : res TrustError unit :=
  match certs with
  | [] => Ok tt
  | cert :: r =>
      let nb := not_before cert in
      let na := not_after cert in
      let? early := systime_add now clock_skew in
      if decide (early < nb) then Err (Validity "intermediate not yet valid") else
      let? late := systime_add na clock_skew in
      if decide (late < now) then Err (Validity "intermediate expired") else
      check required_ca cert;
      let? ku := key_usage_key_cert_sign cert in
      if negb ku then Err KeyUsage else intermediate_constraints r now clock_skew
  end.

Definition verify_intermediate_constraints (chain : list Certificate) (now clock_skew : Z)
    : res TrustError unit :=
  if decide (zlen chain < 2) then Err (PathBuild "chain too short") else
  intermediate_constraints (drop 1 chain) now clock_skew.

(** ** Revocation *)

Record Crl := MkCrl {
  crl_inner : X509Crl;
  this_update : Z;
  next_update : option Z;
  revoked : list string;
  issuer_dn_der : list byte;
}.

(** [asn1_to_system] of [crl/store.rs]: unlike the one of [x509/mod.rs] it
    reports an OpenSSL failure. *)
Definition crl_asn1_to_system (diff : ErrorStack + (Z * Z)) : res TrustError Z :=
  let? d := map_err TrustCrl (of_sum diff) in
  Ok (asn1_to_system (Some d)).

Definition crl_from_inner (crl : X509Crl) : res TrustError Crl :=
  let? this := crl_asn1_to_system (X509Crl_last_update crl) in
  let? next :=
    match X509Crl_next_update crl with
    | Some t => let? n := crl_asn1_to_system t in Ok (Some n)
    | None => Ok None
    end in
  let revoked :=
    match X509Crl_revoked crl with
    | Some stack => to_ascii_lowercase <$> omap id stack
    | None => []
    end in
  let? issuer := map_err TrustCrl (of_sum (X509Name_to_der (X509Crl_issuer_name crl))) in
  Ok (MkCrl crl this next revoked issuer).

Definition crl_from_pem (pem : list byte) : res TrustError Crl :=
  let? crl := map_err TrustCrl (of_sum (X509Crl_from_pem pem)) in
  crl_from_inner crl.

Definition crl_from_der (der : list byte) : res TrustError Crl :=
  let? crl := map_err TrustCrl (of_sum (X509Crl_from_der der)) in
  crl_from_inner crl.

(** [CrlStore::from_pems]. *)
Fixpoint crl_store_from_pems (pems : list (list byte)) : res TrustError (list Crl) :=
  match pems with
  | [] => Ok []
  | pem :: r =>
      let? crl := crl_from_pem pem in
      let? crls := crl_store_from_pems r in
      Ok (crl :: crls)
  end.

Definition crl_verify_signature (crl : Crl) (key : PKey) : res TrustError unit :=
  let? ok := map_err (λ e, TrustCrl ("CRL signature: " +:+ e))
               (of_sum (X509Crl_verify (crl_inner crl) key)) in
  if (ok : bool) then Ok tt else Err (TrustCrl "CRL signature does not validate").

Definition crl_verify_signature_with_issuer {GS : GostSys} (cell : EngineCell) (crl : Crl)
    (issuer : Certificate) (gost_engine_path : option string) : EngineCell * res TrustError unit :=
  let (cell, loaded) :=
    ensure_loaded_if_signature_alg_gost cell (signature_alg issuer) gost_engine_path in
  (cell,
   check map_err EngineLoadFailed loaded;
   let? key := public_key issuer in
   crl_verify_signature crl key).

(** The first certificate of the chain that the CRL lists. *)
Fixpoint revoked_in (crl : Crl) (chain : list Certificate) : res TrustError unit :=
  match chain with
  | [] => Ok tt
  | cert :: r =>
      let serial := to_ascii_lowercase (serial_hex cert) in
      if existsb (λ s, bool_decide (s = serial)) (revoked crl) then Err (Revoked serial)
      else revoked_in crl r
  end.

Definition crl_expired (crl : Crl) (now : Z) : bool :=
  match next_update crl with Some nu => bool_decide (nu ≤ now) | None => false end.

Fixpoint check_crls (chain : list Certificate) (crls : list Crl) (cfg : RevocationConfig)
    (now : Z) : res TrustError unit :=
  match crls with
  | [] => Ok tt
  | crl :: r =>
      if crl_expired crl now then
        if crl_strict cfg then Err (TrustCrl "CRL expired")
        else check_crls chain r cfg now
      else
        check revoked_in crl chain;
        check_crls chain r cfg now
  end.

Definition check_revocation (chain : list Certificate) (store : list Crl)
    (cfg : RevocationConfig) (now : Z) : res TrustError unit :=
  if bool_decide (zlen store = 0) then Ok tt else check_crls chain store cfg now.

(** ** Pinning *)

Definition spki_sha256 (cert : Certificate) : res TrustError SpkiPin :=
  let? pk := public_key cert in
  let? der := map_err Openssl (of_sum (PKey_to_der pk)) in
  Ok (sha256 der).

Definition verify_pinning (anchor : Certificate) (pins : list SpkiPin) : res TrustError unit :=
  if decide (pins = []) then Ok tt else
  let? actual := spki_sha256 anchor in
  if existsb (λ p, bool_decide (p = actual)) pins then Ok tt else Err PinMismatch.

(** ** The verifier *)

Record OpensslVerifierConfig := MkVerifierConfig {
  cfg_anchors : list Certificate;
  cfg_intermediates : list Certificate;
  cfg_crl_pems : list (list byte);
  cfg_crl_strict : bool;
  cfg_clock_skew : Z;
  cfg_signature_alg_whitelist : list string;
  cfg_spki_pins : list SpkiPin;
  cfg_max_depth : Z;
  cfg_gost_engine_path : option string;
}.

Record OpensslVerifier := MkVerifier {
  anchors : list Certificate;
  intermediates : list Certificate;
  crl_store : list Crl;
  rev_cfg : RevocationConfig;
  pre_cfg : PreValidateConfig;
  pins : list SpkiPin;
  max_depth : Z;
  gost_engine_path : option string;
}.

Record Stage2VerifiedChain := MkVerified {
  end_entity : Certificate;
  vc_chain : list Certificate;
  vc_anchor : Certificate;
}.

(** [OpensslVerifier::new]. *)
Definition verifier_new (cfg : OpensslVerifierConfig) : res TrustError OpensslVerifier :=
  if bool_decide (zlen (cfg_anchors cfg) = 0) then Err (PathBuild "no anchors configured") else
  if decide (cfg_max_depth cfg = 0) then Err (PathBuild "max_depth must be at least 1") else
  let? store := crl_store_from_pems (cfg_crl_pems cfg) in
  Ok (MkVerifier (cfg_anchors cfg) (cfg_intermediates cfg) store
        (MkRevocation (cfg_crl_strict cfg))
        (MkPreValidate (cfg_clock_skew cfg) (cfg_signature_alg_whitelist cfg))
        (cfg_spki_pins cfg) (cfg_max_depth cfg) (cfg_gost_engine_path cfg)).

(** The steps of [verify_at] after the engine has been loaded. *)
Definition verify_steps (v : OpensslVerifier) (leaf : Certificate)
    (presented : list Certificate) (now : Z) : res TrustError Stage2VerifiedChain :=
  check pre_validate_end_entity leaf (pre_cfg v) now;
  let? chain := build_chain leaf presented (intermediates v) (anchors v) (max_depth v) in
  check verify_chain_signatures chain;
  check verify_basic_constraints chain;
  check verify_intermediate_constraints chain now (clock_skew (pre_cfg v));
  check check_revocation chain (crl_store v) (rev_cfg v) now;
  match last chain with
  | None => Err (PathBuild "internal: empty verified chain")
  | Some anchor_ref =>
      check verify_pinning anchor_ref (pins v);
      match head chain with
      | None => Err (PathBuild "internal: empty verified chain")
      | Some end_entity_ref =>
          let? middle :=
            if decide (2 < zlen chain) then slice chain 1 (zlen chain - 1) else Ok [] in
          Ok (MkVerified end_entity_ref middle anchor_ref)
      end
  end.

Definition verify_at {GS : GostSys} (cell : EngineCell) (v : OpensslVerifier)
    (leaf : Certificate) (presented : list Certificate) (now : Z)
    : EngineCell * res TrustError Stage2VerifiedChain :=
  let all_certs := leaf :: presented ++ intermediates v ++ anchors v in
  let (cell, loaded) := ensure_loaded_if_any_gost cell all_certs (gost_engine_path v) in
  (cell, check map_err EngineLoadFailed loaded; verify_steps v leaf presented now).

End trust.

(** ** What a verified chain promises *)

(** [R] holds between every two neighbours. *)
Definition linked {A} (R : A → A → Prop) (l : list A) : Prop :=
  ∀ i a b, l !! i = Some a → l !! S i = Some b → R a b.

Section spec.
Context {SSL : OpenSSL} {SHA : Sha256} {BP : BuildProfile}.

Definition in_window (now skew : Z) (c : Certificate) : Prop :=
  not_before c ≤ now + skew ∧ now ≤ not_after c + skew.

Definition leaf_ok (cfg : PreValidateConfig) (now : Z) (c : Certificate) : Prop :=
  version c = 2 ∧ in_window now (clock_skew cfg) c ∧
  (signature_alg_whitelist cfg = [] ∨ signature_algorithm c ∈ signature_alg_whitelist cfg) ∧
  key_usage_digital_signature c = Ok true ∧ eku_client_auth c = Ok true ∧
  ∃ bc, basic_constraints c = Ok bc ∧ ∀ v, bc = Some v → is_ca v = false.

Definition signed_by (child parent : Certificate) : Prop :=
  ∃ pk, X509_public_key (inner parent) = inr pk ∧ X509_verify (inner child) pk = inr true.

(** A CA certificate with [below] intermediates between it and the leaf. *)
Definition ca_ok (now skew : Z) (below : nat) (c : Certificate) : Prop :=
  in_window now skew c ∧ key_usage_key_cert_sign c = Ok true ∧
  ∃ bc, basic_constraints c = Ok (Some bc) ∧ is_ca bc = true ∧
    ∀ n, path_len bc = Some n → Z.of_nat below ≤ n.

Definition crl_clear (strict : bool) (now : Z) (chain : list Certificate) (crl : Crl) : Prop :=
  if crl_expired crl now then strict = false
  else Forall (λ c, to_ascii_lowercase (serial_hex c) ∉ revoked crl) chain.

Definition pinned (pins : list SpkiPin) (anchor : Certificate) : Prop :=
  pins = [] ∨ ∃ pk der, X509_public_key (inner anchor) = inr pk ∧
                        PKey_to_der pk = inr der ∧ sha256 der ∈ pins.

(** The whole path, leaf first. *)
Definition full_chain (vc : Stage2VerifiedChain) : list Certificate :=
  end_entity vc :: vc_chain vc ++ [vc_anchor vc].

Record trusted (v : OpensslVerifier) (leaf : Certificate) (presented : list Certificate)
    (now : Z) (vc : Stage2VerifiedChain) : Prop := {
  trusted_leaf : end_entity vc = leaf ∧ leaf_ok (pre_cfg v) now leaf;
  trusted_names : linked (λ c p, issuer_matches c p = true) (full_chain vc);
  trusted_signatures : linked signed_by (full_chain vc);
  trusted_middle : Forall (λ c, c ∈ presented ∨ c ∈ intermediates v) (vc_chain vc);
  trusted_anchor : vc_anchor vc ∈ anchors v ∧ is_self_signed (vc_anchor vc) = true ∧
                   signed_by (vc_anchor vc) (vc_anchor vc);
  trusted_ca : ∀ i c, (vc_chain vc ++ [vc_anchor vc]) !! i = Some c →
                      ca_ok now (clock_skew (pre_cfg v)) i c;
  trusted_depth : 2 ≤ zlen (full_chain vc) ≤ max_depth v + 1;
  trusted_crl : Forall (crl_clear (crl_strict (rev_cfg v)) now (full_chain vc)) (crl_store v);
  trusted_pin : pinned (pins v) (vc_anchor vc);
}.

End spec.

(** ** Lemmas *)

Lemma linked_singleton {A} (R : A → A → Prop) a : linked R [a].
Proof. intros [|i] x y; simpl; intros; simplify_eq. Qed.

Lemma linked_cons {A} (R : A → A → Prop) a b l :
  R a b → linked R (b :: l) → linked R (a :: b :: l).
Proof. intros Hab Hl [|i] x y; simpl; [naive_solver|apply Hl]. Qed.

Lemma linked_snoc {A} (R : A → A → Prop) l a b :
  linked R l → last l = Some a → R a b → linked R (l ++ [b]).
Proof.
  intros Hl Ha Hab i x y Hx Hy. apply lookup_lt_Some in Hy as Hlt.
  rewrite length_app in Hlt. simpl in Hlt. rewrite last_lookup in Ha.
  rewrite lookup_app_l in Hx by lia.
  destruct (decide (S i = length l)) as [He|].
  - rewrite lookup_app_r, He, Nat.sub_diag in Hy by lia. simplify_eq/=.
    rewrite <-He in Ha. simpl in Ha. congruence.
  - rewrite lookup_app_l in Hy by lia. eauto.
Qed.

Section lemmas.
Context {SSL : OpenSSL} {SHA : Sha256} {BP : BuildProfile}.

Lemma systime_add_inv {E} t d r : @systime_add E t d = Ok r → r = t + d.
Proof. unfold systime_add. case_decide; congruence. Qed.

Lemma existsb_elem_of `{EqDecision A} (x : A) l :
  existsb (λ w, bool_decide (w = x)) l = true ↔ x ∈ l.
Proof.
  rewrite existsb_exists. split.
  - intros (y & Hy%list_elem_of_In & ->%bool_decide_eq_true). done.
  - intros Hx. exists x. by rewrite <-list_elem_of_In, bool_decide_eq_true.
Qed.

Lemma pre_validate_inv c cfg now :
  pre_validate_end_entity c cfg now = Ok tt → leaf_ok cfg now c.
Proof.
  unfold pre_validate_end_entity, leaf_ok, in_window. intros Hp.
  case_decide as Hv; [done|]. apply rbind_Ok_inv in Hp as (? & ->%systime_add_inv & Hp).
  case_decide; [done|]. apply rbind_Ok_inv in Hp as (? & ->%systime_add_inv & Hp).
  case_decide; [done|].
  destruct (negb (bool_decide (signature_alg_whitelist cfg = [])) && _) eqn:Hw; [done|].
  apply rbind_Ok_inv in Hp as ([] & Hku & Hp); [|done].
  apply rbind_Ok_inv in Hp as ([] & Heku & Hp); [|done].
  apply rbind_Ok_inv in Hp as (bc & Hbc & Hp). split_and!; [lia|lia|lia| |done|done|].
  - apply andb_false_iff in Hw as [Hw|Hw]; apply negb_false_iff in Hw.
    + left. by apply bool_decide_eq_true in Hw.
    + right. by apply existsb_elem_of.
  - exists bc. split; [done|]. intros v ->. by destruct (is_ca v).
Qed.

Lemma find_issuer_Some c l p :
  find_issuer c l = Some p → p ∈ l ∧ issuer_matches c p = true.
Proof. intros [Hin%list_elem_of_In Hm]%find_some. done. Qed.

Lemma build_chain_loop_inv f presented pool ancs depth leaf mid ch :
  build_chain_loop f presented pool ancs depth (leaf :: mid) = Ok ch →
  linked (λ c p, issuer_matches c p = true) (leaf :: mid) →
  Forall (λ c, c ∈ presented ∨ c ∈ pool) mid →
  zlen (leaf :: mid) ≤ depth →
  ∃ mid' a, ch = leaf :: mid' ++ [a] ∧ a ∈ ancs ∧ is_self_signed a = true ∧
    linked (λ c p, issuer_matches c p = true) ch ∧
    Forall (λ c, c ∈ presented ∨ c ∈ pool) mid' ∧ zlen ch ≤ depth + 1.
Proof.
  revert mid. induction f as [|f IH]; intros mid Hb Hl Hm Hd; [done|]. cbn [build_chain_loop] in Hb.
  destruct (last (leaf :: mid)) as [cur|] eqn:Hcur; [|done].
  destruct (find_issuer cur ancs) as [a|] eqn:Ha.
  - destruct (is_self_signed a) eqn:Hs; [|done]. injection Hb as <-.
    apply find_issuer_Some in Ha as [Hin Hi]. exists mid, a. split_and!; try done.
    + by eapply (linked_snoc _ (leaf :: mid)).
    + change (leaf :: mid ++ [a]) with ((leaf :: mid) ++ [a]).
      rewrite zlen_app. change (zlen [a]) with 1. lia.
  - destruct (match find_issuer cur presented with Some p => Some p | _ => _ end) as [p|] eqn:Hp;
      [|done].
    assert ((p ∈ presented ∨ p ∈ pool) ∧ issuer_matches cur p = true) as [Hin Hi].
    { destruct (find_issuer cur presented) eqn:He; simplify_eq/=.
      - apply find_issuer_Some in He as []. auto.
      - apply find_issuer_Some in Hp as []. auto. }
    case_decide; [done|]. apply (IH (mid ++ [p])) in Hb; [done|..].
    + by eapply (linked_snoc _ (leaf :: mid)).
    + apply Forall_app. split; [done|]. by constructor.
    + change (leaf :: mid ++ [p]) with ((leaf :: mid) ++ [p]). lia.
Qed.

Lemma build_chain_inv leaf presented pool ancs depth ch :
  0 ≤ depth → build_chain leaf presented pool ancs depth = Ok ch →
  ∃ mid a, ch = leaf :: mid ++ [a] ∧ a ∈ ancs ∧ is_self_signed a = true ∧
    linked (λ c p, issuer_matches c p = true) ch ∧
    Forall (λ c, c ∈ presented ∨ c ∈ pool) mid ∧ zlen ch ≤ depth + 1.
Proof.
  unfold build_chain. intros Hd. case_decide; [done|]. intros Hb.
  eapply build_chain_loop_inv in Hb; [done|apply linked_singleton|done|].
  change (zlen [leaf]) with 1. lia.
Qed.

Lemma build_chain_loop_no_panic f presented pool ancs depth chain :
  depth - zlen chain < Z.of_nat f → zlen chain ≤ depth →
  no_panic (build_chain_loop f presented pool ancs depth chain).
Proof.
  revert chain. induction f as [|f IH]; intros chain Hf Hd; [lia|]. cbn [build_chain_loop].
  destruct (last chain) as [cur|]; [|done].
  destruct (find_issuer cur ancs) as [a|]; [by destruct (is_self_signed a)|].
  destruct (match find_issuer cur presented with Some p => Some p | _ => _ end) as [p|]; [|done].
  case_decide as Hx; [done|]. rewrite zlen_app in Hx. change (zlen [p]) with 1 in Hx.
  apply IH; rewrite zlen_app; change (zlen [p]) with 1; lia.
Qed.

Lemma build_chain_no_panic leaf presented pool ancs depth :
  0 ≤ depth → no_panic (build_chain leaf presented pool ancs depth).
Proof.
  intros Hd. unfold build_chain. case_decide; [done|].
  apply build_chain_loop_no_panic; change (zlen [leaf]) with 1; lia.
Qed.

Lemma x509_verify_inv c pk : x509_verify c pk = Ok true → X509_verify (inner c) pk = inr true.
Proof. unfold x509_verify. destruct (X509_verify _ _); simpl; congruence. Qed.

Lemma public_key_inv c pk : public_key c = Ok pk → X509_public_key (inner c) = inr pk.
Proof. unfold public_key. destruct (X509_public_key _); simpl; congruence. Qed.

Lemma verify_links_inv d chain : verify_links d chain = Ok tt → linked signed_by chain.
Proof.
  revert d. induction chain as [|c [|p r] IH]; intros d Hv.
  - intros i a b. by rewrite lookup_nil.
  - apply linked_singleton.
  - cbn [verify_links] in Hv. apply rbind_Ok_inv in Hv as (pk & Hpk%public_key_inv & Hv).
    apply rbind_Ok_inv in Hv as ([] & Hs & Hv); [apply x509_verify_inv in Hs|done].
    apply linked_cons; [by exists pk|]. exact (IH (d + 1) Hv).
Qed.

Lemma verify_chain_signatures_inv chain :
  verify_chain_signatures chain = Ok tt →
  linked signed_by chain ∧ ∀ a, last chain = Some a → signed_by a a.
Proof.
  unfold verify_chain_signatures. case_decide; [done|]. intros Hv.
  apply rbind_Ok_inv in Hv as ([] & Hl%verify_links_inv & Hv).
  destruct (last chain) as [a|]; [|done].
  apply rbind_Ok_inv in Hv as (pk & Hpk%public_key_inv & Hv).
  apply rbind_Ok_inv in Hv as ([] & Hs & Hv); [apply x509_verify_inv in Hs|done].
  split; [done|]. intros a' [= <-]. by exists pk.
Qed.

Lemma required_ca_inv c bc :
  required_ca c = Ok bc → basic_constraints c = Ok (Some bc) ∧ is_ca bc = true.
Proof.
  unfold required_ca. intros Hr. apply rbind_Ok_inv in Hr as ([b|] & Hb & Hr); [|done].
  simpl in Hr. destruct (is_ca b) eqn:He; naive_solver.
Qed.

Lemma basic_constraints_from_inv j certs :
  1 ≤ j → basic_constraints_from j certs = Ok tt →
  ∀ i c, certs !! i = Some c → ∃ bc, basic_constraints c = Ok (Some bc) ∧ is_ca bc = true ∧
    ∀ n, path_len bc = Some n → j - 1 + Z.of_nat i ≤ n.
Proof.
  revert j. induction certs as [|c certs IH]; intros j Hj Hb i x Hi; [by rewrite lookup_nil in Hi|].
  cbn [basic_constraints_from] in Hb.
  apply rbind_Ok_inv in Hb as (bc & [Hbc Hca]%required_ca_inv & Hb).
  destruct (match path_len bc with Some _ => _ | None => false end) eqn:Hp; [done|].
  destruct i as [|i]; simpl in Hi.
  - simplify_eq. exists bc. split_and!; [done|done|]. intros n Hn. rewrite Hn in Hp.
    apply bool_decide_eq_false in Hp. lia.
  - apply (IH (j + 1) ltac:(lia) Hb) in Hi as (bc' & ? & ? & Hn'). exists bc'. split_and!; [done|done|].
    intros n Hn%Hn'. lia.
Qed.

Lemma intermediate_constraints_inv certs now skew :
  intermediate_constraints certs now skew = Ok tt →
  ∀ c, c ∈ certs → in_window now skew c ∧ key_usage_key_cert_sign c = Ok true.
Proof.
  induction certs as [|c certs IH]; intros Hv x Hx; [by apply elem_of_nil in Hx|].
  cbn [intermediate_constraints] in Hv.
  apply rbind_Ok_inv in Hv as (? & ->%systime_add_inv & Hv). case_decide; [done|].
  apply rbind_Ok_inv in Hv as (? & ->%systime_add_inv & Hv). case_decide; [done|].
  apply rbind_Ok_inv in Hv as (bc & _ & Hv).
  apply rbind_Ok_inv in Hv as ([] & Hku & Hv); [|done].
  apply elem_of_cons in Hx as [->|Hx]; [|by apply IH]. unfold in_window. split; [lia|done].
Qed.

Lemma revoked_in_iff crl chain :
  revoked_in crl chain = Ok tt ↔
  Forall (λ c, to_ascii_lowercase (serial_hex c) ∉ revoked crl) chain.
Proof.
  induction chain as [|c chain IH]; simpl; [done|]. rewrite Forall_cons, <-IH.
  pose proof (existsb_elem_of (to_ascii_lowercase (serial_hex c)) (revoked crl)) as He.
  destruct (existsb _ _); [|split; [|by intros [_ ?]]].
  - split; [done|]. intros [Hn _]. by destruct Hn; apply He.
  - intros Hr. split; [|done]. by intros ?%He.
Qed.

Lemma check_crls_iff chain crls cfg now :
  check_crls chain crls cfg now = Ok tt ↔ Forall (crl_clear (crl_strict cfg) now chain) crls.
Proof.
  induction crls as [|crl crls IH]; simpl; [done|]. rewrite Forall_cons, <-IH.
  unfold crl_clear at 1. destruct (crl_expired crl now).
  - destruct (crl_strict cfg); [by split; [|intros []]|]. by split; [|intros []].
  - rewrite <-revoked_in_iff. destruct (revoked_in crl chain) as [[]| |]; simpl.
    + by split; [|intros []].
    + by split; [|intros []].
    + by split; [|intros []].
Qed.

Lemma check_revocation_clear chain store cfg now :
  check_revocation chain store cfg now = Ok tt ↔
  Forall (crl_clear (crl_strict cfg) now chain) store.
Proof.
  unfold check_revocation. destruct store as [|crl store].
  - done.
  - rewrite bool_decide_eq_false_2 by (rewrite zlen_cons; pose proof (zlen_nonneg store); lia).
    apply check_crls_iff.
Qed.

Lemma revoked_in_verdict crl chain :
  match revoked_in crl chain with
  | Ok _ => True
  | Err (Revoked serial) => serial ∈ revoked crl ∧
      ∃ c, c ∈ chain ∧ serial = to_ascii_lowercase (serial_hex c)
  | _ => False
  end.
Proof.
  induction chain as [|c chain IH]; simpl; [done|].
  pose proof (existsb_elem_of (to_ascii_lowercase (serial_hex c)) (revoked crl)) as He.
  destruct (existsb _ _).
  - split; [by apply He|]. exists c. by split; [left|].
  - destruct (revoked_in crl chain) as [[]|[]|]; try done.
    destruct IH as [? (c' & ? & ?)]. split; [done|]. exists c'. by split; [right|].
Qed.

(** Why a chain is refused. *)
Lemma check_revocation_refuses chain store cfg now :
  match check_revocation chain store cfg now with
  | Ok _ => True
  | Err (Revoked serial) => ∃ crl c, crl ∈ store ∧ crl_expired crl now = false ∧
      serial ∈ revoked crl ∧ c ∈ chain ∧ serial = to_ascii_lowercase (serial_hex c)
  | Err (TrustCrl _) => crl_strict cfg = true ∧ ∃ crl, crl ∈ store ∧ crl_expired crl now = true
  | _ => False
  end.
Proof.
  unfold check_revocation. case_bool_decide as Hl; [done|]. clear Hl.
  induction store as [|crl store IH]; simpl; [done|]. destruct (crl_expired crl now) eqn:He.
  - destruct (crl_strict cfg) eqn:Hs; [split; [done|]; exists crl; by split; [left|]|].
    destruct (check_crls chain store cfg now) as [[]|[]|]; try done.
    + by destruct IH.
    + destruct IH as (crl' & c & ? & ?). exists crl', c. by split; [right|].
  - pose proof (revoked_in_verdict crl chain) as Hr.
    destruct (revoked_in crl chain) as [[]|[]|]; simpl; try done.
    + destruct (check_crls chain store cfg now) as [[]|[]|]; try done.
      * destruct IH as (? & crl' & ? & ?). split; [done|]. exists crl'. by split; [right|].
      * destruct IH as (crl' & c & ? & ?). exists crl', c. by split; [right|].
    + destruct Hr as [? (c & ? & ?)]. exists crl, c. split_and!; [by left|done..].
Qed.

Lemma verify_pinning_inv a ps : verify_pinning a ps = Ok tt → pinned ps a.
Proof.
  unfold verify_pinning, pinned. case_decide; [by left|]. intros Hv. right.
  apply rbind_Ok_inv in Hv as (pin & Hp & Hv). unfold spki_sha256 in Hp.
  apply rbind_Ok_inv in Hp as (pk & Hpk%public_key_inv & Hp).
  apply rbind_Ok_inv in Hp as (der & Hd%map_err_Ok_inv & Hp). simplify_eq.
  exists pk, der. destruct (PKey_to_der pk); simplify_eq/=. split_and!; [done..|].
  destruct (existsb _ ps) eqn:He; [|done]. by apply existsb_elem_of in He.
Qed.

End lemmas.

(** ** Nothing in the pipeline unwinds *)

Section no_panic.
Context {SSL : OpenSSL} {SHA : Sha256} {BP : BuildProfile}.

Lemma systime_add_no_panic {E} t d : t + d ≤ SYSTEM_TIME_MAX → no_panic (@systime_add E t d).
Proof. intros. unfold systime_add. by rewrite decide_True. Qed.

Lemma test_key_usage_bit_no_panic value bit :
  overflow_checks = false → 0 ≤ bit → no_panic (test_key_usage_bit value bit).
Proof.
  intros Hp Hbit. apply rbind_no_panic; [auto with rust|]. intros bs _.
  destruct (tlv_value bs) as [|u bytes]; [done|]. rewrite decide_False by done.
  change (idx (u :: bytes) 0) with (@Ok TrustError _ u).
  rewrite (slice_from_app _ [u] bytes) by done. cbn [rbind].
  case_decide; [done|]. case_decide; [done|].
  apply rbind_no_panic.
  - case_decide; [|done]. apply rbind_no_panic; [|done]. unfold sub_u8. rewrite Hp.
    by case_decide.
  - intros [] _; [done|]. apply rbind_no_panic; [apply idx_no_panic; lia|done].
Qed.

Lemma key_usage_bit_no_panic x bit :
  overflow_checks = false → 0 ≤ bit → no_panic (key_usage_bit x bit).
Proof.
  intros. apply rbind_no_panic; [auto with rust|]. intros [v|] _; [|done].
  by apply test_key_usage_bit_no_panic.
Qed.

Lemma x509_verify_no_panic c pk : no_panic (x509_verify c pk).
Proof. apply map_err_no_panic. auto with rust. Qed.

Lemma required_ca_no_panic c : no_panic (required_ca c).
Proof.
  apply rbind_no_panic; [auto with rust|]. intros [bc|] _; [|done]. simpl.
  by destruct (is_ca bc).
Qed.

Hint Resolve key_usage_bit_no_panic x509_verify_no_panic required_ca_no_panic
  systime_add_no_panic : rust.

Lemma pre_validate_no_panic c cfg now :
  overflow_checks = false → now + clock_skew cfg ≤ SYSTEM_TIME_MAX →
  not_after c + clock_skew cfg ≤ SYSTEM_TIME_MAX →
  no_panic (pre_validate_end_entity c cfg now).
Proof.
  intros. unfold pre_validate_end_entity. case_decide; [done|].
  apply rbind_no_panic; [auto with rust|]. intros e _. case_decide; [done|].
  apply rbind_no_panic; [auto with rust|]. intros l _. case_decide; [done|].
  destruct (_ && _); [done|].
  apply rbind_no_panic; [by apply key_usage_bit_no_panic|]. intros [] _; [|done]. simpl.
  apply rbind_no_panic; [auto with rust|]. intros [] _; [|done]. simpl.
  apply rbind_no_panic; [auto with rust|]. intros [bc|] _; [|done]. by destruct (is_ca bc).
Qed.

Lemma verify_links_no_panic d chain : no_panic (verify_links d chain).
Proof.
  revert d. induction chain as [|c [|p r] IH]; intros d; [done..|]. cbn [verify_links].
  apply rbind_no_panic; [auto with rust|]. intros pk _.
  apply rbind_no_panic; [auto with rust|]. intros [] _; [apply (IH (d + 1))|done].
Qed.

Lemma verify_chain_signatures_no_panic chain : no_panic (verify_chain_signatures chain).
Proof.
  unfold verify_chain_signatures. case_decide; [done|].
  apply rbind_no_panic; [apply verify_links_no_panic|]. intros _ _.
  destruct (last chain) as [a|]; [|done].
  apply rbind_no_panic; [auto with rust|]. intros pk _.
  apply rbind_no_panic; [auto with rust|]. by intros [] _.
Qed.

Lemma basic_constraints_from_no_panic j certs : no_panic (basic_constraints_from j certs).
Proof.
  revert j. induction certs as [|c r IH]; intros j; [done|]. cbn [basic_constraints_from].
  apply rbind_no_panic; [auto with rust|]. intros bc _. case_match; [done|]. apply IH.
Qed.

Lemma intermediate_constraints_no_panic certs now skew :
  overflow_checks = false → now + skew ≤ SYSTEM_TIME_MAX →
  (∀ c, not_after c + skew ≤ SYSTEM_TIME_MAX) →
  no_panic (intermediate_constraints certs now skew).
Proof.
  intros Hp Hn Ha. induction certs as [|c r IH]; [done|]. cbn [intermediate_constraints].
  apply rbind_no_panic; [auto with rust|]. intros e _. case_decide; [done|].
  apply rbind_no_panic; [auto with rust|]. intros l _. case_decide; [done|].
  apply rbind_no_panic; [auto with rust|]. intros bc _.
  apply rbind_no_panic; [by apply key_usage_bit_no_panic|]. by intros [] _.
Qed.

Lemma check_revocation_no_panic chain store cfg now :
  no_panic (check_revocation chain store cfg now).
Proof.
  unfold check_revocation. case_bool_decide; [done|].
  induction store as [|crl r IH]; [done|]. simpl.
  assert (no_panic (check_crls chain r cfg now)) as Hr.
  { destruct r; [done|]. apply IH. rewrite zlen_cons. pose proof (zlen_nonneg r). lia. }
  destruct (crl_expired crl now); [by destruct (crl_strict cfg)|].
  apply rbind_no_panic; [|done]. clear. induction chain as [|c chain IH]; [done|]. simpl.
  by destruct (existsb _ _).
Qed.

Lemma verify_pinning_no_panic a ps : no_panic (verify_pinning a ps).
Proof.
  unfold verify_pinning. case_decide; [done|]. apply rbind_no_panic.
  - apply rbind_no_panic; [auto with rust|]. intros pk _.
    apply rbind_no_panic; [auto with rust|done].
  - intros pin _. by destruct (existsb _ ps).
Qed.

Lemma verify_steps_no_panic v leaf presented now :
  overflow_checks = false → 0 ≤ max_depth v →
  now + clock_skew (pre_cfg v) ≤ SYSTEM_TIME_MAX →
  (∀ c, not_after c + clock_skew (pre_cfg v) ≤ SYSTEM_TIME_MAX) →
  no_panic (verify_steps v leaf presented now).
Proof.
  intros. unfold verify_steps, verify_basic_constraints, verify_intermediate_constraints.
  apply rbind_no_panic; [by apply pre_validate_no_panic|]. intros _ _.
  apply rbind_no_panic; [by apply build_chain_no_panic|]. intros chain _.
  apply rbind_no_panic; [apply verify_chain_signatures_no_panic|]. intros _ _.
  apply rbind_no_panic; [case_decide; [done|apply basic_constraints_from_no_panic]|]. intros _ _.
  apply rbind_no_panic; [case_decide; [done|by apply intermediate_constraints_no_panic]|].
  intros _ _. apply rbind_no_panic; [apply check_revocation_no_panic|]. intros _ _.
  destruct (last chain); [|done].
  apply rbind_no_panic; [apply verify_pinning_no_panic|]. intros _ _.
  destruct (head chain); [|done]. apply rbind_no_panic; [|done].
  case_decide; [apply slice_no_panic; lia|done].
Qed.

Lemma verify_steps_sound v leaf presented now vc :
  0 ≤ max_depth v → verify_steps v leaf presented now = Ok vc → trusted v leaf presented now vc.
Proof.
  intros Hd Hv. unfold verify_steps in Hv.
  apply rbind_Ok_inv in Hv as ([] & Hpre%pre_validate_inv & Hv).
  apply rbind_Ok_inv in Hv as (ch & Hb & Hv).
  apply build_chain_inv in Hb as (mid & a & -> & Ha & Hself & Hnames & Hmid & Hlen); [|done].
  apply rbind_Ok_inv in Hv as ([] & [Hsig Hroot]%verify_chain_signatures_inv & Hv).
  apply rbind_Ok_inv in Hv as ([] & Hbc & Hv). apply rbind_Ok_inv in Hv as ([] & Hic & Hv).
  apply rbind_Ok_inv in Hv as ([] & Hcrl%check_revocation_clear & Hv).
  unfold verify_basic_constraints in Hbc. destruct (decide (zlen (leaf :: mid ++ [a]) < 2)) as [|Hshort]; [done|].
  unfold verify_intermediate_constraints in Hic. rewrite decide_False in Hic by done.
  assert (last (leaf :: mid ++ [a]) = Some a) as Hlast by apply (last_snoc _ (leaf :: mid)).
  rewrite Hlast in Hv. apply rbind_Ok_inv in Hv as ([] & Hpin%verify_pinning_inv & Hv).
  simpl head in Hv. apply rbind_Ok_inv in Hv as (middle & Hmd & [= <-]).
  assert (middle = mid) as ->.
  { change (leaf :: mid ++ [a]) with ((leaf :: mid) ++ [a]) in Hmd.
    rewrite zlen_app, zlen_cons in Hmd. change (zlen [a]) with 1 in Hmd.
    destruct mid as [|m mid]; [by simplify_eq/=|]. pose proof (zlen_nonneg mid).
    rewrite decide_True in Hmd by (rewrite zlen_cons; lia).
    rewrite (slice_mid _ [leaf] (m :: mid) [a]) in Hmd; [by simplify_eq|done..|].
    change (zlen [leaf]) with 1. lia. }
  split; simpl; try done.
  - split; [done|]. split; [done|]. by apply Hroot.
  - intros i c Hi. unfold ca_ok.
    destruct (basic_constraints_from_inv 1 _ ltac:(lia) Hbc i c Hi) as (bc & ? & ? & Hn).
    destruct (intermediate_constraints_inv _ _ _ Hic c) as [? ?];
      [by eapply list_elem_of_lookup_2|]. split_and!; [done..|]. exists bc. split_and!; [done..|].
    intros n Hp%Hn. lia.
  - unfold full_chain. simpl. lia.
Qed.

End no_panic.

Lemma asn1_to_system_bound diff :
  time_diff_i32 diff → asn1_to_system diff ≤ (2 ^ 31 * 86400 + 2 ^ 31) * NANOS_PER_SEC.
Proof.
  intros Hd. unfold asn1_to_system, NANOS_PER_SEC. destruct diff as [[d s]|]; [|lia].
  destruct (Hd d s) as [? ?]; [done|]. case_decide; lia.
Qed.

(** ** Sample chain *)

Module TrustSample.

Definition ku (b : Z) : extension :=
  MkExt (oid_encode 2 5 [29; 15]) true (encode_tlv TAG_BIT_STRING [zb 0; zb b]).

Definition eku : extension :=
  MkExt (oid_encode 2 5 [29; 37]) false
    (encode_tlv TAG_SEQUENCE (encode_tlv TAG_OID (oid_encode 1 3 [6; 1; 5; 5; 7; 3; 2]))).

Definition ca : extension :=
  MkExt (oid_encode 2 5 [29; 19]) true
    (encode_tlv TAG_SEQUENCE (encode_tlv TAG_BOOLEAN [zb 0xFF])).

Definition mk (xs : list extension) (subject issuer serial key signer : string)
    : Certificate (H := Sample.openssl) :=
  let der := encode_cert [(TAG_INTEGER, bytes_of serial)] xs [] in
  MkCertificate (H := Sample.openssl)
    (Sample.MkCert der subject issuer None serial 0 1000 "ecdsa-with-SHA256" key signer) der.

Definition leaf := mk [ku 0x80; eku] "alice" "sub" "0A" "ka" "ks".
Definition sub := mk [ku 0x04; ca] "sub" "root" "0B" "ks" "kr".
Definition root := mk [ku 0x04; ca] "root" "root" "0C" "kr" "kr".

Definition crl : Crl (SSL := Sample.openssl) :=
  MkCrl (SSL := Sample.openssl) (Sample.MkCrl 0 900 []) 0 (Some (900 * 86400 * NANOS_PER_SEC))
    ["0d"] [].

Definition verifier : OpensslVerifier (SSL := Sample.openssl) :=
  MkVerifier (SSL := Sample.openssl) [root] [sub] [crl] (MkRevocation true)
    (MkPreValidate (60 * NANOS_PER_SEC) ["ecdsa-with-SHA256"])
    [Sample.digest (bytes_of "kr")] 3 None.

Definition now : Z := 100 * 86400 * NANOS_PER_SEC.

End TrustSample.

(** ** Theorems *)

Lemma verify_at_trusted {SSL : OpenSSL} {SHA : Sha256} {BP : BuildProfile} {GS : GostSys}
    cell cell' v leaf presented now vc
    (Hdepth : 0 ≤ max_depth v)
    (Hv : verify_at cell v leaf presented now = (cell', Ok vc)) :
  trusted v leaf presented now vc.
Proof.
  unfold verify_at in Hv. destruct (ensure_loaded_if_any_gost _ _ _) as [cell1 loaded].
  injection Hv as _ Hv. apply rbind_Ok_inv in Hv as ([] & _ & Hv).
  by apply verify_steps_sound.
Qed.

(** C3: A chain [verify_at] returns is trusted: its leaf is the given one and
    passes the leaf checks, neighbours match by name and key identifier and
    each is signed by the next, the intermediates come from the presented or
    configured ones, the anchor is configured, self-issued and self-signed,
    every CA is in its validity window with [cA], [keyCertSign] and a
    respected path length, no current CRL lists a member, and the anchor is
    pinned when pins are set. *)
Theorem verify_at_sound {SSL : OpenSSL} {SHA : Sha256} {BP : BuildProfile} {GS : GostSys}
    cell cell' v leaf presented now vc
    (Hdepth : 0 ≤ max_depth v)
    (Hv : verify_at cell v leaf presented now = (cell', Ok vc)) :
  trusted v leaf presented now vc.
Proof. by apply (verify_at_trusted cell cell'). Qed.

Lemma verify_at_sound_witness :
  trusted (SSL := Sample.openssl) (SHA := Sample.digest) (BP := Sample.release)
    TrustSample.verifier TrustSample.leaf [] TrustSample.now
    (MkVerified (SSL := Sample.openssl) TrustSample.leaf [TrustSample.sub] TrustSample.root).
Proof.
  apply (verify_at_sound (GS := GostSample.gost) GostSample.cell0 GostSample.cell0); [done|reflexivity].
Defined.

(** C29: In a release build the verifier returns or fails on every certificate:
    it neither panics nor loops, whatever the extensions hold, as long as the
    clock and the validity dates are within the machine's range. *)
Theorem verify_at_no_panic {SSL : OpenSSL} {SHA : Sha256} {BP : BuildProfile} {GS : GostSys}
    cell v leaf presented now
    (Hrel : overflow_checks = false) (Hdepth : 0 ≤ max_depth v)
    (Hskew : clock_skew (pre_cfg v) ≤ 600 * NANOS_PER_SEC)
    (Hnow : now ≤ 2 ^ 62 * NANOS_PER_SEC)
    (Hi32 : ∀ x, time_diff_i32 (X509_not_after x)) :
  no_panic (verify_at cell v leaf presented now).2.
Proof.
  assert (∀ c, not_after c + clock_skew (pre_cfg v) ≤ SYSTEM_TIME_MAX).
  { intros c. pose proof (asn1_to_system_bound _ (Hi32 (inner c))) as Hb.
    unfold not_after, SYSTEM_TIME_MAX, NANOS_PER_SEC in *. lia. }
  unfold verify_at. destruct (ensure_loaded_if_any_gost _ _ _) as [cell1 loaded] eqn:He. simpl.
  apply rbind_no_panic.
  - apply map_err_no_panic. pose proof (ensure_loaded_if_any_no_panic cell
      (leaf :: presented ++ intermediates v ++ anchors v) (gost_engine_path v)) as Hp. by rewrite He in Hp.
  - intros _ _. apply verify_steps_no_panic; [done|done| |done].
    unfold SYSTEM_TIME_MAX, NANOS_PER_SEC in *. lia.
Qed.

Lemma verify_at_no_panic_witness :
  no_panic (verify_at (SSL := Sample.openssl) (SHA := Sample.digest) (BP := Sample.release)
    (GS := GostSample.gost) GostSample.cell0 TrustSample.verifier TrustSample.root [] TrustSample.now).2.
Proof.
  apply (verify_at_no_panic (SSL := Sample.openssl) (BP := Sample.release)); try done.
  intros x days secs. simpl. intros [= <- <-]. lia.
Defined.

(** The chain may be one longer than [max_depth]: the depth is not checked
    when the anchor is appended, so a leaf issued by an anchor is accepted
    even with [max_depth = 1]. *)
Theorem build_chain_depth_one {SSL : OpenSSL} leaf presented pool ancs a
    (Ha : find_issuer leaf ancs = Some a) (Hs : is_self_signed a = true) :
  build_chain leaf presented pool ancs 1 = Ok [leaf; a].
Proof. unfold build_chain. simpl. by rewrite Ha, Hs. Qed.

Lemma build_chain_depth_one_witness :
  build_chain (SSL := Sample.openssl) TrustSample.sub [] [] [TrustSample.root] 1 =
    Ok [TrustSample.sub; TrustSample.root].
Proof. apply (build_chain_depth_one (SSL := Sample.openssl)); reflexivity. Defined.

(** C23: [check_revocation] on a chain whose anchor no current CRL lists.  It
    accepts only if every CRL is expired and the mode lenient, or current and
    free of the serials of the certificates below the anchor.  It reports a
    serial only if a current CRL lists it and it belongs to a certificate below
    the anchor, and an expired CRL only in strict mode and if there is one.
    There is no other outcome, so it accepts whenever neither reason is there. *)
Theorem check_revocation_exact {SSL : OpenSSL} path anchor store cfg now
    (Hanchor : ∀ crl, crl ∈ store → crl_expired crl now = false →
       to_ascii_lowercase (serial_hex anchor) ∉ revoked crl) :
  match check_revocation (path ++ [anchor]) store cfg now with
  | Ok _ => ∀ crl, crl ∈ store → crl_clear (crl_strict cfg) now path crl
  | Err (Revoked serial) => ∃ crl c, crl ∈ store ∧ crl_expired crl now = false ∧
      serial ∈ revoked crl ∧ c ∈ path ∧ serial = to_ascii_lowercase (serial_hex c)
  | Err (TrustCrl _) => crl_strict cfg = true ∧ ∃ crl, crl ∈ store ∧ crl_expired crl now = true
  | _ => False
  end.
Proof.
  pose proof (check_revocation_refuses (path ++ [anchor]) store cfg now) as Hr.
  pose proof (check_revocation_clear (path ++ [anchor]) store cfg now) as Hc.
  destruct (check_revocation _ _ _ _) as [[]|[]|]; try done.
  - destruct Hc as [Hc _]. specialize (Hc eq_refl). rewrite Forall_forall in Hc.
    intros crl Hin. specialize (Hc crl Hin). unfold crl_clear in *.
    destruct (crl_expired crl now); [done|]. by apply Forall_app in Hc as [? _].
  - destruct Hr as (crl & c & Hin & He & Hl & Hm & Heq). exists crl, c. split_and!; [done..| |done].
    apply elem_of_app in Hm as [?|Hm%list_elem_of_singleton]; [done|]. subst c.
    destruct (Hanchor crl Hin He). by rewrite <-Heq.
Qed.

(** The leaf of the sample chain is revoked. *)
Lemma check_revocation_exact_witness :
  let crl := MkCrl (SSL := Sample.openssl) (Sample.MkCrl 0 900 []) 0
    (Some (900 * 86400 * NANOS_PER_SEC)) ["0a"] [] in
  check_revocation (SSL := Sample.openssl) [TrustSample.leaf; TrustSample.sub; TrustSample.root] [crl]
    (MkRevocation true) TrustSample.now = Err (Revoked "0a") ∧
  ∃ c, c ∈ [TrustSample.leaf; TrustSample.sub] ∧ "0a" = to_ascii_lowercase (serial_hex c).
Proof.
  intros crl.
  assert (check_revocation (SSL := Sample.openssl) ([TrustSample.leaf; TrustSample.sub] ++ [TrustSample.root])
    [crl] (MkRevocation true) TrustSample.now = Err (Revoked "0a")) as Hr by (vm_compute; reflexivity).
  split; [exact Hr|].
  pose proof (check_revocation_exact (SSL := Sample.openssl) [TrustSample.leaf; TrustSample.sub]
    TrustSample.root [crl] (MkRevocation true) TrustSample.now) as Hx. rewrite Hr in Hx.
  destruct Hx as (x & c & _ & _ & _ & Hc & He); [|by exists c].
  intros x Hx%list_elem_of_singleton _. subst x. by apply (bool_decide_unpack _); vm_compute.
Defined.

(** The GOST engine is loaded at most once, and only for a GOST
    certificate: once the cell is set every later call, with any path, leaves
    it and repeats its result; a verification without GOST certificates does
    not touch it. *)
Theorem gost_engine_once {SSL : OpenSSL} {SHA : Sha256} {BP : BuildProfile} {GS : GostSys}
    cell path path' v leaf presented now :
  let first := ensure_loaded_with_path cell path in
  ensure_loaded_with_path first.1 path' = first ∧
  is_available first.1 = is_ok first.2 ∧
  (existsb (λ c, is_gost (signature_alg c)) (leaf :: presented ++ intermediates v ++ anchors v)
     = false →
   verify_at cell v leaf presented now = (cell, verify_steps v leaf presented now)).
Proof.
  split_and!; [apply ensure_loaded_again|apply ensure_loaded_available|].
  intros Hng. unfold verify_at, ensure_loaded_if_any_gost. by rewrite Hng.
Qed.
