(* ===== verification/MacLabel.v ===== *)
(** * Integrity labels ([mac/label.rs], [mac/text_codec.rs])

    The label of the mandatory integrity control: an [i8] level and a [u64]
    set of categories, its meet operations, its DER form and its [libpdp] text
    form, and the [MAX_INTEGRITY] extension ([x509/max_integrity_ext.rs]).
    The decoder also emits an audit notice, so it returns the notices beside
    its result. *)

From S2P Require Import Prelude Text Errors Openssl Der Sample X509Ext HostBinding.
Local Open Scope Z_scope.

Record IntegrityLabel := MkLabel {
  level : Z;
  categories : Z;
}.

#[export] Instance IntegrityLabel_eq_dec : EqDecision IntegrityLabel.
Proof. solve_decision. Defined.

(** The ranges of [i8] and [u64]. *)
Definition label_wf (l : IntegrityLabel) : Prop :=
  -128 ≤ level l ≤ 127 ∧ 0 ≤ categories l < 2 ^ 64.

Definition MAX_LEVEL : Z := 127.
Definition MIN_LEVEL : Z := -128.

Inductive LabelDerError : Type :=
| LevelOutOfRange
| LabelMalformed (msg : string)
| LabelOpenssl (e : ErrorStack).

Definition intersect (self other : IntegrityLabel) : IntegrityLabel :=
  MkLabel (Z.min (level self) (level other)) (Z.land (categories self) (categories other)).

Definition intersect_cert_with_user (self other : IntegrityLabel) : IntegrityLabel :=
  let cats :=
    if decide (categories self = 0) then categories other
    else Z.land (categories self) (categories other) in
  MkLabel (Z.min (level self) (level other)) cats.

Definition strictly_below (self other : IntegrityLabel) : bool :=
  let cats_subset := bool_decide (Z.land (categories self) (categories other) = categories self) in
  (bool_decide (level self < level other) && cats_subset) ||
  (bool_decide (level self ≤ level other) &&
   bool_decide (categories self ≠ categories other) && cats_subset).

(** [u8::try_from]. *)
Definition u8_try_from {E} (n : Z) (e : E) : res E byte :=
  if decide (0 ≤ n < 256) then Ok (zb n) else Err e.

(** [bytes.iter().position(|b| *b != 0)]. *)
Definition first_nonzero (bs : list byte) : option nat :=
  fst <$> list_find (λ b, bz b ≠ 0) bs.

Definition to_der (self : IntegrityLabel) : res LabelDerError (list byte) :=
  let int := [zb 0x02; zb 0x01; zb (level self)] in
  let? bits :=
    if decide (categories self = 0) then Ok [zb 0x03; zb 0x01; zb 0x00]
    else
      let bytes := be_bytes 8 (categories self) in
      let start := default 7%nat (first_nonzero bytes) in
      let? payload := slice_from bytes (Z.of_nat start) in
      let? len := u8_try_from (zlen payload + 1) (LabelMalformed "len") in
      Ok ([zb 0x03; len; zb 0x00] ++ payload) in
  let inner := int ++ bits in
  let? len := u8_try_from (zlen inner) (LabelMalformed "seq len") in
  Ok ([zb 0x30; len] ++ inner).

(** The categories field of [from_der]. *)
Definition der_categories (bs : list byte) : res LabelDerError Z :=
  let? bs0 := idx bs 0 in
  if decide (bs0 ≠ zb 0x03) then Err (LabelMalformed "missing BIT STRING tag") else
  let? bs1 := idx bs 1 in
  let bs_len := bz bs1 in
  if decide (bs_len = 0 ∨ zlen bs < 2 + bs_len) then
    Err (LabelMalformed "bad BIT STRING length") else
  if decide (2 + bs_len ≠ zlen bs) then
    Err (LabelMalformed "trailing bytes after BIT STRING") else
  let? payload := slice bs 2 (2 + bs_len) in
  if decide (payload = []) then Err (LabelMalformed "BIT STRING missing unused-bits byte") else
  let? unused := idx payload 0 in
  if decide (7 < bz unused) then Err (LabelMalformed "BIT STRING unused-bits > 7") else
  let? bits := slice_from payload 1 in
  if decide (8 < zlen bits) then Err (LabelMalformed "categories > 64 bits") else
  (* [buf[8 - bits.len()..].copy_from_slice(bits)] *)
  let? pad := slice_to (replicate 8 Byte.x00) (8 - zlen bits) in
  Ok (be_fold 0 (pad ++ bits)).

Definition from_der_label (der : list byte) : res LabelDerError IntegrityLabel :=
  if decide (zlen der < 2) then Err (LabelMalformed "not a SEQUENCE") else
  let? der0 := idx der 0 in
  if decide (der0 ≠ zb 0x30) then Err (LabelMalformed "not a SEQUENCE") else
  let? der1 := idx der 1 in
  let seq_len := bz der1 in
  if decide (zlen der < 2 + seq_len ∨ Z.land (bz der1) 0x80 ≠ 0) then
    Err (LabelMalformed "bad seq length") else
  if decide (2 + seq_len ≠ zlen der) then
    Err (LabelMalformed "trailing bytes after SEQUENCE") else
  let? body := slice der 2 (2 + seq_len) in
  if decide (zlen body < 3) then Err (LabelMalformed "missing INTEGER tag") else
  let? body0 := idx body 0 in
  if decide (body0 ≠ zb 0x02) then Err (LabelMalformed "missing INTEGER tag") else
  let? body1 := idx body 1 in
  let int_len := bz body1 in
  if decide (int_len = 0 ∨ zlen body < 2 + int_len) then
    Err (LabelMalformed "bad INTEGER length") else
  let? int_bytes := slice body 2 (2 + int_len) in
  if decide (zlen int_bytes ≠ 1) then Err LevelOutOfRange else
  let? i0 := idx int_bytes 0 in
  (* [cast_signed] *)
  let lvl := if decide (bz i0 < 128) then bz i0 else bz i0 - 256 in
  let after_int := 2 + int_len in
  let? cats :=
    if decide (after_int = zlen body) then Ok 0 else
    let? bs := slice_from body after_int in
    if decide (zlen bs < 2) then Err (LabelMalformed "missing BIT STRING tag")
    else der_categories bs in
  Ok (MkLabel lvl cats).

(** The notice [emit_categories_above_32bit]. *)
Inductive LabelNotice : Type :=
| CategoriesAbove32bit (cats : Z).

(** [IntegrityLabel::from_der] with the notices it emits. *)
Definition label_from_der (der : list byte) : list LabelNotice * res LabelDerError IntegrityLabel :=
  let r := from_der_label der in
  match r with
  | Ok l => (if decide (Z.shiftr (categories l) 32 ≠ 0)
             then [CategoriesAbove32bit (categories l)] else [], r)
  | _ => ([], r)
  end.

(** ** The [libpdp] text form *)

Inductive McFlag : Type :=
| Irelax
| Iinh
| Ccnr
| Ssi
| Silev.

Definition flag_as_str (f : McFlag) : string :=
  match f with
  | Irelax => "irelax"
  | Iinh => "iinh"
  | Ccnr => "ccnr"
  | Ssi => "ssi"
  | Silev => "silev"
  end.

Definition encode_label_text (l : IntegrityLabel) (flags : list McFlag) : string :=
  let base := "0:" +:+ fmt_dec (level l) +:+ ":" +:+ fmt_hex (categories l) in
  match flags with
  | [] => base
  | _ => base +:+ ":" +:+ String.concat "," (flag_as_str <$> flags)
  end.

(** [MacError]; the message of a [TextFormat] is the field and the parser's
    error. *)
Inductive TextFormatDetail : Type :=
| BadLevel (lv : string) (e : IntErrorKind)
| BadCatHex (hex : string) (e : IntErrorKind)
| NonUtf8Text (bs : list byte)
| OtherText (msg : string).

Inductive MacError : Type :=
| Parsec (op : string) (rc : Z)
| UserUnknown (user : string)
| MacUnavailable
| MacIo (msg : string)
| TextFormat (d : TextFormatDetail)
| CapMissing.

Definition COLON : byte := zb 0x3A.

Definition decode_label_text (s : string) : res MacError IntegrityLabel :=
  let parts := str_splitn 4 COLON (str_trim s) in
  let? lvl :=
    match parts !! 1%nat with
    | None | Some "" => Ok 0
    | Some lv => map_err (λ e, TextFormat (BadLevel lv e)) (of_sum (from_str_radix (-128) 127 10 lv))
    end in
  let? cats :=
    match parts !! 2%nat with
    | None | Some "" => Ok 0
    | Some hex => map_err (λ e, TextFormat (BadCatHex hex e))
        (of_sum (from_str_radix 0 (2 ^ 64 - 1) 16 (trim_start_matches "0x" hex)))
    end in
  Ok (MkLabel lvl cats).

(** ** The certificate extension *)

Inductive MaxIntegrityExtError : Type :=
| CertDer (e : ErrorStack)
| Scan (e : DerError)
| ParseLabel (e : LabelDerError).

Definition extract_max_integrity `{OpenSSL} (cert : X509)
    : list LabelNotice * res MaxIntegrityExtError (option IntegrityLabel) :=
  match
    let? der := map_err CertDer (of_sum (X509_to_der cert)) in
    map_err Scan (extract_extension_by_oid der MAX_INTEGRITY_OID)
  with
  | Ok (Some value) =>
      let (notices, label) := label_from_der value in
      (notices, let? l := map_err ParseLabel label in Ok (Some l))
  | Ok None => ([], Ok None)
  | Err e => ([], Err e)
  | Panic => ([], Panic)
  end.

(** ** The order of labels

    A label is below another when its level is at most the other's and its
    categories are among the other's. *)

Definition label_le (a b : IntegrityLabel) : Prop :=
  level a ≤ level b ∧ Z.land (categories a) (categories b) = categories a.

(** ** Lemmas *)

Lemma land_subset_l a b : Z.land (Z.land a b) a = Z.land a b.
Proof. rewrite (Z.land_comm a b), <-Z.land_assoc, Z.land_diag. done. Qed.

Lemma land_subset_r a b : Z.land (Z.land a b) b = Z.land a b.
Proof. by rewrite <-Z.land_assoc, Z.land_diag. Qed.

Lemma land_subset_glb a b c :
  Z.land c a = c → Z.land c b = c → Z.land c (Z.land a b) = c.
Proof. intros Ha Hb. by rewrite Z.land_assoc, Ha. Qed.

#[export] Instance label_le_preorder : PreOrder label_le.
Proof.
  split.
  - intros a. split; [lia|apply Z.land_diag].
  - intros a b c [? Hab] [? Hbc]. split; [lia|].
    by rewrite <-Hab, <-Z.land_assoc, Hbc.
Qed.

#[export] Instance label_le_antisymm : AntiSymm (=) label_le.
Proof.
  intros [la ca] [lb cb] [? Hab] [? Hba]. simpl in *. f_equal; [lia|].
  by rewrite <-Hab, Z.land_comm, Hba.
Qed.

Lemma be_fold_zeros k bs : be_fold 0 (replicate k Byte.x00 ++ bs) = be_fold 0 bs.
Proof.
  induction k as [|k IH]; [done|]. cbn [replicate app]. rewrite be_fold_cons. exact IH.
Qed.

Lemma list_find_None_all {A} (P : A → Prop) `{∀ x, Decision (P x)} l :
  list_find P l = None → Forall (λ x, ¬ P x) l.
Proof.
  induction l as [|a l IH]; [done|]. simpl. case_decide; [done|].
  destruct (list_find P l); [done|]. constructor; auto.
Qed.

(** The bytes before the first non-zero one are zero. *)
Lemma zeros_before bs :
  let start := default (length bs - 1)%nat (first_nonzero bs) in
  bs = replicate start Byte.x00 ++ drop start bs.
Proof.
  assert (∀ b, bz b = 0 → b = Byte.x00) as Hz by (intros b Hb; by apply bz_inj).
  assert (∀ l, Forall (λ b, bz b = 0) l → l = replicate (length l) Byte.x00) as Hrep.
  { induction 1 as [|b l Hb _ IH]; [done|]. simpl. by rewrite <-IH, (Hz b). }
  intros start. subst start. unfold first_nonzero.
  destruct (list_find _ bs) as [[i b]|] eqn:Hf; simpl.
  - apply list_find_Some in Hf as (Hi & _ & Hbefore).
    rewrite <-(take_drop i bs) at 1. f_equal. rewrite (Hrep (take i bs)) at 1.
    + f_equal. apply lookup_lt_Some in Hi. rewrite length_take. lia.
    + apply Forall_lookup. intros j c Hj. apply lookup_take_Some in Hj as [Hj Hlt].
      apply (Hbefore j c Hj) in Hlt. destruct (decide (bz c = 0)); [done|]. by destruct Hlt.
  - assert (Forall (λ b, bz b = 0) bs) as Hall.
    { apply list_find_None_all in Hf. eapply Forall_impl; [exact Hf|]. simpl. intros b Hb.
      destruct (decide (bz b = 0)); [done|]. by destruct Hb. }
    rewrite <-(take_drop (length bs - 1) bs) at 1. f_equal.
    rewrite (Hrep (take _ bs)) at 1 by by apply Forall_take.
    f_equal. rewrite length_take. lia.
Qed.

Lemma der_categories_enc payload :
  zlen payload ≤ 8 →
  der_categories ([zb 0x03; zb (zlen payload + 1); zb 0x00] ++ payload) = Ok (be_fold 0 payload).
Proof.
  intros Hp. pose proof (zlen_nonneg payload). unfold der_categories.
  set (bs := _ ++ payload).
  change (idx bs 0) with (@Ok LabelDerError _ (zb 0x03)).
  change (idx bs 1) with (@Ok LabelDerError _ (zb (zlen payload + 1))). cbn [rbind].
  assert (zlen bs = 3 + zlen payload) as Hl by (subst bs; by rewrite zlen_app).
  rewrite Hl, bz_zb_small by lia. rewrite !decide_False by (lia || auto).
  rewrite (slice_mid bs [zb 0x03; zb (zlen payload + 1)] (zb 0x00 :: payload) []);
    [|by rewrite app_nil_r|done|unfold zlen; simpl; lia].
  cbn [rbind]. rewrite decide_False by done.
  change (idx (zb 0x00 :: payload) 0) with (@Ok LabelDerError _ (zb 0x00)). cbn [rbind].
  rewrite decide_False by done.
  rewrite (slice_from_app _ [zb 0x00] payload) by done. cbn [rbind].
  rewrite decide_False by lia. unfold slice_to.
  rewrite slice_in by (change (zlen (replicate 8 Byte.x00)) with 8; lia). cbn [rbind].
  rewrite drop_0, take_replicate. by rewrite be_fold_zeros.
Qed.

(** A SEQUENCE of a one-byte INTEGER and [bits] in the short form. *)
Lemma from_der_label_enc lv bits :
  2 ≤ zlen bits ≤ 100 →
  from_der_label ([zb 0x30; zb (3 + zlen bits)] ++ [zb 0x02; zb 0x01; lv] ++ bits) =
  let? cats := der_categories bits in
  Ok (MkLabel (if decide (bz lv < 128) then bz lv else bz lv - 256) cats).
Proof.
  intros Hb. unfold from_der_label. set (body := [zb 0x02; zb 0x01; lv] ++ bits).
  set (der := _ ++ body). assert (zlen body = 3 + zlen bits) as Hlb by (subst body; by rewrite zlen_app).
  assert (zlen der = 5 + zlen bits) as Hld 
    by (subst der; rewrite zlen_app, Hlb; unfold zlen; simpl; lia).
  rewrite decide_False by lia.
  change (idx der 0) with (@Ok LabelDerError _ (zb 0x30)).
  change (idx der 1) with (@Ok LabelDerError _ (zb (3 + zlen bits))). cbn [rbind].
  rewrite decide_False by auto. rewrite Hld.
  assert (Z.land (bz (zb (3 + zlen bits))) 0x80 = 0) as ->
    by (apply land_0x80; rewrite bz_zb_small; lia).
  rewrite bz_zb_small by lia. rewrite !decide_False by (lia || auto).
  rewrite (slice_mid der [zb 0x30; zb (3 + zlen bits)] body []);
    [|by rewrite app_nil_r|done|rewrite Hlb; unfold zlen; simpl; lia].
  cbn [rbind]. rewrite decide_False by lia.
  change (idx body 0) with (@Ok LabelDerError _ (zb 0x02)).
  change (idx body 1) with (@Ok LabelDerError _ (zb 0x01)). cbn [rbind].
  rewrite decide_False by auto. change (bz (zb 0x01)) with 1.
  rewrite decide_False by lia.
  rewrite (slice_mid body [zb 0x02; zb 0x01] [lv] bits) by done. cbn [rbind].
  change (zlen [lv]) with 1. rewrite decide_False by lia.
  change (idx [lv] 0) with (@Ok LabelDerError _ lv). cbn [rbind].
  rewrite decide_False by lia. rewrite (slice_from_app _ [zb 0x02; zb 0x01; lv] bits) by done.
  cbn [rbind]. by rewrite decide_False by lia.
Qed.

Lemma signed_byte lv :
  -128 ≤ lv ≤ 127 →
  (if decide (bz (zb lv) < 128) then bz (zb lv) else bz (zb lv) - 256) = lv.
Proof. intros Hl. rewrite bz_zb. case_decide; lia. Qed.

Lemma first_nonzero_bound n z : (default 7 (first_nonzero (be_bytes (S n) z)) ≤ Nat.max 7 n)%nat.
Proof.
  unfold first_nonzero. destruct (list_find _ _) as [[i b]|] eqn:Hf; simpl; [|lia].
  apply list_find_Some in Hf as (Hi%lookup_lt_Some & _). rewrite length_be_bytes in Hi. lia.
Qed.

Lemma to_der_Ok l :
  label_wf l → ∃ bits, 2 ≤ zlen bits ≤ 100 ∧
    to_der l = Ok ([zb 0x30; zb (3 + zlen bits)] ++ [zb 0x02; zb 0x01; zb (level l)] ++ bits) ∧
    der_categories bits = Ok (categories l).
Proof.
  intros [_ Hc]. unfold to_der. case_decide as Hz.
  { exists [zb 0x03; zb 0x01; zb 0x00]. rewrite Hz. split_and!; done. }
  set (bytes := be_bytes 8 (categories l)). set (start := default 7%nat (first_nonzero bytes)).
  assert (length bytes = 8%nat) as Hlen by apply length_be_bytes.
  pose proof (zeros_before bytes) as Hzb. rewrite Hlen in Hzb.
  change (8 - 1)%nat with 7%nat in Hzb. fold start in Hzb. cbv zeta in Hzb.
  assert (start ≤ 7)%nat as Hs by apply (first_nonzero_bound 7 (categories l)).
  assert (zlen (drop start bytes) ≤ 8) as Hp
    by (unfold zlen; rewrite length_drop, Hlen; lia).
  rewrite (slice_from_app _ (replicate start Byte.x00) (drop start bytes));
    [|done|unfold zlen; by rewrite length_replicate].
  cbn [rbind]. unfold u8_try_from. pose proof (zlen_nonneg (drop start bytes)).
  rewrite decide_True by lia. cbn [rbind].
  exists ([zb 0x03; zb (zlen (drop start bytes) + 1); zb 0x00] ++ drop start bytes).
  assert (∀ x y z, zlen ([x; y; z] ++ drop start bytes) = 3 + zlen (drop start bytes)) as H3
    by (intros; by rewrite zlen_app).
  rewrite H3. split_and!; [lia|lia| |].
  - rewrite decide_True by (rewrite zlen_app, H3; change (zlen [_; _; _]) with 3; lia).
    by rewrite zlen_app, H3.
  - rewrite der_categories_enc by done. f_equal.
    rewrite <-(be_fold_zeros start), <-Hzb. subst bytes. rewrite be_fold_bytes.
    change (256 ^ Z.of_nat 8) with (2 ^ 64). rewrite Z.mod_small by lia. lia.
Qed.

Lemma be_fold_u64 bs : zlen bs ≤ 8 → 0 ≤ be_fold 0 bs < 2 ^ 64.
Proof.
  intros Hl. pose proof (be_fold_bound 0 bs ltac:(lia)) as Hb.
  pose proof (zlen_nonneg bs). change (2 ^ 64) with (256 ^ 8).
  assert (256 ^ zlen bs ≤ 256 ^ 8) by (apply Z.pow_le_mono_r; lia). lia.
Qed.

Lemma slice_length {E A} (l : list A) a b k :
  @slice E A l a b = Ok k → zlen k = b - a.
Proof.
  unfold slice. case_decide; [|done]. intros [= <-]. unfold zlen in *.
  rewrite length_take, length_drop. lia.
Qed.

Lemma der_categories_safe bs :
  2 ≤ zlen bs → no_panic (der_categories bs) ∧
  ∀ c, der_categories bs = Ok c → 0 ≤ c < 2 ^ 64.
Proof.
  intros Hl. unfold der_categories.
  destruct (@idx_in LabelDerError _ bs 0) as (b0 & -> & _); [lia|].
  destruct (@idx_in LabelDerError _ bs 1) as (b1 & -> & _); [lia|]. cbn [rbind].
  case_decide; [done|]. case_decide; [done|]. case_decide; [done|]. pose proof (bz_range b1).
  destruct (slice bs 2 (2 + bz b1)) as [p| |] eqn:Hp;
    [|by unfold slice in Hp; case_decide|by rewrite slice_in in Hp by lia].
  apply slice_length in Hp. cbn [rbind]. case_decide as Hn; [done|].
  destruct p as [|u bits]; [done|]. rewrite zlen_cons in Hp.
  change (idx (u :: bits) 0) with (@Ok LabelDerError _ u). cbn [rbind]. case_decide; [done|].
  rewrite (slice_from_app _ [u] bits) by done. cbn [rbind]. case_decide; [done|].
  pose proof (zlen_nonneg bits). unfold slice_to.
  rewrite slice_in by (change (zlen (replicate 8 Byte.x00)) with 8; lia). cbn [rbind].
  rewrite drop_0, take_replicate, be_fold_zeros.
  split; [done|]. intros c [= <-]. apply be_fold_u64. lia.
Qed.

Lemma from_der_label_safe der :
  no_panic (from_der_label der) ∧ ∀ l, from_der_label der = Ok l → label_wf l.
Proof.
  unfold from_der_label. case_decide; [done|].
  destruct (@idx_in LabelDerError _ der 0) as (d0 & -> & _); [lia|].
  destruct (@idx_in LabelDerError _ der 1) as (d1 & -> & _); [lia|]. cbn [rbind].
  case_decide; [done|]. case_decide; [done|]. case_decide; [done|]. pose proof (bz_range d1).
  rewrite slice_in by lia. cbn [rbind]. set (body := take _ _). case_decide; [done|].
  destruct (@idx_in LabelDerError _ body 0) as (b0 & -> & _); [lia|].
  destruct (@idx_in LabelDerError _ body 1) as (b1 & -> & _); [lia|]. cbn [rbind].
  case_decide; [done|]. case_decide; [done|]. pose proof (bz_range b1).
  rewrite slice_in by lia. cbn [rbind]. set (int := take _ _). case_decide; [done|].
  destruct (@idx_in LabelDerError _ int 0) as (i0 & -> & _); [lia|]. cbn [rbind].
  pose proof (bz_range i0). case_decide as Hend.
  { split; [done|]. intros l [= <-]. split; simpl; [case_decide; lia|lia]. }
  unfold slice_from. rewrite slice_in by lia. cbn [rbind]. set (bs := take _ (drop _ body)).
  case_decide; [done|]. destruct (der_categories_safe bs) as [Hnp Hwf]; [lia|].
  destruct (der_categories bs) as [c| |]; [|done|done]. cbn [rbind].
  split; [done|]. intros l [= <-]. split; simpl; [case_decide; lia|by apply Hwf].
Qed.

Lemma dec_bytes_graphic n :
  Forall (λ b, graphic b ∧ b ≠ COLON) (bytes_of (fmt_dec n)) ∧ fmt_dec n ≠ "".
Proof.
  assert (∀ radix n, 2 ≤ radix ≤ 16 → 0 ≤ n →
            Forall (λ b, graphic b ∧ b ≠ COLON) (fmt_nat radix n)) as Hf.
  { intros radix m Hr Hm. eapply Forall_impl; [by apply digits_range|]. simpl. unfold graphic.
    intros b Hb. split; [lia|]. intros ->. change (bz COLON) with 0x3A in Hb. lia. }
  unfold fmt_dec. rewrite bytes_of_text_of. split.
  - case_decide; [|by apply Hf; lia]. constructor; [|by apply Hf; lia]. by split.
  - intros He%(f_equal bytes_of). rewrite bytes_of_text_of in He. case_decide; [done|].
    by apply digits_nonempty in He.
Qed.

Lemma hex_bytes_graphic n :
  0 ≤ n → Forall (λ b, 0x30 ≤ bz b ≤ 0x39 ∨ 0x61 ≤ bz b ≤ 0x66) (bytes_of (fmt_hex n)) ∧
          fmt_hex n ≠ "".
Proof.
  intros Hn. unfold fmt_hex. rewrite bytes_of_text_of. split; [by apply digits_range|].
  intros He%(f_equal bytes_of). rewrite bytes_of_text_of in He. by apply digits_nonempty in He.
Qed.

Lemma trim_0x_hex n : 0 ≤ n → trim_start_matches "0x" (fmt_hex n) = fmt_hex n.
Proof.
  intros Hn. destruct (hex_bytes_graphic n Hn) as [Hf _]. unfold trim_start_matches.
  rewrite <-(text_of_bytes_of (fmt_hex n)) at 3. f_equal.
  destruct (bytes_of (fmt_hex n)) as [|a [|b r]]; [done| |].
  - cbn [length trim_start_matches_fuel]. rewrite decide_False; [done|]. by intros [[=] _].
  - cbn [length trim_start_matches_fuel]. rewrite decide_False; [done|].
    intros [[= -> ->] _]. inversion_clear Hf as [|? ? _ Hf']. inversion_clear Hf' as [|? ? Hb _].
    change (bz Byte.x78) with 0x78 in Hb. lia.
Qed.

Lemma flags_graphic flags : Forall graphic (bytes_of (String.concat "," (flag_as_str <$> flags))).
Proof.
  assert (∀ f, Forall graphic (bytes_of (flag_as_str f))) as Hf
    by (intros []; repeat constructor; by vm_compute).
  induction flags as [|f [|g flags] IH]; [constructor|apply Hf|].
  change (String.concat _ _) with
    (flag_as_str f +:+ "," +:+ String.concat "," (flag_as_str <$> g :: flags)).
  rewrite !bytes_of_app. apply Forall_app; split; [apply Hf|]. apply Forall_app; split; [|done].
  repeat constructor; by vm_compute.
Qed.

(** The three leading fields of a label text. *)
Lemma decode_label_fields l tail :
  label_wf l → Forall graphic tail →
  (tail = [] ∨ ∃ t, tail = COLON :: t) →
  decode_label_text (text_of (zb 0x30 :: COLON :: bytes_of (fmt_dec (level l)) ++
    COLON :: bytes_of (fmt_hex (categories l)) ++ tail)) = Ok l.
Proof.
  intros [Hl Hc] Ht Htail. unfold decode_label_text.
  destruct (dec_bytes_graphic (level l)) as [Hdg Hdn].
  destruct (hex_bytes_graphic (categories l)) as [Hhg Hhn]; [lia|].
  assert (COLON ∉ bytes_of (fmt_dec (level l))) as Hd.
  { intros Hin. rewrite Forall_forall in Hdg. by apply Hdg in Hin as [_ ?]. }
  assert (COLON ∉ bytes_of (fmt_hex (categories l))) as Hh.
  { intros Hin. rewrite Forall_forall in Hhg. apply Hhg in Hin.
    change (bz COLON) with 0x3A in Hin. lia. }
  rewrite str_trim_all_graphic.
  2:{ rewrite bytes_of_text_of. repeat (constructor; [by vm_compute|]).
      apply Forall_app; split; [by eapply Forall_impl; [exact Hdg|intros b []]|].
      constructor; [by vm_compute|]. apply Forall_app; split; [|done].
      eapply Forall_impl; [exact Hhg|]. unfold graphic. simpl. intros; lia. }
  unfold str_splitn. rewrite bytes_of_text_of.
  change (zb 0x30 :: COLON :: ?r) with ([zb 0x30] ++ COLON :: r).
  rewrite (splitn_bytes_cons 2 COLON [zb 0x30]) by (intros Hin%list_elem_of_singleton; done).
  rewrite (splitn_bytes_cons 1 COLON (bytes_of (fmt_dec (level l)))) by done.
  assert (∃ rest, splitn_bytes 2 COLON (bytes_of (fmt_hex (categories l)) ++ tail) =
                  bytes_of (fmt_hex (categories l)) :: rest) as [rest ->].
  { destruct Htail as [->|[t ->]].
    - rewrite app_nil_r, splitn_bytes_last by done. by eexists.
    - rewrite splitn_bytes_cons by done. by eexists. }
  cbn [fmap list_fmap lookup list_lookup]. rewrite !text_of_bytes_of.
  destruct (fmt_dec (level l)) as [|a s] eqn:Hfd; [done|]. rewrite <-Hfd.
  rewrite from_str_radix_fmt_dec by lia. cbn [of_sum map_err rbind].
  destruct (fmt_hex (categories l)) as [|b t] eqn:Hfh; [done|]. rewrite <-Hfh.
  rewrite trim_0x_hex by lia. unfold fmt_hex.
  rewrite from_str_radix_fmt_nat by lia. by destruct l.
Qed.

(** The text form is read back. *)
Lemma label_text_codec l flags : label_wf l → decode_label_text (encode_label_text l flags) = Ok l.
Proof.
  intros Hwf.
  assert (∀ s, s = text_of (bytes_of s)) as Ht by (intros; by rewrite text_of_bytes_of).
  unfold encode_label_text. destruct flags as [|f flags].
  - rewrite (Ht ("0:" +:+ _)), !bytes_of_app, <-(app_nil_r (bytes_of (fmt_hex _))).
    by apply (decode_label_fields l []); [|constructor|left].
  - rewrite (Ht (("0:" +:+ _) +:+ _)), !bytes_of_app, <-!app_assoc.
    apply (decode_label_fields l (bytes_of ":" ++ _)); [done| |by right; eexists].
    apply Forall_app; split; [repeat constructor; by vm_compute|apply flags_graphic].
Qed.

(** ** Theorems *)

(** C27: A label survives its DER form: [to_der] always succeeds on an [i8]
    level and a [u64] set, and [from_der] reads the label back. *)
Theorem label_der_roundtrip l (Hwf : label_wf l) :
  ∃ der, to_der l = Ok der ∧ (label_from_der der).2 = Ok l.
Proof.
  destruct (to_der_Ok l Hwf) as (bits & Hb & -> & Hc). eexists. split; [done|].
  unfold label_from_der. rewrite from_der_label_enc, Hc by done. cbn [rbind].
  destruct Hwf as [Hl _]. rewrite signed_byte by done. by destruct l.
Qed.

Lemma label_der_roundtrip_witness :
  ∃ der, to_der (MkLabel (-3) 0x1F00000001) = Ok der ∧
         (label_from_der der).2 = Ok (MkLabel (-3) 0x1F00000001).
Proof. apply (label_der_roundtrip (MkLabel (-3) 0x1F00000001)). split; simpl; lia. Defined.

(** [from_der] of a label never panics, whatever the bytes, and what it
    returns is in range. *)
Theorem label_from_der_safe der :
  no_panic (label_from_der der).2 ∧ ∀ l, (label_from_der der).2 = Ok l → label_wf l.
Proof.
  destruct (from_der_label_safe der) as [Hnp Hwf]. unfold label_from_der.
  destruct (from_der_label der) as [l| |]; [|done|done]. simpl. split; [done|].
  intros l' [= <-]. by apply Hwf.
Qed.

(** A label survives its [libpdp] text form, with any flags appended. *)
Theorem label_text_roundtrip l flags (Hwf : label_wf l) :
  decode_label_text (encode_label_text l flags) = Ok l.
Proof. by apply label_text_codec. Qed.

Lemma label_text_roundtrip_witness :
  encode_label_text (MkLabel (-5) 0xAB) [Irelax] = "0:-5:ab:irelax" ∧
  decode_label_text "0:-5:ab:irelax" = Ok (MkLabel (-5) 0xAB).
Proof.
  split; [done|]. apply (label_text_roundtrip (MkLabel (-5) 0xAB) [Irelax]). split; simpl; lia.
Defined.

(** [intersect] is the meet of the label order, and [strictly_below] is
    its strict part. *)
Theorem label_meet a b c :
  (label_le c (intersect a b) ↔ label_le c a ∧ label_le c b) ∧
  (strictly_below a b = true ↔ label_le a b ∧ a ≠ b).
Proof.
  unfold label_le, intersect, strictly_below. simpl. split.
  - split.
    + intros [? Hc]. split; (split; [lia|]); rewrite <-Hc.
      * by rewrite (Z.land_comm (categories a)), Z.land_assoc, land_subset_r.
      * by rewrite Z.land_assoc, land_subset_r.
    + intros [[? ?] [? ?]]. split; [lia|by apply land_subset_glb].
  - destruct a as [la ca], b as [lb cb]. simpl.
    rewrite orb_true_iff, !andb_true_iff, !bool_decide_eq_true. split.
    + intros [[? ?]|[[? ?] ?]]; (split; [split; [lia|done]|]); intros [= ? ?]; [lia|done].
    + intros [[? ?] Hne]. destruct (decide (la < lb)); [by left|right].
      split_and!; [done| |done]. intros ->. apply Hne. f_equal. lia.
Qed.

(** The cap [intersect_cert_with_user] never exceeds the user's label, never
    exceeds the certificate's level, and keeps within the certificate's
    categories unless the certificate names none. *)
Theorem cert_cap_sound cert user :
  label_le (intersect_cert_with_user cert user) user ∧
  level (intersect_cert_with_user cert user) ≤ level cert ∧
  (categories cert = 0 ∧
     categories (intersect_cert_with_user cert user) = categories user ∨
   categories cert ≠ 0 ∧ label_le (intersect_cert_with_user cert user) cert).
Proof.
  unfold label_le, intersect_cert_with_user. simpl. case_decide as Hz.
  - split_and!; [lia|apply Z.land_diag|lia|by left].
  - split_and!; [lia|apply land_subset_r|lia|right]. split_and!; [done|lia|apply land_subset_l].
Qed.
