(* ===== verification/MacOrchestrator.v ===== *)
(** * Session integrity policy ([mac/orchestrator.rs], [mac/backend.rs],
      [mac/audit.rs])

    [apply_session_policy] decides which label a session gets.  The
    [MacBackend] trait is a class, [StubBackend] its in-process instance; the
    [libpdp] backend behind it is FFI.  The function returns its trace, the
    audit events and the label handed to the kernel in order, beside its
    result.  The rate limiter of the parse-failure event is modelled with its
    cache as a map. *)

From S2P Require Import Prelude Text Errors Openssl Certificate MacLabel.
Local Open Scope Z_scope.

Inductive MacRuntime : Type :=
| Active
| Disabled
| Unavailable.

#[export] Instance MacRuntime_eq_dec : EqDecision MacRuntime.
Proof. solve_decision. Defined.

Class MacBackend := {
  probe : MacRuntime;
  get_user_mnkc : string → MacError + IntegrityLabel;
  apply_session : IntegrityLabel → MacError + unit;
  get_file_label : string → MacError + IntegrityLabel;
  set_file_label : string → IntegrityLabel → bool → MacError + unit;
  set_fd_label : Z → IntegrityLabel → bool → MacError + unit;
}.

(** [StubBackend]. *)
Definition StubBackend : MacBackend := {|
  probe := Unavailable;
  get_user_mnkc _ := inr (MkLabel 127 (2 ^ 64 - 1));
  apply_session _ := inr tt;
  get_file_label _ := inr (MkLabel 0 0);
  set_file_label _ _ _ := inr tt;
  set_fd_label _ _ _ := inr tt;
|}.

Inductive CertIntegrityMode : Type :=
| Required
| Optional
| Ignore.

Inductive MacRuntimeMode : Type := RuntimeRequiredMode | RuntimeAuto | RuntimeDisabled.

Record MacPolicy := MkMacPolicy {
  cert_integrity : CertIntegrityMode;
  fallback_max_integrity : option IntegrityLabel;
  warn_on_homedir_label_mismatch : bool;
  mac_runtime : MacRuntimeMode;
}.

Record SessionContext := MkSessionContext {
  sc_pam_user : string;
  sc_pam_service : string;
  sc_cert_ident : CertIdent;
  sc_home_dir : option string;
}.

Inductive OutcomeKind : Type :=
| Applied (l : IntegrityLabel)
| Skipped (reason : string).

Inductive OrchestratorError : Type :=
| CertLacksExt
| RuntimeRequired (r : MacRuntime)
| ApplyFailed (e : MacError).

(** The [emit_*] helpers the orchestrator calls, and its call of
    [apply_session]. *)
Inductive MacEvent : Type :=
| EmitSkipped (reason : string)
| EmitRuntimeRequired (r : MacRuntime)
| EmitCertLacksExt (ident : CertIdent) (user service : string)
| EmitUserUnknown (user service : string)
| EmitFallbackUsed (user service : string) (fallback : IntegrityLabel)
| EmitCapped (ident : CertIdent) (user service : string) (effective user_mnkc : IntegrityLabel)
| EmitHomedirAbove (user service home : string) (home_label effective : IntegrityLabel)
| EmitApplied (ident : CertIdent) (user service : string) (label : IntegrityLabel)
| EmitApplyFailed (ident : CertIdent) (user service : string) (e : MacError)
| CallApplySession (label : IntegrityLabel).

Definition is_interactive_service (svc : string) : bool :=
  bool_decide (svc ∈ ["login"; "gdm-password"; "lightdm"; "sddm"; "kdm"; "sshd"; "fly-dm"]).

(** Step (5): the label to apply. *)
Definition effective_label (policy : MacPolicy) (cert_max : option IntegrityLabel)
    (user_mnkc : IntegrityLabel) : IntegrityLabel :=
  match cert_max, fallback_max_integrity policy with
  | Some cert_bound, _ => intersect_cert_with_user cert_bound user_mnkc
  | None, Some fallback => intersect_cert_with_user fallback user_mnkc
  | None, None => user_mnkc
  end.

(** Step (7): the advisory about the home directory. *)
Definition homedir_advisory `{MacBackend} (policy : MacPolicy) (ctx : SessionContext)
    (effective : IntegrityLabel) : list MacEvent :=
  if warn_on_homedir_label_mismatch policy && is_interactive_service (sc_pam_service ctx) then
    match sc_home_dir ctx with
    | Some home =>
        match get_file_label home with
        | inr home_label =>
            if decide (level effective < level home_label)
            then [EmitHomedirAbove (sc_pam_user ctx) (sc_pam_service ctx) home home_label effective]
            else []
        | inl _ => []
        end
    | None => []
    end
  else [].

(** Steps (5)-(8), once the user's label is known. *)
Definition apply_effective `{MacBackend} (policy : MacPolicy)
    (cert_max : option IntegrityLabel) (ctx : SessionContext) (user_mnkc : IntegrityLabel)
    : list MacEvent * res OrchestratorError OutcomeKind :=
  let user := sc_pam_user ctx in
  let service := sc_pam_service ctx in
  let effective := effective_label policy cert_max user_mnkc in
  let ev_fallback :=
    match cert_max, fallback_max_integrity policy with
    | None, Some fallback => [EmitFallbackUsed user service fallback]
    | _, _ => []
    end in
  let ev_capped :=
    if strictly_below effective user_mnkc
    then [EmitCapped (sc_cert_ident ctx) user service effective user_mnkc] else [] in
  let ev_home := homedir_advisory policy ctx effective in
  let pre := ev_fallback ++ ev_capped ++ ev_home ++ [CallApplySession effective] in
  match apply_session effective with
  | inr _ =>
      (pre ++ [EmitApplied (sc_cert_ident ctx) user service effective], Ok (Applied effective))
  | inl e =>
      (pre ++ [EmitApplyFailed (sc_cert_ident ctx) user service e], Err (ApplyFailed e))
  end.

Definition apply_session_policy `{MacBackend} (policy : MacPolicy)
    (cert_max : option IntegrityLabel) (ctx : SessionContext)
    : list MacEvent * res OrchestratorError OutcomeKind :=
  match cert_integrity policy with
  | Ignore => ([EmitSkipped "policy_ignore"], Ok (Skipped "policy_ignore"))
  | mode =>
      let runtime := probe in
      if decide (runtime ≠ Active) then
        match mode with
        | Required => ([EmitRuntimeRequired runtime], Err (RuntimeRequired runtime))
        | Optional => ([EmitSkipped "runtime_inactive"], Ok (Skipped "runtime_inactive"))
        | Ignore => ([], Panic)
        end
      else
        match cert_max, mode with
        | None, Required =>
            ([EmitCertLacksExt (sc_cert_ident ctx) (sc_pam_user ctx) (sc_pam_service ctx)],
             Err CertLacksExt)
        | _, _ =>
            match get_user_mnkc (sc_pam_user ctx) with
            | inr user_mnkc => apply_effective policy cert_max ctx user_mnkc
            | inl (UserUnknown _) =>
                ([EmitUserUnknown (sc_pam_user ctx) (sc_pam_service ctx)],
                 Err (ApplyFailed (UserUnknown (sc_pam_user ctx))))
            | inl e => ([], Err (ApplyFailed e))
            end
        end
  end.

(** ** The parse-failure rate limiter *)

(** [PARSE_FAIL_RATE_WINDOW], one minute in nanoseconds. *)
Definition PARSE_FAIL_RATE_WINDOW : Z := 60 * NANOS_PER_SEC.
Definition PARSE_FAIL_CACHE_CAP : Z := 256.

(** [Instant::duration_since] saturates at zero. *)
Definition duration_since (now t : Z) : Z := Z.max 0 (now - t).

(** [iter().min_by_key(|(_, t)| *t)]: the first minimum in iteration order. *)
Fixpoint min_by_time (l : list (string * Z)) : option (string * Z) :=
  match l with
  | [] => None
  | x :: r =>
      match min_by_time r with
      | None => Some x
      | Some y => if decide (x.2 ≤ y.2) then Some x else Some y
      end
  end.

(** Is there an entry younger than the window? *)
Definition recently_emitted (cache : gmap string Z) (now : Z) (fingerprint : string) : bool :=
  match cache !! fingerprint with
  | Some last => bool_decide (duration_since now last < PARSE_FAIL_RATE_WINDOW)
  | None => false
  end.

(** [iter] is the order in which the hash map is iterated. *)
Definition should_emit_parse_failed (iter : gmap string Z → list (string * Z))
    (cache : gmap string Z) (now : Z) (fingerprint : string) : gmap string Z * bool :=
  let cache := filter (λ kv, duration_since now kv.2 < PARSE_FAIL_RATE_WINDOW) cache in
  if recently_emitted cache now fingerprint then (cache, false) else
  let cache :=
    if decide (PARSE_FAIL_CACHE_CAP ≤ Z.of_nat (size cache)) then
      match min_by_time (iter cache) with
      | Some (oldest_key, _) => delete oldest_key cache
      | None => cache
      end
    else cache in
  (<[fingerprint := now]> cache, true).

(** ** What may be applied *)

(** The bound of the session: the certificate's, else the administrator's. *)
Definition session_bound (policy : MacPolicy) (cert_max : option IntegrityLabel)
    : option IntegrityLabel :=
  match cert_max with Some b => Some b | None => fallback_max_integrity policy end.

(** The level and the categories stay within the bound; a bound without
    categories restricts the level only. *)
Definition within_bound (b k : IntegrityLabel) : Prop :=
  level k ≤ level b ∧ (categories b = 0 ∨ Z.land (categories k) (categories b) = categories k).

(** Labels that neither the user's nor the session's bound forbids. *)
Definition permitted (policy : MacPolicy) (cert_max : option IntegrityLabel)
    (user_mnkc k : IntegrityLabel) : Prop :=
  label_le k user_mnkc ∧
  match session_bound policy cert_max with Some b => within_bound b k | None => True end.

(** The labels handed to the kernel, in order. *)
Definition apply_calls (trace : list MacEvent) : list IntegrityLabel :=
  omap (λ e, match e with CallApplySession k => Some k | _ => None end) trace.

(** ** Lemmas *)

Lemma apply_calls_homedir `{MacBackend} policy ctx eff :
  apply_calls (homedir_advisory policy ctx eff) = [].
Proof.
  unfold homedir_advisory. destruct (_ && _); [|done]. destruct (sc_home_dir ctx); [|done].
  destruct (get_file_label _); [done|]. by case_decide.
Qed.

Lemma apply_calls_effective `{MacBackend} policy cert_max ctx user :
  apply_calls (apply_effective policy cert_max ctx user).1 =
    [effective_label policy cert_max user].
Proof.
  unfold apply_effective. set (eff := effective_label _ _ user).
  assert (∀ a b, apply_calls (a ++ b) = apply_calls a ++ apply_calls b) as Happ
    by (intros; apply omap_app).
  destruct (apply_session eff); simpl; rewrite !Happ, apply_calls_homedir; simpl;
    (destruct cert_max, (fallback_max_integrity policy), (strictly_below eff user); done).
Qed.

Lemma elem_of_apply_calls k trace : CallApplySession k ∈ trace ↔ k ∈ apply_calls trace.
Proof.
  unfold apply_calls. rewrite list_elem_of_omap. split; [by eexists|].
  intros ([] & ? & ?); by simplify_eq/=.
Qed.

Lemma cap_greatest b user k :
  label_le k (intersect_cert_with_user b user) ↔ label_le k user ∧ within_bound b k.
Proof.
  unfold label_le, within_bound, intersect_cert_with_user. simpl. case_decide as Hb.
  - split; [intros [? ?]; split_and!; [lia|done|lia|by left]|].
    intros [[? ?] [? _]]. split; [lia|done].
  - split.
    + intros [? Hk]. split; (split; [lia|]); [|right]; rewrite <-Hk.
      * by rewrite Z.land_assoc, land_subset_r.
      * by rewrite (Z.land_comm (categories b)), Z.land_assoc, land_subset_r.
    + intros [[? ?] [? [?|?]]]; [done|]. split; [lia|by apply land_subset_glb].
Qed.

Lemma effective_label_greatest policy cert_max user k :
  label_le k (effective_label policy cert_max user) ↔ permitted policy cert_max user k.
Proof.
  unfold effective_label, permitted, session_bound.
  destruct cert_max, (fallback_max_integrity policy); [apply cap_greatest..|].
  split; [done|by intros [? _]].
Qed.

Lemma min_by_time_elem l x : min_by_time l = Some x → x ∈ l.
Proof.
  revert x. induction l as [|y l IH]; intros x Hm; [done|]. simpl in Hm.
  destruct (min_by_time l) as [z|]; [|simplify_eq; by left].
  case_decide; simplify_eq; [by left|]. right. by apply IH.
Qed.

Lemma min_by_time_nonempty l : l ≠ [] → min_by_time l ≠ None.
Proof. destruct l; [done|]. intros _. simpl. destruct (min_by_time l); [|done]. by case_decide. Qed.

(** ** Theorems *)


(** The sample backend grants level 5 with three categories. *)
Definition sample_backend : MacBackend := {|
  probe := Active;
  get_user_mnkc _ := inr (MkLabel 5 7);
  apply_session _ := inr tt;
  get_file_label _ := inr (MkLabel 9 0);
  set_file_label _ _ _ := inr tt;
  set_fd_label _ _ _ := inr tt;
|}.

Definition sample_context : SessionContext :=
  MkSessionContext "alice" "login" (MkCertIdent "01" "CN=ca" "alice" "ff") (Some "/home/alice").


(** Under [Required] the policy never skips: the session gets a label
    bounded by the certificate's extension, or the call fails; and it fails
    without touching the kernel when the runtime is inactive, the extension
    is missing or the user is unknown. *)
Theorem required_never_skips `{MacBackend} policy cert_max ctx
    (Hreq : cert_integrity policy = Required) :
  match apply_session_policy policy cert_max ctx with
  | (_, Ok (Applied l)) => ∃ bound user, cert_max = Some bound ∧
      get_user_mnkc (sc_pam_user ctx) = inr user ∧ l = intersect_cert_with_user bound user
  | (_, Ok (Skipped _)) => False
  | (trace, Err _) => ∀ k, CallApplySession k ∈ trace →
      probe = Active ∧ ∃ e, apply_session k = inl e
  | (_, Panic) => False
  end.
Proof.
  unfold apply_session_policy. rewrite Hreq.
  assert (∀ (e : MacEvent) k, (∀ l, e ≠ CallApplySession l) → CallApplySession k ∉ [e]) as Hone.
  { intros e k He Hk%list_elem_of_singleton. by apply (He k). }
  case_decide as Hp; [by intros k ?%Hone|].
  assert (probe = Active) as Ha by (destruct (decide (probe = Active)); [done|by destruct Hp]).
  destruct cert_max as [bound|]; [|by intros k ?%Hone].
  destruct (get_user_mnkc (sc_pam_user ctx)) as [e|user] eqn:Hu.
  { destruct e; intros k; (intros ?%Hone; done) || by intros ?%elem_of_nil. }
  pose proof (apply_calls_effective policy (Some bound) ctx user) as Hcalls.
  unfold apply_effective in *. set (eff := effective_label _ _ user) in *.
  destruct (apply_session eff) as [e|[]] eqn:Hap; [|by eexists _, _].
  intros k Hk%elem_of_apply_calls. split; [done|]. exists e. cbn [fst] in Hcalls.
  rewrite Hcalls in Hk. by apply list_elem_of_singleton in Hk as ->.
Qed.

Lemma required_never_skips_witness :
  ∃ trace, apply_session_policy (H := StubBackend) (MkMacPolicy Required None true RuntimeAuto)
             (Some (MkLabel 3 10)) sample_context = (trace, Err (RuntimeRequired Unavailable)) ∧
           ∀ k, CallApplySession k ∉ trace.
Proof.
  eexists. split; [reflexivity|]. intros k Hk.
  pose proof (required_never_skips (H := StubBackend) (MkMacPolicy Required None true RuntimeAuto)
    (Some (MkLabel 3 10)) sample_context eq_refl k Hk) as [Hp _]. done.
Defined.

(** The rate limiter: an event goes out exactly when no event of the same
    fingerprint is younger than the window, the emission is recorded, a repeat
    inside the window is suppressed, and the cache never holds more than its
    cap, whatever the iteration order of the map. *)
Theorem parse_failed_rate_limit iter cache now fp cache' emitted
    (Hiter : ∀ m : gmap string Z, iter m ≡ₚ map_to_list m)
    (Hcap : Z.of_nat (size cache) ≤ PARSE_FAIL_CACHE_CAP)
    (Hrun : should_emit_parse_failed iter cache now fp = (cache', emitted)) :
  emitted = negb (recently_emitted cache now fp) ∧
  Z.of_nat (size cache') ≤ PARSE_FAIL_CACHE_CAP ∧
  (emitted = true → cache' !! fp = Some now ∧
     ∀ later, 0 ≤ later - now < PARSE_FAIL_RATE_WINDOW →
       (should_emit_parse_failed iter cache' later fp).2 = false).
Proof.
  unfold should_emit_parse_failed in Hrun. set (kept := filter _ cache) in *.
  assert (recently_emitted kept now fp = recently_emitted cache now fp) as Hsame.
  { unfold recently_emitted. destruct (kept !! fp) as [t|] eqn:Hk.
    - by apply map_lookup_filter_Some in Hk as [-> _].
    - apply map_lookup_filter_None in Hk as [->|Hk]; [done|].
      destruct (cache !! fp) as [t|]; [|done].
      rewrite bool_decide_eq_false_2; [done|by apply (Hk t)]. }
  assert (size kept ≤ size cache)%nat as Hsz by apply map_size_filter.
  rewrite Hsame in Hrun. destruct (recently_emitted cache now fp) eqn:Hrec; simplify_eq.
  { split_and!; [done|lia|done]. }
  set (evicted := if decide _ then _ else kept) in *.
  assert (Z.of_nat (size evicted) < PARSE_FAIL_CACHE_CAP) as Hev.
  { subst evicted. case_decide as Hfull; [|lia].
    destruct (min_by_time (iter kept)) as [[k t]|] eqn:Hmin.
    - apply min_by_time_elem in Hmin. rewrite (Hiter kept) in Hmin.
      apply elem_of_map_to_list in Hmin. rewrite map_size_delete_Some by eauto.
      unfold PARSE_FAIL_CACHE_CAP in *. lia.
    - apply min_by_time_nonempty in Hmin; [done|]. intros Hnil.
      pose proof (Hiter kept) as Hp. rewrite Hnil in Hp. symmetry in Hp.
      apply Permutation_nil_r, map_to_list_empty_iff in Hp. rewrite Hp, map_size_empty in Hfull.
      unfold PARSE_FAIL_CACHE_CAP in Hfull. lia. }
  split_and!; [done| |].
  - rewrite map_size_insert. destruct (evicted !! fp); unfold id; lia.
  - intros _. split; [by rewrite lookup_insert_eq|]. intros later Hl.
    unfold should_emit_parse_failed, recently_emitted.
    assert (duration_since later now < PARSE_FAIL_RATE_WINDOW) by (unfold duration_since; lia).
    rewrite map_lookup_filter_Some_2 with (x := now);
      [by rewrite bool_decide_eq_true_2|by rewrite lookup_insert_eq|done].
Qed.

Lemma parse_failed_rate_limit_witness :
  (should_emit_parse_failed map_to_list {["ab" := 5]} 7 "ab").2 = false ∧
  negb (recently_emitted {["ab" := 5]} 7 "ab") = false.
Proof.
  split; [reflexivity|]. symmetry.
  apply (parse_failed_rate_limit map_to_list {["ab" := 5]} 7 "ab" {["ab" := 5]} false).
  - done.
  - vm_compute. by intros.
  - vm_compute. reflexivity.
Defined.
