(* ===== verification/MacAudit.v ===== *)
(** * Audit records of the integrity policy ([mac/audit.rs])

    Each [emit_*] helper writes one structured record: a severity, a fixed event
    name and the fields of that event.  The orchestrator's trace is turned into
    the records it leaves in the log. *)

From S2P Require Import Prelude Text Errors Openssl Certificate MacLabel MacOrchestrator.
Local Open Scope Z_scope.

Inductive Severity : Type := AuDebug | AuInfo | AuWarn | AuError.

(** A field is a text, a number, or the text of an error. *)
Inductive FieldValue : Type :=
| FieldStr (s : string)
| FieldInt (n : Z)
| FieldErr (e : MacError).

Record AuditRecord := MkAudit {
  au_severity : Severity;
  au_event : string;
  au_fields : list (string * FieldValue);
}.

Definition EVENT_MAC_SKIPPED : string := "mac_skipped".
Definition EVENT_MAC_RUNTIME_REQUIRED : string := "mac_runtime_required".
Definition EVENT_CERT_LACKS_EXT : string := "cert_lacks_max_integrity_ext".
Definition EVENT_INTEGRITY_APPLIED : string := "integrity_applied".
Definition EVENT_INTEGRITY_CAPPED : string := "integrity_capped_below_user_mnkc".
Definition EVENT_HOMEDIR_LABEL_ABOVE : string := "homedir_label_above_session_cap".
Definition EVENT_MAC_APPLY_FAILED : string := "mac_apply_failed".
Definition EVENT_MAC_CAPS_MISSING : string := "mac_caps_missing".
Definition EVENT_MAC_USER_UNKNOWN : string := "mac_user_unknown".
Definition EVENT_MAC_FALLBACK_USED : string := "mac_fallback_used".
Definition EVENT_CERT_MAX_INT_CATS_ABOVE_32BIT : string := "cert_max_integrity_categories_above_32bit".
Definition EVENT_CERT_EXT_PARSE_FAILED : string := "cert_max_integrity_parse_failed".
Definition EVENT_MAC_SOCKET_LABEL : string := "mac_socket_label_set".
Definition EVENT_MAC_SESSIONS_FILE_WARN : string := "mac_sessions_file_label_warning".
Definition EVENT_MAC_RUNTIME_FALLBACK : string := "mac_runtime_fallback".
Definition EVENT_MAC_RUNTIME_DISABLED : string := "mac_runtime_disabled".

(** [{:016x}] of a set of categories. *)
Definition fmt_016x (n : Z) : string :=
  let body := fmt_nat 16 n in text_of (replicate (16 - length body) (zb 0x30) ++ body).

Definition str_field (name s : string) : string * FieldValue := (name, FieldStr s).

Definition user_fields (user service : string) : list (string * FieldValue) :=
  [str_field "F_pam_user" user; str_field "F_pam_service" service].

Definition cert_fields (ident : CertIdent) : list (string * FieldValue) :=
  [str_field "F_cert_serial" (ci_serial ident); str_field "F_cert_issuer" (ci_issuer ident);
   str_field "F_cert_cn" (ci_cn ident); str_field "F_cert_fingerprint" (ci_fingerprint ident)].

Definition label_fields (prefix : string) (l : IntegrityLabel) : list (string * FieldValue) :=
  [(prefix +:+ "level", FieldInt (level l)); str_field (prefix +:+ "categories") (fmt_016x (categories l))].

Definition emit_mac_skipped (reason : string) : AuditRecord :=
  MkAudit AuInfo EVENT_MAC_SKIPPED [str_field "F_reason" reason].

Definition emit_mac_runtime_required (runtime : string) : AuditRecord :=
  MkAudit AuError EVENT_MAC_RUNTIME_REQUIRED [str_field "F_runtime" runtime].

Definition emit_cert_lacks_ext (ident : CertIdent) (user service : string) : AuditRecord :=
  MkAudit AuError EVENT_CERT_LACKS_EXT (user_fields user service ++ cert_fields ident).

Definition emit_integrity_applied (ident : CertIdent) (user service : string) (label : IntegrityLabel)
    : AuditRecord :=
  MkAudit AuInfo EVENT_INTEGRITY_APPLIED
    (user_fields user service ++ cert_fields ident ++ label_fields "F_" label).

Definition emit_integrity_capped (ident : CertIdent) (user service : string)
    (effective user_mnkc : IntegrityLabel) : AuditRecord :=
  MkAudit AuWarn EVENT_INTEGRITY_CAPPED
    (user_fields user service ++ cert_fields ident ++ label_fields "F_effective_" effective ++
     label_fields "F_user_" user_mnkc).

Definition emit_homedir_label_above (user service home : string) (home_label effective : IntegrityLabel)
    : AuditRecord :=
  MkAudit AuWarn EVENT_HOMEDIR_LABEL_ABOVE
    (user_fields user service ++ [str_field "F_home_dir" home] ++ label_fields "F_home_" home_label ++
     label_fields "F_effective_" effective).

Definition emit_apply_failed (ident : CertIdent) (user service : string) (e : MacError) : AuditRecord :=
  MkAudit AuError EVENT_MAC_APPLY_FAILED
    (user_fields user service ++ cert_fields ident ++ [("F_detail", FieldErr e)]).

Definition emit_caps_missing (detail : string) : AuditRecord :=
  MkAudit AuWarn EVENT_MAC_CAPS_MISSING [str_field "F_detail" detail].

Definition emit_user_unknown (user service : string) : AuditRecord :=
  MkAudit AuError EVENT_MAC_USER_UNKNOWN (user_fields user service).

Definition emit_fallback_used (user service : string) (fallback : IntegrityLabel) : AuditRecord :=
  MkAudit AuInfo EVENT_MAC_FALLBACK_USED (user_fields user service ++ label_fields "F_" fallback).

(** At most one record per fingerprint and window. *)
Definition emit_cert_ext_parse_failed (iter : gmap string Z → list (string * Z)) (cache : gmap string Z)
    (now : Z) (user : string) (ident : CertIdent) (err : string) : gmap string Z * option AuditRecord :=
  let (cache', yes) := should_emit_parse_failed iter cache now (ci_fingerprint ident) in
  (cache', if yes : bool then
             Some (MkAudit AuWarn EVENT_CERT_EXT_PARSE_FAILED
                     (str_field "F_pam_user" user :: cert_fields ident ++ [str_field "F_error" err]))
           else None).

Definition emit_runtime_fallback (reason : string) : AuditRecord :=
  MkAudit AuWarn EVENT_MAC_RUNTIME_FALLBACK [str_field "F_reason" reason].

Definition emit_runtime_disabled : AuditRecord := MkAudit AuInfo EVENT_MAC_RUNTIME_DISABLED [].

Definition emit_socket_label (path : string) : AuditRecord :=
  MkAudit AuDebug EVENT_MAC_SOCKET_LABEL [str_field "F_path" path].

Definition emit_sessions_file_warn (path : string) (err : option string) : AuditRecord :=
  MkAudit AuWarn EVENT_MAC_SESSIONS_FILE_WARN
    [str_field "F_path" path; str_field "F_error" (default "-" err)].

Definition emit_categories_above_32bit (categories : Z) : AuditRecord :=
  MkAudit AuInfo EVENT_CERT_MAX_INT_CATS_ABOVE_32BIT [str_field "F_categories" (fmt_016x categories)].

(** [{:?}] of a runtime. *)
Definition runtime_debug (r : MacRuntime) : string :=
  match r with Active => "Active" | Disabled => "Disabled" | Unavailable => "Unavailable" end.

(** The record an event of the orchestrator leaves. *)
Definition record_of (e : MacEvent) : option AuditRecord :=
  match e with
  | EmitSkipped reason => Some (emit_mac_skipped reason)
  | EmitRuntimeRequired r => Some (emit_mac_runtime_required (runtime_debug r))
  | EmitCertLacksExt ident user service => Some (emit_cert_lacks_ext ident user service)
  | EmitUserUnknown user service => Some (emit_user_unknown user service)
  | EmitFallbackUsed user service fallback => Some (emit_fallback_used user service fallback)
  | EmitCapped ident user service eff mnkc => Some (emit_integrity_capped ident user service eff mnkc)
  | EmitHomedirAbove user service home hl eff => Some (emit_homedir_label_above user service home hl eff)
  | EmitApplied ident user service label => Some (emit_integrity_applied ident user service label)
  | EmitApplyFailed ident user service err => Some (emit_apply_failed ident user service err)
  | CallApplySession _ => None
  end.

Definition audit_log (trace : list MacEvent) : list AuditRecord := omap record_of trace.

(** ** What the log says *)

Definition quiet (log : list AuditRecord) : Prop := Forall (λ r, au_severity r ≠ AuError) log.

(** The log of a run says what its verdict was. *)
Definition audited `{MacBackend} (ctx : SessionContext) (trace : list MacEvent)
    (r : res OrchestratorError OutcomeKind) : Prop :=
  match r with
  | Ok (Applied l) =>
      ∃ pre, quiet pre ∧
        audit_log trace =
          pre ++ [emit_integrity_applied (sc_cert_ident ctx) (sc_pam_user ctx) (sc_pam_service ctx) l]
  | Ok (Skipped reason) => audit_log trace = [emit_mac_skipped reason]
  | Err e =>
      (∃ pre last, audit_log trace = pre ++ [last] ∧ quiet pre ∧ au_severity last = AuError) ∨
      (audit_log trace = [] ∧
       ∃ e', e = ApplyFailed e' ∧ get_user_mnkc (sc_pam_user ctx) = inl e' ∧ ∀ u, e' ≠ UserUnknown u)
  | Panic => False
  end.

Lemma audit_log_app a b : audit_log (a ++ b) = audit_log a ++ audit_log b.
Proof. apply omap_app. Qed.

Lemma audit_log_homedir `{MacBackend} policy ctx eff : quiet (audit_log (homedir_advisory policy ctx eff)).
Proof.
  unfold homedir_advisory. destruct (_ && _); [|by constructor]. destruct (sc_home_dir ctx); [|by constructor].
  destruct (get_file_label _); [by constructor|]. case_decide; by repeat constructor.
Qed.

Lemma effective_audited `{MacBackend} policy cert_max ctx mnkc :
  let '(trace, r) := apply_effective policy cert_max ctx mnkc in
  audited ctx trace r.
Proof.
  unfold apply_effective. set (eff := effective_label _ _ _).
  set (pre := (match cert_max, fallback_max_integrity policy with
               | None, Some fallback => [EmitFallbackUsed (sc_pam_user ctx) (sc_pam_service ctx) fallback]
               | _, _ => [] end) ++ _).
  assert (quiet (audit_log pre)) as Hq.
  { unfold pre. rewrite !audit_log_app. unfold quiet. rewrite !Forall_app.
    split_and!; [|destruct (strictly_below _ _)|apply audit_log_homedir|]; by repeat case_match; repeat constructor. }
  destruct (apply_session eff) as [e|[]].
  - left. rewrite audit_log_app. eexists _, _. by split_and!.
  - exists (audit_log pre). by rewrite audit_log_app.
Qed.

(** C37: Every verdict of the integrity policy is on record: an applied label as the
    last record, with the user, the service, the certificate and the label, and
    no error beside it; a skip as the only record; a refusal as a record of
    severity error, but for one: when the user's limit cannot be read for
    another reason than an unknown user, nothing is written. *)
Theorem verdict_audited `{MacBackend} policy cert_max ctx :
  let '(trace, r) := apply_session_policy policy cert_max ctx in
  audited ctx trace r.
Proof.
  assert (∀ rec : AuditRecord, au_severity rec = AuError →
    ∃ pre last, [rec] = pre ++ [last] ∧ quiet pre ∧ au_severity last = AuError) as Hone
    by (intros rec; exists [], rec; by repeat constructor).
  assert (∀ cm, let '(trace, r) := match get_user_mnkc (sc_pam_user ctx) with
            | inr user_mnkc => apply_effective policy cm ctx user_mnkc
            | inl (UserUnknown _) => ([EmitUserUnknown (sc_pam_user ctx) (sc_pam_service ctx)],
                 Err (ApplyFailed (UserUnknown (sc_pam_user ctx))))
            | inl e => ([], Err (ApplyFailed e)) end in audited ctx trace r) as Hm.
  { intros cm. destruct (get_user_mnkc _) as [e|mnkc] eqn:Hm; [|apply effective_audited].
    destruct e; first [left; by apply Hone|right; split; [done|]; eexists; by split_and!]. }
  unfold apply_session_policy. destruct (cert_integrity policy); [| |done].
  - destruct (decide (probe ≠ Active)); [left; by apply Hone|].
    destruct cert_max; [apply (Hm (Some _))|left; by apply Hone].
  - destruct (decide (probe ≠ Active)); [done|]. destruct cert_max; [apply (Hm (Some _))|apply (Hm None)].
Qed.
