(* ===== verification/PdpFfi.v ===== *)
(** * The [libpdp] backend ([mac/ffi.rs], [ParsecBackend] of [mac/backend.rs])

    The foreign functions of [libpdp] and [libparsec-base] are a class; the
    wrappers around them, with the label handle that is released when it goes
    out of scope, are definitions in the state and error monad.  The theorems
    count what the wrappers hold, and say which text the kernel is handed. *)

From S2P Require Import Prelude Text Sys Errors Openssl Certificate Gost MacLabel MacOrchestrator.
Local Open Scope Z_scope.

(** Labels and the texts [pdpl_get_text] returns are pointers into the C heap;
    [None] is the null pointer. *)
Class Libpdp (W : Type) := {
  PdplPtr : Type;
  TextPtr : Type;
  pdpl_get_from_text : string → W → W * option PdplPtr;
  pdpl_get_text : PdplPtr → Z → W → W * option TextPtr;
  text_bytes : TextPtr → W → list byte;
  libc_free : TextPtr → W → W;
  pdpl_put : PdplPtr → W → W;
  pdp_set_pid : Z → PdplPtr → W → W * Z;
  pdp_set_path : string → PdplPtr → W → W * Z;
  pdp_set_fd : Z → PdplPtr → W → W * Z;
  pdp_get_lpath : string → W → W * option PdplPtr;
  parsec_strict_mode : W → W * Z;
  (** The return code and the effective set. *)
  parsec_capget : Z → W → W * (Z * Z);
  (** The [il] of the entry. *)
  getmicnam : string → W → W * option Z;
}.

Definition PARSEC_CAP_CHMAC : Z := 3.

Module Ffi.

Section ffi.
Context {W : Type} {PDP : Libpdp W}.

(** [CString::new], with the message of its error. *)
Definition c_string (what s : string) : res MacError string :=
  match nul_error s with
  | Some e => Err (TextFormat (OtherText ("interior NUL in " +:+ what +:+ ": " +:+ e)))
  | None => Ok s
  end.

(** [Pdpl::from_label]. *)
Definition from_label (label : IntegrityLabel) (flags : list McFlag) : io W MacError PdplPtr :=
  let! text := lift (c_string "label text" (encode_label_text label flags)) in
  let! raw := ask (pdpl_get_from_text text) in
  lift (ok_or raw (Parsec "pdpl_get_from_text" (-1))).

(** [Pdpl::to_label]: the text is freed once it has been read. *)
Definition to_label (p : PdplPtr) : io W MacError IntegrityLabel :=
  let! raw := ask (pdpl_get_text p 0) in
  match raw with
  | None => lift (Err (Parsec "pdpl_get_text" (-1)))
  | Some c => λ w,
      match from_utf8 (text_bytes c w) with
      | None => (w, Err (TextFormat (NonUtf8Text (text_bytes c w))))
      | Some s => (libc_free c w, decode_label_text s)
      end
  end.

(** [Drop for Pdpl] at the end of a scope. *)
Definition scoped {A} (p : PdplPtr) (body : io W MacError A) : io W MacError A := λ w,
  let (w', r) := body w in (pdpl_put p w', r).

(** A setter's return code. *)
Definition rc_ok (op : string) (f : W → W * Z) : io W MacError unit :=
  let! rc := ask f in
  if decide (rc ≠ 0) then lift (Err (Parsec op rc)) else fret tt.

Definition path_to_cstring (p : string) : res MacError string := c_string "path" p.

Definition probe_runtime (w : W) : W * MacRuntime :=
  let (w, strict) := parsec_strict_mode w in
  (w, if decide (strict = 1) then Active else if decide (strict = 0) then Disabled else Unavailable).

Definition set_proc (label : IntegrityLabel) : io W MacError unit :=
  let! p := from_label label [] in
  scoped p (rc_ok "pdp_set_pid" (pdp_set_pid 0 p)).

Definition check_chmac_capability (w : W) : W * bool :=
  let (w, out) := parsec_capget 0 w in
  (w, if decide (out.1 ≠ 0) then false
      else negb (bool_decide (Z.land out.2 (Z.shiftl 1 PARSEC_CAP_CHMAC) = 0))).

Definition get_user_mnkc (user : string) : io W MacError IntegrityLabel :=
  let! c := lift (c_string "user" user) in
  let! ent := ask (getmicnam c) in
  let! il := lift (ok_or ent (UserUnknown user)) in
  fret (MkLabel (if decide (il ≤ 127) then il else 127) 0).

Definition get_file_label (path : string) : io W MacError IntegrityLabel :=
  let! c := lift (path_to_cstring path) in
  let! raw := ask (pdp_get_lpath c) in
  let! p := lift (ok_or raw (Parsec "pdp_get_lpath" (-1))) in
  scoped p (to_label p).

Definition irelax_flags (irelax : bool) : list McFlag := if irelax then [Irelax] else [].

Definition set_file_label (path : string) (label : IntegrityLabel) (irelax : bool)
    : io W MacError unit :=
  let! p := from_label label (irelax_flags irelax) in
  scoped p (let! c := lift (path_to_cstring path) in rc_ok "pdp_set_path" (pdp_set_path c p)).

Definition set_fd_label (fd : Z) (label : IntegrityLabel) (irelax : bool) : io W MacError unit :=
  let! p := from_label label (irelax_flags irelax) in
  scoped p (rc_ok "pdp_set_fd" (pdp_set_fd fd p)).

(** [ParsecBackend::new]: whether the missing capability is reported. *)
Definition parsec_backend_new (w : W) : W * bool :=
  let (w, present) := check_chmac_capability w in (w, negb present).

End ffi.

End Ffi.

(** ** What is held *)

(** How often a label and a text were handed out and not yet given back. *)
Class PdpHeap (W : Type) `{Libpdp W} := {
  pdpl_eq_dec :: EqDecision PdplPtr;
  text_eq_dec :: EqDecision TextPtr;
  labels : W → PdplPtr → Z;
  texts : W → TextPtr → Z;
  heap_from_text : ∀ t w w' r, pdpl_get_from_text t w = (w', r) →
    (∀ q, labels w' q = labels w q + (if decide (r = Some q) then 1 else 0)) ∧ texts w' = texts w;
  heap_lpath : ∀ p w w' r, pdp_get_lpath p w = (w', r) →
    (∀ q, labels w' q = labels w q + (if decide (r = Some q) then 1 else 0)) ∧ texts w' = texts w;
  heap_text : ∀ p f w w' r, pdpl_get_text p f w = (w', r) →
    labels w' = labels w ∧ ∀ c, texts w' c = texts w c + (if decide (r = Some c) then 1 else 0);
  heap_free : ∀ c w, labels (libc_free c w) = labels w ∧
    ∀ d, texts (libc_free c w) d = texts w d - (if decide (d = c) then 1 else 0);
  heap_put : ∀ p w, texts (pdpl_put p w) = texts w ∧
    ∀ q, labels (pdpl_put p w) q = labels w q - (if decide (q = p) then 1 else 0);
  heap_set_pid : ∀ n p w, labels (pdp_set_pid n p w).1 = labels w ∧ texts (pdp_set_pid n p w).1 = texts w;
  heap_set_path : ∀ s p w, labels (pdp_set_path s p w).1 = labels w ∧ texts (pdp_set_path s p w).1 = texts w;
  heap_set_fd : ∀ n p w, labels (pdp_set_fd n p w).1 = labels w ∧ texts (pdp_set_fd n p w).1 = texts w;
}.

Section heap.
Context {W : Type} `{PdpHeap W}.

Definition unit_at {A} `{EqDecision A} (o : option A) (a : A) : Z := if decide (o = Some a) then 1 else 0.

(** Nothing gained and nothing lost but one reference to [p] and one to [c]. *)
Definition holds (p : option PdplPtr) (c : option TextPtr) (w w' : W) : Prop :=
  (∀ q, labels w' q = labels w q + unit_at p q) ∧ (∀ d, texts w' d = texts w d + unit_at c d).

Lemma holds_refl w : holds None None w w.
Proof. split; intros; unfold unit_at; rewrite decide_False by done; lia. Qed.

Lemma holds_same p c w w1 w2 :
  holds p c w w1 → labels w2 = labels w1 → texts w2 = texts w1 → holds p c w w2.
Proof. intros [Hl Ht] El Et. by split; intros; rewrite ?El, ?Et. Qed.

Lemma from_label_holds label flags w w' r :
  Ffi.from_label label flags w = (w', r) →
  match r with Ok p => holds (Some p) None w w' | _ => holds None None w w' end.
Proof.
  unfold Ffi.from_label. rewrite fbind_eq. unfold lift at 1. destruct (Ffi.c_string _ _) as [text|e|];
    [|intros [= <- <-]; apply holds_refl..].
  rewrite fbind_eq. unfold ask. destruct (pdpl_get_from_text text w) as [w1 raw] eqn:Hg.
  apply heap_from_text in Hg as [Hl Ht]. unfold lift. intros [= <- <-].
  destruct raw as [p|]; cbn [ok_or]; split; intros; rewrite ?Hl, ?Ht; unfold unit_at;
    rewrite ?(decide_False (P := None = Some _)) by done; try lia.
Qed.

Lemma scoped_holds {A} p c (body : io W MacError A) w w1 w2 r :
  holds (Some p) None w w1 → body w1 = (w2, r) →
  labels w2 = labels w1 → (∀ d, texts w2 d = texts w1 d + unit_at c d) →
  holds None c w (Ffi.scoped p body w1).1.
Proof.
  intros [Hl Ht] Hb El Et. unfold Ffi.scoped. rewrite Hb. cbn [fst].
  destruct (heap_put p w2) as [Pt Pl]. split; intros x.
  - rewrite Pl, El, Hl. unfold unit_at. rewrite (decide_False (P := None = Some _)) by done.
    destruct (decide (x = p)) as [->|Hx]; [rewrite decide_True by done; lia|].
    rewrite decide_False by congruence. lia.
  - rewrite Pt, Et, Ht. unfold unit_at. rewrite (decide_False (P := None = Some _)) by done. lia.
Qed.

Lemma rc_ok_world op (f : W → W * Z) w : (Ffi.rc_ok op f w).1 = (f w).1.
Proof. unfold Ffi.rc_ok, fbind, ask. destruct (f w) as [w' rc]. cbn. by case_decide. Qed.

(** A setter: the label is released on every path. *)
Lemma setter_holds label flags (body : PdplPtr → io W MacError unit) w :
  (∀ p w, labels (body p w).1 = labels w ∧ texts (body p w).1 = texts w) →
  holds None None w ((let! p := Ffi.from_label label flags in Ffi.scoped p (body p)) w).1.
Proof.
  intros Hb. rewrite fbind_eq. destruct (Ffi.from_label label flags w) as [w1 r] eqn:Hf.
  apply from_label_holds in Hf. destruct r as [p|e|]; [|done..].
  destruct (body p w1) as [w2 r2] eqn:E. destruct (Hb p w1) as [El Et]. rewrite E in El, Et.
  eapply scoped_holds; [exact Hf|exact E|exact El|].
  intros d. cbn in Et. rewrite Et. unfold unit_at. rewrite decide_False by done. lia.
Qed.

Lemma decode_label_utf8 s bs : decode_label_text s ≠ Err (TextFormat (NonUtf8Text bs)).
Proof.
  unfold decode_label_text. generalize (str_splitn 4 COLON (str_trim s)). intros parts.
  destruct (parts !! 1%nat) as [[|a lv]|], (parts !! 2%nat) as [[|b hex]|];
    try destruct (from_str_radix _ _ 10 _); try destruct (from_str_radix _ _ 16 _); done.
Qed.

Lemma to_label_holds p w :
  let out := Ffi.to_label p w in
  labels out.1 = labels w ∧
  match out.2 with
  | Err (TextFormat (NonUtf8Text _)) => ∃ c, ∀ d, texts out.1 d = texts w d + unit_at (Some c) d
  | _ => ∀ d, texts out.1 d = texts w d
  end.
Proof.
  unfold Ffi.to_label. rewrite fbind_eq. unfold ask.
  destruct (pdpl_get_text p 0 w) as [w1 raw] eqn:Hg. apply heap_text in Hg as [Hl Ht].
  destruct raw as [c|]; cbn.
  - destruct (from_utf8 (text_bytes c w1)) as [s|]; cbn [fst snd]; [|by split; [|exists c]].
    destruct (heap_free c w1) as [Fl Ft]. rewrite Fl. split; [done|].
    assert (∀ d, texts (libc_free c w1) d = texts w d) as E.
    { intros d. rewrite Ft, Ht. destruct (decide (d = c)) as [->|Hd]; [rewrite decide_True by done; lia|].
      rewrite decide_False by congruence. lia. }
    destruct (decode_label_text s) as [l|[]|] eqn:Hd; try done. destruct d; try done.
    by apply decode_label_utf8 in Hd.
  - split; [done|]. intros d. rewrite Ht, decide_False by done. lia.
Qed.

End heap.

(** ** A sample heap *)

Module PdpSample.

(** How many labels and texts are out; one label, one text. *)
Record heap := MkHeap { hp_labels : Z; hp_texts : Z; hp_bytes : list byte }.

Definition pdp : Libpdp heap := {|
  PdplPtr := unit;
  TextPtr := unit;
  pdpl_get_from_text _ h := (MkHeap (hp_labels h + 1) (hp_texts h) (hp_bytes h), Some tt);
  pdpl_get_text _ _ h := (MkHeap (hp_labels h) (hp_texts h + 1) (hp_bytes h), Some tt);
  text_bytes _ := hp_bytes;
  libc_free _ h := MkHeap (hp_labels h) (hp_texts h - 1) (hp_bytes h);
  pdpl_put _ h := MkHeap (hp_labels h - 1) (hp_texts h) (hp_bytes h);
  pdp_set_pid _ _ h := (h, 0);
  pdp_set_path _ _ h := (h, 0);
  pdp_set_fd _ _ h := (h, 0);
  pdp_get_lpath _ h := (MkHeap (hp_labels h + 1) (hp_texts h) (hp_bytes h), Some tt);
  parsec_strict_mode h := (h, 1);
  parsec_capget _ h := (h, (0, 8));
  getmicnam _ h := (h, Some 63);
|}.

Definition pdp_heap : @PdpHeap heap pdp.
Proof.
  refine (@Build_PdpHeap heap pdp unit_eq_dec unit_eq_dec (λ h _, hp_labels h) (λ h _, hp_texts h)
            _ _ _ _ _ _ _ _); try done.
  - intros t w w' r [= <- <-]. by split; [intros []|].
  - intros t w w' r [= <- <-]. by split; [intros []|].
  - intros p f w w' r [= <- <-]. by split; [|intros []].
  - intros [] w. by split; [|intros []].
  - intros [] w. by split; [|intros []].
Defined.

End PdpSample.

(** ** Theorems *)

(** C35: Every wrapper gives back the label it took, whatever [libpdp] answers and
    on every early return.  The text of a file's label is freed too, unless
    it is not UTF-8: then the error returns past [free], and it is lost. *)
Theorem labels_given_back {W} {PDP : Libpdp W} {PH : PdpHeap W} path label irelax fd w :
  holds None None w (Ffi.set_proc label w).1 ∧
  holds None None w (Ffi.set_file_label path label irelax w).1 ∧
  holds None None w (Ffi.set_fd_label fd label irelax w).1 ∧
  let out := Ffi.get_file_label path w in
  match out.2 with
  | Err (TextFormat (NonUtf8Text _)) => ∃ c, holds None (Some c) w out.1
  | _ => holds None None w out.1
  end.
Proof.
  split_and!.
  - apply setter_holds. intros p w1. rewrite rc_ok_world. apply heap_set_pid.
  - apply setter_holds. intros p w1. unfold Ffi.path_to_cstring. rewrite fbind_eq. unfold lift.
    destruct (Ffi.c_string "path" path); [|done..]. rewrite rc_ok_world. apply heap_set_path.
  - apply setter_holds. intros p w1. rewrite rc_ok_world. apply heap_set_fd.
  - unfold Ffi.get_file_label, Ffi.path_to_cstring, Ffi.c_string.
    destruct (nul_error path); [apply holds_refl|]. rewrite !fbind_eq. cbn [lift].
    rewrite fbind_eq. unfold ask. destruct (pdp_get_lpath path w) as [w1 raw] eqn:Hg.
    apply heap_lpath in Hg as [Hl Ht]. rewrite fbind_eq. unfold lift. destruct raw as [p|]; cbn [ok_or].
    2:{ cbn [fst snd]. split; intros; rewrite ?Hl, ?Ht; unfold unit_at; [done|].
        rewrite decide_False by done. lia. }
    assert (holds (Some p) None w w1) as Hh.
    { split; intros; rewrite ?Hl, ?Ht; unfold unit_at; [done|]. rewrite decide_False by done. lia. }
    pose proof (to_label_holds p w1) as Hx. destruct (Ffi.to_label p w1) as [w2 r] eqn:E.
    destruct Hx as [El Et]. cbn [fst snd] in El, Et.
    assert ((Ffi.scoped p (Ffi.to_label p) w1).2 = r) as -> by (unfold Ffi.scoped; by rewrite E).
    assert (∀ c, (∀ d, texts w2 d = texts w1 d + unit_at c d) →
      holds None c w (Ffi.scoped p (Ffi.to_label p) w1).1) as Hs by (intros; by eapply scoped_holds).
    assert ((∀ d, texts w2 d = texts w1 d) → holds None None w (Ffi.scoped p (Ffi.to_label p) w1).1) as H0.
    { intros E0. apply Hs. intros d. rewrite E0. unfold unit_at. rewrite decide_False by done. lia. }
    destruct r as [l|[]|]; auto. destruct d; auto. destruct Et as [c Et]. exists c. by apply Hs.
Qed.

Lemma labels_given_back_witness :
  let h := PdpSample.MkHeap 4 2 [zb 0xFF] in
  ∃ c, @holds PdpSample.heap PdpSample.pdp PdpSample.pdp_heap None (Some c) h
         (Ffi.get_file_label (PDP := PdpSample.pdp) "/home/alice" h).1.
Proof.
  exact (proj2 (proj2 (proj2 (labels_given_back (PH := PdpSample.pdp_heap) "/home/alice" (MkLabel 0 0) false 3
    (PdpSample.MkHeap 4 2 [zb 0xFF]))))).
Defined.

(** A session label that [set_proc] reports as applied was handed to the
    kernel for the calling process, as a text that stands for that label, and
    the handle was released after the call. *)
Theorem set_proc_hands_label {W} {PDP : Libpdp W} label w w'
    (Hwf : label_wf label) (Hok : Ffi.set_proc label w = (w', Ok tt)) :
  let text := encode_label_text label [] in
  decode_label_text text = Ok label ∧
  ∃ p w1 w2, pdpl_get_from_text text w = (w1, Some p) ∧ pdp_set_pid 0 p w1 = (w2, 0) ∧
    w' = pdpl_put p w2.
Proof.
  split; [by apply label_text_codec|]. unfold Ffi.set_proc, Ffi.from_label, Ffi.c_string in Hok.
  peel Hok w1 p Hp. peel Hp w2 text Ht. apply lift_Ok_inv in Ht as [-> Ht].
  destruct (nul_error _); [done|]. injection Ht as <-.
  unfold fbind, ask, lift in Hp. destruct (pdpl_get_from_text _ w) as [w3 [q|]] eqn:Hg; [|done].
  injection Hp as <- <-. unfold Ffi.scoped, Ffi.rc_ok, fbind, ask in Hok.
  destruct (pdp_set_pid 0 q w3) as [w4 rc] eqn:Hs. case_decide as Hrc; [done|].
  injection Hok as <-. exists q, w3, w4. split_and!; [done| |done].
  assert (rc = 0) as -> by (by destruct (decide (rc = 0))). done.
Qed.

Lemma set_proc_hands_label_witness :
  let h := PdpSample.MkHeap 0 0 [] in
  ∃ p w1 w2, pdpl_get_from_text (Libpdp := PdpSample.pdp) "0:63:0" h = (w1, Some p) ∧
    pdp_set_pid 0 p w1 = (w2, 0) ∧ h = pdpl_put p w2.
Proof.
  refine (proj2 (set_proc_hands_label (PDP := PdpSample.pdp) (MkLabel 63 0) _ _ _ eq_refl)).
  split; simpl; lia.
Defined.

(** The label that [ParsecBackend] gives as a user's limit names no category,
    so no label the policy derives from it does, whatever categories the
    certificate or the fallback names. *)
Theorem user_limit_drops_categories {W} {PDP : Libpdp W} user w w' limit policy cert_max
    (Hok : Ffi.get_user_mnkc user w = (w', Ok limit)) :
  categories limit = 0 ∧ level limit ≤ 127 ∧ categories (effective_label policy cert_max limit) = 0.
Proof.
  unfold Ffi.get_user_mnkc in Hok. peel Hok w1 c Hc. peel Hok w2 ent He. peel Hok w3 il Hi.
  injection Hok as <- <-. cbn [categories level]. split_and!; [done|by case_decide|].
  unfold effective_label, intersect_cert_with_user.
  repeat case_match; simplify_eq/=; rewrite ?Z.land_0_r; auto.
Qed.
