(* ===== verification/Proto.v ===== *)
(** * The monitord protocol ([pam_certauth_proto])

    Messages, error codes, the time encoding and the newline-delimited JSON
    frames.  [serde_json] is third-party: the class [Json] holds the
    serialiser and parser of a message type, and [JsonLaws] what the code
    relies on (parsing inverts printing up to the whole seconds the time
    encoding keeps, compact output is UTF-8 and escapes control characters).  A [Uuid] is its 128-bit value; its text form comes from the
    [uuid] crate. *)

From S2P Require Import Prelude Text Errors Openssl Der X509Ext Certificate.
Local Open Scope Z_scope.

Abbreviation Uuid := Z (only parsing).

Class UuidText := uuid_to_string : Uuid → string.

Inductive SessionTarget : Type :=
| Tty (path : string)
| Display (name : string)
| LogindSession (id : string)
| TargetUnknown.

#[export] Instance SessionTarget_eq_dec : EqDecision SessionTarget.
Proof. solve_decision. Defined.

Definition logind_id (t : SessionTarget) : option string :=
  match t with LogindSession id => Some id | _ => None end.

(** [SessionOpenPayload]; [opened_at] is in nanoseconds since the epoch. *)
Record SessionOpenPayload := MkSessionOpen {
  so_session_id : Uuid;
  so_pam_user : string;
  so_pam_service : string;
  so_target : SessionTarget;
  so_usb_serial : option string;
  so_host_id_hash : string;
  so_opened_at : Z;
  so_cert_cn : string;
  so_cert_serial : string;
  so_engineer_ski : string;
  so_engineer_cert_sha256 : string;
  so_uid : Z;
}.

(** [SessionOpen] carries the fields of the payload. *)
Inductive ClientMessage : Type :=
| Hello (protocol_version : Z) (agent : option string)
| SessionOpen (p : SessionOpenPayload)
| GetActiveSessionByUid (uid : Z)
| SessionClose (session_id : Uuid) (closed_at : Z)
| UpdateSessionTarget (session_id : Uuid) (new_target : SessionTarget)
| Ping.

Inductive ServerMessage : Type :=
| HelloAck (server_version : string) (protocol_version : Z)
| Ack
| SessionTargetUpdated (session_id : string)
| Pong
| ActiveSessionMsg (session_id cert_cn engineer_ski engineer_cert_sha256 host_id_hash : string)
| ErrorMsg (code : Z) (message : string).

Definition PROTOCOL_VERSION : Z := 2.

Definition PROTOCOL_MISMATCH : Z := 1000.
Definition DEVICE_GONE : Z := 1001.
Definition UNAUTHORIZED : Z := 1003.
Definition BAD_REQUEST : Z := 1100.
Definition PROTOCOL_VIOLATION : Z := 1101.
Definition INTERNAL : Z := 1500.
Definition NO_ACTIVE_SESSION : Z := 1200.

Inductive ServerErrorCode : Type :=
| ProtocolMismatch
| BadRequest
| Internal
| DeviceGone
| Unauthorized.

Definition from_numeric (code : Z) : ServerErrorCode :=
  if decide (code = PROTOCOL_MISMATCH) then ProtocolMismatch
  else if decide (code = DEVICE_GONE) then DeviceGone
  else if decide (code = UNAUTHORIZED) then Unauthorized
  else if decide (code = BAD_REQUEST) then BadRequest
  else Internal.

Definition to_numeric (c : ServerErrorCode) : Z :=
  match c with
  | ProtocolMismatch => PROTOCOL_MISMATCH
  | DeviceGone => DEVICE_GONE
  | Unauthorized => UNAUTHORIZED
  | BadRequest => BAD_REQUEST
  | Internal => INTERNAL
  end.

(** ** Times on the wire: whole seconds since the epoch *)

Inductive TimeSerdeError : Type :=
| TimeBeforeEpoch
| SecondsOverflow
| NegativeSeconds
| TimeOverflow.

Definition system_time_serialize (t : Z) : res TimeSerdeError Z :=
  if decide (t < 0) then Err TimeBeforeEpoch else
  let secs := t / NANOS_PER_SEC in
  if decide (secs ≤ 2 ^ 63 - 1) then Ok secs else Err SecondsOverflow.

Definition system_time_deserialize (secs : Z) : res TimeSerdeError Z :=
  if decide (secs < 0) then Err NegativeSeconds else
  if decide (secs * NANOS_PER_SEC ≤ SYSTEM_TIME_MAX) then Ok (secs * NANOS_PER_SEC)
  else Err TimeOverflow.

(** What a time is after the wire. *)
Definition wire_time (t : Z) : Z := t / NANOS_PER_SEC * NANOS_PER_SEC.

(** ** Frames *)

Class Json (T : Type) := {
  json_to_vec : T → string + list byte;
  json_from_slice : list byte → string + T;
}.

(** The message the other end sees: the [serde] attributes of the times. *)
Class OnWire (T : Type) := on_wire : T → T.

#[export] Instance ClientMessage_on_wire : OnWire ClientMessage := λ m,
  match m with
  | SessionOpen p =>
      SessionOpen (MkSessionOpen (so_session_id p) (so_pam_user p) (so_pam_service p) (so_target p)
        (so_usb_serial p) (so_host_id_hash p) (wire_time (so_opened_at p)) (so_cert_cn p)
        (so_cert_serial p) (so_engineer_ski p) (so_engineer_cert_sha256 p) (so_uid p))
  | SessionClose id closed_at => SessionClose id (wire_time closed_at)
  | m => m
  end.

#[export] Instance ServerMessage_on_wire : OnWire ServerMessage := λ m, m.

Class JsonLaws (T : Type) `{Json T} `{OnWire T} := {
  json_roundtrip : ∀ m bs, json_to_vec m = inr bs → json_from_slice bs = inr (on_wire m);
  json_no_control : ∀ m bs, json_to_vec m = inr bs → Forall (λ b, 0x20 ≤ bz b) bs;
  json_utf8 : ∀ m bs, json_to_vec m = inr bs → utf8_valid bs = true;
}.

Inductive WireError : Type :=
| FrameTooLarge (n : Z)
| WireEncode (e : string)
| WireDecode (e : string)
| EmbeddedNewline.

Definition MAX_FRAME_BYTES : Z := 64 * 1024.

Definition LF : byte := zb 0x0A.
Definition CR : byte := zb 0x0D.

Definition encode_message `{Json T} (msg : T) : res WireError (list byte) :=
  let? bytes := map_err WireEncode (of_sum (json_to_vec msg)) in
  if decide (LF ∈ bytes) then Err EmbeddedNewline else
  if decide (MAX_FRAME_BYTES < zlen bytes) then Err (FrameTooLarge (zlen bytes)) else
  Ok (bytes ++ [LF]).

(** [trim_end_matches(['\n', '\r'])], the [while] loop of [decode_bytes]. *)
Fixpoint trim_eol_rev (rev_bytes : list byte) : list byte :=
  match rev_bytes with
  | b :: r => if decide (b = LF ∨ b = CR) then trim_eol_rev r else b :: r
  | [] => []
  end.

Definition trim_eol (bytes : list byte) : list byte := reverse (trim_eol_rev (reverse bytes)).

(** [decode_line] on the bytes of its [&str], and [decode_bytes]: the size
    check, the trim and the parse are the same. *)
Definition decode_bytes `{Json T} (bytes : list byte) : res WireError T :=
  if decide (MAX_FRAME_BYTES < zlen bytes) then Err (FrameTooLarge (zlen bytes)) else
  map_err WireDecode (of_sum (json_from_slice (trim_eol bytes))).

Definition decode_line `{Json T} (line : string) : res WireError T :=
  decode_bytes (bytes_of line).

(** [framing.rs]: the same frames without the size limit. *)
Inductive FramingError : Type :=
| FramingEncode (e : string)
| FramingDecode (e : string)
| FramingEmbeddedNewline.

Definition framing_encode `{Json T} (m : T) : res FramingError (list byte) :=
  let? bytes := map_err FramingEncode (of_sum (json_to_vec m)) in
  if decide (LF ∈ bytes) then Err FramingEmbeddedNewline else Ok (bytes ++ [LF]).

Definition framing_decode `{Json T} (line : list byte) : res FramingError T :=
  map_err FramingDecode (of_sum (json_from_slice line)).

(** ** Lemmas *)

Lemma trim_eol_snoc bs : Forall (λ b, 0x20 ≤ bz b) bs → trim_eol (bs ++ [LF]) = bs.
Proof.
  intros Hbs. unfold trim_eol. rewrite reverse_app. cbn [reverse rev_append app trim_eol_rev].
  rewrite decide_True by auto. rewrite <-(reverse_involutive bs) at 2. f_equal.
  destruct (reverse bs) as [|b r] eqn:Hr; [done|]. cbn [trim_eol_rev].
  rewrite decide_False; [done|]. assert (0x20 ≤ bz b) as Hb.
  { rewrite Forall_forall in Hbs. apply Hbs. rewrite <-elem_of_reverse, Hr. by left. }
  intros [->| ->]; by vm_compute in Hb.
Qed.

(** What [encode_message] accepts. *)
Lemma encode_message_inv `{Json T} (msg : T) frame :
  encode_message msg = Ok frame →
  ∃ bs, json_to_vec msg = inr bs ∧ frame = bs ++ [LF] ∧ (LF ∉ bs) ∧
        zlen bs ≤ MAX_FRAME_BYTES.
Proof.
  unfold encode_message. intros He. apply rbind_Ok_inv in He as (bs & Hb%map_err_Ok_inv & He).
  case_decide; [done|]. case_decide; [done|]. simplify_eq. exists bs.
  destruct (json_to_vec msg); simplify_eq/=. split_and!; [done..|lia].
Qed.

Lemma encode_message_Ok `{Json T} (msg : T) bs :
  json_to_vec msg = inr bs → (LF ∉ bs) → zlen bs ≤ MAX_FRAME_BYTES →
  encode_message msg = Ok (bs ++ [LF]).
Proof.
  intros Hj Hn Hl. unfold encode_message. rewrite Hj. simpl.
  by rewrite decide_False, decide_False by (done || lia).
Qed.

(** [wire_time] is the two halves of [time_serde] composed. *)
Lemma wire_time_codec t secs :
  system_time_serialize t = Ok secs → t ≤ SYSTEM_TIME_MAX →
  system_time_deserialize secs = Ok (wire_time t).
Proof.
  unfold system_time_serialize, system_time_deserialize, wire_time.
  case_decide; [done|]. case_decide; [|done]. intros [= <-] Hmax.
  assert (0 < NANOS_PER_SEC) by done.
  pose proof (Z.div_pos t NANOS_PER_SEC). pose proof (Z.mul_div_le t NANOS_PER_SEC).
  by rewrite decide_False, decide_True by lia.
Qed.

Lemma decode_encoded `{Json T, OnWire T, !JsonLaws T} (msg : T) bs :
  json_to_vec msg = inr bs → zlen (bs ++ [LF]) ≤ MAX_FRAME_BYTES →
  decode_bytes (bs ++ [LF]) = Ok (on_wire msg).
Proof.
  intros Hj Hlen. unfold decode_bytes. rewrite decide_False by lia.
  rewrite trim_eol_snoc by by eapply json_no_control.
  by rewrite (json_roundtrip _ _ Hj).
Qed.

(** A JSON instance for two client messages. *)
Module ProtoSample.

Definition print (m : ClientMessage) : string + list byte :=
  match m with
  | Hello 2 None => inr (bytes_of "{H}")
  | Ping => inr (bytes_of "{P}")
  | _ => inl "unsupported"
  end.

Definition parse (bs : list byte) : string + ClientMessage :=
  if decide (bs = bytes_of "{H}") then inr (Hello 2 None)
  else if decide (bs = bytes_of "{P}") then inr Ping
  else inl "bad json".

Definition json : Json ClientMessage := {| json_to_vec := print; json_from_slice := parse |}.

Lemma laws : JsonLaws ClientMessage (H := json).
Proof.
  split; intros m bs; destruct m as [v a| | | | |]; simpl; try done.
  - destruct v as [|[|[]|]|], a; try done. by intros [= <-].
  - by intros [= <-].
  - destruct v as [|[|[]|]|], a; try done. intros [= <-]. repeat constructor; by vm_compute.
  - intros [= <-]. repeat constructor; by vm_compute.
  - destruct v as [|[|[]|]|], a; try done. by intros [= <-].
  - by intros [= <-].
Qed.

(** A message whose text fills the limit. *)
Definition long_json : Json unit := {|
  json_to_vec _ := inr (replicate (Z.to_nat MAX_FRAME_BYTES) (zb 0x20));
  json_from_slice _ := inr tt;
|}.

End ProtoSample.

(** ** Theorems *)

(** C38: A frame survives the wire: what [encode_message] produced decodes to the
    message (its times in whole seconds), as long as the frame with its newline is within the limit. *)
Theorem wire_roundtrip `{Json T, OnWire T, !JsonLaws T} (msg : T) frame
    (Henc : encode_message msg = Ok frame) (Hlen : zlen frame ≤ MAX_FRAME_BYTES) :
  decode_bytes frame = Ok (on_wire msg).
Proof.
  apply encode_message_inv in Henc as (bs & Hj & -> & _ & _). by apply decode_encoded.
Qed.

Lemma wire_roundtrip_witness :
  decode_bytes (H := ProtoSample.json) (bytes_of "{P}" ++ [LF]) = Ok Ping.
Proof.
  apply (wire_roundtrip (H := ProtoSample.json) (JsonLaws0 := ProtoSample.laws) Ping).
  - reflexivity.
  - by vm_compute.
Defined.

(** The two ends disagree about the limit: [encode_message] accepts a body of
    exactly [MAX_FRAME_BYTES] (the limit excludes the newline), the decoder
    counts the newline and rejects that frame. *)
Theorem wire_limit_off_by_one `{Json T} (msg : T) bs
    (Hj : json_to_vec msg = inr bs) (Hn : LF ∉ bs) (Hl : zlen bs = MAX_FRAME_BYTES) :
  encode_message msg = Ok (bs ++ [LF]) ∧
  decode_bytes (T := T) (bs ++ [LF]) = Err (FrameTooLarge (MAX_FRAME_BYTES + 1)).
Proof.
  split; [apply encode_message_Ok; done || lia|].
  unfold decode_bytes. rewrite zlen_app, Hl. by rewrite decide_True by (change (zlen [LF]) with 1; lia).
Qed.

Lemma wire_limit_off_by_one_witness :
  decode_bytes (T := unit) (H := ProtoSample.long_json)
    (replicate (Z.to_nat MAX_FRAME_BYTES) (zb 0x20) ++ [LF]) =
    Err (FrameTooLarge (MAX_FRAME_BYTES + 1)).
Proof.
  apply (wire_limit_off_by_one (H := ProtoSample.long_json) tt).
  - cbv [json_to_vec ProtoSample.long_json]. reflexivity.
  - intros [He _]%elem_of_replicate. by vm_compute in He.
  - unfold zlen. rewrite length_replicate, Z2Nat.id; [reflexivity|lia || by vm_compute].
Defined.
