(* ===== verification/Registry.v ===== *)
(** * The session registry ([registry.rs], [registry/store.rs])

    Sessions by id with a reverse index by uid, both under one mutex, so every
    operation is atomic.  A [HashMap] is a [gmap]; its iteration order, which
    the code leaves open, is the order of [map_to_list], and no theorem
    depends on it. *)

From S2P Require Import Prelude Proto.
Local Open Scope Z_scope.

Record ActiveSession := MkSession {
  session_id : Uuid;
  pam_user : string;
  pam_service : string;
  target : SessionTarget;
  usb_serial : option string;
  host_id_hash : string;
  opened_at : Z;
  cert_cn : string;
  cert_serial : string;
  engineer_ski : string;
  engineer_cert_sha256 : string;
  uid : Z;
}.

#[export] Instance ActiveSession_eq_dec : EqDecision ActiveSession.
Proof. solve_decision. Defined.

Inductive UpdateTargetError : Type := NotFound.

(** [Inner]. *)
Record SessionRegistry := MkRegistry {
  by_id : gmap Uuid ActiveSession;
  by_uid : gmap Z Uuid;
}.

Definition registry_new : SessionRegistry := MkRegistry ∅ ∅.

(** One iteration of the loop of [from_snapshot]. *)
Definition snapshot_insert (r : SessionRegistry) (s : ActiveSession) : SessionRegistry :=
  MkRegistry (<[session_id s := s]> (by_id r))
    (if decide (uid s ≠ 0) then <[uid s := session_id s]> (by_uid r) else by_uid r).

Definition from_snapshot (sessions : list ActiveSession) : SessionRegistry :=
  foldl snapshot_insert registry_new sessions.

Definition registry_add (r : SessionRegistry) (s : ActiveSession) : SessionRegistry :=
  let stale_uid :=
    match by_id r !! session_id s with
    | Some existing =>
        if decide (uid existing ≠ 0 ∧ uid existing ≠ uid s ∧
                   by_uid r !! uid existing = Some (session_id s))
        then Some (uid existing) else None
    | None => None
    end in
  let idx := match stale_uid with Some u => delete u (by_uid r) | None => by_uid r end in
  let idx := if decide (uid s ≠ 0) then <[uid s := session_id s]> idx else idx in
  MkRegistry (<[session_id s := s]> (by_id r)) idx.

Definition registry_remove (r : SessionRegistry) (id : Uuid)
    : SessionRegistry * option ActiveSession :=
  match by_id r !! id with
  | None => (r, None)
  | Some removed =>
      let idx :=
        if decide (uid removed ≠ 0 ∧ by_uid r !! uid removed = Some id)
        then delete (uid removed) (by_uid r) else by_uid r in
      (MkRegistry (delete id (by_id r)) idx, Some removed)
  end.

Definition find_by_session_id (r : SessionRegistry) (id : Uuid) : option ActiveSession :=
  by_id r !! id.

Definition set_target (t : SessionTarget) (s : ActiveSession) : ActiveSession :=
  MkSession (session_id s) (pam_user s) (pam_service s) t (usb_serial s) (host_id_hash s)
    (opened_at s) (cert_cn s) (cert_serial s) (engineer_ski s) (engineer_cert_sha256 s) (uid s).

Definition update_target (r : SessionRegistry) (id : Uuid) (new_target : SessionTarget)
    : SessionRegistry * res UpdateTargetError unit :=
  match by_id r !! id with
  | Some entry => (MkRegistry (<[id := set_target new_target entry]> (by_id r)) (by_uid r), Ok tt)
  | None => (r, Err NotFound)
  end.

Definition find_by_uid (r : SessionRegistry) (u : Z) : option ActiveSession :=
  if decide (u = 0) then None else
  match by_uid r !! u with
  | Some id => by_id r !! id
  | None => None
  end.

Definition snapshot (r : SessionRegistry) : list ActiveSession := (map_to_list (by_id r)).*2.

Definition find_by_serial (r : SessionRegistry) (serial : string) : list ActiveSession :=
  List.filter (λ s, bool_decide (usb_serial s = Some serial)) (snapshot r).

Definition registry_len (r : SessionRegistry) : nat := size (by_id r).

(** ** The invariant and what the registry promises *)

(** Every entry is filed under its own id, and the index only points from a
    non-zero uid to a session of that uid. *)
Record registry_wf (r : SessionRegistry) : Prop := {
  wf_ids : map_Forall (λ id s, session_id s = id) (by_id r);
  wf_uids : map_Forall (λ u id, u ≠ 0 ∧ ∃ s, by_id r !! id = Some s ∧ uid s = u) (by_uid r);
}.

(** No two sessions of the registry share a uid. *)
Definition unique_uids (r : SessionRegistry) : Prop :=
  ∀ i j s t, by_id r !! i = Some s → by_id r !! j = Some t →
             uid s = uid t → uid s ≠ 0 → i = j.

(** Every session with a uid is indexed. *)
Definition index_complete (r : SessionRegistry) : Prop :=
  map_Forall (λ id s, uid s ≠ 0 → by_uid r !! uid s = Some id) (by_id r).

Inductive registry_op : Type :=
| OpAdd (s : ActiveSession)
| OpRemove (id : Uuid)
| OpUpdate (id : Uuid) (t : SessionTarget).

Definition registry_apply (r : SessionRegistry) (op : registry_op) : SessionRegistry :=
  match op with
  | OpAdd s => registry_add r s
  | OpRemove id => (registry_remove r id).1
  | OpUpdate id t => (update_target r id t).1
  end.

(** ** Lemmas *)

Lemma registry_new_wf : registry_wf registry_new.
Proof. split; apply map_Forall_empty. Qed.

Lemma registry_add_wf r s : registry_wf r → registry_wf (registry_add r s).
Proof.
  intros [Hids Huids]. split; simpl.
  - apply map_Forall_insert_2; [done|done].
  - set (idx := match _ with Some u => delete u (by_uid r) | None => by_uid r end).
    assert (∀ u id, idx !! u = Some id →
      u ≠ 0 ∧ ∃ t, <[session_id s := s]> (by_id r) !! id = Some t ∧ (uid t = u ∨ u = uid s)) as Hidx.
    { intros u id Hu. assert (by_uid r !! u = Some id) as Hu'.
      { subst idx. case_match; [|done]. by apply lookup_delete_Some in Hu as []. }
      apply Huids in Hu' as Hx. destruct Hx as (Hnz & t & Ht & Hut). split; [done|].
      destruct (decide (id = session_id s)) as [->|Hne]; [|rewrite lookup_insert_ne by done; eauto].
      rewrite lookup_insert_eq. exists s. split; [done|].
      destruct (decide (u = uid s)) as [|Hus]; [by right|]. exfalso. subst idx.
      rewrite Ht in Hu. rewrite decide_True in Hu by (rewrite Hut; done).
      rewrite Hut, lookup_delete_eq in Hu. done. }
    intros u id Hu. case_decide as Hz.
    + destruct (decide (u = uid s)) as [->|Hne].
      * rewrite lookup_insert_eq in Hu. simplify_eq. split; [done|]. exists s.
        by rewrite lookup_insert_eq.
      * rewrite lookup_insert_ne in Hu by done. apply Hidx in Hu as (? & t & ? & [?|?]); [|done].
        split; [done|]. eauto.
    + apply Hidx in Hu as (? & t & ? & [?|?]); [split; [done|]; eauto|].
      subst u. by destruct Hz.
Qed.

Lemma registry_remove_gone r id : find_by_session_id (registry_remove r id).1 id = None.
Proof.
  unfold find_by_session_id, registry_remove. destruct (by_id r !! id) eqn:Hid; simpl; [|done].
  by rewrite lookup_delete_eq.
Qed.

Lemma registry_remove_wf r id : registry_wf r → registry_wf (registry_remove r id).1.
Proof.
  intros [Hids Huids]. unfold registry_remove. destruct (by_id r !! id) as [s|] eqn:Hs; [|done].
  split; simpl.
  - by apply map_Forall_delete.
  - intros u i Hu. assert (by_uid r !! u = Some i) as Hu'.
    { case_decide; [|done]. by apply lookup_delete_Some in Hu as []. }
    apply Huids in Hu' as Hx. destruct Hx as (Hnz & t & Ht & Hut). split; [done|].
    exists t. rewrite lookup_delete_ne; [done|]. intros <-. simplify_eq.
    rewrite decide_True in Hu by done. by rewrite lookup_delete_eq in Hu.
Qed.

Lemma update_target_wf r id t : registry_wf r → registry_wf (update_target r id t).1.
Proof.
  intros [Hids Huids]. unfold update_target. destruct (by_id r !! id) as [s|] eqn:Hs; [|done].
  split; simpl.
  - apply map_Forall_insert_2; [by apply Hids in Hs|done].
  - intros u i Hu. apply Huids in Hu as (Hnz & s' & Hs' & Hus). split; [done|].
    destruct (decide (i = id)) as [->|]; [|rewrite lookup_insert_ne by done; eauto].
    exists (set_target t s). rewrite lookup_insert_eq. simplify_eq. done.
Qed.

Lemma registry_apply_wf r op : registry_wf r → registry_wf (registry_apply r op).
Proof.
  destruct op; [apply registry_add_wf|apply registry_remove_wf|apply update_target_wf].
Qed.

Lemma registry_run_wf ops r : registry_wf r → registry_wf (foldl registry_apply r ops).
Proof. revert r. induction ops; simpl; auto using registry_apply_wf. Qed.

Lemma elem_of_snapshot r s :
  s ∈ snapshot r ↔ ∃ id, by_id r !! id = Some s.
Proof.
  unfold snapshot. rewrite list_elem_of_fmap. split.
  - intros ([id t] & -> & Ht%elem_of_map_to_list). eauto.
  - intros [id Hs]. exists (id, s). by rewrite elem_of_map_to_list.
Qed.

Lemma elem_of_find_by_serial r serial s :
  s ∈ find_by_serial r serial ↔ (∃ id, by_id r !! id = Some s) ∧ usb_serial s = Some serial.
Proof.
  unfold find_by_serial.
  by rewrite list_elem_of_In, filter_In, <-list_elem_of_In, elem_of_snapshot, bool_decide_eq_true.
Qed.

Lemma find_by_uid_sound r u s :
  registry_wf r → find_by_uid r u = Some s → uid s = u ∧ by_id r !! session_id s = Some s.
Proof.
  intros [Hids Huids]. unfold find_by_uid. case_decide; [done|].
  destruct (by_uid r !! u) as [id|] eqn:Hu; [|done]. intros Hs.
  apply Huids in Hu as (_ & t & Ht & Hut). assert (t = s) as -> by congruence.
  split; [done|]. by rewrite (Hids id s Hs).
Qed.

Lemma find_by_uid_complete r id s :
  index_complete r → by_id r !! id = Some s → uid s ≠ 0 → find_by_uid r (uid s) = Some s.
Proof.
  intros Hc Hs Hz. unfold find_by_uid. rewrite decide_False by done.
  by rewrite (Hc id s Hs Hz).
Qed.

(** ** Registries in which a uid has one session at a time *)

(** The adds a PAM stack makes when it opens one session per user: no other
    session of the same uid is tracked. *)
Definition fresh_uid (r : SessionRegistry) (s : ActiveSession) : Prop :=
  ∀ id t, by_id r !! id = Some t → uid t = uid s → uid s ≠ 0 → id = session_id s.

Inductive single_reach : SessionRegistry → Prop :=
| SingleNew : single_reach registry_new
| SingleAdd r s : single_reach r → fresh_uid r s → single_reach (registry_add r s)
| SingleRemove r id : single_reach r → single_reach (registry_remove r id).1
| SingleUpdate r id t : single_reach r → single_reach (update_target r id t).1
| SingleReload r : single_reach r → single_reach (from_snapshot (snapshot r)).

Lemma registry_add_complete r s :
  registry_wf r → index_complete r → fresh_uid r s → index_complete (registry_add r s).
Proof.
  intros [Hids Huids] Hc Hf id t Ht Hz. unfold registry_add in *. cbn [by_id by_uid] in *.
  destruct (decide (id = session_id s)) as [->|Hne].
  - rewrite lookup_insert_eq in Ht. simplify_eq. rewrite decide_True by done.
    by rewrite lookup_insert_eq.
  - rewrite lookup_insert_ne in Ht by done.
    assert (uid t ≠ uid s) as Hu.
    { intros He. apply Hne, (Hf id t Ht He). by rewrite <-He. }
    assert (by_uid r !! uid t = Some id) as Hi by by apply Hc.
    set (idx := match _ with Some u => _ | None => by_uid r end).
    assert (idx !! uid t = Some id) as Hidx.
    { subst idx. destruct (by_id r !! session_id s) as [e|] eqn:He; [|done].
      case_decide as Hst; [|done]. rewrite lookup_delete_ne; [done|].
      intros Heq. destruct Hst as (_ & _ & Hst). rewrite Heq in Hst. congruence. }
    case_decide; [|done]. by rewrite lookup_insert_ne.
Qed.

Lemma registry_remove_complete r id :
  registry_wf r → index_complete r → unique_uids r →
  index_complete (registry_remove r id).1.
Proof.
  intros [Hids Huids] Hc Hun. unfold registry_remove.
  destruct (by_id r !! id) as [s|] eqn:Hs; [|done]. intros j t Ht Hz. cbn [fst by_id by_uid] in *.
  apply lookup_delete_Some in Ht as [Hne Ht]. case_decide as Hst; [|by apply Hc].
  rewrite lookup_delete_ne; [by apply Hc|]. intros Heq. apply Hne.
  by apply (Hun id j s t Hs Ht Heq); rewrite Heq.
Qed.

Lemma index_complete_unique r : registry_wf r → index_complete r → unique_uids r.
Proof.
  intros _ Hc i j s t Hs Ht Heq Hz. 
  assert (by_uid r !! uid s = Some i) as Hi by by apply (Hc i s Hs).
  assert (by_uid r !! uid t = Some j) as Hj by (apply (Hc j t Ht); by rewrite <-Heq).
  congruence.
Qed.

Lemma update_target_complete r id t :
  index_complete r → index_complete (update_target r id t).1.
Proof.
  intros Hc. unfold update_target. destruct (by_id r !! id) as [s|] eqn:Hs; [|done].
  intros j u Hu Hz. cbn [fst by_id by_uid] in *. destruct (decide (j = id)) as [->|].
  - rewrite lookup_insert_eq in Hu. simplify_eq. by apply (Hc id s).
  - rewrite lookup_insert_ne in Hu by done. by apply Hc.
Qed.

(** ** Reloading a snapshot *)

Lemma from_snapshot_by_id l :
  by_id (from_snapshot l) = foldl (λ m s, <[session_id s := s]> m) ∅ l.
Proof.
  unfold from_snapshot. change (∅ : gmap Uuid ActiveSession) with (by_id registry_new).
  generalize registry_new. induction l as [|s l IH]; intros r; [done|]. simpl. by rewrite IH.
Qed.

Lemma foldl_insert_lookup (l : list ActiveSession) (m : gmap Uuid ActiveSession) id :
  NoDup (session_id <$> l) →
  foldl (λ m s, <[session_id s := s]> m) m l !! id =
    match List.find (λ s, bool_decide (session_id s = id)) l with
    | Some s => Some s
    | None => m !! id
    end.
Proof.
  revert m. induction l as [|s l IH]; intros m Hnd; [done|]. simpl. inversion_clear Hnd as [|? ? Hn Hnd'].
  rewrite IH by done. case_bool_decide as Hs.
  - destruct (List.find _ l) as [t|] eqn:Hf; [|by rewrite Hs, lookup_insert_eq].
    apply find_some in Hf as [Hin%list_elem_of_In Ht%bool_decide_eq_true].
    destruct Hn. rewrite Hs, <-Ht. by apply list_elem_of_fmap_2.
  - destruct (List.find _ l); [done|]. by rewrite lookup_insert_ne.
Qed.

Lemma snapshot_NoDup r : registry_wf r → NoDup (session_id <$> snapshot r).
Proof.
  intros [Hids _]. unfold snapshot. rewrite <-list_fmap_compose.
  rewrite (list_fmap_ext _ fst (map_to_list (by_id r))); [apply NoDup_fst_map_to_list|].
  intros i [id s] Hi. simpl. apply Hids. apply elem_of_map_to_list.
  by eapply list_elem_of_lookup_2.
Qed.

Lemma from_snapshot_snapshot_by_id r :
  registry_wf r → by_id (from_snapshot (snapshot r)) = by_id r.
Proof.
  intros Hw. apply map_eq. intros id.
  rewrite from_snapshot_by_id, foldl_insert_lookup by by apply snapshot_NoDup.
  destruct (List.find _ _) as [s|] eqn:Hf.
  - apply find_some in Hf as [Hin%list_elem_of_In Ht%bool_decide_eq_true].
    apply elem_of_snapshot in Hin as [j Hj]. by rewrite <-Ht, (wf_ids _ Hw j s Hj).
  - rewrite lookup_empty. symmetry. destruct (by_id r !! id) as [s|] eqn:Hs; [|done].
    assert (s ∈ snapshot r) as Hin%list_elem_of_In by (apply elem_of_snapshot; eauto).
    apply (find_none _ _ Hf) in Hin. rewrite bool_decide_eq_true_2 in Hin; [done|].
    by apply (wf_ids _ Hw).
Qed.

(** The loop of [from_snapshot] adds: no entry replaces another one. *)
Lemma from_snapshot_adds l acc :
  registry_wf acc → NoDup (session_id <$> l) → (∀ s, s ∈ l → by_id acc !! session_id s = None) →
  registry_wf (foldl snapshot_insert acc l) ∧
  (index_complete acc →
   (∀ s t, s ∈ l → t ∈ l ∨ by_id acc !! session_id t = Some t → uid t = uid s → uid s ≠ 0 → t = s) →
   index_complete (foldl snapshot_insert acc l)).
Proof.
  revert acc. induction l as [|s l IH]; intros acc Ha Hnd Hdis; [done|]. simpl.
  inversion_clear Hnd as [|? ? Hn Hnd'].
  assert (snapshot_insert acc s = registry_add acc s) as ->.
  { unfold snapshot_insert, registry_add. by rewrite (Hdis s) by by left. }
  destruct (IH (registry_add acc s)) as [Hw Hc]; [by apply registry_add_wf|done| |].
  { intros t Ht. simpl. rewrite lookup_insert_ne; [by apply Hdis; right|].
    intros He. apply Hn. rewrite He. by apply list_elem_of_fmap_2. }
  split; [done|]. intros Hac Hun. apply Hc.
  - apply registry_add_complete; [done..|]. intros id t Ht Hu Hz.
    assert (session_id t = id) as <- by by apply (wf_ids _ Ha).
    f_equal. apply Hun; [by left|by right|done..].
  - intros t t' Ht Ht' Hu Hz. apply Hun; [by right| |done..].
    destruct Ht' as [Ht'|Ht']; [by left; right|]. simpl in Ht'.
    destruct (decide (session_id t' = session_id s)) as [Hi|Hi].
    + rewrite Hi, lookup_insert_eq in Ht'. simplify_eq. left. by left.
    + rewrite lookup_insert_ne in Ht' by done. by right.
Qed.

Lemma reload_inv r :
  registry_wf r → index_complete r →
  registry_wf (from_snapshot (snapshot r)) ∧ index_complete (from_snapshot (snapshot r)).
Proof.
  intros Hw Hc. unfold from_snapshot.
  destruct (from_snapshot_adds (snapshot r) registry_new) as [Hw' Hc'].
  - apply registry_new_wf.
  - by apply snapshot_NoDup.
  - intros s _. apply lookup_empty.
  - split; [done|]. apply Hc'; [apply map_Forall_empty|]. intros s t Hs Ht Hu Hz.
    destruct Ht as [Ht|Ht]; [|by apply (lookup_empty_Some (session_id t) t) in Ht].
    apply elem_of_snapshot in Hs as [i Hs], Ht as [j Ht].
    assert (j = i) as -> by (apply (index_complete_unique r Hw Hc j i t s); [done..|by rewrite Hu]).
    congruence.
Qed.

Lemma single_reach_inv r : single_reach r → registry_wf r ∧ index_complete r.
Proof.
  induction 1 as [|r s _ [Hw Hc] Hf|r id _ [Hw Hc]|r id t _ [Hw Hc]|r _ [Hw Hc]].
  - split; [apply registry_new_wf|apply map_Forall_empty].
  - split; [by apply registry_add_wf|by apply registry_add_complete].
  - split; [by apply registry_remove_wf|].
    apply registry_remove_complete; [done|done|by apply index_complete_unique].
  - split; [by apply update_target_wf|by apply update_target_complete].
  - by apply reload_inv.
Qed.

(** ** Theorems *)

(** After any sequence of operations on a new registry the invariant holds:
    every session is filed under its own id, and a lookup by uid only returns
    a tracked session of that uid, never one for uid 0. *)
Theorem registry_lookup_sound ops u s :
  let r := foldl registry_apply registry_new ops in
  registry_wf r ∧
  (find_by_uid r u = Some s → u ≠ 0 ∧ uid s = u ∧ find_by_session_id r (session_id s) = Some s).
Proof.
  intros r. assert (registry_wf r) as Hw by apply registry_run_wf, registry_new_wf.
  split; [done|]. intros Hf. destruct (find_by_uid_sound r u s Hw Hf) as [Hu Hs].
  split_and!; [|done|done]. intros ->. unfold find_by_uid in Hf. by rewrite decide_True in Hf.
Qed.

(** C24: While every uid has at most one session at a time, through adds,
    replacements under another uid, removals, new targets and restarts, a lookup
    by uid finds a session exactly when it is tracked and its uid is that one,
    and nothing for the uid 0. *)
Theorem find_by_uid_exact r u s (Hr : single_reach r) :
  find_by_uid r u = Some s ↔ u ≠ 0 ∧ uid s = u ∧ find_by_session_id r (session_id s) = Some s.
Proof.
  apply single_reach_inv in Hr as [Hw Hc]. split.
  - intros Hf. destruct (find_by_uid_sound r u s Hw Hf) as [Hu Hs]. split_and!; [|done..].
    intros ->. unfold find_by_uid in Hf. by rewrite decide_True in Hf.
  - intros (Hz & <- & Hs). by eapply find_by_uid_complete.
Qed.

Definition sample_session (id u : Z) : ActiveSession :=
  MkSession id "alice" "login" TargetUnknown (Some "usb1") "00" 0 "alice" "01" "" "" u.

(** The session moves from uid 1000 to uid 2000. *)
Definition sample_moved : SessionRegistry :=
  registry_add (registry_add registry_new (sample_session 7 1000)) (sample_session 7 2000).

Lemma find_by_uid_exact_witness :
  find_by_uid sample_moved 2000 = Some (sample_session 7 2000) ∧
  (∀ s, find_by_uid sample_moved 1000 ≠ Some s).
Proof.
  assert (single_reach sample_moved) as Hr.
  { apply SingleAdd; [apply SingleAdd; [apply SingleNew|]|].
    - intros id t Ht. by apply (lookup_empty_Some id t) in Ht.
    - intros id t Ht Hu Hz. change (<[7 := sample_session 7 1000]> (∅ : gmap Uuid ActiveSession) !! id = Some t) in Ht.
      by apply lookup_insert_Some in Ht as [[<- <-]|[_ Ht%lookup_empty_Some]]. }
  split.
  - apply (find_by_uid_exact sample_moved 2000 (sample_session 7 2000) Hr). by split_and!.
  - intros s (_ & Hu & Hs)%(find_by_uid_exact sample_moved 1000 s Hr).
    change (<[7 := sample_session 7 2000]> (<[7 := sample_session 7 1000]> (∅ : gmap Uuid ActiveSession))
      !! session_id s = Some s) in Hs.
    rewrite insert_insert_eq in Hs.
    by apply lookup_insert_Some in Hs as [[_ <-]|[_ Hs%lookup_empty_Some]].
Defined.

(** Persisting and reloading keeps the sessions: the registry built from a
    snapshot tracks the same sessions under the same ids and satisfies the
    invariant again. *)
Theorem snapshot_reload ops :
  let r := foldl registry_apply registry_new ops in
  by_id (from_snapshot (snapshot r)) = by_id r ∧
  registry_wf (from_snapshot (snapshot r)).
Proof.
  intros r. assert (registry_wf r) as Hw by apply registry_run_wf, registry_new_wf.
  split; [by apply from_snapshot_snapshot_by_id|].
  apply from_snapshot_adds; [apply registry_new_wf|by apply snapshot_NoDup|].
  intros s _. apply lookup_empty.
Qed.

(** A uid with two sessions: removing the newer one drops the index entry,
    so the lookup by uid reports nothing although the older session is still
    tracked. *)
Theorem shadowed_session_lost s1 s2
    (Hid : session_id s1 ≠ session_id s2) (Hu : uid s1 = uid s2) (Hz : uid s1 ≠ 0) :
  let r := (registry_remove (registry_add (registry_add registry_new s1) s2) (session_id s2)).1 in
  find_by_uid r (uid s1) = None ∧ find_by_session_id r (session_id s1) = Some s1.
Proof.
  unfold registry_remove, registry_add, find_by_uid, find_by_session_id.
  cbn [registry_new by_id by_uid fst].
  rewrite !lookup_empty, lookup_insert_eq, (lookup_insert_ne _ _ _ _ Hid), lookup_empty.
  assert (uid s2 ≠ 0) as Hz2 by congruence.
  destruct (decide (uid s1 ≠ 0)); [|done]. destruct (decide (uid s2 ≠ 0)); [|done].
  destruct (decide (uid s1 = 0)); [done|].
  rewrite decide_True by (split; [done|by rewrite lookup_insert_eq]).
  cbn [fst by_id by_uid]. rewrite Hu, lookup_delete_eq. split; [done|].
  rewrite lookup_delete_ne by done. rewrite lookup_insert_ne by done.
  by rewrite lookup_insert_eq.
Qed.

Lemma shadowed_session_lost_witness :
  let r := (registry_remove (registry_add (registry_add registry_new (sample_session 1 1000))
              (sample_session 2 1000)) 2).1 in
  find_by_uid r 1000 = None ∧ find_by_session_id r 1 = Some (sample_session 1 1000).
Proof. by apply (shadowed_session_lost (sample_session 1 1000) (sample_session 2 1000)). Defined.
