(* ===== verification/State.v ===== *)
(** * The monitord state manager ([state.rs], [actions.rs], [udev_monitor.rs])

    One task owns the registry, the persisted snapshot, the suspend state and
    the grace tokens, and handles one event at a time; each grace timer is a
    task of its own.  [step] interleaves the handlers with the passing of time
    and the timers.  A token is a number, a running timer knows when its token
    was cancelled.  A timer whose token was cancelled before the deadline ends
    silently (the runtime polls a woken task before its later deadline); one
    whose token is cancelled at or after the deadline may still win the
    [select!].  Persisting and the udev presence query are inputs of a step:
    each write may fail. *)

From S2P Require Import Prelude Text Certificate Proto Registry.
Local Open Scope Z_scope.

Inductive OnUsbRemoved : Type :=
| Lock
| Logout
| Hook (path : string)
| Shutdown.

(** Instants are in nanoseconds. *)
Inductive SuspendState : Type :=
| Awake
| SuspendingAt (t : Z)
| ResumedAt (t : Z).

Definition is_in_grace_window (s : SuspendState) (now secs : Z) : bool :=
  match s with
  | Awake => false
  | SuspendingAt _ => true
  | ResumedAt t => bool_decide (Z.max 0 (now - t) < secs * NANOS_PER_SEC)
  end.

Record StateConfig := MkStateConfig {
  grace_seconds : Z;
  suspend_grace_seconds : Z;
  on_usb_removed : OnUsbRemoved;
}.

Inductive UdevAction : Type :=
| UdevAdd
| UdevRemove
| UdevChange.

Record UdevEvent := MkUdevEvent {
  ue_action : UdevAction;
  ue_devnode : option string;
  ue_serial : option string;
  ue_vid_pid : option (Z * Z);
  ue_is_usb : bool;
}.

Definition parse_hex_u16 (s : string) : option Z :=
  match from_str_radix 0 (2 ^ 16 - 1) 16 s with inr v => Some v | inl _ => None end.

Definition parse_udev_fields (props : gmap string string) : option UdevEvent :=
  let action :=
    match props !! "ACTION" with
    | Some "add" => UdevAdd
    | Some "remove" => UdevRemove
    | _ => UdevChange
    end in
  let serial :=
    match props !! "ID_SERIAL_SHORT" with
    | Some s => Some s
    | None => props !! "ID_SERIAL"
    end in
  let vid := props !! "ID_VENDOR_ID" ≫= parse_hex_u16 in
  let pid := props !! "ID_MODEL_ID" ≫= parse_hex_u16 in
  let vid_pid := match vid, pid with Some v, Some p => Some (v, p) | _, _ => None end in
  let is_usb := bool_decide (props !! "ID_BUS" = Some "usb") in
  Some (MkUdevEvent action (props !! "DEVNAME") serial vid_pid is_usb).

Inductive LogindSignal : Type :=
| PrepareForSleep (start : bool)
| SessionRemoved (id object_path : string).

(** The reply channel of a request is the second component of [handle_ipc]. *)
Inductive IpcRequest : Type :=
| IpcHello
| IpcSessionOpen (session : ActiveSession)
| IpcSessionClose (session_id : Uuid) (closed_at : Z)
| IpcPing
| IpcGetActiveSessionByUid (uid : Z)
| IpcUpdateSessionTarget (session_id : Uuid) (new_target : SessionTarget).

Record ActionRequest := HandleUsbRemoved {
  ar_session : ActiveSession;
  ar_action : OnUsbRemoved;
}.

Record timer := MkTimer {
  t_serial : string;
  t_sessions : list ActiveSession;
  t_deadline : Z;
  t_cancelled : option Z;
}.

Record mstate := MkState {
  ms_registry : SessionRegistry;
  ms_disk : list ActiveSession;
  ms_grace : gmap string nat;
  ms_timers : gmap nat timer;
  ms_next_token : nat;
  ms_suspend : SuspendState;
  ms_actions : list ActionRequest;
  ms_now : Z;
}.

Definition with_registry (st : mstate) (r : SessionRegistry) (disk : list ActiveSession) : mstate :=
  MkState r disk (ms_grace st) (ms_timers st) (ms_next_token st) (ms_suspend st)
    (ms_actions st) (ms_now st).

(** [persist_async]: best effort; the bit says whether the new snapshot was
    published. *)
Definition persist (ok : bool) (r : SessionRegistry) (disk : list ActiveSession)
    : list ActiveSession :=
  if ok then snapshot r else disk.

(** [CARGO_PKG_VERSION] of the daemon. *)
Class CratePkg := cargo_pkg_version : string.

Definition handle_ipc {UT : UuidText} {CP : CratePkg} (present : string → bool) (persist_ok : bool)
    (st : mstate) (req : IpcRequest) : mstate * ServerMessage :=
  let r := ms_registry st in
  match req with
  | IpcHello => (st, HelloAck cargo_pkg_version PROTOCOL_VERSION)
  | IpcPing => (st, Pong)
  | IpcGetActiveSessionByUid u =>
      (st, match find_by_uid r u with
           | Some rec => ActiveSessionMsg (uuid_to_string (session_id rec)) (cert_cn rec)
                           (engineer_ski rec) (engineer_cert_sha256 rec) (host_id_hash rec)
           | None => ErrorMsg NO_ACTIVE_SESSION ("no active session for uid " +:+ fmt_dec u)
           end)
  | IpcSessionOpen session =>
      let gone :=
        match usb_serial session with
        | Some serial => if present serial then None else Some serial
        | None => None
        end in
      match gone with
      | Some serial => (st, ErrorMsg DEVICE_GONE ("usb serial " +:+ serial +:+ " not present"))
      | None =>
          let r' := registry_add r session in
          (with_registry st r' (persist persist_ok r' (ms_disk st)), Ack)
      end
  | IpcSessionClose id _ =>
      let r' := (registry_remove r id).1 in
      (with_registry st r' (persist persist_ok r' (ms_disk st)), Ack)
  | IpcUpdateSessionTarget id new_target =>
      let (r', updated) := update_target r id new_target in
      match updated with
      | Ok _ =>
          (with_registry st r' (persist persist_ok r' (ms_disk st)),
           SessionTargetUpdated (uuid_to_string id))
      | _ =>
          (st, ErrorMsg BAD_REQUEST ("update_session_target " +:+ uuid_to_string id +:+
                                     ": no active session for the supplied id"))
      end
  end.

(** [CancellationToken::cancel]: the first call counts. *)
Definition cancel_timer (now : Z) (t : timer) : timer :=
  MkTimer (t_serial t) (t_sessions t) (t_deadline t)
    (Some (match t_cancelled t with Some c => c | None => now end)).

Definition cancel_token (now : Z) (tok : nat) (timers : gmap nat timer) : gmap nat timer :=
  alter (cancel_timer now) tok timers.

(** Cancel every token of the drained map. *)
Definition cancel_all (now : Z) (grace : gmap string nat) (timers : gmap nat timer)
    : gmap nat timer :=
  map_imap (λ tok t, Some (if decide (tok ∈ (map_to_list grace).*2) then cancel_timer now t else t))
    timers.

Definition handle_udev (cfg : StateConfig) (st : mstate) (ev : UdevEvent) : mstate :=
  match ue_action ev, ue_serial ev with
  | UdevRemove, Some serial =>
      if is_in_grace_window (ms_suspend st) (ms_now st) (suspend_grace_seconds cfg) then st else
      let sessions := find_by_serial (ms_registry st) serial in
      if decide (sessions = []) then st else
      match ms_grace st !! serial with
      | Some _ => st
      | None =>
          let tok := ms_next_token st in
          MkState (ms_registry st) (ms_disk st) (<[serial := tok]> (ms_grace st))
            (<[tok := MkTimer serial sessions
                        (ms_now st + grace_seconds cfg * NANOS_PER_SEC) None]> (ms_timers st))
            (S tok) (ms_suspend st) (ms_actions st) (ms_now st)
      end
  | UdevAdd, Some serial =>
      match ms_grace st !! serial with
      | Some tok =>
          MkState (ms_registry st) (ms_disk st) (delete serial (ms_grace st))
            (cancel_token (ms_now st) tok (ms_timers st)) (ms_next_token st)
            (ms_suspend st) (ms_actions st) (ms_now st)
      | None => st
      end
  | _, _ => st
  end.

Definition handle_logind (persist_ok : bool) (st : mstate) (sig : LogindSignal) : mstate :=
  match sig with
  | PrepareForSleep true =>
      MkState (ms_registry st) (ms_disk st) ∅
        (cancel_all (ms_now st) (ms_grace st) (ms_timers st)) (ms_next_token st)
        (SuspendingAt (ms_now st)) (ms_actions st) (ms_now st)
  | PrepareForSleep false =>
      MkState (ms_registry st) (ms_disk st) (ms_grace st) (ms_timers st) (ms_next_token st)
        (ResumedAt (ms_now st)) (ms_actions st) (ms_now st)
  | SessionRemoved id _ =>
      let to_remove :=
        session_id <$> List.filter (λ s, bool_decide (logind_id (target s) = Some id))
                         (snapshot (ms_registry st)) in
      if decide (to_remove = []) then st else
      let r' := foldl (λ r u, (registry_remove r u).1) (ms_registry st) to_remove in
      with_registry st r' (persist persist_ok r' (ms_disk st))
  end.

(** ** Actions *)

Inductive LogindCall : Type :=
| LockSession (id : string)
| TerminateSession (id : string)
| PowerOff
| RunHook (path : string) (env : list (string * string)).

Definition hook_env {UT : UuidText} (s : ActiveSession) : list (string * string) :=
  [("CERT_CN", cert_cn s); ("PAM_USER", pam_user s); ("PAM_SERVICE", pam_service s);
   ("USB_SERIAL", default "" (usb_serial s)); ("HOST_ID_HASH", host_id_hash s);
   ("SESSION_ID", uuid_to_string (session_id s))].

(** [handle] of [actions.rs], up to the call it makes. *)
Definition handle_action {UT : UuidText} (req : ActionRequest) : res string LogindCall :=
  let id := logind_id (target (ar_session req)) in
  match ar_action req with
  | Lock =>
      let? id := ok_or id "Lock requested but session has no logind id" in Ok (LockSession id)
  | Logout =>
      let? id := ok_or id "Logout requested but session has no logind id" in
      Ok (TerminateSession id)
  | Hook path => Ok (RunHook path (hook_env (ar_session req)))
  | Shutdown => Ok PowerOff
  end.

(** ** Executions *)

Definition init_state (r : SessionRegistry) (disk : list ActiveSession) (now : Z) : mstate :=
  MkState r disk ∅ ∅ O Awake [] now.

Inductive event : Type :=
| EvIpc (req : IpcRequest)
| EvUdev (ev : UdevEvent)
| EvLogind (sig : LogindSignal)
| EvTick (d : Z)
| EvFire (tok : nat)
| EvDrop (tok : nat).

Definition fire (cfg : StateConfig) (st : mstate) (tok : nat) (t : timer) : mstate :=
  MkState (ms_registry st) (ms_disk st) (ms_grace st) (delete tok (ms_timers st))
    (ms_next_token st) (ms_suspend st)
    (ms_actions st ++ ((λ s, HandleUsbRemoved s (on_usb_removed cfg)) <$> t_sessions t))
    (ms_now st).

(** The sleep of the timer is over, and the cancellation did not come first: a
    task that is cancelled before its deadline is taken to be polled before the
    deadline. *)
Definition may_fire (t : timer) (now : Z) : Prop :=
  t_deadline t ≤ now ∧ ∀ c, t_cancelled t = Some c → t_deadline t ≤ c.

Section exec.
Context {UT : UuidText} {CP : CratePkg} (cfg : StateConfig).

Inductive step : mstate → event → mstate → Prop :=
| StepIpc st req present ok :
    step st (EvIpc req) (handle_ipc present ok st req).1
| StepUdev st ev : step st (EvUdev ev) (handle_udev cfg st ev)
| StepLogind st sig ok : step st (EvLogind sig) (handle_logind ok st sig)
| StepTick st d :
    0 < d →
    step st (EvTick d)
      (MkState (ms_registry st) (ms_disk st) (ms_grace st) (ms_timers st) (ms_next_token st)
         (ms_suspend st) (ms_actions st) (ms_now st + d))
| StepFire st tok t :
    ms_timers st !! tok = Some t → may_fire t (ms_now st) →
    step st (EvFire tok) (fire cfg st tok t)
| StepDrop st tok t c :
    ms_timers st !! tok = Some t → t_cancelled t = Some c →
    step st (EvDrop tok)
      (MkState (ms_registry st) (ms_disk st) (ms_grace st) (delete tok (ms_timers st))
         (ms_next_token st) (ms_suspend st) (ms_actions st) (ms_now st)).

(** An execution with its history, newest event first, each with its time. *)
Inductive exec (st0 : mstate) : list (Z * event) → mstate → Prop :=
| ExecNil : exec st0 [] st0
| ExecStep tr st ev st' :
    exec st0 tr st → step st ev st' → exec st0 ((ms_now st, ev) :: tr) st'.

End exec.

(** ** What an action promises *)

(** Events that excuse a removal of [serial]: it came back, or the host is
    about to sleep. *)
Definition cancels (serial : string) (ev : event) : Prop :=
  match ev with
  | EvUdev u => ue_action u = UdevAdd ∧ ue_serial u = Some serial
  | EvLogind (PrepareForSleep true) => True
  | _ => False
  end.

(** The suspend state a history leads to. *)
Fixpoint suspend_of (tr : list (Z * event)) : SuspendState :=
  match tr with
  | [] => Awake
  | (t, EvLogind (PrepareForSleep true)) :: _ => SuspendingAt t
  | (t, EvLogind (PrepareForSleep false)) :: _ => ResumedAt t
  | _ :: r => suspend_of r
  end.

Section promises.
Context (cfg : StateConfig).

Definition grace_ns : Z := grace_seconds cfg * NANOS_PER_SEC.

(** The history contains a removal of [serial] at [t0], outside the suspend
    window; [after] is what came later. *)
Definition removed_at (tr after : list (Z * event)) (t0 : Z) (serial : string) : Prop :=
  ∃ u before, tr = after ++ (t0, EvUdev u) :: before ∧
    ue_action u = UdevRemove ∧ ue_serial u = Some serial ∧
    is_in_grace_window (suspend_of before) t0 (suspend_grace_seconds cfg) = false.

(** An action is justified: it is the configured one, for a session bound to
    a device whose removal is on record, the timer fired at least the grace
    period later, and nothing excused the removal in between. *)
Definition justified (tr : list (Z * event)) (a : ActionRequest) : Prop :=
  ar_action a = on_usb_removed cfg ∧
  ∃ serial after t0, removed_at tr after t0 serial ∧
    usb_serial (ar_session a) = Some serial ∧
    (∃ t1 tok, (t1, EvFire tok) ∈ after ∧ t0 + grace_ns ≤ t1) ∧
    (∀ t ev, (t, ev) ∈ after → cancels serial ev → t0 + grace_ns ≤ t).

(** The invariant of a running timer. *)
Definition timer_ok (st : mstate) (tr : list (Z * event)) (tok : nat) (t : timer) : Prop :=
  ∃ after t0, removed_at tr after t0 (t_serial t) ∧ t_deadline t = t0 + grace_ns ∧
    Forall (λ s, usb_serial s = Some (t_serial t)) (t_sessions t) ∧
    match t_cancelled t with
    | None => (∀ e, e ∈ after → ¬ cancels (t_serial t) e.2) ∧ ms_grace st !! t_serial t = Some tok
    | Some c => c ≤ ms_now st ∧ ∀ e, e ∈ after → cancels (t_serial t) e.2 → c ≤ e.1
    end.

Record state_inv (tr : list (Z * event)) (st : mstate) : Prop := {
  inv_suspend : ms_suspend st = suspend_of tr;
  inv_times : ∀ e, e ∈ tr → e.1 ≤ ms_now st;
  inv_timers : ∀ tok t, ms_timers st !! tok = Some t →
                        (tok < ms_next_token st)%nat ∧ timer_ok st tr tok t;
  inv_actions : Forall (justified tr) (ms_actions st);
}.

(** ** Lemmas *)

Lemma removed_at_cons tr after t0 serial e :
  removed_at tr after t0 serial → removed_at (e :: tr) (e :: after) t0 serial.
Proof. intros (u & b & -> & ?). by exists u, b. Qed.

Lemma timer_ok_keep st st' tr tok t ev :
  timer_ok st tr tok t → ms_now st ≤ ms_now st' →
  (t_cancelled t = None → ¬ cancels (t_serial t) ev ∧ ms_grace st' !! t_serial t = Some tok) →
  timer_ok st' ((ms_now st, ev) :: tr) tok t.
Proof.
  intros (after & t0 & Hrm & Hd & Hs & Hc) Hnow Hev. exists ((ms_now st, ev) :: after), t0.
  split_and!; [by apply removed_at_cons|done|done|].
  destruct (t_cancelled t) as [c|].
  - destruct Hc as [Hcn Hc]. split; [lia|]. intros e [->|He]%elem_of_cons; [simpl; lia|by apply Hc].
  - destruct Hc as [Hc _]. destruct Hev as [Hev Hg]; [done|]. split; [|done].
    intros e [->|He]%elem_of_cons; [done|by apply Hc].
Qed.

Lemma timer_ok_cancel st st' tr tok t ev :
  timer_ok st tr tok t → ms_now st ≤ ms_now st' →
  timer_ok st' ((ms_now st, ev) :: tr) tok (cancel_timer (ms_now st) t).
Proof.
  intros (after & t0 & Hrm & Hd & Hs & Hc) Hnow. exists ((ms_now st, ev) :: after), t0.
  split_and!; [by apply removed_at_cons|done|done|]. simpl.
  destruct (t_cancelled t) as [c|].
  - destruct Hc as [Hcn Hc]. split; [lia|]. intros e [->|He]%elem_of_cons; [simpl; lia|by apply Hc].
  - destruct Hc as [Hc _]. split; [lia|]. intros e [->|He]%elem_of_cons; [simpl; lia|].
    intros Hx. by apply Hc in Hx.
Qed.

Lemma justified_cons tr now ev a :
  justified tr a → (∀ e, e ∈ tr → e.1 ≤ now) → justified ((now, ev) :: tr) a.
Proof.
  intros (Ha & serial & after & t0 & Hrm & Hs & (t1 & tok & Hf & Ht1) & Hc) Hnow.
  split; [done|]. exists serial, ((now, ev) :: after), t0.
  split_and!; [by apply removed_at_cons|done|exists t1, tok; split; [by right|done]|].
  intros t ev' [[= -> ->]|Hin]%elem_of_cons; [|by apply Hc].
  intros _. assert (t1 ≤ now); [|lia]. apply (Hnow (t1, EvFire tok)).
  destruct Hrm as (u & b & -> & _). apply elem_of_app. by left.
Qed.

(** A step that keeps time, the timers' table and the action queue. *)
Lemma state_inv_quiet tr st st' ev :
  state_inv tr st → ms_suspend st' = suspend_of ((ms_now st, ev) :: tr) →
  ms_now st ≤ ms_now st' → ms_actions st' = ms_actions st →
  (∀ tok t, ms_timers st' !! tok = Some t →
     (tok < ms_next_token st')%nat ∧ timer_ok st' ((ms_now st, ev) :: tr) tok t) →
  state_inv ((ms_now st, ev) :: tr) st'.
Proof.
  intros [Hsus Htimes Htm Hact] Hs Hn Ha Ht. split; [done| |done|].
  - intros e [->|He]%elem_of_cons; [done|]. apply Htimes in He. lia.
  - rewrite Ha. eapply Forall_impl; [exact Hact|]. intros a Hj. by apply justified_cons.
Qed.

Lemma timer_ok_grace st tr tok t :
  timer_ok st tr tok t → t_cancelled t = None → ms_grace st !! t_serial t = Some tok.
Proof. intros (after & t0 & _ & _ & _ & Hx) Hc. rewrite Hc in Hx. by destruct Hx. Qed.

Lemma suspend_of_udev st tr u :
  state_inv tr st → ms_suspend st = suspend_of ((ms_now st, EvUdev u) :: tr).
Proof. intros Hinv. by rewrite (inv_suspend _ _ Hinv). Qed.

(** An udev event that the manager ignores. *)
Lemma udev_ignored_inv tr st u :
  state_inv tr st →
  (∀ s, ue_action u = UdevAdd → ue_serial u = Some s → ms_grace st !! s = None) →
  state_inv ((ms_now st, EvUdev u) :: tr) st.
Proof.
  intros Hinv Hn. apply state_inv_quiet; [done|by apply suspend_of_udev|lia|done|].
  intros tok t Ht. apply (inv_timers _ _ Hinv) in Ht as [? Hok]. split; [done|].
  apply timer_ok_keep; [done|lia|]. intros Hc%(timer_ok_grace _ _ _ _ Hok). split; [|done].
  intros [Ha Hs]. rewrite (Hn _ Ha Hs) in Hc. done.
Qed.

Lemma handle_udev_add_inv tr st u serial tok :
  state_inv tr st → ue_action u = UdevAdd → ue_serial u = Some serial →
  ms_grace st !! serial = Some tok →
  state_inv ((ms_now st, EvUdev u) :: tr) (handle_udev cfg st u).
Proof.
  intros Hinv Ha Hs Hg. unfold handle_udev. rewrite Ha, Hs, Hg.
  apply state_inv_quiet; [done|exact (suspend_of_udev st tr u Hinv)|simpl; lia|done|].
  simpl. unfold cancel_token. intros k t Hk. destruct (decide (k = tok)) as [->|Hne].
  - rewrite lookup_alter_eq in Hk.
    destruct (ms_timers st !! tok) as [t'|] eqn:Ht'; simplify_eq/=.
    apply (inv_timers _ _ Hinv) in Ht' as [? Hok]. split; [done|].
    apply timer_ok_cancel; [done|simpl; lia].
  - rewrite lookup_alter_ne in Hk by done. apply (inv_timers _ _ Hinv) in Hk as [? Hok].
    split; [done|]. apply timer_ok_keep; [done|simpl; lia|].
    intros Hc%(timer_ok_grace _ _ _ _ Hok).
    assert (serial ≠ t_serial t) as Hst by congruence. split; [|simpl; by rewrite lookup_delete_ne].
    intros [_ Hs']. congruence.
Qed.

Lemma handle_udev_remove_inv tr st u serial :
  state_inv tr st → ue_action u = UdevRemove → ue_serial u = Some serial →
  state_inv ((ms_now st, EvUdev u) :: tr) (handle_udev cfg st u).
Proof.
  intros Hinv Ha Hs. unfold handle_udev. rewrite Ha, Hs.
  assert (state_inv ((ms_now st, EvUdev u) :: tr) st) as Hign
    by (apply udev_ignored_inv; [done|congruence]).
  destruct (is_in_grace_window _ _ _) eqn:Hw; [done|]. case_decide; [done|].
  destruct (ms_grace st !! serial) as [tok|] eqn:Hg; [done|].
  apply state_inv_quiet; [done|exact (suspend_of_udev st tr u Hinv)|simpl; lia|done|]. simpl. intros k t Hk.
  destruct (decide (k = ms_next_token st)) as [->|Hkn].
  - rewrite lookup_insert_eq in Hk. simplify_eq. split; [lia|]. exists [], (ms_now st). simpl.
    split_and!; [|done| |by intros e ?%elem_of_nil|by rewrite lookup_insert_eq].
    + exists u, tr. by rewrite Ha, Hs, <-(inv_suspend _ _ Hinv).
    + apply Forall_forall. by intros s [_ ?]%elem_of_find_by_serial.
  - rewrite lookup_insert_ne in Hk by done. apply (inv_timers _ _ Hinv) in Hk as [? Hok].
    split; [lia|]. apply timer_ok_keep; [done|simpl; lia|].
    intros Hc%(timer_ok_grace _ _ _ _ Hok). split; [simpl; rewrite Ha; by intros []|].
    simpl. rewrite lookup_insert_ne; [done|]. congruence.
Qed.

Lemma handle_udev_inv tr st u :
  state_inv tr st → state_inv ((ms_now st, EvUdev u) :: tr) (handle_udev cfg st u).
Proof.
  intros Hinv. destruct (ue_serial u) as [serial|] eqn:Hs.
  2:{ unfold handle_udev. rewrite Hs. destruct (ue_action u);
        (apply udev_ignored_inv; [done|congruence]). }
  destruct (ue_action u) eqn:Ha.
  - destruct (ms_grace st !! serial) as [tok|] eqn:Hg; [by eapply handle_udev_add_inv|].
    unfold handle_udev. rewrite Ha, Hs, Hg. apply udev_ignored_inv; [done|congruence].
  - by eapply handle_udev_remove_inv.
  - unfold handle_udev. rewrite Ha. apply udev_ignored_inv; [done|congruence].
Qed.

Lemma handle_logind_inv tr st ok sig :
  state_inv tr st → state_inv ((ms_now st, EvLogind sig) :: tr) (handle_logind ok st sig).
Proof.
  intros Hinv. destruct sig as [[]|id path]; simpl.
  - apply state_inv_quiet; [done|done|simpl; lia|done|]. simpl. unfold cancel_all.
    intros tok t Ht. rewrite map_lookup_imap in Ht.
    destruct (ms_timers st !! tok) as [t'|] eqn:Ht'; simplify_eq/=.
    apply (inv_timers _ _ Hinv) in Ht' as [? Hok]. split; [done|].
    case_decide as Hin; [apply timer_ok_cancel; [done|simpl; lia]|].
    apply timer_ok_keep; [done|simpl; lia|]. intros Hc%(timer_ok_grace _ _ _ _ Hok).
    destruct Hin. apply list_elem_of_fmap. exists (t_serial t', tok).
    by rewrite elem_of_map_to_list.
  - apply state_inv_quiet; [done|done|simpl; lia|done|]. simpl.
    intros tok t Ht. apply (inv_timers _ _ Hinv) in Ht as [? Hok]. split; [done|].
    apply timer_ok_keep; [done|simpl; lia|].
    intros Hc%(timer_ok_grace _ _ _ _ Hok). by split; [intros []|].
  - case_decide; (apply state_inv_quiet; [done|simpl; apply Hinv|simpl; lia|done|]);
      simpl; intros tok t Ht; (apply (inv_timers _ _ Hinv) in Ht as [? Hok]; split; [done|]);
      (apply timer_ok_keep; [done|simpl; lia|]);
      intros Hc%(timer_ok_grace _ _ _ _ Hok); (by split; [intros []|]).
Qed.

Context {UT : UuidText} {CP : CratePkg}.

(** Requests only touch the registry and its file. *)
Lemma handle_ipc_frame present ok st req :
  let st' := (handle_ipc present ok st req).1 in
  ms_grace st' = ms_grace st ∧ ms_timers st' = ms_timers st ∧
  ms_next_token st' = ms_next_token st ∧ ms_suspend st' = ms_suspend st ∧
  ms_actions st' = ms_actions st ∧ ms_now st' = ms_now st.
Proof.
  destruct req; simpl; try done.
  - by destruct (match usb_serial session with Some _ => _ | None => None end).
  - by destruct (update_target _ _ _) as [r' []].
Qed.

Lemma handle_ipc_inv tr st present ok req :
  state_inv tr st →
  state_inv ((ms_now st, EvIpc req) :: tr) (handle_ipc present ok st req).1.
Proof.
  intros Hinv. destruct (handle_ipc_frame present ok st req) as (Hg & Ht & Hn & Hs & Ha & Hw).
  apply state_inv_quiet; [done|rewrite Hs; apply Hinv|lia|done|].
  rewrite Ht, Hn. intros tok t Hx. apply (inv_timers _ _ Hinv) in Hx as [? Hok].
  split; [done|]. apply timer_ok_keep; [done|lia|].
  intros Hc%(timer_ok_grace _ _ _ _ Hok). rewrite Hg. by split; [intros []|].
Qed.

Lemma fire_inv tr st tok t :
  state_inv tr st → ms_timers st !! tok = Some t → may_fire t (ms_now st) →
  state_inv ((ms_now st, EvFire tok) :: tr) (fire cfg st tok t).
Proof.
  intros Hinv Ht [Hd Hc]. destruct (inv_timers _ _ Hinv tok t Ht) as [_ Hok].
  destruct Hok as (after & t0 & Hrm & Hdl & Hser & Hcan). split; simpl; [apply Hinv| | |].
  - intros e [->|He]%elem_of_cons; [done|]. by apply (inv_times _ _ Hinv).
  - intros k t' Hk. apply lookup_delete_Some in Hk as [_ Hk].
    apply (inv_timers _ _ Hinv) in Hk as [? Hok']. split; [done|].
    apply timer_ok_keep; [done|simpl; lia|].
    intros Hg%(timer_ok_grace _ _ _ _ Hok'). by split; [intros []|].
  - apply Forall_app. split.
    + eapply Forall_impl; [apply Hinv|]. intros a Hj. by apply justified_cons, Hinv.
    + apply Forall_fmap. eapply Forall_impl; [exact Hser|]. intros s Hs. split; [done|].
      exists (t_serial t), ((ms_now st, EvFire tok) :: after), t0. simpl.
      split_and!; [by apply removed_at_cons|done| |].
      * exists (ms_now st), tok. split; [by left|lia].
      * intros t1 ev [[= -> ->]|Hin]%elem_of_cons; [done|]. intros Hx.
        destruct (t_cancelled t) as [c|].
        -- destruct Hcan as [_ Hcan]. apply (Hcan _ Hin) in Hx. simpl in Hx.
           specialize (Hc c eq_refl). lia.
        -- destruct Hcan as [Hcan _]. by apply (Hcan _ Hin) in Hx.
Qed.

Lemma step_inv tr st ev st' :
  state_inv tr st → step cfg st ev st' → state_inv ((ms_now st, ev) :: tr) st'.
Proof.
  intros Hinv Hstep.
  destruct Hstep as [st req present ok|st u|st sig ok|st d Hd|st tok t Ht Hf|st tok t c Ht Hc].
  - by apply handle_ipc_inv.
  - by apply handle_udev_inv.
  - by apply handle_logind_inv.
  - apply state_inv_quiet; [done|apply Hinv|simpl; lia|done|]. simpl. intros tok t Hk.
    apply (inv_timers _ _ Hinv) in Hk as [? Hok]. split; [done|].
    apply timer_ok_keep; [done|simpl; lia|].
    intros Hg%(timer_ok_grace _ _ _ _ Hok). by split; [intros []|].
  - by apply fire_inv.
  - apply state_inv_quiet; [done|apply Hinv|simpl; lia|done|]. simpl. intros k t' Hk.
    apply lookup_delete_Some in Hk as [_ Hk]. apply (inv_timers _ _ Hinv) in Hk as [? Hok].
    split; [done|]. apply timer_ok_keep; [done|simpl; lia|].
    intros Hg%(timer_ok_grace _ _ _ _ Hok). by split; [intros []|].
Qed.

Lemma exec_inv r disk now tr st :
  exec cfg (init_state r disk now) tr st → state_inv tr st.
Proof.
  induction 1 as [|tr st ev st' _ IH Hstep]; [|by eapply step_inv].
  split; simpl; [done|by intros e ?%elem_of_nil|by intros tok t; rewrite lookup_empty|constructor].
Qed.

Lemma registry_remove_all_wf r ids :
  registry_wf r → registry_wf (foldl (λ r u, (registry_remove r u).1) r ids).
Proof. revert r. induction ids; simpl; auto using registry_remove_wf. Qed.

Lemma step_registry_wf st ev st' :
  step cfg st ev st' → registry_wf (ms_registry st) → registry_wf (ms_registry st').
Proof.
  intros Hstep Hw. destruct Hstep as [st req present ok|st u|st sig ok| | | ]; try done.
  - destruct req as [|session|id closed| |u|id new]; simpl; try done.
    + destruct (match usb_serial session with Some _ => _ | None => None end); [done|].
      by apply registry_add_wf.
    + by apply registry_remove_wf.
    + pose proof (update_target_wf (ms_registry st) id new Hw) as Hu.
      by destruct (update_target _ _ _) as [r' []].
  - unfold handle_udev. destruct (ue_action u), (ue_serial u); try done; repeat (case_match; try done).
  - destruct sig as [[]|]; simpl; [done|done|]. case_decide; [done|]. by apply registry_remove_all_wf.
Qed.

End promises.

(** ** A sample execution *)

Module StateSample.

Definition uuid_text : UuidText := fmt_dec.
Definition crate : CratePkg := "0.0.0".
Definition cfg : StateConfig := MkStateConfig 5 30 Lock.
Definition session : ActiveSession := sample_session 1 1000.
Definition reg : SessionRegistry := registry_add registry_new session.
Definition remove : UdevEvent := MkUdevEvent UdevRemove None (Some "usb1") None true.
Definition start : mstate := init_state reg [] 0.
Definition removed : mstate := handle_udev cfg start remove.

Definition closed : mstate :=
  (handle_ipc (UT := uuid_text) (CP := crate) (λ _, true) true removed (IpcSessionClose 1 0)).1.

Definition waited (st : mstate) : mstate :=
  MkState (ms_registry st) (ms_disk st) (ms_grace st) (ms_timers st) (ms_next_token st)
    (ms_suspend st) (ms_actions st) (ms_now st + 5 * NANOS_PER_SEC).

Definition timer0 : timer := MkTimer "usb1" [session] (5 * NANOS_PER_SEC) None.

Definition fired : mstate := fire cfg (waited removed) 0 timer0.
Definition fired_closed : mstate := fire cfg (waited closed) 0 timer0.

Definition trace : list (Z * event) :=
  [(5 * NANOS_PER_SEC, EvFire 0); (0, EvTick (5 * NANOS_PER_SEC)); (0, EvUdev remove)].

Definition trace_closed : list (Z * event) :=
  [(5 * NANOS_PER_SEC, EvFire 0); (0, EvTick (5 * NANOS_PER_SEC));
   (0, EvIpc (IpcSessionClose 1 0)); (0, EvUdev remove)].

Lemma exec_fired : exec (UT := uuid_text) (CP := crate) cfg start trace fired.
Proof.
  apply (ExecStep _ _ [(0, EvTick (5 * NANOS_PER_SEC)); (0, EvUdev remove)] (waited removed)).
  - apply (ExecStep _ _ [(0, EvUdev remove)] removed); [|by apply StepTick].
    apply (ExecStep _ _ [] start); [apply ExecNil|apply StepUdev].
  - apply StepFire; [reflexivity|]. split; [done|]. intros c [=].
Qed.

Lemma exec_fired_closed : exec (UT := uuid_text) (CP := crate) cfg start trace_closed fired_closed.
Proof.
  apply (ExecStep _ _ [(0, EvTick (5 * NANOS_PER_SEC)); (0, EvIpc (IpcSessionClose 1 0));
                       (0, EvUdev remove)] (waited closed)).
  - apply (ExecStep _ _ [(0, EvIpc (IpcSessionClose 1 0)); (0, EvUdev remove)] closed);
      [|by apply StepTick].
    apply (ExecStep _ _ [(0, EvUdev remove)] removed); [|apply StepIpc].
    apply (ExecStep _ _ [] start); [apply ExecNil|apply StepUdev].
  - apply StepFire; [reflexivity|]. split; [done|]. intros c [=].
Qed.

End StateSample.

(** ** Theorems *)

(** The daemon acts on a session only after its device was removed outside
    the suspend window, the whole grace period has passed, and the device
    neither came back nor did the host go to sleep in the meantime; the action
    is the configured one.  This holds for every interleaving of requests,
    udev and logind events, timers and time. *)
Theorem actions_justified {UT : UuidText} {CP : CratePkg} cfg r disk now tr st a
    (Hexec : exec cfg (init_state r disk now) tr st) (Ha : a ∈ ms_actions st) :
  justified cfg tr a.
Proof.
  apply exec_inv in Hexec as [_ _ _ Hact]. rewrite Forall_forall in Hact. by apply Hact.
Qed.

Lemma actions_justified_witness :
  justified StateSample.cfg StateSample.trace (HandleUsbRemoved StateSample.session Lock).
Proof.
  apply (actions_justified (UT := StateSample.uuid_text) (CP := StateSample.crate) _
           StateSample.reg [] 0 _ StateSample.fired).
  - exact StateSample.exec_fired.
  - by left.
Defined.

(** In every reachable state the registry satisfies its invariant, when it
    did at start-up; so a lookup by uid never returns another user's session,
    whatever requests and signals arrived. *)
Theorem daemon_registry_wf {UT : UuidText} {CP : CratePkg} cfg r disk now tr st
    (Hexec : exec cfg (init_state r disk now) tr st) (Hr : registry_wf r) :
  registry_wf (ms_registry st) ∧
  ∀ u s, find_by_uid (ms_registry st) u = Some s → uid s = u.
Proof.
  assert (registry_wf (ms_registry st)) as Hw.
  { induction Hexec as [|tr st ev st' _ IH Hstep]; [done|]. by eapply step_registry_wf. }
  split; [done|]. intros u s Hf. by apply (find_by_uid_sound _ _ _ Hw Hf).
Qed.

Lemma daemon_registry_wf_witness : registry_wf (ms_registry StateSample.fired).
Proof.
  apply (daemon_registry_wf (UT := StateSample.uuid_text) (CP := StateSample.crate)
           StateSample.cfg StateSample.reg [] 0 StateSample.trace).
  - exact StateSample.exec_fired.
  - apply registry_add_wf, registry_new_wf.
Defined.

(** A session opens only with its device present: a [SessionOpen] for an
    absent serial changes nothing and is answered with [DEVICE_GONE]; any
    other one is tracked from then on and acknowledged. *)
Theorem session_open_outcome {UT : UuidText} {CP : CratePkg} (present : string → bool) ok st
    session :
  match usb_serial session with
  | Some serial =>
      if present serial
      then (handle_ipc present ok st (IpcSessionOpen session)).2 = Ack ∧
           find_by_session_id
             (ms_registry (handle_ipc present ok st (IpcSessionOpen session)).1)
             (session_id session) = Some session
      else ∃ msg, handle_ipc present ok st (IpcSessionOpen session) = (st, ErrorMsg DEVICE_GONE msg)
  | None =>
      (handle_ipc present ok st (IpcSessionOpen session)).2 = Ack ∧
      find_by_session_id (ms_registry (handle_ipc present ok st (IpcSessionOpen session)).1)
        (session_id session) = Some session
  end.
Proof.
  unfold handle_ipc, find_by_session_id, registry_add.
  destruct (usb_serial session) as [serial|]; [destruct (present serial)|]; simpl.
  - by rewrite lookup_insert_eq.
  - by eexists.
  - by rewrite lookup_insert_eq.
Qed.

(** Closing a session during the grace period does not stop the timer: there
    is an execution in which the session is closed, no longer tracked, and the
    removal action is dispatched against it. *)
Theorem closed_session_still_acted_on :
  exec (UT := StateSample.uuid_text) (CP := StateSample.crate) StateSample.cfg
    StateSample.start StateSample.trace_closed StateSample.fired_closed ∧
  find_by_session_id (ms_registry StateSample.fired_closed) 1 = None ∧
  ms_actions StateSample.fired_closed = [HandleUsbRemoved StateSample.session Lock].
Proof. split; [exact StateSample.exec_fired_closed|]. by split. Qed.

(** Restarting from the file gives the sessions of the registry. *)
Definition persisted (st : mstate) : Prop :=
  by_id (from_snapshot (ms_disk st)) = by_id (ms_registry st).

(** With a working disk the file never lags behind: after each handled
    request or logind signal a daemon restarted from the file tracks exactly
    the sessions of the running one. *)
Theorem persist_tracks_registry {UT : UuidText} {CP : CratePkg} st present req sig
    (Hw : registry_wf (ms_registry st)) (Hp : persisted st) :
  persisted (handle_ipc present true st req).1 ∧ persisted (handle_logind true st sig).
Proof.
  unfold persisted in *. split.
  - destruct req as [|session|id closed| |u|id new]; simpl; try done.
    + destruct (match usb_serial session with Some _ => _ | None => None end); [done|].
      by apply from_snapshot_snapshot_by_id, registry_add_wf.
    + by apply from_snapshot_snapshot_by_id, registry_remove_wf.
    + pose proof (update_target_wf (ms_registry st) id new Hw) as Hu.
      destruct (update_target _ _ _) as [r' []]; [|done|done].
      by apply from_snapshot_snapshot_by_id.
  - destruct sig as [[]|]; simpl; [done|done|]. case_decide; [done|].
    by apply from_snapshot_snapshot_by_id, registry_remove_all_wf.
Qed.

Lemma persist_tracks_registry_witness :
  persisted (handle_ipc (UT := StateSample.uuid_text) (CP := StateSample.crate) (λ _, true) true
    (init_state registry_new [] 0) (IpcSessionOpen StateSample.session)).1.
Proof.
  apply (persist_tracks_registry (UT := StateSample.uuid_text) (CP := StateSample.crate)
           (init_state registry_new [] 0) (λ _, true) (IpcSessionOpen StateSample.session)
           (PrepareForSleep true)).
  - apply registry_new_wf.
  - reflexivity.
Defined.
