(* ===== verification/Enforce.v ===== *)
(** * Removal is enforced

    Liveness of the state manager ([state.rs]): a removal that counts starts a
    timer that nothing but the device coming back or the host going to sleep
    can stop, and that hands the action over once the grace period is past.
    The step relation has no scheduler, so "eventually" is stated as: from then
    on, the action has been requested, or the step that requests it can be
    taken now. *)

From S2P Require Import Prelude Text Certificate Proto Registry State.
Local Open Scope Z_scope.

(** The tokens of the grace map have been handed out. *)
Definition grace_wf (st : mstate) : Prop :=
  map_Forall (λ _ tok, (tok < ms_next_token st)%nat) (ms_grace st).

(** The timer [t] runs under [tok], uncancelled, and [tok] is the token of its
    serial only. *)
Record pending (tok : nat) (t : timer) (st : mstate) : Prop := {
  pe_timer : ms_timers st !! tok = Some t;
  pe_live : t_cancelled t = None;
  pe_only : ∀ serial, ms_grace st !! serial = Some tok → serial = t_serial t;
  pe_known : (tok < ms_next_token st)%nat;
}.

Definition requested (cfg : StateConfig) (t : timer) (st : mstate) : Prop :=
  ∀ s, s ∈ t_sessions t → HandleUsbRemoved s (on_usb_removed cfg) ∈ ms_actions st.

Section enforce.
Context {UT : UuidText} {CP : CratePkg} (cfg : StateConfig).

Lemma grace_wf_step st ev st' : step cfg st ev st' → grace_wf st → grace_wf st'.
Proof.
  unfold grace_wf. intros H Hw.
  destruct H as [st req present ok|st u|st sig ok|st d Hd|st tok t Ht Hf|st tok t c Ht Hc]; try done.
  - destruct (handle_ipc_frame present ok st req) as (-> & _ & -> & _). done.
  - unfold handle_udev. destruct (ue_action u), (ue_serial u) as [serial|]; try done.
    + destruct (ms_grace st !! serial); [|done]. cbn. by apply map_Forall_delete.
    + destruct (is_in_grace_window _ _ _); [done|]. case_decide; [done|].
      destruct (ms_grace st !! serial); [done|]. cbn. apply map_Forall_insert_2; [lia|].
      eapply map_Forall_impl; [exact Hw|]. cbn. lia.
  - unfold handle_logind. destruct sig as [[]|id op]; [apply map_Forall_empty|done|]. by case_decide.
Qed.

Lemma exec_grace_wf st0 tr st : exec cfg st0 tr st → grace_wf st0 → grace_wf st.
Proof. induction 1; eauto using grace_wf_step. Qed.

Lemma pending_udev tok t st u :
  pending tok t st → grace_wf st → ¬ cancels (t_serial t) (EvUdev u) → pending tok t (handle_udev cfg st u).
Proof.
  intros [Ht Hl Ho Hk] Hg Hc. unfold handle_udev.
  destruct (ue_action u) eqn:Ha, (ue_serial u) as [serial|] eqn:Hs; try done.
  - destruct (ms_grace st !! serial) as [k|] eqn:Hgs; [|done].
    assert (k ≠ tok) as Hne.
    { intros ->. apply Hc. cbn. rewrite Ha, Hs. by rewrite (Ho _ Hgs). }
    split; cbn; [|done| |done].
    + unfold cancel_token. by rewrite lookup_alter_ne.
    + intros x Hx. apply lookup_delete_Some in Hx as [_ Hx]. by apply Ho.
  - destruct (is_in_grace_window _ _ _); [done|]. case_decide; [done|].
    destruct (ms_grace st !! serial) as [k|] eqn:Hgs; [done|]. split; cbn; [|done| |lia].
    + rewrite lookup_insert_ne by lia. done.
    + intros x [[_ Hx]|[_ Hx]]%lookup_insert_Some; [lia|by apply Ho].
Qed.

Lemma pending_step tok t st ev st' :
  step cfg st ev st' → pending tok t st → grace_wf st → ¬ cancels (t_serial t) ev →
  pending tok t st' ∨ requested cfg t st'.
Proof.
  intros H Hp Hg Hc.
  destruct H as [st req present ok|st u|st sig ok|st d Hd|st k t' Ht' Hf|st k t' c Ht' Hc'].
  - left. destruct (handle_ipc_frame present ok st req) as (Eg & Et & En & _), Hp.
    split; [by rewrite Et|done| |by rewrite En]. by rewrite Eg.
  - left. by apply pending_udev.
  - left. destruct Hp, sig as [[]|id op]; [by destruct Hc|by split|]. cbn. by case_decide.
  - left. destruct Hp. by split.
  - destruct (decide (k = tok)) as [->|Hne].
    + right. rewrite (pe_timer _ _ _ Hp) in Ht'. injection Ht' as <-. intros s Hs. cbn.
      apply elem_of_app. right. apply list_elem_of_fmap. by exists s.
    + left. destruct Hp. split; cbn; [by rewrite lookup_delete_ne|done..].
  - left. destruct (decide (k = tok)) as [->|Hne].
    + destruct Hp as [Ht Hl _ _]. rewrite Ht in Ht'. injection Ht' as <-. by rewrite Hl in Hc'.
    + destruct Hp. split; cbn; [by rewrite lookup_delete_ne|done..].
Qed.

(** Requests are not taken back. *)
Lemma actions_grow st ev st' : step cfg st ev st' → ∃ l, ms_actions st' = ms_actions st ++ l.
Proof.
  intros [st1 req present ok|st1 u|st1 sig ok|st1 d Hd|st1 k t' Ht' Hf|st1 k t' c Ht' Hc'];
    [exists []; rewrite app_nil_r..|by eexists|by exists []; rewrite app_nil_r].
  - by destruct (handle_ipc_frame present ok st1 req) as (_ & _ & _ & _ & -> & _).
  - unfold handle_udev. by repeat case_match.
  - unfold handle_logind. by repeat case_match.
  - done.
Qed.

Lemma pending_exec tok t st0 after st :
  exec cfg st0 after st → pending tok t st0 → grace_wf st0 →
  (∀ e, e ∈ after → ¬ cancels (t_serial t) e.2) →
  pending tok t st ∨ requested cfg t st.
Proof.
  intros H Hp Hg. induction H as [|tr st ev st' He IH Hs]; intros Hn; [by left|].
  destruct IH as [IH|IH]; [intros e Hin; apply Hn; by right| |].
  - eapply pending_step; [done..|by eapply exec_grace_wf|]. apply (Hn (ms_now st, ev)). by left.
  - right. intros s Hin. destruct (actions_grow _ _ _ Hs) as [l ->]. apply elem_of_app. left. by apply IH.
Qed.

(** What a removal that counts starts. *)
Lemma removal_pending st u serial :
  grace_wf st → ue_action u = UdevRemove → ue_serial u = Some serial →
  is_in_grace_window (ms_suspend st) (ms_now st) (suspend_grace_seconds cfg) = false →
  ms_grace st !! serial = None → find_by_serial (ms_registry st) serial ≠ [] →
  pending (ms_next_token st)
    (MkTimer serial (find_by_serial (ms_registry st) serial) (ms_now st + grace_ns cfg) None)
    (handle_udev cfg st u).
Proof.
  intros Hg Ha Hs Hw Hn Hf. unfold handle_udev. rewrite Ha, Hs, Hw, decide_False, Hn by done.
  split; cbn; [by rewrite lookup_insert_eq|done| |lia].
  intros x [[-> _]|[_ Hx]]%lookup_insert_Some; [done|]. apply (map_Forall_lookup_1 _ _ _ _ Hg) in Hx. lia.
Qed.

(** A removal that counts leads to a running timer for the session, or to the
    request. *)
Lemma removal_outcome r disk now tr st u serial s after st' :
  exec cfg (init_state r disk now) tr st → ue_action u = UdevRemove → ue_serial u = Some serial →
  is_in_grace_window (ms_suspend st) (ms_now st) (suspend_grace_seconds cfg) = false →
  ms_grace st !! serial = None → s ∈ find_by_serial (ms_registry st) serial →
  exec cfg (handle_udev cfg st u) after st' → (∀ e, e ∈ after → ¬ cancels serial e.2) →
  ∃ tok t, t_deadline t = ms_now st + grace_ns cfg ∧ s ∈ t_sessions t ∧
    (pending tok t st' ∨ requested cfg t st').
Proof.
  intros Hrun Ha Hser Hwin Hfresh Hs Hafter Hnot. assert (grace_wf st) as Hg
    by (eapply exec_grace_wf; [exact Hrun|apply map_Forall_empty]).
  assert (find_by_serial (ms_registry st) serial ≠ []) as Hne
    by (by intros E; rewrite E in Hs; apply not_elem_of_nil in Hs).
  pose proof (removal_pending st u serial Hg Ha Hser Hwin Hfresh Hne) as Hp.
  eexists _, _. split_and!; [| |eapply pending_exec; [done|exact Hp| |done]]; [done..|].
  eapply grace_wf_step; [apply StepUdev|done].
Qed.

End enforce.

(** Removal is enforced: when the device of a tracked session goes away outside
    the suspend window and no removal of it is pending, then in every
    continuation in which it does not come back and the host does not go to
    sleep, and which has reached the end of the grace period, the configured
    action has been requested for the session, or the timer that requests it
    can fire right now. *)
Theorem removal_enforced {UT : UuidText} {CP : CratePkg} cfg r disk now tr st u serial s after st'
    (Hrun : exec cfg (init_state r disk now) tr st)
    (Hev : ue_action u = UdevRemove ∧ ue_serial u = Some serial)
    (Hwin : is_in_grace_window (ms_suspend st) (ms_now st) (suspend_grace_seconds cfg) = false)
    (Hfresh : ms_grace st !! serial = None)
    (Hs : s ∈ find_by_serial (ms_registry st) serial)
    (Hafter : exec cfg (handle_udev cfg st u) after st')
    (Hnot : ∀ e, e ∈ after → ¬ cancels serial e.2)
    (Hlate : ms_now st + grace_ns cfg ≤ ms_now st') :
  HandleUsbRemoved s (on_usb_removed cfg) ∈ ms_actions st' ∨
  ∃ tok st'', step cfg st' (EvFire tok) st'' ∧ HandleUsbRemoved s (on_usb_removed cfg) ∈ ms_actions st''.
Proof.
  destruct Hev as [Ha Hser].
  destruct (removal_outcome cfg r disk now tr st u serial s after st') as (tok & t & Hd & Hin & [[Ht Hl _ _]|Hr]);
    [done..|right|left; by apply Hr].
  eexists tok, _. split; [apply (StepFire cfg st' _ _ Ht); split; [lia|]; by rewrite Hl|].
  cbn. apply elem_of_app. right. apply list_elem_of_fmap. by exists s.
Qed.

Lemma removal_enforced_witness :
  let cfg := StateSample.cfg in
  HandleUsbRemoved StateSample.session Lock ∈ ms_actions StateSample.fired ∨
  ∃ tok st'', step (UT := StateSample.uuid_text) (CP := StateSample.crate) cfg StateSample.fired
                (EvFire tok) st'' ∧
    HandleUsbRemoved StateSample.session Lock ∈ ms_actions st''.
Proof.
  apply (removal_enforced (UT := StateSample.uuid_text) (CP := StateSample.crate) StateSample.cfg
    StateSample.reg [] 0 [] StateSample.start StateSample.remove "usb1" StateSample.session
    [(5 * NANOS_PER_SEC, EvFire 0); (0, EvTick (5 * NANOS_PER_SEC))] StateSample.fired).
  - apply ExecNil.
  - split; reflexivity.
  - reflexivity.
  - reflexivity.
  - apply (bool_decide_unpack _). vm_compute. exact I.
  - apply (ExecStep _ _ [(0, EvTick (5 * NANOS_PER_SEC))] (StateSample.waited StateSample.removed)).
    + apply (ExecStep _ _ [] StateSample.removed); [apply ExecNil|by apply StepTick].
    + apply StepFire; [reflexivity|]. split; [done|]. intros c [=].
  - intros e [->|[->|[]%not_elem_of_nil]%elem_of_cons]%elem_of_cons; intros [].
  - vm_compute. discriminate.
Defined.
