(* ===== verification/Store.v ===== *)
(** * The session file ([registry/store.rs], [write_sessions_atomic] of [state.rs])

    The snapshot goes to a temporary file in the directory of the real one,
    which is labelled, written, synced and renamed over it.  The file calls
    are a class, and its laws say what a reader and what a crash may find at a
    path.  Running the writer on an instance that records every state it goes
    through gives the crash theorem; the other theorem is the refinement of
    the persisted list of the state manager. *)

From S2P Require Import Prelude Text Sys Errors Openssl Certificate Gost MacLabel MacOrchestrator.
From S2P Require Import MacAudit PdpFfi Proto Registry State.
Local Open Scope Z_scope.

(** [tempfile::NamedTempFile], [std::fs] and [File]. *)
Class FileSys (W : Type) := {
  TempFile : Type;
  tmp_new_in : string → W → W * (IoError + TempFile);
  tmp_fd : TempFile → Z;
  tmp_write_all : TempFile → list byte → W → W * (IoError + unit);
  tmp_sync_all : TempFile → W → W * (IoError + unit);
  (** The file is removed when it cannot be renamed. *)
  tmp_persist : TempFile → string → W → W * (IoError + unit);
  tmp_drop : TempFile → W → W;
  dir_create_all : string → W → W * (IoError + unit);
  Dir : Type;
  dir_open : string → W → W * (IoError + Dir);
  dir_sync_all : Dir → W → W * (IoError + unit);
  (** A record of the audit log. *)
  store_audit : AuditRecord → W → W;
}.

(** Labelling an open file, as a [MacBackend] does it. *)
Definition FdLabel (W : Type) : Type := Z → IntegrityLabel → bool → io W MacError unit.

Section store.
Context {W : Type} {FLS : FileSys W}.

(** An early return drops the temporary file. *)
Definition or_drop {A} (tmp : TempFile) (c : io W IoError A) : io W IoError A := λ w,
  match c w with
  | (w', Ok a) => (w', Ok a)
  | (w', r) => (tmp_drop tmp w', r)
  end.

(** [emit_sessions_file_warn] with the error of the label. *)
Definition sessions_label_warning (path : string) (e : MacError) : AuditRecord :=
  MkAudit AuWarn EVENT_MAC_SESSIONS_FILE_WARN [str_field "F_path" path; ("F_error", FieldErr e)].

(** A label that cannot be set is reported to the audit log only. *)
Definition label_temp (set_fd_label : FdLabel W) (final_path : string) (tmp : TempFile)
    : io W IoError unit :=
  let! labelled := io_try (set_fd_label (tmp_fd tmp) (MkLabel 0 0) false) in
  match labelled with
  | inl e => ask (λ w, (store_audit (sessions_label_warning final_path e) w, tt))
  | inr _ => fret tt
  end.

(** Labelling, writing and syncing. *)
Definition fill_temp (set_fd_label : FdLabel W) (final_path : string) (tmp : TempFile)
    (bytes : list byte) : io W IoError unit :=
  or_drop tmp (
    do! label_temp set_fd_label final_path tmp;
    do! call (tmp_write_all tmp bytes);
    call (tmp_sync_all tmp)).

Definition write_sessions_atomic (set_fd_label : FdLabel W) (final_path : string) (bytes : list byte)
    : io W IoError unit :=
  let! parent := lift (ok_or (path_parent final_path) (MkIoError KindInvalidInput "no parent dir")) in
  let! tmp := call (tmp_new_in parent) in
  do! fill_temp set_fd_label final_path tmp bytes;
  call (tmp_persist tmp final_path).

(** The backend of the build: [ParsecBackend], whose constructor looks at the
    capability, or [StubBackend]. *)
Definition store_backend {PDP : Libpdp W} (astra : bool) : FdLabel W :=
  if astra then λ fd label irelax,
    let! _ := ask Ffi.parsec_backend_new in Ffi.set_fd_label fd label irelax
  else λ _ _ _, fret tt.

(** [RegistryStore::persist]. *)
Definition store_persist {JS : Json (list ActiveSession)} (set_fd_label : FdLabel W) (path : string)
    (snapshot : list ActiveSession) : io W IoError unit :=
  let! parent := lift (ok_or (path_parent path)
                         (MkIoError KindInvalidInput "registry path has no parent")) in
  do! call (dir_create_all parent);
  let! bytes := lift (map_err (MkIoError KindInvalidData) (of_sum (json_to_vec snapshot))) in
  do! write_sessions_atomic set_fd_label path bytes;
  let! dir := call (dir_open parent) in
  call (dir_sync_all dir).

(** [RegistryStore::load]. *)
Definition store_load {FS : Fs W} {JS : Json (list ActiveSession)} (path : string)
    : io W IoError (list ActiveSession) :=
  let! got := io_try (call (fs_read path)) in
  match got with
  | inr bytes => fret (match json_from_slice bytes with inr v => v | inl _ => [] end)
  | inl e => if decide (io_kind e = KindNotFound) then fret [] else lift (Err e)
  end.

End store.

(** ** What is at a path *)

(** [visible] is what a reader finds now, [durable] what may be found after a
    crash now; [settled]: the data of the file now at the path is on disk. *)
Class FileLaws (W : Type) `{FileSys W} := {
  visible : W → string → option (list byte);
  durable : W → string → option (list byte) → Prop;
  settled : W → string → Prop;
  temp_path : TempFile → string;
  (** A new file is where there was none. *)
  law_new : ∀ d w w' t, tmp_new_in d w = (w', inr t) →
    visible w (temp_path t) = None ∧ visible w' (temp_path t) = Some [] ∧
    ∀ q, q ≠ temp_path t → visible w' q = visible w q ∧ (∀ c, durable w' q c ↔ durable w q c);
  law_new_failed : ∀ d w w' e q, tmp_new_in d w = (w', inl e) →
    visible w' q = visible w q ∧ (∀ c, durable w' q c ↔ durable w q c);
  law_write : ∀ t bs w w' r, tmp_write_all t bs w = (w', r) →
    (r = inr tt → visible w' (temp_path t) = (.++ bs) <$> visible w (temp_path t)) ∧
    ∀ q, q ≠ temp_path t → visible w' q = visible w q ∧ (∀ c, durable w' q c ↔ durable w q c);
  law_sync : ∀ t w w' r, tmp_sync_all t w = (w', r) →
    visible w' (temp_path t) = visible w (temp_path t) ∧
    (r = inr tt → settled w' (temp_path t) ∧
       ∀ c, durable w' (temp_path t) c → c = visible w' (temp_path t) ∨ c = None) ∧
    ∀ q, q ≠ temp_path t → visible w' q = visible w q ∧ (∀ c, durable w' q c ↔ durable w q c);
  (** [rename] is atomic; until the directory is synced a crash may undo it. *)
  law_persist : ∀ t final w w', tmp_persist t final w = (w', inr tt) → final ≠ temp_path t →
    visible w' final = visible w (temp_path t) ∧
    (settled w (temp_path t) → settled w' final ∧
       ∀ c, durable w' final c → durable w final c ∨ c = visible w' final);
  law_persist_failed : ∀ t final w w' e q, tmp_persist t final w = (w', inl e) → q ≠ temp_path t →
    visible w' q = visible w q ∧ (∀ c, durable w' q c ↔ durable w q c);
  law_drop : ∀ t w q, q ≠ temp_path t →
    visible (tmp_drop t w) q = visible w q ∧ (∀ c, durable (tmp_drop t w) q c ↔ durable w q c);
  law_mkdir : ∀ d w q, visible (dir_create_all d w).1 q = visible w q ∧
    (∀ c, durable (dir_create_all d w).1 q c ↔ durable w q c);
  law_dir_open : ∀ d w q, visible (dir_open d w).1 q = visible w q ∧
    (∀ c, durable (dir_open d w).1 q c ↔ durable w q c) ∧ (settled w q → settled (dir_open d w).1 q);
  law_dir_sync : ∀ d w w1 dir w2 r q, dir_open d w = (w1, inr dir) → dir_sync_all dir w1 = (w2, r) →
    visible w2 q = visible w1 q ∧ (∀ c, durable w2 q c → durable w1 q c) ∧
    (r = inr tt → path_parent q = Some d → settled w1 q → ∀ c, durable w2 q c → c = visible w2 q);
  (** The audit log is none of these files. *)
  law_audit : ∀ a w q, visible (store_audit a w) q = visible w q ∧
    (∀ c, durable (store_audit a w) q c ↔ durable w q c);
}.

(** ** Recording the states *)

(** The world with every state it was in after a call. *)
Definition record {W A} (f : W → W * A) : W * list W → (W * list W) * A := λ s,
  let (w', a) := f s.1 in ((w', s.2 ++ [w']), a).

#[export] Instance recorded {W} {FLS : FileSys W} : FileSys (W * list W) := {|
  TempFile := @TempFile W FLS;
  tmp_new_in d := record (tmp_new_in d);
  tmp_fd := tmp_fd;
  tmp_write_all t bs := record (tmp_write_all t bs);
  tmp_sync_all t := record (tmp_sync_all t);
  tmp_persist t final := record (tmp_persist t final);
  tmp_drop t s := (record (λ w, (tmp_drop t w, tt)) s).1;
  dir_create_all d := record (dir_create_all d);
  Dir := @Dir W FLS;
  dir_open d := record (dir_open d);
  dir_sync_all d := record (dir_sync_all d);
  store_audit a s := (record (λ w, (store_audit a w, tt)) s).1;
|}.

Definition recorded_label {W} (f : FdLabel W) : FdLabel (W * list W) := λ fd l irelax s,
  record (f fd l irelax) s.

Section crash.
Context {W : Type} {FLS : FileSys W} {FL : FileLaws W}.

(** Nothing changed at the path. *)
Definition same_at (q : string) (w w' : W) : Prop :=
  visible w' q = visible w q ∧ ∀ c, durable w' q c ↔ durable w q c.

Lemma same_at_refl q w : same_at q w w.
Proof. done. Qed.

Lemma same_at_trans q w1 w2 w3 : same_at q w1 w2 → same_at q w2 w3 → same_at q w1 w3.
Proof. intros [Hv Hd] [Hv' Hd']. split; [congruence|]. intros c. by rewrite Hd'. Qed.

(** The old file or the whole new one, for a reader and after a crash. *)
Definition old_or_new (path : string) (w0 : W) (bytes : list byte) (w : W) : Prop :=
  (visible w path = visible w0 path ∨ visible w path = Some bytes) ∧
  ∀ c, durable w path c → durable w0 path c ∨ c = Some bytes.

Lemma same_old_or_new path w0 bytes w : same_at path w0 w → old_or_new path w0 bytes w.
Proof. intros [Hv Hd]. split; [by left|]. intros c Hc. left. by apply Hd. Qed.

(** The published state: new to a reader, with its data on disk. *)
Definition published (path : string) (bytes : list byte) (w : W) : Prop :=
  visible w path = Some bytes ∧ settled w path.

Context (set_fd_label : FdLabel W) (path : string).
Hypothesis Hlabel : ∀ fd l b w, (set_fd_label fd l b w).2 ≠ Panic ∧
  ∀ q, same_at q w (set_fd_label fd l b w).1.
Hypothesis Hname : ∀ t : TempFile, path ≠ temp_path t.

Abbreviation rec_label := (recorded_label set_fd_label).

(** The states of a computation, none of which touches the path. *)
Definition untouched (w : W) (log : list W) (s : W * list W) : Prop :=
  same_at path w s.1 ∧ ∃ l, s.2 = log ++ l ∧ Forall (same_at path w) l.

Lemma untouched_step w w1 log s :
  same_at path w w1 → untouched w1 (log ++ [w1]) s → untouched w log s.
Proof.
  intros S1 [S2 (l & Hs & Hl)]. split; [by eapply same_at_trans|].
  exists (w1 :: l). rewrite Hs, <-app_assoc. split; [done|]. constructor; [done|].
  eapply Forall_impl; [exact Hl|]. intros v Hv. by eapply same_at_trans.
Qed.

Lemma untouched_here w log : untouched w log (w, log).
Proof. split; [done|]. exists []. by rewrite app_nil_r. Qed.

Definition filled (tmp : @TempFile W FLS) (bytes : list byte) (w : W) (r : res IoError unit) : Prop :=
  match r with
  | Ok _ => visible w (temp_path tmp) = Some bytes ∧ settled w (temp_path tmp)
  | Err _ => True
  | Panic => False
  end.

Lemma write_sync_states (tmp : @TempFile W FLS) bytes (w : W) log s r :
  (do! call (tmp_write_all (FileSys := recorded) tmp bytes);
   call (tmp_sync_all (FileSys := recorded) tmp)) (w, log) = (s, r) →
  visible w (temp_path tmp) = Some [] → untouched w log s ∧ filled tmp bytes s.1 r.
Proof.
  intros H Hv. rewrite fbind_eq in H. unfold call in H. cbn [tmp_write_all recorded] in H.
  unfold record in H at 1. cbn [fst snd] in H.
  destruct (tmp_write_all tmp bytes w) as [w1 [e|[]]] eqn:E1; cbn [of_sum] in H;
    apply law_write in E1 as [Vt S1]; specialize (S1 path (Hname tmp)).
  { injection H as <- <-. split; [|done]. eapply untouched_step; [exact S1|]. apply untouched_here. }
  cbn [tmp_sync_all recorded] in H. unfold record in H. cbn [fst snd] in H.
  destruct (tmp_sync_all tmp w1) as [w2 r2] eqn:E2. apply law_sync in E2 as (V2 & D2 & S2).
  specialize (S2 path (Hname tmp)). injection H as <- <-. cbn [fst]. split.
  - eapply untouched_step; [exact S1|]. eapply untouched_step; [exact S2|]. apply untouched_here.
  - destruct r2 as [e|[]]; [done|]. cbn. split; [|by apply D2]. by rewrite V2, Vt, Hv.
Qed.

Lemma untouched_trans w log w1 l1 s :
  untouched w log (w1, l1) → untouched w1 l1 s → untouched w log s.
Proof.
  intros [S1 (l & Hl & F1)] [S2 (l' & Hl' & F2)]. cbn [fst snd] in *. subst l1.
  split; [by eapply same_at_trans|]. exists (l ++ l'). rewrite Hl', app_assoc. split; [done|].
  apply Forall_app. split; [done|]. eapply Forall_impl; [exact F2|]. intros v Hv.
  by eapply same_at_trans.
Qed.

(** Labelling, with the warning. *)
Lemma label_temp_states (tmp : @TempFile W FLS) (w : W) log :
  ∃ w1 l1, label_temp (FLS := recorded) rec_label path tmp (w, log) = ((w1, l1), Ok tt) ∧
    (∀ q, same_at q w w1) ∧ untouched w log (w1, l1).
Proof.
  unfold label_temp. rewrite fbind_eq. unfold io_try, recorded_label, record at 1. cbn [fst snd].
  destruct (Hlabel (tmp_fd tmp) (MkLabel 0 0) false w) as [Hnp Hsame].
  cbn [tmp_fd recorded]. destruct (set_fd_label (tmp_fd tmp) _ _ w) as [w1 [[]|e|]]; [..|done];
    cbn [fst snd] in Hsame.
  - exists w1, (log ++ [w1]). split_and!; [done..|].
    eapply untouched_step; [apply Hsame|]. apply untouched_here.
  - set (w2 := store_audit (sessions_label_warning path e) w1).
    assert (∀ q, same_at q w1 w2) as H2 by (intros q; apply law_audit).
    exists w2, ((log ++ [w1]) ++ [w2]). split_and!; [done|by intros q; eapply same_at_trans|].
    eapply untouched_step; [apply Hsame|]. eapply untouched_step; [apply H2|]. apply untouched_here.
Qed.

(** The part before the rename: the real file is untouched, and when it
    succeeds the temporary one is complete and on disk. *)
Lemma fill_temp_states (tmp : @TempFile W FLS) bytes (w : W) log s r :
  fill_temp (FLS := recorded) rec_label path tmp bytes (w, log) = (s, r) →
  visible w (temp_path tmp) = Some [] → untouched w log s ∧ filled tmp bytes s.1 r.
Proof.
  intros H Hv. unfold fill_temp, or_drop in H. rewrite fbind_eq in H.
  destruct (label_temp_states tmp w log) as (w1 & l1 & HL & Hsame & U1). rewrite HL in H.
  destruct (Hsame (temp_path tmp)) as [V1 _]. rewrite Hv in V1.
  destruct ((do! call (tmp_write_all (FileSys := recorded) tmp bytes);
    call (tmp_sync_all (FileSys := recorded) tmp)) (w1, l1)) as [[w2 l2] r2] eqn:E2.
  pose proof E2 as [U2 F2]%write_sync_states; [|done].
  cbv beta iota in H.
  apply (untouched_trans w log w1 l1) in U2; [|done].
  destruct r2 as [a|e|]; [by simplify_eq|simplify_eq/=|done]. split; [|done].
  destruct U2 as [S2 (l & Hs & Hl)]. cbn [fst snd] in S2, Hs. subst l2.
  pose proof (law_drop tmp w2 path (Hname tmp)) as Sd.
  split; [by eapply same_at_trans|]. exists (l ++ [tmp_drop tmp w2]). cbn. rewrite app_assoc.
  split; [done|]. apply Forall_app; split; [done|]. constructor; [|done]. by eapply same_at_trans.
Qed.

Lemma old_or_new_same w0 bytes w w' :
  old_or_new path w0 bytes w → same_at path w w' → old_or_new path w0 bytes w'.
Proof.
  intros [Hv Hd] [Hv' Hd']. split; [by rewrite Hv'|]. intros c Hc. by apply Hd, Hd'.
Qed.

Lemma old_or_new_base w0 w1 bytes w :
  same_at path w0 w1 → old_or_new path w1 bytes w → old_or_new path w0 bytes w.
Proof.
  intros [Hv Hd] [Hv' Hd']. split; [by rewrite Hv in Hv'|].
  intros c [Hc|Hc]%Hd'; [left; by apply Hd|by right].
Qed.

Definition written (w : W) (bytes : list byte) (s : W * list W) (r : res IoError unit) : Prop :=
  old_or_new path w bytes s.1 ∧
  match r with
  | Ok _ => published path bytes s.1
  | Err _ => same_at path w s.1
  | Panic => False
  end.

(** Every state that is added is one of [old_or_new]. *)
Definition grows (w : W) (bytes : list byte) (log : list W) (s : W * list W) : Prop :=
  ∃ l, s.2 = log ++ l ∧ Forall (old_or_new path w bytes) l.

Lemma untouched_grows w bytes log s : untouched w log s → grows w bytes log s.
Proof.
  intros [_ (l & Hs & Hl)]. exists l. split; [done|].
  eapply Forall_impl; [exact Hl|]. intros v. apply same_old_or_new.
Qed.

Lemma write_atomic_states bytes w log s r :
  write_sessions_atomic (FLS := recorded) rec_label path bytes (w, log) = (s, r) →
  grows w bytes log s ∧ written w bytes s r.
Proof.
  intros H. unfold write_sessions_atomic in H. rewrite fbind_eq in H. unfold lift in H.
  destruct (path_parent path) as [parent|]; cbn [ok_or] in H.
  2:{ injection H as <- <-. split; [apply untouched_grows, untouched_here|].
      split; [by apply same_old_or_new|done]. }
  rewrite fbind_eq in H. unfold call in H at 1. cbn [tmp_new_in recorded] in H.
  unfold record in H at 1. cbn [fst snd] in H.
  destruct (tmp_new_in parent w) as [w1 [e|tmp]] eqn:E1; cbn [of_sum] in H.
  { injection H as <- <-. pose proof (law_new_failed _ _ _ _ path E1) as S1.
    split; [|by split; [apply same_old_or_new|]].
    apply untouched_grows. eapply untouched_step; [exact S1|]. apply untouched_here. }
  apply law_new in E1 as (_ & V1 & S1). specialize (S1 path (Hname tmp)).
  rewrite fbind_eq in H. destruct (fill_temp _ _ _ _ _) as [[w2 l2] r2] eqn:E2.
  apply fill_temp_states in E2 as [U2 F2]; [|done]. apply (untouched_step w) in U2; [|done].
  pose proof U2 as [S2 _]. cbn [fst] in S2, F2.
  destruct r2 as [[]|e|]; [|injection H as <- <-; split; [by apply untouched_grows|];
    by split; [apply same_old_or_new|]|done].
  unfold call in H. cbn [tmp_persist recorded] in H. unfold record in H. cbn [fst snd] in H.
  destruct (tmp_persist tmp path w2) as [w3 r3] eqn:E3. injection H as <- <-. destruct F2 as [Vt St].
  assert (old_or_new path w bytes w3 ∧
    match r3 with inl _ => same_at path w w3 | inr _ => published path bytes w3 end) as [O3 P3].
  { destruct r3 as [e|[]].
    - pose proof (law_persist_failed _ _ _ _ _ path E3 (Hname tmp)) as S3.
      assert (same_at path w w3) by (by eapply same_at_trans). split; [by apply same_old_or_new|done].
    - apply law_persist in E3 as [V3 D3]; [|done]. destruct (D3 St) as [St3 Hd]. rewrite Vt in V3.
      split; [|by split]. split; [by right|]. intros c [Hc|Hc]%Hd; [left; by apply S2|right; congruence]. }
  split; [|by split; [|destruct r3]].
  destruct (untouched_grows _ bytes _ _ U2) as (l & Hs & Hl). cbn [snd] in Hs. subst l2.
  exists (l ++ [w3]). cbn. rewrite app_assoc. split; [done|]. apply Forall_app; split; [done|]. by constructor.
Qed.

Lemma grows_step w bytes log s w' :
  grows w bytes log s → old_or_new path w bytes w' → grows w bytes log (w', s.2 ++ [w']).
Proof.
  intros (l & Hs & Hl) Hw. exists (l ++ [w']). rewrite Hs, <-app_assoc. split; [done|].
  apply Forall_app; split; [done|]. by constructor.
Qed.

Lemma grows_base w w1 bytes log s :
  same_at path w w1 → grows w1 bytes (log ++ [w1]) s → grows w bytes log s.
Proof.
  intros S1 (l & Hs & Hl). exists (w1 :: l). rewrite Hs, <-app_assoc. split; [done|].
  constructor; [by apply same_old_or_new|]. eapply Forall_impl; [exact Hl|].
  intros v Hv. by eapply old_or_new_base.
Qed.

(** The directory: nothing visible changes, and when it is synced a crash
    finds the new file only. *)
Definition stored (w : W) (bytes : list byte) (s : W * list W) (r : res IoError unit) : Prop :=
  grows w bytes [] s ∧ old_or_new path w bytes s.1 ∧
  match r with
  | Ok _ => visible s.1 path = Some bytes ∧ ∀ c, durable s.1 path c → c = Some bytes
  | Err _ => True
  | Panic => False
  end.

Lemma sync_dir_states parent w bytes s s' r :
  path_parent path = Some parent → grows w bytes [] s → old_or_new path w bytes s.1 →
  published path bytes s.1 →
  (let! dir := call (dir_open (FileSys := recorded) parent) in
   call (dir_sync_all (FileSys := recorded) dir)) s = (s', r) → stored w bytes s' r.
Proof.
  intros Hp Hg Ho [Vp Sp] H. rewrite fbind_eq in H. unfold call in H. cbn [dir_open recorded] in H.
  unfold record in H at 1. destruct (law_dir_open parent s.1 path) as (V1 & D1 & St1).
  destruct (dir_open parent s.1) as [w1 [e|dir]] eqn:E1; cbn [of_sum fst snd] in *.
  { injection H as <- <-. assert (old_or_new path w bytes w1) by (eapply old_or_new_same; [exact Ho|done]).
    split; [by apply grows_step|done]. }
  assert (old_or_new path w bytes w1) as O1 by (eapply old_or_new_same; [exact Ho|done]).
  cbn [dir_sync_all recorded] in H. unfold record in H. cbn [fst snd] in H.
  destruct (dir_sync_all dir w1) as [w2 r2] eqn:E2. injection H as <- <-.
  pose proof (law_dir_sync _ _ _ _ _ _ path E1 E2) as (V2 & D2 & F2).
  assert (old_or_new path w bytes w2) as O2.
  { destruct O1 as [Ov Od]. split; [by rewrite V2|]. intros c Hc. by apply Od, D2. }
  split; [apply (grows_step _ _ _ (w1, s.2 ++ [w1])); [by apply grows_step|done]|]. split; [done|].
  destruct r2 as [e|[]]; [done|]. cbn. assert (visible w2 path = Some bytes) as Hv by congruence.
  split; [done|]. intros c Hc. rewrite <-Hv. by apply F2; auto.
Qed.

Lemma store_persist_states {JS : Json (list ActiveSession)} snapshot bytes w s r :
  json_to_vec snapshot = inr bytes →
  store_persist (FLS := recorded) rec_label path snapshot (w, []) = (s, r) → stored w bytes s r.
Proof.
  intros Hj H. unfold store_persist in H. rewrite fbind_eq in H. unfold lift in H at 1.
  destruct (path_parent path) as [parent|] eqn:Hp; cbn [ok_or] in H.
  2:{ injection H as <- <-. split; [by exists []|]. by split; [apply same_old_or_new|]. }
  rewrite fbind_eq in H. unfold call in H at 1. cbn [dir_create_all recorded] in H.
  unfold record in H at 1. cbn [fst snd] in H. pose proof (law_mkdir parent w path) as S1.
  destruct (dir_create_all parent w) as [w1 [e|[]]]; cbn [of_sum] in H; cbn [fst] in S1.
  { injection H as <- <-. split; [exists [w1]; split; [done|]|]; [constructor; [|done]|];
      [by apply same_old_or_new|]. by split; [apply same_old_or_new|]. }
  rewrite fbind_eq in H. unfold lift in H at 1. rewrite Hj in H. cbn [of_sum map_err] in H.
  rewrite fbind_eq in H.
  destruct (write_sessions_atomic _ _ _ _) as [s2 r2] eqn:E2. apply write_atomic_states in E2 as [G2 [O2 W2]].
  apply (grows_base w _ _ []) in G2; [|done]. apply (old_or_new_base w) in O2; [|done].
  destruct r2 as [[]|e|]; [|injection H as <- <-; by split|done].
  by eapply sync_dir_states.
Qed.

End crash.

(** Recording does not change what happens. *)
Section erase.
Context {W : Type} {FLS : FileSys W} (set_fd_label : FdLabel W).

Lemma fill_temp_erase path (tmp : @TempFile W FLS) bytes w log :
  let out := fill_temp (FLS := recorded) (recorded_label set_fd_label) path tmp bytes (w, log) in
  (out.1.1, out.2) = fill_temp set_fd_label path tmp bytes w.
Proof.
  unfold fill_temp, label_temp, or_drop, fbind, io_try, recorded_label, record, call, ask.
  cbn [tmp_fd tmp_write_all tmp_sync_all tmp_drop store_audit recorded]. unfold record. cbn [fst snd].
  destruct (set_fd_label (tmp_fd tmp) _ _ w) as [w1 [|e|]]; cbn; try done;
    (destruct (tmp_write_all tmp bytes _) as [w2 [|]]; cbn; [done|];
     destruct (tmp_sync_all tmp w2) as [w3 [|]]; cbn; done).
Qed.

Lemma write_atomic_erase path bytes w log :
  let out := write_sessions_atomic (FLS := recorded) (recorded_label set_fd_label) path bytes (w, log) in
  (out.1.1, out.2) = write_sessions_atomic set_fd_label path bytes w.
Proof.
  unfold write_sessions_atomic. rewrite !fbind_eq. unfold lift. destruct (path_parent path) as [d|]; [|done].
  cbn [ok_or]. rewrite !fbind_eq. unfold call.
  cbn [tmp_new_in tmp_persist recorded]. unfold record. cbn [fst snd].
  destruct (tmp_new_in d w) as [w1 [e|tmp]]; [done|]. cbn [of_sum]. rewrite !fbind_eq.
  pose proof (fill_temp_erase path tmp bytes w1 (log ++ [w1])) as He.
  destruct (fill_temp (FLS := recorded) _ _ _ _ _) as [[w2 l2] r2]. cbn [fst snd] in He. rewrite <-He.
  destruct r2 as [[]|e|]; [|done..]. cbn [fst snd].
  by destruct (tmp_persist tmp path w2) as [w3 [|]].
Qed.

Lemma store_persist_erase {JS : Json (list ActiveSession)} path snapshot w log :
  let out := store_persist (FLS := recorded) (recorded_label set_fd_label) path snapshot (w, log) in
  (out.1.1, out.2) = store_persist set_fd_label path snapshot w.
Proof.
  unfold store_persist. rewrite !fbind_eq. unfold lift. destruct (path_parent path) as [d|]; [|done].
  cbn [ok_or]. rewrite !fbind_eq. unfold call.
  cbn [dir_create_all dir_open dir_sync_all recorded]. unfold record. cbn [fst snd].
  destruct (dir_create_all d w) as [w1 [e|[]]]; [done|]. cbn [of_sum]. rewrite !fbind_eq.
  destruct (map_err _ _) as [bytes|e|]; [|done..]. rewrite !fbind_eq.
  pose proof (write_atomic_erase path bytes w1 (log ++ [w1])) as He.
  destruct (write_sessions_atomic (FLS := recorded) _ _ _ _) as [[w2 l2] r2].
  cbn [fst snd] in He. rewrite <-He. destruct r2 as [[]|e|]; [|done..]. rewrite !fbind_eq.
  cbn [fst snd]. destruct (dir_open d w2) as [w3 [e|dir]]; [done|]. cbn.
  by destruct (dir_sync_all dir w3) as [w4 [|]].
Qed.

End erase.

(** ** A sample file system *)

Module StoreSample.

(** Files by path; every change reaches the disk at once. *)
Abbreviation disk := (gmap string (list byte)).

Definition temp : string := "/run/.tmpA1b2C3".

Definition missing : IoError := MkIoError KindNotFound "".

#[export] Instance file_sys : FileSys disk := {|
  TempFile := unit;
  tmp_new_in _ w :=
    match w !! temp with
    | Some _ => (w, inl (MkIoError KindOther "exists"))
    | None => (<[temp := []]> w, inr tt)
    end;
  tmp_fd _ := 9;
  tmp_write_all _ bs w :=
    (match w !! temp with Some old => <[temp := old ++ bs]> w | None => w end, inr tt);
  tmp_sync_all _ w := (w, inr tt);
  tmp_persist _ final w :=
    (match w !! temp with Some bs => delete temp (<[final := bs]> w) | None => delete final w end, inr tt);
  tmp_drop _ w := delete temp w;
  dir_create_all _ w := (w, inr tt);
  Dir := unit;
  dir_open _ w := (w, inr tt);
  dir_sync_all _ w := (w, inr tt);
  store_audit _ w := w;
|}.

#[export] Instance file_laws : FileLaws disk.
Proof.
  refine (@Build_FileLaws disk file_sys (λ w q, w !! q) (λ w q c, c = w !! q) (λ _ _, True) (λ _, temp)
            _ _ _ _ _ _ _ _ _ _ _).
  - intros d w w' t. cbn. destruct (w !! temp) eqn:E; [done|]. intros [= <- <-].
    split; [done|]. split; [by rewrite lookup_insert_eq|]. intros q Hq. by rewrite lookup_insert_ne.
  - intros d w w' e q. cbn. destruct (w !! temp); [|done]. by intros [= <- <-].
  - intros t bs w w' r [= <- <-]. split.
    + intros _. destruct (w !! temp) eqn:E; [by rewrite lookup_insert_eq|by rewrite E].
    + intros q Hq. destruct (w !! temp); [by rewrite lookup_insert_ne|done].
  - intros t w w' r [= <- <-]. split_and!; [done|by auto|done].
  - intros t final w w' [= <-] Hf. assert (∀ m : disk, delete temp m !! final = m !! final) as Hd
      by (intros; by rewrite lookup_delete_ne).
    destruct (w !! temp) as [bs|] eqn:E.
    + rewrite Hd, lookup_insert_eq. split; [done|]. intros _. split; [done|]. intros c ->. by right.
    + rewrite lookup_delete_eq. split; [done|]. intros _. split; [done|]. intros c ->. by right.
  - done.
  - intros t w q Hq. cbn. by rewrite lookup_delete_ne.
  - done.
  - done.
  - intros d w w1 dir w2 r q [= <-] [= <- <-]. split_and!; [done..|]. by intros _ _ _ c ->.
  - done.
Defined.

#[export] Instance reader : Fs disk := {|
  fs_read p w := (w, match w !! p with Some bs => inr bs | None => inl missing end);
  fs_metadata p w :=
    (w, match w !! p with Some bs => inr (MkMetadata true false (zlen bs) 0x81A4) | None => inl missing end);
|}.

Definition session : ActiveSession := sample_session 1 1000.

#[export] Instance json : Json (list ActiveSession) := {|
  json_to_vec l :=
    if decide (l = [session]) then inr (bytes_of "[s]")
    else if decide (l = []) then inr (bytes_of "[]") else inl "unsupported";
  json_from_slice bs :=
    if decide (bs = bytes_of "[s]") then inr [session]
    else if decide (bs = bytes_of "[]") then inr [] else inl "bad json";
|}.

Definition label : FdLabel disk := λ _ _ _ w, (w, Err CapMissing).
Definition path : string := "/run/sessions.json".
Definition empty : disk := ∅.

Abbreviation run sessions w :=
  (store_persist (FLS := recorded (FLS := file_sys)) (JS := json) (recorded_label label) path sessions
     (w, [])).

End StoreSample.

(** ** Theorems *)

(** C17: A crash cannot tear the session file.  In every state that persisting
    goes through, whatever fails on the way, a reader of the path and a
    machine restarted after a crash find the old file or the whole new one;
    when it reports success, the new one only. *)
Theorem persist_crash_safe {W} {FLS : FileSys W} {FL : FileLaws W} {JS : Json (list ActiveSession)}
    set_fd_label path sessions bytes w
    (Hlabel : ∀ fd l b w, (set_fd_label fd l b w).2 ≠ Panic ∧
                ∀ q, same_at q w (set_fd_label fd l b w).1)
    (Hname : ∀ t : TempFile, path ≠ temp_path t)
    (Hjson : json_to_vec sessions = inr bytes) :
  let run := store_persist (FLS := recorded) (recorded_label set_fd_label) path sessions (w, []) in
  (run.1.1, run.2) = store_persist set_fd_label path sessions w ∧
  Forall (old_or_new path w bytes) run.1.2 ∧
  match run.2 with
  | Ok _ => visible run.1.1 path = Some bytes ∧ ∀ c, durable run.1.1 path c → c = Some bytes
  | Err _ => old_or_new path w bytes run.1.1
  | Panic => False
  end.
Proof.
  intros run. split; [apply store_persist_erase|].
  destruct run as [s r] eqn:Hrun. unfold run in Hrun.
  destruct (store_persist_states set_fd_label path Hlabel Hname sessions bytes w s r Hjson Hrun)
    as ((l & Hs & Hl) & Ho & Hr).
  cbn [fst snd]. rewrite Hs. split; [done|]. by destruct r.
Qed.

Lemma persist_crash_safe_witness :
  let run := StoreSample.run [StoreSample.session] StoreSample.empty in
  Forall (old_or_new (FL := StoreSample.file_laws) StoreSample.path StoreSample.empty (bytes_of "[s]"))
    run.1.2 ∧
  length run.1.2 = 9%nat ∧ run.2 = Ok tt.
Proof.
  destruct (persist_crash_safe (FL := StoreSample.file_laws) (JS := StoreSample.json) StoreSample.label
    StoreSample.path [StoreSample.session] (bytes_of "[s]") StoreSample.empty) as (_ & H & _).
  - intros fd l b w. split; [done|]. intros q. by split.
  - by intros [].
  - by vm_compute.
  - split; [exact H|]. by vm_compute.
Defined.

(** The times of a session as the file keeps them. *)
Definition stored_session (s : ActiveSession) : ActiveSession :=
  MkSession (session_id s) (pam_user s) (pam_service s) (target s) (usb_serial s) (host_id_hash s)
    (wire_time (opened_at s)) (cert_cn s) (cert_serial s) (engineer_ski s) (engineer_cert_sha256 s) (uid s).

(** What loading gives, by what is visible. *)
Definition loaded {JS : Json (list ActiveSession)} (content : option (list byte)) : list ActiveSession :=
  match content with
  | Some bs => match json_from_slice bs with inr v => v | inl _ => [] end
  | None => []
  end.

Lemma store_load_visible {W} {FLS : FileSys W} {FL : FileLaws W} {FS : Fs W}
    {JS : Json (list ActiveSession)} path (w : W) :
  (∀ w, (fs_read path w).2 = match visible w path with
                             | Some bs => inr bs
                             | None => inl (MkIoError KindNotFound "")
                             end) →
  (store_load path w).2 = Ok (loaded (visible w path)).
Proof.
  intros Hread. specialize (Hread w). unfold store_load, fbind, io_try, call.
  destruct (fs_read path w) as [w1 got]. cbn [snd] in Hread. subst got. by destruct (visible w path).
Qed.

Lemma store_persist_unprinted {W} {FLS : FileSys W} {FL : FileLaws W} {JS : Json (list ActiveSession)}
    set_fd_label path sessions e (w w' : W) r :
  json_to_vec sessions = inl e → store_persist set_fd_label path sessions w = (w', r) →
  visible w' path = visible w path ∧ r ≠ Ok tt.
Proof.
  intros Hj H. unfold store_persist, fbind, lift, call in H. destruct (path_parent path) as [d|].
  - cbn [ok_or] in H. destruct (law_mkdir d w path) as [Hv _].
    destruct (dir_create_all d w) as [w1 [e1|[]]]; cbn in H, Hv; [by injection H as <- <-|].
    rewrite Hj in H. by injection H as <- <-.
  - by injection H as <- <-.
Qed.

Lemma Forall_fmap_eq {A} (f : A → A) l : Forall (λ a, f a = a) l → f <$> l = l.
Proof. induction 1 as [|a l Ha _ IH]; [done|]. by rewrite fmap_cons, Ha, IH. Qed.

(** C18: The session file implements the persisted list of the state manager: when
    reading gives what is visible and parsing inverts printing up to whole
    seconds, then for sessions with such times, as those that came over the
    socket have, what a restarted daemon loads after a write is the list
    [persist] keeps, and the new one when the write reports success. *)
Theorem persist_refines {W} {FLS : FileSys W} {FL : FileLaws W} {FS : Fs W}
    {JS : Json (list ActiveSession)} set_fd_label path registry disk w w' r
    (Hlabel : ∀ fd l b w, (set_fd_label fd l b w).2 ≠ Panic ∧
                ∀ q, same_at q w (set_fd_label fd l b w).1)
    (Hname : ∀ t : TempFile, path ≠ temp_path t)
    (Hread : ∀ w, (fs_read path w).2 = match visible w path with
                                       | Some bs => inr bs
                                       | None => inl (MkIoError KindNotFound "")
                                       end)
    (Hjson : ∀ l bs, json_to_vec l = inr bs → json_from_slice bs = inr (stored_session <$> l))
    (Hwhole : Forall (λ s, stored_session s = s) (snapshot registry))
    (Hdisk : (store_load path w).2 = Ok disk)
    (Hrun : store_persist set_fd_label path (snapshot registry) w = (w', r)) :
  ∃ ok, (store_load path w').2 = Ok (persist ok registry disk) ∧ (r = Ok tt → ok = true).
Proof.
  rewrite store_load_visible in Hdisk by done. injection Hdisk as Hdisk.
  destruct (json_to_vec (snapshot registry)) as [e|bytes] eqn:Hj.
  - apply (store_persist_unprinted set_fd_label path _ e) in Hrun as [Hv Hr]; [|done].
    exists false. rewrite store_load_visible, Hv, Hdisk by done. by split.
  - destruct (store_persist (FLS := recorded) (recorded_label set_fd_label) path (snapshot registry) (w, []))
      as [s1 r1] eqn:E.
    pose proof (store_persist_erase set_fd_label path (snapshot registry) w []) as He.
    rewrite E, Hrun in He. cbn [fst snd] in He. injection He as He1 He2.
    destruct (store_persist_states set_fd_label path Hlabel Hname _ bytes _ _ _ Hj E) as (_ & [Hv _] & Hr).
    rewrite He1 in Hv, Hr. rewrite He2 in Hr.
    assert (∀ v, visible v path = Some bytes → (store_load path v).2 = Ok (snapshot registry)) as Hnew.
    { intros v Hv'. rewrite store_load_visible, Hv' by done. cbn. rewrite (Hjson _ _ Hj).
      by rewrite Forall_fmap_eq. }
    destruct r as [[]|e|]; [|destruct Hv as [Hv|Hv]|done].
    + exists true. split; [|done]. by apply Hnew; destruct Hr.
    + exists false. rewrite store_load_visible, Hv, Hdisk by done. by split.
    + exists true. by split; [apply Hnew|].
Qed.

Lemma persist_refines_witness :
  ∃ ok, (store_load (FS := StoreSample.reader) (JS := StoreSample.json) StoreSample.path
           (StoreSample.run [StoreSample.session] StoreSample.empty).1.1).2 =
        Ok (persist ok StateSample.reg []) ∧ (Ok (E := IoError) tt = Ok tt → ok = true).
Proof.
  apply (persist_refines (FLS := StoreSample.file_sys) (FL := StoreSample.file_laws) StoreSample.label
    StoreSample.path StateSample.reg [] StoreSample.empty).
  - intros fd l b w. split; [done|]. intros q. by split.
  - by intros [].
  - intros w. reflexivity.
  - intros l bs. unfold json_to_vec, StoreSample.json.
    destruct (decide (l = [StoreSample.session])) as [->|_]; [intros [= <-]; by vm_compute|].
    destruct (decide (l = [])) as [->|_]; [intros [= <-]; by vm_compute|done].
  - assert (snapshot StateSample.reg = [StoreSample.session]) as -> by (vm_compute; reflexivity).
    constructor; [vm_compute; reflexivity|constructor].
  - vm_compute; reflexivity.
  - vm_compute; reflexivity.
Defined.
