(* ===== verification/Server.v ===== *)
(** * The monitord IPC server ([server.rs], [peercred.rs])

    One connection: peer check, handshake, then frames until the peer closes,
    errs, is silent too long or breaks the protocol.  What arrives on the
    socket is a list of [input_item]s, its end is the end of the stream;
    [InIdle] says that the timeout of the read in progress expires here.  The
    state manager is the argument [ask], with its state threaded through; a
    request may find the channel closed or the reply missing.  [write_ok]
    tells whether the n-th frame can be written (a frame that fails half-way
    counts as not written).  Durations are in nanoseconds.

    The handshake reads with a [BufReader] of its own that is dropped
    afterwards: [buffered] is the number of bytes it had taken from the socket
    beyond the first line; they are lost. *)

From S2P Require Import Prelude Text Errors Certificate Proto Registry State.
Local Open Scope Z_scope.

Inductive input_item : Type :=
| InByte (b : byte)
| InIdle
| InErr (e : string).

Inductive ServerError : Type :=
| HandshakeTimeout
| ServerIo (e : string)
| ServerDecode (e : string)
| ServerEncode (e : WireError)
| HelloExpected
| VersionMismatch (server client : Z)
| ServerUnauthorized (e : string).

Record PeerCred := MkPeerCred {
  pc_uid : Z;
  pc_gid : Z;
  pc_pid : option Z;
}.

Inductive CredError : Type :=
| CredLookup (e : string)
| CredUnauthorized (uid : Z).

Definition verify_peer_credentials (cred : string + PeerCred) : res CredError PeerCred :=
  let? pc := map_err CredLookup (of_sum cred) in
  if decide (pc_uid pc ≠ 0) then Err (CredUnauthorized (pc_uid pc)) else Ok pc.

Record AcceptConfig := MkAcceptConfig {
  enforce_peercred : bool;
  idle_timeout : Z;
  max_concurrent_connections : Z;
}.

Definition accept_config_default : AcceptConfig := MkAcceptConfig true (30 * NANOS_PER_SEC) 64.

(** ** Bounded frames *)

Inductive FrameOutcome : Type :=
| Frame
| Eof
| Oversize.

Inductive read_result : Type :=
| ROutcome (o : FrameOutcome)
| RIdle
| RIo (e : string).

(** The result, the buffer and the input that is left. *)
Fixpoint read_frame_bounded (input : list input_item) (buf : list byte) (max : Z)
    : read_result * list byte * list input_item :=
  match input with
  | [] => (ROutcome (if decide (buf = []) then Eof else Frame), buf, [])
  | InIdle :: r => (RIdle, buf, r)
  | InErr e :: r => (RIo e, buf, r)
  | InByte b :: r =>
      if decide (max ≤ zlen buf) then (ROutcome Oversize, buf, r) else
      let buf := buf ++ [b] in
      if decide (b = LF) then (ROutcome Frame, buf, r)
      else read_frame_bounded r buf max
  end.

(** [read_line] of the handshake: no bound. *)
Inductive line_result : Type :=
| LLine (line : list byte)
| LIdle
| LIo (e : string).

Fixpoint read_line (input : list input_item) (buf : list byte) : line_result * list input_item :=
  match input with
  | [] => (LLine buf, [])
  | InIdle :: r => (LIdle, r)
  | InErr e :: r => (LIo e, r)
  | InByte b :: r =>
      if decide (b = LF) then (LLine (buf ++ [b]), r) else read_line r (buf ++ [b])
  end.

(** The bytes a dropped [BufReader] takes with it. *)
Fixpoint skip_buffered (n : nat) (input : list input_item) : list input_item :=
  match n, input with
  | S n, InByte _ :: r => skip_buffered n r
  | _, _ => input
  end.

(** ** Dispatch *)

Inductive ask_result : Type :=
| Gone
| NoReply
| Reply (m : ServerMessage).

Definition internal_error : ServerMessage := ErrorMsg INTERNAL "monitord internal error".

Definition session_of (p : SessionOpenPayload) : ActiveSession :=
  MkSession (so_session_id p) (so_pam_user p) (so_pam_service p) (so_target p) (so_usb_serial p)
    (so_host_id_hash p) (so_opened_at p) (so_cert_cn p) (so_cert_serial p) (so_engineer_ski p)
    (so_engineer_cert_sha256 p) (so_uid p).

Section server.
Context {S : Type} (ask : S → IpcRequest → S * ask_result).
Context {JC : Json ClientMessage} {JS : Json ServerMessage} {CP : CratePkg}.
Context (write_ok : nat → bool).

(** Send the request and await the reply. *)
Definition ask_reply (st : S) (req : IpcRequest) (gone : ServerMessage) : S * ServerMessage :=
  match ask st req with
  | (st, Gone) => (st, gone)
  | (st, NoReply) => (st, internal_error)
  | (st, Reply m) => (st, m)
  end.

Definition dispatch (st : S) (msg : ClientMessage) : S * ServerMessage :=
  match msg with
  | Hello _ _ => (st, ErrorMsg BAD_REQUEST "Hello already processed")
  | Ping => ask_reply st IpcPing (ErrorMsg INTERNAL "state manager gone")
  | SessionOpen p => ask_reply st (IpcSessionOpen (session_of p)) internal_error
  | GetActiveSessionByUid u => ask_reply st (IpcGetActiveSessionByUid u) internal_error
  | SessionClose id closed_at => ask_reply st (IpcSessionClose id closed_at) internal_error
  | UpdateSessionTarget id t => ask_reply st (IpcUpdateSessionTarget id t) internal_error
  end.

(** ** One connection *)

(** The state manager and the frames written so far. *)
Definition conn : Type := S * list (list byte).

(** [let _ = write.write_all(&bytes).await]. *)
Definition write_lossy (c : conn) (bytes : list byte) : conn :=
  if write_ok (length c.2) then (c.1, c.2 ++ [bytes]) else c.

(** [write.write_all(&bytes).await?]. *)
Definition write_frame (c : conn) (bytes : list byte) : conn * res ServerError unit :=
  if write_ok (length c.2) then ((c.1, c.2 ++ [bytes]), Ok tt)
  else (c, Err (ServerIo "write")).

(** Answer with an error and close. *)
Definition close_with (c : conn) (code : Z) (message : string) : conn * res ServerError unit :=
  match encode_message (ErrorMsg code message) with
  | Ok bytes => (write_lossy c bytes, Ok tt)
  | Err e => (c, Err (ServerEncode e))
  | Panic => (c, Panic)
  end.

(** The text of a decode error. *)
Definition wire_error_text (e : WireError) : string :=
  match e with
  | FrameTooLarge n => "frame too large: " +:+ fmt_dec n +:+ " bytes"
  | WireEncode m => "encode failed: " +:+ m
  | WireDecode m => "decode failed: " +:+ m
  | EmbeddedNewline => "embedded newline"
  end.

Fixpoint serve_loop (fuel : nat) (idle : Z) (input : list input_item) (c : conn)
    : conn * res ServerError unit :=
  match fuel with
  | O => (c, Panic)
  | Datatypes.S f =>
      match read_frame_bounded input [] MAX_FRAME_BYTES with
      | (RIdle, _, _) =>
          close_with c PROTOCOL_VIOLATION ("idle timeout after " +:+ fmt_dec (idle / NANOS_PER_SEC) +:+ "s")
      | (RIo e, _, _) => (c, Err (ServerIo e))
      | (ROutcome Eof, _, _) => (c, Ok tt)
      | (ROutcome Oversize, _, _) =>
          close_with c PROTOCOL_VIOLATION ("frame exceeds " +:+ fmt_dec MAX_FRAME_BYTES +:+ " bytes")
      | (ROutcome Frame, buf, rest) =>
          if negb (utf8_valid buf) then close_with c BAD_REQUEST "frame is not valid UTF-8" else
          match decode_bytes buf with
          | Err e => close_with c BAD_REQUEST (wire_error_text e)
          | Panic => (c, Panic)
          | Ok msg =>
              let (st, reply) := dispatch c.1 msg in
              match encode_message reply with
              | Err e => ((st, c.2), Err (ServerEncode e))
              | Panic => ((st, c.2), Panic)
              | Ok bytes =>
                  match write_frame (st, c.2) bytes with
                  | (c, Ok _) => serve_loop f idle rest c
                  | (c, Err e) => (c, Err e)
                  | (c, Panic) => (c, Panic)
                  end
              end
          end
      end
  end.

(** [send_error(..).await.ok()]. *)
Definition send_error (c : conn) (code : Z) (message : string) : conn :=
  match encode_message (ErrorMsg code message) with
  | Ok bytes => write_lossy c bytes
  | _ => c
  end.

(** On success, the input the connection goes on with. *)
Definition perform_handshake (buffered : nat) (input : list input_item) (c : conn)
    : conn * res ServerError (list input_item) :=
  match read_line input [] with
  | (LIdle, _) => (c, Err HandshakeTimeout)
  | (LIo e, _) => (c, Err (ServerIo e))
  | (LLine line, rest) =>
      if negb (utf8_valid line) then (c, Err (ServerIo "stream did not contain valid UTF-8")) else
      if decide (line = []) then (c, Err HelloExpected) else
      match decode_bytes line with
      | Err (WireDecode e) => (c, Err (ServerDecode e))
      | Err other => (c, Err (ServerEncode other))
      | Panic => (c, Panic)
      | Ok (Hello pv _) =>
          if decide (pv ≠ PROTOCOL_VERSION) then
            (send_error c PROTOCOL_MISMATCH ("server v" +:+ fmt_dec PROTOCOL_VERSION +:+
                                             " != client v" +:+ fmt_dec pv),
             Err (VersionMismatch PROTOCOL_VERSION pv))
          else
            match encode_message (HelloAck cargo_pkg_version PROTOCOL_VERSION) with
            | Err e => (c, Err (ServerEncode e))
            | Panic => (c, Panic)
            | Ok bytes =>
                match write_frame c bytes with
                | (c, Ok _) => (c, Ok (skip_buffered buffered rest))
                | (c, Err e) => (c, Err e)
                | (c, Panic) => (c, Panic)
                end
            end
      | Ok _ => (send_error c BAD_REQUEST "expected Hello as first frame", Err HelloExpected)
      end
  end.

Definition serve_connection_with (buffered : nat) (idle : Z) (input : list input_item) (st : S)
    : conn * res ServerError unit :=
  match perform_handshake buffered input (st, []) with
  | (c, Ok rest) => serve_loop (Datatypes.S (Datatypes.S (length rest))) idle rest c
  | (c, Err e) => (c, Err e)
  | (c, Panic) => (c, Panic)
  end.

(** One accepted stream: the peer check, then the connection. *)
Definition accept_connection (cfg : AcceptConfig) (cred : string + PeerCred)
    (buffered : nat) (input : list input_item) (st : S) : conn * res ServerError unit :=
  if enforce_peercred cfg && negb (is_ok (verify_peer_credentials cred))
  then ((st, []), Ok tt)
  else serve_connection_with buffered (idle_timeout cfg) input st.

End server.

(** ** The accept loop

    A permit is taken before the handler is spawned; while none is free the
    loop holds the accepted stream and accepts nothing else. *)

Record accept_state := MkAccept {
  as_live : nat;
  as_waiting : bool;
}.

Inductive accept_event : Type :=
| Accepted (cred : string + PeerCred)
| Permitted
| Ended.

Inductive accept_step (cfg : AcceptConfig) : accept_state → accept_event → accept_state → Prop :=
| StepRejected n cred :
    enforce_peercred cfg = true → is_ok (verify_peer_credentials cred) = false →
    accept_step cfg (MkAccept n false) (Accepted cred) (MkAccept n false)
| StepAccepted n cred :
    (enforce_peercred cfg = true → is_ok (verify_peer_credentials cred) = true) →
    accept_step cfg (MkAccept n false) (Accepted cred) (MkAccept n true)
| StepPermitted n :
    Z.of_nat n < max_concurrent_connections cfg →
    accept_step cfg (MkAccept n true) Permitted (MkAccept (S n) false)
| StepEnded n w :
    accept_step cfg (MkAccept (S n) w) Ended (MkAccept n w).

(** What a connection promises: the requests answered one after the other. *)
Fixpoint serve_all {S} (ask : S → IpcRequest → S * ask_result) (st : S) (msgs : list ClientMessage)
    : S * list ServerMessage :=
  match msgs with
  | [] => (st, [])
  | m :: r =>
      let (st, reply) := dispatch ask st m in
      let (st, replies) := serve_all ask st r in (st, reply :: replies)
  end.

(** ** Lemmas *)

Lemma encode_message_no_panic `{Json T} (m : T) : encode_message m ≠ Panic.
Proof. unfold encode_message. destruct (json_to_vec m); simpl; repeat case_decide; done. Qed.

Lemma decode_bytes_no_panic `{Json T} bs : decode_bytes (T := T) bs ≠ Panic.
Proof. unfold decode_bytes. case_decide; [done|]. by destruct (json_from_slice _). Qed.

Lemma read_frame_short body rest buf max :
  (LF ∉ body) → zlen buf + zlen body < max →
  read_frame_bounded ((InByte <$> body ++ [LF]) ++ rest) buf max =
    (ROutcome Frame, buf ++ body ++ [LF], rest).
Proof.
  revert buf. induction body as [|b body IH]; intros buf Hn Hl; cbn [app fmap list_fmap read_frame_bounded].
  - rewrite zlen_nil in Hl. rewrite decide_False by lia. by rewrite decide_True.
  - rewrite zlen_cons in Hl. pose proof (zlen_nonneg body).
    apply not_elem_of_cons in Hn as [Hb Hn].
    rewrite decide_False by lia. rewrite decide_False by congruence.
    rewrite (IH (buf ++ [b])); [|done|rewrite zlen_app; change (zlen [b]) with 1; lia].
    by rewrite <-app_assoc.
Qed.

Lemma read_frame_long body b rest buf max :
  (LF ∉ body) → zlen buf + zlen body = max →
  read_frame_bounded ((InByte <$> body ++ [b]) ++ rest) buf max =
    (ROutcome Oversize, buf ++ body, rest).
Proof.
  revert buf. induction body as [|b' body IH]; intros buf Hn Hl; cbn [app fmap list_fmap read_frame_bounded].
  - rewrite zlen_nil in Hl. rewrite decide_True by lia. by rewrite app_nil_r.
  - rewrite zlen_cons in Hl. pose proof (zlen_nonneg body).
    apply not_elem_of_cons in Hn as [Hb Hn].
    rewrite decide_False by lia. rewrite decide_False by congruence.
    rewrite (IH (buf ++ [b'])); [|done|rewrite zlen_app; change (zlen [b']) with 1; lia].
    by rewrite <-app_assoc.
Qed.

(** The buffer stays within the limit, and a frame takes its bytes. *)
Lemma read_frame_inv input buf max o buf' rest :
  read_frame_bounded input buf max = (o, buf', rest) → zlen buf ≤ max →
  zlen buf' ≤ max ∧ (length rest ≤ length input)%nat ∧
  (o = ROutcome Frame → input ≠ [] → (length rest < length input)%nat).
Proof.
  revert buf. induction input as [|[b| |e] input IH]; intros buf; cbn [read_frame_bounded].
  - intros [= <- <- <-] Hb. split_and!; done.
  - destruct (decide (max ≤ zlen buf)); [intros [= <- <- <-] ?; simpl; split_and!; [done|lia|done]|].
    assert (zlen (buf ++ [b]) ≤ max) as Hb by (rewrite zlen_app; change (zlen [b]) with 1; lia).
    destruct (decide (b = LF)); [intros [= <- <- <-] ?; simpl; split_and!; [done|lia..]|].
    intros (? & ? & ?)%IH ?; [|done]. simpl. split_and!; [done|lia..].
  - intros [= <- <- <-] ?. simpl. split_and!; [done|lia|done].
  - intros [= <- <- <-] ?. simpl. split_and!; [done|lia|done].
Qed.

Lemma read_line_bytes body rest buf :
  (LF ∉ body) →
  read_line ((InByte <$> body ++ [LF]) ++ rest) buf = (LLine (buf ++ body ++ [LF]), rest).
Proof.
  revert buf. induction body as [|b body IH]; intros buf Hn; cbn [app fmap list_fmap read_line].
  - by rewrite decide_True.
  - apply not_elem_of_cons in Hn as [Hb Hn]. rewrite decide_False by congruence.
    rewrite IH by done. by rewrite <-app_assoc.
Qed.

Lemma skip_buffered_all n (bs : list byte) :
  (length bs ≤ n)%nat → skip_buffered n (InByte <$> bs) = [].
Proof. revert bs. induction n; intros [|b bs] ?; simpl in *; [done|lia|done|apply IHn; lia]. Qed.

Lemma read_frame_limit_long max body rest :
  0 ≤ max → (LF ∉ body) → max ≤ zlen body →
  (read_frame_bounded ((InByte <$> body ++ [LF]) ++ rest) [] max).1 =
    (ROutcome Oversize, take (Z.to_nat max) body).
Proof.
  intros Hmax Hn Hl. set (n := Z.to_nat max).
  assert (∃ b r, body ++ [LF] = (take n body ++ [b]) ++ r) as (b & r & ->).
  { pose proof (take_drop n body) as Htd. destruct (drop n body) as [|b r].
    - exists LF, []. rewrite app_nil_r in Htd |- *. by rewrite Htd.
    - exists b, (r ++ [LF]). rewrite <-Htd at 1. by rewrite <-!app_assoc. }
  rewrite fmap_app, <-app_assoc, read_frame_long; [done| |].
  - intros Hin. apply Hn. eapply elem_of_take in Hin as (i & Hi & _).
    by eapply list_elem_of_lookup_2.
  - unfold zlen in *. simpl. rewrite length_take. lia.
Qed.

(** A frame the server takes for [m]. *)
Definition frame_of `{Json ClientMessage} (m : ClientMessage) (f : list byte) : Prop :=
  encode_message m = Ok f ∧ zlen f ≤ MAX_FRAME_BYTES.

Lemma frame_of_inv `{Json ClientMessage, !JsonLaws ClientMessage} m f :
  frame_of m f → ∃ bs, f = bs ++ [LF] ∧ (LF ∉ bs) ∧ zlen bs < MAX_FRAME_BYTES ∧
    utf8_valid f = true ∧ decode_bytes f = Ok (on_wire m).
Proof.
  intros [(bs & Hj & -> & Hn & _)%encode_message_inv Hl]. exists bs. split_and!; [done..| | |].
  - rewrite zlen_app in Hl. change (zlen [LF]) with 1 in Hl. lia.
  - by rewrite utf8_valid_app by by eapply json_utf8.
  - by apply decode_encoded.
Qed.

Lemma frames_length `{Json ClientMessage, !JsonLaws ClientMessage} msgs frames :
  Forall2 frame_of msgs frames → (length msgs ≤ length (concat frames))%nat.
Proof.
  induction 1 as [|m f ms fs Hm _ IH]; simpl; [lia|].
  apply frame_of_inv in Hm as (bs & -> & _). rewrite !length_app. simpl. lia.
Qed.

Section proofs.
Context {S : Type} (ask : S → IpcRequest → S * ask_result).
Context {JC : Json ClientMessage} {JS : Json ServerMessage} {CP : CratePkg}.
Context (write_ok : nat → bool).

Lemma close_with_state (c : conn (S := S)) code msg :
  (close_with write_ok c code msg).1.1 = c.1 ∧ (close_with write_ok c code msg).2 ≠ Panic.
Proof.
  unfold close_with. pose proof (encode_message_no_panic (ErrorMsg code msg)).
  destruct (encode_message _); [|done..]. unfold write_lossy. by case_match.
Qed.

Lemma send_error_state (c : conn (S := S)) code msg : (send_error write_ok c code msg).1 = c.1.
Proof. unfold send_error, write_lossy. by repeat case_match. Qed.

(** [length input + 2] rounds are enough: each frame takes input, and the
    last one may end with the stream. *)
Lemma serve_loop_no_panic fuel idle input (c : conn (S := S)) :
  (length input + 2 ≤ fuel)%nat ∨ (input = [] ∧ (1 ≤ fuel)%nat) →
  (serve_loop ask write_ok fuel idle input c).2 ≠ Panic.
Proof.
  revert input c. induction fuel as [|f IH]; intros input c Hf; [lia|]. cbn [serve_loop].
  destruct (read_frame_bounded input [] MAX_FRAME_BYTES) as [[[[]| |] buf] rest] eqn:Hr;
    [|done|apply close_with_state|apply close_with_state|done].
  case_match; [apply close_with_state|].
  destruct (decode_bytes buf) as [m| |] eqn:Hd;
    [|apply close_with_state|by apply decode_bytes_no_panic in Hd].
  destruct (dispatch ask c.1 m) as [st reply].
  destruct (encode_message reply) as [bytes| |] eqn:He;
    [|done|by apply encode_message_no_panic in He].
  unfold write_frame. destruct (write_ok _); [|done]. apply IH.
  destruct input as [|i input]; [done|].
  apply read_frame_inv in Hr as (_ & _ & Hlt); [|done]. specialize (Hlt eq_refl ltac:(done)).
  destruct Hf as [Hf|[? _]]; [|done]. left. lia.
Qed.

Lemma perform_handshake_no_panic buffered input (c : conn (S := S)) :
  (perform_handshake write_ok buffered input c).2 ≠ Panic.
Proof.
  unfold perform_handshake. destruct (read_line input []) as [[line| |] rest]; [|done..].
  case_match; [done|]. case_decide; [done|].
  destruct (decode_bytes line) as [m|[]|] eqn:Hd; [|done..|by apply decode_bytes_no_panic in Hd].
  destruct m; try done. case_decide; [done|].
  destruct (encode_message (HelloAck _ _)) eqn:He; [|done|by apply encode_message_no_panic in He].
  unfold write_frame. by destruct (write_ok _).
Qed.

(** The handshake does not ask the state manager anything, and succeeds only
    after a [Hello] of the right version. *)
Lemma perform_handshake_inv buffered input (c : conn (S := S)) :
  (perform_handshake write_ok buffered input c).1.1 = c.1 ∧
  (∀ rest, (perform_handshake write_ok buffered input c).2 = Ok rest →
     ∃ line rest' agent, read_line input [] = (LLine line, rest') ∧
       decode_bytes line = Ok (Hello PROTOCOL_VERSION agent)).
Proof.
  unfold perform_handshake. destruct (read_line input []) as [[line| |] rest]; [|done..].
  case_match; [done|]. case_decide; [done|].
  destruct (decode_bytes line) as [m|[]|] eqn:Hd; [|done..].
  destruct m as [pv agent| | | | |]; try (split; [apply send_error_state|done]).
  destruct (decide (pv ≠ PROTOCOL_VERSION)) as [|Hv]; [split; [apply send_error_state|done]|].
  apply dec_stable in Hv as ->.
  destruct (encode_message (HelloAck _ _)); [|done..].
  unfold write_frame. destruct (write_ok _); [|done]. split; [done|]. intros ? _. by exists line, rest, agent.
Qed.

Lemma perform_handshake_hello `{!JsonLaws ClientMessage} buffered agent hello rest ack
    (c : conn (S := S)) :
  frame_of (Hello PROTOCOL_VERSION agent) hello →
  encode_message (HelloAck cargo_pkg_version PROTOCOL_VERSION) = Ok ack →
  write_ok (length c.2) = true →
  perform_handshake write_ok buffered ((InByte <$> hello) ++ rest) c =
    ((c.1, c.2 ++ [ack]), Ok (skip_buffered buffered rest)).
Proof.
  intros (bs & -> & Hn & _ & Hu & Hd)%frame_of_inv Ha Hw. unfold perform_handshake.
  rewrite read_line_bytes by done. cbn [app]. rewrite Hu. cbn [negb].
  rewrite decide_False by (by destruct bs). rewrite Hd. cbn [on_wire ClientMessage_on_wire].
  rewrite decide_False by auto. rewrite Ha. unfold write_frame. by rewrite Hw.
Qed.

Lemma serve_loop_frame `{!JsonLaws ClientMessage} fuel idle m f rest (c : conn (S := S)) st reply bytes :
  frame_of m f → dispatch ask c.1 (on_wire m) = (st, reply) → encode_message reply = Ok bytes →
  write_ok (length c.2) = true →
  serve_loop ask write_ok (Datatypes.S fuel) idle ((InByte <$> f) ++ rest) c =
    serve_loop ask write_ok fuel idle rest (st, c.2 ++ [bytes]).
Proof.
  intros (bs & -> & Hn & Hl & Hu & Hd)%frame_of_inv Hm He Hw. cbn [serve_loop].
  rewrite read_frame_short by (done || (rewrite zlen_nil; lia)). cbn [app].
  rewrite Hu. cbn [negb]. rewrite Hd, Hm, He. unfold write_frame. cbn [snd fst]. by rewrite Hw.
Qed.

Lemma serve_loop_frames `{!JsonLaws ClientMessage} fuel idle msgs frames (c : conn (S := S)) st replies out :
  Forall2 frame_of msgs frames → serve_all ask c.1 (on_wire <$> msgs) = (st, replies) →
  Forall2 (λ r f, encode_message r = Ok f) replies out → (∀ n, write_ok n = true) →
  (length msgs < fuel)%nat →
  serve_loop ask write_ok fuel idle (InByte <$> concat frames) c = ((st, c.2 ++ out), Ok tt).
Proof.
  intros Hf. revert fuel c replies out.
  induction Hf as [|m f msgs frames Hm Hf IH]; intros fuel c replies out Hs Ho Hw Hlt.
  - simpl in Hs. simplify_eq. inversion Ho; subst. destruct fuel; [simpl in Hlt; lia|].
    destruct c. simpl. by rewrite app_nil_r.
  - cbn [serve_all fmap list_fmap] in Hs. destruct (dispatch ask c.1 (on_wire m)) as [st1 r1] eqn:Hd.
    destruct (serve_all ask st1 (on_wire <$> msgs)) as [st2 rs] eqn:Hs2. simplify_eq.
    inversion Ho as [|? o ? out' Ho1 Ho2]; subst. destruct fuel as [|fuel]; [simpl in Hlt; lia|].
    cbn [concat]. rewrite fmap_app. erewrite serve_loop_frame by (done || eauto).
    rewrite (IH fuel (st1, c.2 ++ [o]) rs out') by (done || simpl in *; lia).
    simpl. by rewrite <-app_assoc.
Qed.

Lemma serve_connection_frames `{!JsonLaws ClientMessage} idle st st' agent hello ack msgs frames replies out :
  frame_of (Hello PROTOCOL_VERSION agent) hello →
  encode_message (HelloAck cargo_pkg_version PROTOCOL_VERSION) = Ok ack →
  Forall2 frame_of msgs frames → serve_all ask st (on_wire <$> msgs) = (st', replies) →
  Forall2 (λ r f, encode_message r = Ok f) replies out → (∀ n, write_ok n = true) →
  serve_connection_with ask write_ok 0 idle (InByte <$> hello ++ concat frames) st =
    ((st', ack :: out), Ok tt).
Proof.
  intros Hhello Hack Hframes Hserve Hout Hw.
  unfold serve_connection_with. rewrite fmap_app.
  rewrite (perform_handshake_hello _ agent _ _ ack) by done. cbn [skip_buffered fst snd app].
  rewrite (serve_loop_frames _ _ msgs frames _ st' replies out) by
    (done || (rewrite length_fmap; pose proof (frames_length msgs frames Hframes); lia)).
  done.
Qed.

End proofs.

(** The state manager of [State] behind the channel. *)
Definition ask_manager {UT : UuidText} {CP : CratePkg} (present : string → bool) (persist_ok : bool)
    (st : mstate) (req : IpcRequest) : mstate * ask_result :=
  let (st, m) := handle_ipc present persist_ok st req in (st, Reply m).

Module ServerSample.

Definition uuid : UuidText := λ _, "id".
Definition pkg : CratePkg := "0.1.0".

Definition print_reply (m : ServerMessage) : string + list byte :=
  match m with
  | HelloAck _ _ => inr (bytes_of "{A}")
  | Pong => inr (bytes_of "{R}")
  | _ => inl "unsupported"
  end.

Definition json_reply : Json ServerMessage :=
  {| json_to_vec := print_reply; json_from_slice _ := inl "unsupported" |}.

Definition ask : mstate → IpcRequest → mstate * ask_result :=
  ask_manager (UT := uuid) (CP := pkg) (λ _, true) true.

Definition st0 : mstate := init_state registry_new [] 0.

Lemma hello_frame : frame_of (H := ProtoSample.json) (Hello PROTOCOL_VERSION None) (bytes_of "{H}" ++ [LF]).
Proof. split; [reflexivity|by vm_compute]. Qed.

Lemma ping_frame : frame_of (H := ProtoSample.json) Ping (bytes_of "{P}" ++ [LF]).
Proof. split; [reflexivity|by vm_compute]. Qed.

End ServerSample.

(** ** Theorems *)

(** C8: A connection serves a session: a client that says [Hello] in the right
    version and then sends any requests gets the acknowledgement and, in
    order, the replies of the state manager to each of them, and the
    connection ends cleanly at the end of the stream, whenever the frames fit
    the limit, the replies can be encoded and written, and the client waited
    for the acknowledgement before it sent more ([buffered = 0]). *)
Theorem serve_connection_session {S} (ask : S → IpcRequest → S * ask_result)
    {JC : Json ClientMessage} {JCL : JsonLaws ClientMessage} {JS : Json ServerMessage} {CP : CratePkg}
    (write_ok : nat → bool) idle st st' agent hello ack msgs frames replies out
    (Hhello : frame_of (Hello PROTOCOL_VERSION agent) hello)
    (Hack : encode_message (HelloAck cargo_pkg_version PROTOCOL_VERSION) = Ok ack)
    (Hframes : Forall2 frame_of msgs frames)
    (Hserve : serve_all ask st (on_wire <$> msgs) = (st', replies))
    (Hout : Forall2 (λ r f, encode_message r = Ok f) replies out)
    (Hw : ∀ n, write_ok n = true) :
  serve_connection_with ask write_ok 0 idle (InByte <$> hello ++ concat frames) st =
    ((st', ack :: out), Ok tt).
Proof. by eapply serve_connection_frames. Qed.

Lemma serve_connection_session_witness :
  serve_connection_with (JC := ProtoSample.json) (JS := ServerSample.json_reply)
      (CP := ServerSample.pkg) ServerSample.ask (λ _, true) 0 0
      (InByte <$> (bytes_of "{H}" ++ [LF]) ++ concat [bytes_of "{P}" ++ [LF]]) ServerSample.st0 =
    ((ServerSample.st0, [bytes_of "{A}" ++ [LF]; bytes_of "{R}" ++ [LF]]), Ok tt).
Proof.
  apply (serve_connection_session (JC := ProtoSample.json) (JCL := ProtoSample.laws)
           (JS := ServerSample.json_reply) (CP := ServerSample.pkg) ServerSample.ask (λ _, true)
           0 ServerSample.st0 ServerSample.st0 None _ _ [Ping] _ [Pong] _).
  - exact ServerSample.hello_frame.
  - reflexivity.
  - constructor; [exact ServerSample.ping_frame|constructor].
  - reflexivity.
  - repeat constructor.
  - reflexivity.
Defined.

(** C16: Nothing reaches the state manager from a peer that is not root (when the
    check is on), or before a [Hello] of the server's version: if serving an
    accepted stream changed the state, the peer had uid 0 and its first line
    was such a [Hello]. *)
Theorem manager_guarded {S} (ask : S → IpcRequest → S * ask_result)
    {JC : Json ClientMessage} {JS : Json ServerMessage} {CP : CratePkg}
    (write_ok : nat → bool) cfg cred buffered input st
    (Hchanged : (accept_connection ask write_ok cfg cred buffered input st).1.1 ≠ st) :
  (enforce_peercred cfg = true → ∃ pc, cred = inr pc ∧ pc_uid pc = 0) ∧
  ∃ line rest agent, read_line input [] = (LLine line, rest) ∧
    decode_bytes line = Ok (Hello PROTOCOL_VERSION agent).
Proof.
  unfold accept_connection in Hchanged. split.
  - intros He. rewrite He in Hchanged. unfold verify_peer_credentials in Hchanged.
    destruct cred as [|pc]; [by destruct Hchanged|]. exists pc. split; [done|].
    cbn [of_sum map_err rbind] in Hchanged.
    destruct (decide (pc_uid pc ≠ 0)) as [|H0]; [by destruct Hchanged|by apply dec_stable in H0].
  - case_match; [done|]. unfold serve_connection_with in Hchanged.
    destruct (perform_handshake_inv write_ok buffered input (st, [])) as [Hst Hok].
    destruct (perform_handshake write_ok buffered input (st, [])) as [c [rest| |]];
      simpl in *; [|done..].
    destruct (Hok rest eq_refl) as (line & rest' & agent & ? & ?). by exists line, rest', agent.
Qed.

(** A state manager that counts its requests. *)
Lemma manager_guarded_witness :
  ∃ pc, @inr string _ (MkPeerCred 0 0 None) = inr pc ∧ pc_uid pc = 0.
Proof.
  apply (manager_guarded (S := nat) (JC := ProtoSample.json) (JS := ServerSample.json_reply)
           (CP := ServerSample.pkg) (λ n _, (Datatypes.S n, Reply Pong)) (λ _, true)
           accept_config_default _ 0
           (InByte <$> (bytes_of "{H}" ++ [LF]) ++ (bytes_of "{P}" ++ [LF])) O).
  - by vm_compute.
  - reflexivity.
Defined.

(** Serving a connection ends for every input, every answer of the state
    manager and every write failure, without a panic. *)
Theorem serve_connection_total {S} (ask : S → IpcRequest → S * ask_result)
    {JC : Json ClientMessage} {JS : Json ServerMessage} {CP : CratePkg}
    (write_ok : nat → bool) buffered idle input st :
  (serve_connection_with ask write_ok buffered idle input st).2 ≠ Panic.
Proof.
  unfold serve_connection_with.
  pose proof (perform_handshake_no_panic write_ok buffered input (st, [])) as Hp.
  destruct (perform_handshake _ _ _ _) as [c []]; [|done..].
  apply serve_loop_no_panic. left. lia.
Qed.

(** The frame reader never buffers more than [max] bytes, whatever arrives,
    and a line is read exactly when the line with its newline fits. *)
Theorem read_frame_limit max body rest (Hmax : 0 ≤ max) (Hbody : LF ∉ body) :
  (∀ input, zlen (read_frame_bounded input [] max).1.2 ≤ max) ∧
  (read_frame_bounded ((InByte <$> body ++ [LF]) ++ rest) [] max).1 =
    if decide (zlen body < max) then (ROutcome Frame, body ++ [LF])
    else (ROutcome Oversize, take (Z.to_nat max) body).
Proof.
  split.
  - intros input. destruct (read_frame_bounded input [] max) as [[o buf] r] eqn:Hr.
    by apply read_frame_inv in Hr as (? & _).
  - destruct (decide (zlen body < max)) as [Hl|Hl].
    + by rewrite read_frame_short by (done || (rewrite zlen_nil; lia)).
    + apply read_frame_limit_long; lia || done.
Qed.

Lemma read_frame_limit_witness :
  (read_frame_bounded ((InByte <$> bytes_of "abc" ++ [LF]) ++ []) [] 3).1 =
    (ROutcome Oversize, bytes_of "abc").
Proof.
  apply (read_frame_limit 3 (bytes_of "abc") []); [lia|].
  apply (bool_decide_unpack _). by vm_compute.
Defined.

(** A client that does not wait for the acknowledgement can lose requests:
    what the reader of the handshake had already taken from the socket is
    dropped with it.  The frames are neither served nor answered. *)
Theorem pipelined_requests_lost {S} (ask : S → IpcRequest → S * ask_result)
    {JC : Json ClientMessage} {JCL : JsonLaws ClientMessage} {JS : Json ServerMessage} {CP : CratePkg}
    (write_ok : nat → bool) buffered idle st agent hello ack more
    (Hhello : frame_of (Hello PROTOCOL_VERSION agent) hello)
    (Hack : encode_message (HelloAck cargo_pkg_version PROTOCOL_VERSION) = Ok ack)
    (Hbuf : (length more ≤ buffered)%nat) (Hw : write_ok O = true) :
  serve_connection_with ask write_ok buffered idle (InByte <$> hello ++ more) st =
    ((st, [ack]), Ok tt).
Proof.
  unfold serve_connection_with. rewrite fmap_app.
  rewrite (perform_handshake_hello _ _ agent _ _ ack) by done.
  by rewrite skip_buffered_all by done.
Qed.

Lemma pipelined_requests_lost_witness :
  serve_connection_with (JC := ProtoSample.json) (JS := ServerSample.json_reply)
      (CP := ServerSample.pkg) ServerSample.ask (λ _, true) 4 0
      (InByte <$> (bytes_of "{H}" ++ [LF]) ++ (bytes_of "{P}" ++ [LF])) ServerSample.st0 =
    ((ServerSample.st0, [bytes_of "{A}" ++ [LF]]), Ok tt).
Proof.
  apply (pipelined_requests_lost (JC := ProtoSample.json) (JCL := ProtoSample.laws)
           (JS := ServerSample.json_reply) (CP := ServerSample.pkg) ServerSample.ask (λ _, true)
           4 0 ServerSample.st0 None).
  - exact ServerSample.hello_frame.
  - reflexivity.
  - simpl. lia.
  - reflexivity.
Defined.

(** The number of live connections never exceeds the configured maximum,
    and with the peer check on only root peers get a handler. *)
Theorem accept_bounded cfg s ev s' (Hs : accept_step cfg s ev s')
    (Hb : Z.of_nat (as_live s) ≤ max_concurrent_connections cfg) :
  Z.of_nat (as_live s') ≤ max_concurrent_connections cfg ∧
  (∀ cred, ev = Accepted cred → as_waiting s' = true → enforce_peercred cfg = true →
     ∃ pc, cred = inr pc ∧ pc_uid pc = 0).
Proof.
  destruct Hs as [n cred He Hr|n cred Hc|n Hn|n w]; simpl in *; (split; [lia|]);
    intros cred' [= <-] Hw He'; simplify_eq.
  specialize (Hc He'). unfold verify_peer_credentials in Hc. destruct cred as [|pc]; [done|].
  exists pc. split; [done|]. cbn [of_sum map_err rbind] in Hc.
  destruct (decide (pc_uid pc ≠ 0)) as [|H0]; [done|by apply dec_stable in H0].
Qed.

Lemma accept_bounded_witness :
  Z.of_nat 1 ≤ max_concurrent_connections accept_config_default.
Proof.
  apply (accept_bounded accept_config_default (MkAccept 0 true) Permitted (MkAccept 1 false)).
  - constructor. by vm_compute.
  - by vm_compute.
Defined.
