(* ===== verification/Hooks.v ===== *)
(** * Hooks ([hooks/], [pam_data.rs], [host_identity/source.rs])

    Placeholder templates, validation of a configured hook, the environment
    of its child process, and the runner with its failure policy.  Forking
    and waiting are behind the [HookExecutor] trait: here a state and a
    function on it.  A [BTreeMap] is the list of its entries in key order.
    The template delimiters are ASCII, so a template is read byte by byte. *)

From Stdlib Require Import Ascii.
From S2P Require Import Prelude Text Certificate MacLabel.
Local Open Scope Z_scope.

Inductive HookStage : Type :=
| PreAuth
| PostAuthSuccess
| SessionOpenStage
| SessionCloseStage
| UsbRemoved.

#[export] Instance HookStage_eq_dec : EqDecision HookStage.
Proof. solve_decision. Defined.

Definition stage_to_string (s : HookStage) : string :=
  match s with
  | PreAuth => "pre_auth"
  | PostAuthSuccess => "post_auth_success"
  | SessionOpenStage => "session_open"
  | SessionCloseStage => "session_close"
  | UsbRemoved => "usb_removed"
  end.

Definition stage_from_str (s : string) : res string HookStage :=
  if decide (s = "pre_auth") then Ok PreAuth
  else if decide (s = "post_auth_success") then Ok PostAuthSuccess
  else if decide (s = "session_open") then Ok SessionOpenStage
  else if decide (s = "session_close") then Ok SessionCloseStage
  else if decide (s = "usb_removed") then Ok UsbRemoved
  else Err ("invalid hook stage: " +:+ s).

Inductive PlaceholderVar : Type :=
| PamUser
| PamService
| HostId
| HostIdHash
| HostIdSourceVar
| CertCn
| CertSerial
| UsbSerial
| UsbVidPid
| SessionIdVar.

#[export] Instance PlaceholderVar_eq_dec : EqDecision PlaceholderVar.
Proof. solve_decision. Defined.

(** The names [PlaceholderVar::from_str] knows. *)
Definition var_names : list (string * PlaceholderVar) :=
  [("pam_user", PamUser); ("pam_service", PamService); ("host_id", HostId);
   ("host_id_hash", HostIdHash); ("host_id_source", HostIdSourceVar); ("cert_cn", CertCn);
   ("cert_serial", CertSerial); ("usb_serial", UsbSerial); ("usb_vid_pid", UsbVidPid);
   ("session_id", SessionIdVar)].

Definition var_from_str (s : string) : res string PlaceholderVar :=
  match List.find (λ p, bool_decide (p.1 = s)) var_names with
  | Some p => Ok p.2
  | None => Err ("unknown placeholder: " +:+ s)
  end.

(** ** Templates *)

Inductive TemplatePart : Type :=
| Literal (s : string)
| Var (v : PlaceholderVar).

Definition Template : Type := list TemplatePart.

(** [if !literal.is_empty() { parts.push(Literal(take(literal))) }]. *)
Definition push_literal (parts : list TemplatePart) (literal : string) : list TemplatePart :=
  if decide (literal = "") then parts else parts ++ [Literal literal].

(** The loops of [Template::parse]; [name] is [Some] inside a placeholder. *)
Fixpoint template_loop (s literal : string) (name : option string) (parts : list TemplatePart)
    : res string Template :=
  match name with
  | Some n =>
      match s with
      | EmptyString => Err "unclosed placeholder"
      | String c r =>
          if decide (c = "}"%char) then
            if decide (n = "") then Err "empty placeholder" else
            let? v := var_from_str n in template_loop r literal None (parts ++ [Var v])
          else template_loop r literal (Some (n +:+ String c "")) parts
      end
  | None =>
      match s with
      | EmptyString =>
          Ok (if decide (literal ≠ "" ∨ parts = []) then parts ++ [Literal literal] else parts)
      | String c r =>
          if decide (c ≠ "$"%char) then template_loop r (literal +:+ String c "") None parts else
          match r with
          | String d r' =>
              if decide (d = "$"%char) then template_loop r' (literal +:+ "$") None parts
              else if decide (d = "{"%char) then
                template_loop r' "" (Some "") (push_literal parts literal)
              else template_loop r (literal +:+ "$") None parts
          | EmptyString => template_loop r (literal +:+ "$") None parts
          end
      end
  end.

Definition template_parse (input : string) : res string Template :=
  template_loop input "" None [].

Fixpoint template_render (resolve : PlaceholderVar → option string) (parts : Template)
    : res PlaceholderVar string :=
  match parts with
  | [] => Ok ""
  | Literal s :: r => let? out := template_render resolve r in Ok (s +:+ out)
  | Var v :: r =>
      let? s := ok_or (resolve v) v in
      let? out := template_render resolve r in Ok (s +:+ out)
  end.

(** ** Validation *)

Inductive OnFailure : Type :=
| Abort
| Warn
| IgnoreFailure.

Inductive RunAs : Type :=
| RunAsRoot
| RunAsUser.

Record RawHook := MkRawHook {
  rh_stage : HookStage;
  rh_command : list string;
  rh_timeout_seconds : Z;
  rh_on_failure : option string;
  rh_run_as : option string;
  rh_env : list (string * string);
}.

(** Timeouts are in nanoseconds. *)
Record HookConfig := MkHookConfig {
  hk_stage : HookStage;
  hk_command : list string;
  hk_timeout : Z;
  hk_on_failure : OnFailure;
  hk_run_as : RunAs;
  hk_env : list (string * Template);
}.

Inductive HookValidationError : Type :=
| PlaceholderNotAllowedAtStage (stage : HookStage) (var : PlaceholderVar)
| EmptyCommand
| InvalidCommandPath (path : string)
| InvalidTimeout
| TemplateError (reason : string).

Definition is_var_allowed (stage : HookStage) (var : PlaceholderVar) : bool :=
  match stage with
  | PreAuth =>
      match var with
      | PamUser | PamService | HostId | HostIdHash | HostIdSourceVar => true
      | _ => false
      end
  | _ => true
  end.

Definition parse_failure (value : option string) (stage : HookStage) : OnFailure :=
  if decide ((value = Some "warn" ∨ value = None) ∧ stage ≠ PreAuth) then Warn
  else if decide (value = Some "ignore") then IgnoreFailure
  else Abort.

(** The first placeholder the stage does not allow. *)
Fixpoint check_vars (stage : HookStage) (parts : Template) : res HookValidationError unit :=
  match parts with
  | [] => Ok tt
  | Var v :: r =>
      if is_var_allowed stage v then check_vars stage r
      else Err (PlaceholderNotAllowedAtStage stage v)
  | Literal _ :: r => check_vars stage r
  end.

(** [BTreeMap::insert]. *)
Fixpoint bt_insert {A} (k : string) (v : A) (m : list (string * A)) : list (string * A) :=
  match m with
  | [] => [(k, v)]
  | (k', v') :: r =>
      match String.compare k k' with
      | Lt => (k, v) :: m
      | Eq => (k, v) :: r
      | Gt => (k', v') :: bt_insert k v r
      end
  end.

Fixpoint validate_env (stage : HookStage) (raw : list (string * string))
    (env : list (string * Template)) : res HookValidationError (list (string * Template)) :=
  match raw with
  | [] => Ok env
  | (key, value) :: r =>
      let? template :=
        map_err (λ e, TemplateError ("invalid config: " +:+ e)) (template_parse value) in
      let? _ := check_vars stage template in
      validate_env stage r (bt_insert key template env)
  end.

(** [Path::is_absolute]. *)
Definition is_absolute (path : string) : bool :=
  match path with String c _ => bool_decide (c = "/"%char) | EmptyString => false end.

Definition validate_hook (raw : RawHook) : res HookValidationError HookConfig :=
  match rh_command raw with
  | [] => Err EmptyCommand
  | first :: _ =>
      if negb (is_absolute first) then Err (InvalidCommandPath first) else
      if decide (rh_timeout_seconds raw = 0 ∨ 120 < rh_timeout_seconds raw) then
        Err InvalidTimeout else
      let? env := validate_env (rh_stage raw) (rh_env raw) [] in
      Ok (MkHookConfig (rh_stage raw) (rh_command raw) (rh_timeout_seconds raw * NANOS_PER_SEC)
            (parse_failure (rh_on_failure raw) (rh_stage raw))
            (if decide (rh_run_as raw = Some "user") then RunAsUser else RunAsRoot) env)
  end.

(** ** Variables *)

Inductive HostIdSourceKind : Type :=
| MachineId
| DmiBoardSerial
| DmiSystemUuid
| DmiSystemSerial
| Hostname
| CustomCommand
| Override.

Definition source_kind_to_string (k : HostIdSourceKind) : string :=
  match k with
  | MachineId => "machine_id"
  | DmiBoardSerial => "dmi_board_serial"
  | DmiSystemUuid => "dmi_system_uuid"
  | DmiSystemSerial => "dmi_system_serial"
  | Hostname => "hostname"
  | CustomCommand => "custom_command"
  | Override => "override"
  end.

(** [{:?}] of a source kind. *)
Definition source_kind_debug (k : HostIdSourceKind) : string :=
  match k with
  | MachineId => "MachineId"
  | DmiBoardSerial => "DmiBoardSerial"
  | DmiSystemUuid => "DmiSystemUuid"
  | DmiSystemSerial => "DmiSystemSerial"
  | Hostname => "Hostname"
  | CustomCommand => "CustomCommand"
  | Override => "Override"
  end.

Record AuthContext := MkAuthContext {
  ac_session_id : string;
  ac_cert_cn : option string;
  ac_cert_serial : option string;
  ac_usb_serial : option string;
  ac_usb_vid_pid : option string;
  ac_pam_service : string;
  ac_host_id : string;
  ac_host_id_source : HostIdSourceKind;
  ac_authenticated_at : Z;
  ac_cert_not_after : option Z;
  ac_cert_max_integrity : option IntegrityLabel;
  ac_cert_ident : option CertIdent;
  ac_home_dir : option string;
}.

Record HookVars := MkHookVars {
  hv_stage : HookStage;
  hv_pam_user : option string;
  hv_pam_service : option string;
  hv_host_id : option string;
  hv_host_id_hash : option string;
  hv_host_id_source : option string;
  hv_cert_cn : option string;
  hv_cert_serial : option string;
  hv_usb_serial : option string;
  hv_usb_vid_pid : option string;
  hv_session_id : option string;
}.

Definition for_pre_auth (pam_user pam_service host_id host_id_hash host_id_source : string)
    : HookVars :=
  MkHookVars PreAuth (Some pam_user) (Some pam_service) (Some host_id) (Some host_id_hash)
    (Some host_id_source) None None None None None.

Definition for_session_like (stage : HookStage) (pam_user : string) (ctx : AuthContext) : HookVars :=
  MkHookVars stage (Some pam_user) (Some (ac_pam_service ctx)) (Some (ac_host_id ctx))
    (Some (ac_host_id ctx)) (Some (source_kind_to_string (ac_host_id_source ctx)))
    (ac_cert_cn ctx) (ac_cert_serial ctx) (ac_usb_serial ctx) (ac_usb_vid_pid ctx)
    (Some (ac_session_id ctx)).

Definition for_post_auth_success : string → AuthContext → HookVars :=
  for_session_like PostAuthSuccess.
Definition for_session_open : string → AuthContext → HookVars :=
  for_session_like SessionOpenStage.
Definition for_session_close : string → AuthContext → HookVars :=
  for_session_like SessionCloseStage.

(** [HookVars::resolve]. *)
Definition resolve_var (vars : HookVars) (v : PlaceholderVar) : option string :=
  match v with
  | PamUser => hv_pam_user vars
  | PamService => hv_pam_service vars
  | HostId => hv_host_id vars
  | HostIdHash => hv_host_id_hash vars
  | HostIdSourceVar => hv_host_id_source vars
  | CertCn => hv_cert_cn vars
  | CertSerial => hv_cert_serial vars
  | UsbSerial => hv_usb_serial vars
  | UsbVidPid => hv_usb_vid_pid vars
  | SessionIdVar => hv_session_id vars
  end.

(** ** The environment of the child *)

(** System errors are carried as their number or their text. *)
Inductive HookError : Type :=
| CommandUnusable (path : string)
| UserResolution (user : string) (errno : Z)
| UnresolvedVar (var : PlaceholderVar)
| HookPipe (errno : Z)
| HookFork (errno : Z)
| HookWait (errno : Z)
| HookTimeout (timeout_ms : Z)
| NonZeroExit (exit_code : Z)
| HookSignal (signal : Z)
| ChildSetup (message : string)
| HookIo (e : string)
| EnvValueRejected (var reason : string).

Record UserInfo := MkUserInfo {
  ui_name : string;
  ui_uid : Z;
  ui_gid : Z;
  ui_groups : list Z;
  ui_home : string;
}.

Definition DEFAULT_PATH : string := "/usr/sbin:/usr/bin:/sbin:/bin".

Fixpoint forbidden_control_reason_bytes (bs : list byte) : option string :=
  match bs with
  | [] => None
  | b :: r =>
      if decide (bz b = 0x0A) then Some "contains newline (0x0A)"
      else if decide (bz b = 0x0D) then Some "contains carriage return (0x0D)"
      else if decide (bz b = 0) then Some "contains NUL byte"
      else if decide (bz b < 0x20) then Some "contains control byte (< 0x20)"
      else forbidden_control_reason_bytes r
  end.

Definition forbidden_control_reason (v : string) : option string :=
  forbidden_control_reason_bytes (bytes_of v).

(** Steps 1 and 2: the whitelist and the [PAM_CERTAUTH_*] variables. *)
Definition base_env (hook : HookConfig) (vars : HookVars) (run_as_user : option UserInfo)
    : list (string * string) :=
  let (user_name, home) :=
    match run_as_user with
    | Some u => (ui_name u, ui_home u)
    | None => ("root", "/root")
    end in
  foldl (λ env kv, bt_insert kv.1 kv.2 env) []
    [("PATH", DEFAULT_PATH); ("HOME", home); ("USER", user_name); ("LOGNAME", user_name);
     ("LANG", "C.UTF-8");
     ("PAM_CERTAUTH_STAGE", stage_to_string (hk_stage hook));
     ("PAM_CERTAUTH_USER", default "" (hv_pam_user vars));
     ("PAM_CERTAUTH_SERVICE", default "" (hv_pam_service vars));
     ("PAM_CERTAUTH_HOST_ID", default "" (hv_host_id vars));
     ("PAM_CERTAUTH_HOST_ID_HASH", default "" (hv_host_id_hash vars));
     ("PAM_CERTAUTH_HOST_ID_SOURCE", default "" (hv_host_id_source vars));
     ("PAM_CERTAUTH_CERT_CN", default "" (hv_cert_cn vars));
     ("PAM_CERTAUTH_CERT_SERIAL", default "" (hv_cert_serial vars));
     ("PAM_CERTAUTH_USB_SERIAL", default "" (hv_usb_serial vars));
     ("PAM_CERTAUTH_USB_VID_PID", default "" (hv_usb_vid_pid vars));
     ("PAM_CERTAUTH_SESSION_ID", default "" (hv_session_id vars))].

(** Step 3: the templates of the hook, which may override. *)
Fixpoint custom_env (vars : HookVars) (templates : list (string * Template))
    (env : list (string * string)) : res HookError (list (string * string)) :=
  match templates with
  | [] => Ok env
  | (key, template) :: r =>
      let? rendered := map_err UnresolvedVar (template_render (resolve_var vars) template) in
      custom_env vars r (bt_insert key rendered env)
  end.

(** Step 4: reject control characters and encode; [CString::new] fails on a
    NUL byte. *)
Fixpoint encode_env (env : list (string * string)) : res HookError (list string) :=
  match env with
  | [] => Ok []
  | (k, v) :: r =>
      match forbidden_control_reason v with
      | Some reason => Err (EnvValueRejected k reason)
      | None =>
          let raw := k +:+ "=" +:+ v in
          if decide (zb 0 ∈ bytes_of raw) then Err (ChildSetup "env value contains NUL byte") else
          let? out := encode_env r in Ok (raw :: out)
      end
  end.

Definition build_env_vector (hook : HookConfig) (vars : HookVars) (run_as_user : option UserInfo)
    : res HookError (list string) :=
  let? env := custom_env vars (hk_env hook) (base_env hook vars run_as_user) in
  encode_env env.

(** ** The runner *)

(** Durations are in nanoseconds. *)
Record HookOutcome := MkHookOutcome {
  ho_stage : HookStage;
  ho_command : list string;
  ho_exit_code : Z;
  ho_killed_by_timeout : bool;
  ho_duration : Z;
  ho_stdout_lines : Z;
  ho_stderr_lines : Z;
}.

(** An executor that unwinds takes the runner with it. *)
Definition apply_on_failure (outcome : res HookError HookOutcome) (on_failure : OnFailure)
    : res HookError unit :=
  match outcome with
  | Ok o =>
      if bool_decide (ho_exit_code o = 0) && negb (ho_killed_by_timeout o) then Ok tt else
      if ho_killed_by_timeout o then
        match on_failure with
        | IgnoreFailure => Ok tt
        | _ => Err (HookTimeout (Z.min (ho_duration o / 1000000) (2 ^ 64 - 1)))
        end
      else
        match on_failure with
        | Abort => Err (NonZeroExit (ho_exit_code o))
        | _ => Ok tt
        end
  | Err e =>
      match on_failure with
      | Abort => Err e
      | _ => Ok tt
      end
  | Panic => Panic
  end.

Section runner.
Context {W : Type} (execute : W → HookConfig → HookVars → W * res HookError HookOutcome).

Fixpoint run_hooks (w : W) (hooks : list HookConfig) (vars : HookVars) : W * res HookError unit :=
  match hooks with
  | [] => (w, Ok tt)
  | h :: r =>
      let (w, outcome) := execute w h vars in
      match apply_on_failure outcome (hk_on_failure h) with
      | Ok _ => run_hooks w r vars
      | Err e => (w, Err e)
      | Panic => (w, Panic)
      end
  end.

Definition hooks_at (stage : HookStage) (hooks : list HookConfig) : list HookConfig :=
  List.filter (λ h, bool_decide (hk_stage h = stage)) hooks.

(** On the [hooks] of the configuration. *)
Definition run_hooks_for_stage (w : W) (hooks : list HookConfig) (stage : HookStage)
    (vars : HookVars) : W * res HookError unit :=
  run_hooks w (hooks_at stage hooks) vars.

Definition count_for_stage (hooks : list HookConfig) (stage : HookStage) : Z :=
  zlen (hooks_at stage hooks).

End runner.

(** ** Printing a template *)

Definition var_name (v : PlaceholderVar) : string :=
  match v with
  | PamUser => "pam_user"
  | PamService => "pam_service"
  | HostId => "host_id"
  | HostIdHash => "host_id_hash"
  | HostIdSourceVar => "host_id_source"
  | CertCn => "cert_cn"
  | CertSerial => "cert_serial"
  | UsbSerial => "usb_serial"
  | UsbVidPid => "usb_vid_pid"
  | SessionIdVar => "session_id"
  end.

Fixpoint escape_dollar (s : string) : string :=
  match s with
  | EmptyString => ""
  | String c r =>
      if decide (c = "$"%char) then "$$" +:+ escape_dollar r else String c (escape_dollar r)
  end.

Fixpoint template_print (parts : Template) : string :=
  match parts with
  | [] => ""
  | Literal s :: r => escape_dollar s +:+ template_print r
  | Var v :: r => "${" +:+ var_name v +:+ "}" +:+ template_print r
  end.

Definition starts_literal (parts : Template) : bool :=
  match parts with Literal _ :: _ => true | _ => false end.

(** No empty and no adjacent literals. *)
Fixpoint normal_parts (parts : Template) : bool :=
  match parts with
  | [] => true
  | Literal s :: r => bool_decide (s ≠ "") && negb (starts_literal r) && normal_parts r
  | Var _ :: r => normal_parts r
  end.

(** An executor that records its calls. *)
Definition logged {W} (execute : W → HookConfig → HookVars → W * res HookError HookOutcome)
    (w : W * list HookConfig) (h : HookConfig) (vars : HookVars)
    : (W * list HookConfig) * res HookError HookOutcome :=
  let (w', o) := execute w.1 h vars in ((w', w.2 ++ [h]), o).

(** Hooks for the examples. *)
Definition sample_hook : RawHook :=
  MkRawHook PreAuth ["/bin/true"] 10 None None [("WHO", "u=${pam_user}")].
Definition sample_config : HookConfig := MkHookConfig PreAuth ["/bin/true"] 0 Abort RunAsRoot [].
Definition sample_vars : HookVars := for_pre_auth "alice" "login" "h" "h" "override".

(** ** Lemmas *)

Lemma string_app_assoc (a b c : string) : (a +:+ b) +:+ c = a +:+ (b +:+ c).
Proof. induction a as [|x a IH]; [done|]. by apply (f_equal (String x)). Qed.

Lemma string_app_nil (a : string) : a +:+ "" = a.
Proof. induction a as [|x a IH]; [done|]. by apply (f_equal (String x)). Qed.

Lemma string_app_eq_nil (a b : string) : a +:+ b = "" → a = "".
Proof. by destruct a. Qed.

Lemma template_loop_literal s rest lit parts :
  template_loop (escape_dollar s +:+ rest) lit None parts = template_loop rest (lit +:+ s) None parts.
Proof.
  revert lit. induction s as [|c s IH]; intros lit; cbn [escape_dollar].
  - by rewrite string_app_nil.
  - destruct (decide (c = "$"%char)) as [->|Hc].
    + transitivity (template_loop (escape_dollar s +:+ rest) (lit +:+ "$") None parts); [done|].
      by rewrite IH, string_app_assoc.
    + transitivity (template_loop (escape_dollar s +:+ rest) (lit +:+ String c "") None parts).
      * change (String c (escape_dollar s) +:+ rest) with (String c (escape_dollar s +:+ rest)).
        cbn [template_loop]. by rewrite decide_True by done.
      * by rewrite IH, string_app_assoc.
Qed.

Lemma template_loop_var v rest lit parts :
  template_loop ("${" +:+ var_name v +:+ "}" +:+ rest) lit None parts =
    template_loop rest "" None (push_literal parts lit ++ [Var v]).
Proof. by destruct v. Qed.

Lemma template_loop_print ts lit parts :
  normal_parts ts = true → (lit ≠ "" → starts_literal ts = false) →
  ts ≠ [] ∨ lit ≠ "" ∨ parts ≠ [] →
  template_loop (template_print ts) lit None parts = Ok (push_literal parts lit ++ ts).
Proof.
  revert lit parts. induction ts as [|[s|v] ts IH]; intros lit parts Hn Hl Hne.
  - cbn. rewrite app_nil_r. unfold push_literal. destruct (decide (lit = "")) as [->|Hlit].
    + rewrite decide_False; [done|]. intros [?|?]; destruct Hne as [?|[?|?]]; done.
    + by rewrite decide_True by auto.
  - cbn [normal_parts] in Hn. rewrite !andb_true_iff, bool_decide_eq_true, negb_true_iff in Hn.
    destruct Hn as [[Hs Hst] Hn]. cbn [template_print]. rewrite template_loop_literal.
    destruct (decide (lit = "")) as [->|Hlit]; [|by specialize (Hl Hlit)].
    cbn [String.append]. rewrite IH by auto. unfold push_literal.
    rewrite decide_False, decide_True by done. by rewrite <-app_assoc.
  - cbn [normal_parts] in Hn. cbn [template_print]. rewrite template_loop_var.
    rewrite IH; [|done..|right; right; by destruct (push_literal parts lit)].
    unfold push_literal at 1. rewrite decide_True by done. by rewrite <-app_assoc.
Qed.

Lemma bt_insert_Forall {A} (P : string * A → Prop) k v m :
  P (k, v) → Forall P m → Forall P (bt_insert k v m).
Proof.
  intros Hk. induction 1 as [|[k' v'] m Hm HF IH]; cbn [bt_insert]; [by constructor|].
  destruct (String.compare k k'); by repeat constructor.
Qed.

Lemma validate_env_checked stage raw env out :
  validate_env stage raw env = Ok out →
  Forall (λ kv, check_vars stage kv.2 = Ok tt) env →
  Forall (λ kv, check_vars stage kv.2 = Ok tt) out.
Proof.
  revert env. induction raw as [|[k v] raw IH]; intros env; cbn [validate_env].
  - by intros [= ->].
  - intros (t & _ & (u & Hc & Hv)%rbind_Ok_inv)%rbind_Ok_inv HF. destruct u.
    eapply IH; [exact Hv|]. by apply bt_insert_Forall.
Qed.

Lemma render_pre_auth template a b c d e :
  check_vars PreAuth template = Ok tt →
  ∃ out, template_render (resolve_var (for_pre_auth a b c d e)) template = Ok out.
Proof.
  induction template as [|[s|v] t IH]; cbn [check_vars template_render]; [by eexists| |].
  - intros (out & ->)%IH. by eexists.
  - destruct v; cbn [is_var_allowed]; try done; intros (out & ->)%IH; by eexists.
Qed.

Lemma custom_env_pre_auth templates env a b c d e :
  Forall (λ kv, check_vars PreAuth kv.2 = Ok tt) templates →
  ∃ out, custom_env (for_pre_auth a b c d e) templates env = Ok out.
Proof.
  intros HF. revert env. induction HF as [|[k t] ts Ht _ IH]; intros env; cbn [custom_env].
  - by eexists.
  - destruct (render_pre_auth t a b c d e Ht) as (r & ->). apply IH.
Qed.

Lemma encode_env_unresolved env v : encode_env env ≠ Err (UnresolvedVar v).
Proof.
  induction env as [|[k w] env IH]; cbn [encode_env]; [done|].
  destruct (forbidden_control_reason w); [done|]. case_decide; [done|].
  by destruct (encode_env env).
Qed.

Lemma forbidden_control_None bs :
  forbidden_control_reason_bytes bs = None → Forall (λ b, 0x20 ≤ bz b) bs.
Proof.
  induction bs as [|b bs IH]; cbn [forbidden_control_reason_bytes]; [by constructor|].
  do 4 (case_decide; [done|]). intros H'. constructor; [lia|auto].
Qed.

Lemma encode_env_sound env out :
  encode_env env = Ok out →
  Forall (λ e, ∃ k v, e = k +:+ "=" +:+ v ∧ Forall (λ b, 0x20 ≤ bz b) (bytes_of v) ∧
                      (zb 0 ∉ bytes_of e)) out.
Proof.
  revert out. induction env as [|[k v] env IH]; intros out; cbn [encode_env].
  - intros [= <-]. constructor.
  - destruct (forbidden_control_reason v) eqn:Hf; [done|].
    destruct (decide _) as [|Hz]; [done|]. intros (r & Hr & [= <-])%rbind_Ok_inv.
    constructor; [|by apply IH]. exists k, v. split_and!; [done|by apply forbidden_control_None|done].
Qed.

Lemma apply_on_failure_Panic o p : apply_on_failure o p = Panic → o = Panic.
Proof.
  destruct o as [o|e|]; unfold apply_on_failure; [|by destruct p|done].
  destruct (bool_decide _ && _); [done|]. by destruct (ho_killed_by_timeout o), p.
Qed.

Lemma run_hooks_logged {W} (execute : W → HookConfig → HookVars → W * res HookError HookOutcome)
    hooks vars w log w' log' r :
  run_hooks (logged execute) (w, log) hooks vars = ((w', log'), r) →
  ∃ ran, log' = log ++ ran ∧
    ((r = Ok tt ∧ ran = hooks) ∨
     (∃ pre h post o, hooks = pre ++ h :: post ∧ ran = pre ++ [h] ∧
        r = apply_on_failure o (hk_on_failure h) ∧ r ≠ Ok tt)).
Proof.
  revert w log. induction hooks as [|h hooks IH]; intros w log; cbn [run_hooks].
  - intros [= <- <- <-]. exists []. rewrite app_nil_r. split; [done|by left].
  - unfold logged at 1. cbn [fst snd]. destruct (execute w h vars) as [w1 o].
    destruct (apply_on_failure o (hk_on_failure h)) as [[]|e|] eqn:Ho.
    + intros (ran & -> & Hr)%IH. exists (h :: ran). split; [by rewrite <-app_assoc|].
      destruct Hr as [[-> ->]|(pre & h' & post & o' & -> & -> & Ho' & Hne)]; [by left|].
      right. by exists (h :: pre), h', post, o'.
    + intros [= <- <- <-]. exists [h]. split; [done|]. right. by exists [], h, hooks, o.
    + intros [= <- <- <-]. exists [h]. split; [done|]. right. by exists [], h, hooks, o.
Qed.

Lemma apply_on_failure_ignore o : o ≠ Panic → apply_on_failure o IgnoreFailure = Ok tt.
Proof.
  destruct o as [o| |]; [|done..]. intros _. unfold apply_on_failure.
  destruct (bool_decide _ && _); [done|]. by destruct (ho_killed_by_timeout o).
Qed.

(** ** Theorems *)

(** Templates survive printing: escaping the dollar signs of the literals and
    writing the placeholders by name gives a text that parses to the same
    parts, for every template without empty or adjacent literals. *)
Theorem template_roundtrip parts (Hn : normal_parts parts = true) (Hne : parts ≠ []) :
  template_parse (template_print parts) = Ok parts.
Proof. unfold template_parse. rewrite template_loop_print; [done..|by left]. Qed.

Lemma template_roundtrip_witness :
  template_parse (template_print [Literal "a$b"; Var CertCn]) = Ok [Literal "a$b"; Var CertCn].
Proof. by apply template_roundtrip. Defined.

(** A [pre_auth] hook that passed validation never fails for a placeholder
    without a value: every placeholder of its environment is known before
    authentication. *)
Theorem pre_auth_env_resolved raw hook a b c d e u v
    (Hv : validate_hook raw = Ok hook) (Hs : rh_stage raw = PreAuth) :
  build_env_vector hook (for_pre_auth a b c d e) u ≠ Err (UnresolvedVar v).
Proof.
  unfold validate_hook in Hv. destruct (rh_command raw); [done|].
  case_match; [done|]. case_decide; [done|].
  apply rbind_Ok_inv in Hv as (env & Henv & [= <-]). rewrite Hs in *.
  apply validate_env_checked in Henv; [|constructor].
  unfold build_env_vector. cbn [hk_env]. set (base := base_env _ _ _).
  destruct (custom_env_pre_auth env base a b c d e Henv) as (out & ->).
  apply encode_env_unresolved.
Qed.

Lemma pre_auth_env_resolved_witness :
  ∃ hook, validate_hook sample_hook = Ok hook ∧
    build_env_vector hook (for_pre_auth "alice" "login" "h" "h" "override") None ≠
      Err (UnresolvedVar PamUser).
Proof.
  eexists. split; [reflexivity|]. eapply (pre_auth_env_resolved sample_hook); reflexivity.
Defined.



(** The hooks of a stage run in order, and only those: all of them when the
    run succeeds, and otherwise exactly those up to the first whose outcome
    its policy does not tolerate, or whose executor unwound; a hook with
    [ignore] that returns never stops the run. *)
Theorem run_hooks_for_stage_order {W}
    (execute : W → HookConfig → HookVars → W * res HookError HookOutcome) w hooks stage vars :
  let '((_, ran), r) := run_hooks_for_stage (logged execute) (w, []) hooks stage vars in
  Forall (λ h, hk_stage h = stage) ran ∧
  ((r = Ok tt ∧ ran = hooks_at stage hooks) ∨
   (∃ pre h post o, hooks_at stage hooks = pre ++ h :: post ∧ ran = pre ++ [h] ∧
      r = apply_on_failure o (hk_on_failure h) ∧ r ≠ Ok tt ∧
      (hk_on_failure h = IgnoreFailure → o = Panic))).
Proof.
  unfold run_hooks_for_stage. destruct (run_hooks _ _ _ _) as [[w' ran] r] eqn:Hr.
  apply run_hooks_logged in Hr as (ran' & -> & Hr). cbn [app].
  assert (Forall (λ h, hk_stage h = stage) (hooks_at stage hooks)) as HF.
  { apply Forall_forall. intros h [_ Hh%bool_decide_eq_true]%list_elem_of_In%filter_In. done. }
  destruct Hr as [[-> ->]|(pre & h & post & o & Hh & -> & -> & Hne)].
  - split; [done|by left].
  - rewrite Hh in *. apply Forall_app in HF as [Hp [Hs _]%Forall_cons]. split.
    + apply Forall_app. split; [done|]. by constructor.
    + right. exists pre, h, post, o. split_and!; [done..|].
      intros Hi. rewrite Hi in Hne. destruct o as [o|e|]; [..|done];
        by rewrite apply_on_failure_ignore in Hne.
Qed.
