(* ===== verification/RawConfig.v ===== *)
(** * The configuration file as read ([config/raw.rs])

    The records that [serde] fills from the TOML text, with the defaults that
    the source writes as functions.  Paths are their text, integers keep the
    range of their type in the decoder that produced them.  [RawHook] is in
    [Hooks]. *)

From S2P Require Import Prelude Text Hooks.
Local Open Scope Z_scope.

Inductive RawCryptoBackend : Type := RawOpenssl | RawPkcs11Native.
Inductive RawMode : Type := RawModePkcs12 | RawModePkcs11.
Inductive RawPkcs11LockingMode : Type := RawOs | RawMutex.
Inductive RawOnUsbRemoved : Type := RawLock | RawLogout | RawHookAction | RawShutdown.
Inductive RawMonitorFailMode : Type := RawStrict | RawPermissive.
Inductive RawRevocationMode : Type := RawRevNone | RawCrl | RawOcsp | RawCrlThenOcsp.
Inductive RawHostIdFallback : Type := RawDeny | RawWarn | RawAllow.
Inductive RawMacRuntimeMode : Type := RawRuntimeRequired | RawRuntimeAuto | RawRuntimeDisabled.
Inductive RawCertIntegrityMode : Type := RawRequired | RawOptional | RawIgnore.

Record RawFlyDmGreeter := MkRawFlyDmGreeter {
  rfg_update_wallpaper : option bool;
  rfg_wallpaper_target : option string;
  rfg_wallpaper_backup : option string;
  rfg_wallpaper_font : option string;
  rfg_wallpaper_font_size : option Z;
  rfg_wallpaper_text_color : option string;
  rfg_wallpaper_gravity : option string;
  rfg_wallpaper_offset_x : option Z;
  rfg_wallpaper_offset_y : option Z;
  rfg_template_ru : option string;
  rfg_template_en : option string;
}.

Record RawMonitor := MkRawMonitor {
  rmon_socket_path : option string;
  rmon_timeout_ms : option Z;
  rmon_fail_mode : option string;
  rmon_state_file_path : option string;
  rmon_on_usb_removed : option RawOnUsbRemoved;
  rmon_usb_removed_grace_seconds : option Z;
  rmon_suspend_grace_seconds : option Z;
  rmon_on_usb_removed_hook_path : option string;
  rmon_idle_timeout_seconds : option Z;
  rmon_max_concurrent_connections : option Z;
}.

Record RawRevocation := MkRawRevocation {
  rrev_mode : RawRevocationMode;
  rrev_crl_paths : list string;
  rrev_ocsp_responder_url : option string;
  rrev_crl_max_age_hours : Z;
  rrev_ocsp_timeout_seconds : Z;
  rrev_ocsp_cache_ttl_seconds : Z;
}.

Record RawPinning := MkRawPinning {
  rpin_enabled : bool;
  rpin_allowed_root_spki_sha256 : list string;
}.

Record RawTrust := MkRawTrust {
  rt_anchors : list string;
  rt_intermediates : list string;
  rt_max_chain_depth : Z;
  rt_clock_skew_seconds : Z;
  rt_allowed_signature_algorithms : list string;
  rt_revocation : RawRevocation;
  rt_pinning : RawPinning;
}.

Record RawTrustOverride := MkRawTrustOverride {
  rto_when_host_id_in : list string;
  rto_anchors : list string;
  rto_intermediates : list string;
}.

Record RawHostIdentity := MkRawHostIdentity {
  rhi_sources : list string;
  rhi_fallback : RawHostIdFallback;
  rhi_override_value : option string;
  rhi_custom_command : option string;
  rhi_custom_command_timeout_seconds : Z;
}.

Record RawUserMapping := MkRawUserMapping {
  rum_pam_user : string;
  rum_cert_subject_cn : option string;
  rum_cert_san_email : option string;
  rum_cert_san_upn : option string;
}.

Record RawLogging := MkRawLogging {
  rlog_level : string;
  rlog_syslog_facility : string;
  rlog_journald_priority : bool;
}.

Record RawIntegrityLabel := MkRawIntegrityLabel {
  ril_level : Z;
  ril_categories : string;
}.

Record RawMacPolicy := MkRawMacPolicy {
  rmac_cert_integrity : option RawCertIntegrityMode;
  rmac_fallback_max_integrity : option RawIntegrityLabel;
  rmac_warn_on_homedir_label_mismatch : option bool;
  rmac_runtime : option RawMacRuntimeMode;
}.

Record RawConfig := MkRawConfig {
  raw_crypto_backend : RawCryptoBackend;
  raw_mode : RawMode;
  raw_pkcs11_module : option string;
  raw_pkcs11_token_label : option string;
  raw_pkcs11_object_label : option string;
  raw_pkcs11_max_pin_attempts : Z;
  raw_pkcs11_locking_mode : RawPkcs11LockingMode;
  raw_pkcs11_pin_prompt : option string;
  raw_pkcs11_slot_wait_seconds : Z;
  raw_pkcs12_path_pattern : option string;
  raw_pkcs12_pin_prompt : option string;
  raw_gost_engine_path : option string;
  raw_usb_wait_seconds : Z;
  raw_max_usb_partitions : option Z;
  raw_on_usb_removed : RawOnUsbRemoved;
  raw_usb_removed_grace_seconds : Z;
  raw_suspend_grace_seconds : Z;
  raw_monitor_fail_mode : RawMonitorFailMode;
  raw_monitor : RawMonitor;
  raw_trust : RawTrust;
  raw_trust_override : list RawTrustOverride;
  raw_host_identity : RawHostIdentity;
  raw_user_mapping : list RawUserMapping;
  raw_logging : RawLogging;
  raw_hooks : list RawHook;
  raw_mac : RawMacPolicy;
  raw_fly_dm_greeter : option RawFlyDmGreeter;
}.

(** ** Defaults *)

Definition default_usb_wait_seconds : Z := 10.
Definition default_pkcs11_max_pin_attempts : Z := 3.
Definition default_pkcs11_slot_wait_seconds : Z := 10.
Definition default_max_chain_depth : Z := 5.
Definition default_custom_command_timeout : Z := 5.
Definition default_hook_timeout : Z := 10.

Definition raw_revocation_default : RawRevocation := MkRawRevocation RawRevNone [] None 0 0 0.

(** The derived [Default] of the optional sections. *)
Definition raw_monitor_default : RawMonitor :=
  MkRawMonitor None None None None None None None None None None.
Definition raw_pinning_default : RawPinning := MkRawPinning false [].
Definition raw_mac_default : RawMacPolicy := MkRawMacPolicy None None None None.
Definition raw_fly_dm_greeter_default : RawFlyDmGreeter :=
  MkRawFlyDmGreeter None None None None None None None None None None None.

(** The file that has the mandatory keys only: what [serde] leaves for the
    absent ones. *)
Definition minimal_raw (backend : RawCryptoBackend) (mode : RawMode) (trust : RawTrust)
    (host : RawHostIdentity) (logging : RawLogging) : RawConfig :=
  {| raw_crypto_backend := backend;
     raw_mode := mode;
     raw_pkcs11_module := None;
     raw_pkcs11_token_label := None;
     raw_pkcs11_object_label := None;
     raw_pkcs11_max_pin_attempts := default_pkcs11_max_pin_attempts;
     raw_pkcs11_locking_mode := RawOs;
     raw_pkcs11_pin_prompt := None;
     raw_pkcs11_slot_wait_seconds := default_pkcs11_slot_wait_seconds;
     raw_pkcs12_path_pattern := None;
     raw_pkcs12_pin_prompt := None;
     raw_gost_engine_path := None;
     raw_usb_wait_seconds := default_usb_wait_seconds;
     raw_max_usb_partitions := None;
     raw_on_usb_removed := RawLock;
     raw_usb_removed_grace_seconds := 0;
     raw_suspend_grace_seconds := 0;
     raw_monitor_fail_mode := RawStrict;
     raw_monitor := raw_monitor_default;
     raw_trust := trust;
     raw_trust_override := [];
     raw_host_identity := host;
     raw_user_mapping := [];
     raw_logging := logging;
     raw_hooks := [];
     raw_mac := raw_mac_default;
     raw_fly_dm_greeter := None |}.
