(* ===== verification/Config.v ===== *)
(** * Validated configuration ([config/validated.rs], [config/mod.rs], [logging.rs])

    From the raw records to the ones the program runs on, and the loader.
    Reading certificate files and the [gost] engine's metadata goes through
    [Fs]; the regular expression and the TOML decoder are libraries.  Durations
    are nanoseconds.  A [BTreeSet] of strings is the sorted list of its
    elements.  The theorems say what a configuration that was accepted
    satisfies, and which ones are. *)

From Stdlib Require Import Ascii.
From S2P Require Import Prelude Text Sys Certificate HostBinding MacLabel MacOrchestrator Hooks.
From S2P Require Import RawConfig.
Local Open Scope Z_scope.

(** ** Errors *)

(** [TrustError] of [error.rs]. *)
Inductive ConfigTrustError : Type :=
| TrustNotImplemented
| AnchorMissing (path : string)
| AnchorNotPem (path : string)
| MaxChainDepthZero
| ClockSkewTooLarge
| CrlPathMissing (path : string)
| OcspResponderInvalid (reason : string)
| PinningHashInvalid (entry : string).

(** The text of a rejection: given, or with the [Debug] form of a string
    between two texts. *)
Inductive Reason : Type :=
| Plain (s : string)
| Quoted (before value after : string).

(** The variants of [Error] that loading produces. *)
Inductive Error : Type :=
| ErrIo (context : string) (source : IoError)
| ConfigParse (path source : string)
| ConfigInvalid (reason : Reason)
| GostEnginePathUnreadable (path : string) (source : IoError)
| GostEnginePathRequiresOpenssl
| HookValidation (e : HookValidationError)
| ErrTrust (e : ConfigTrustError)
| ErrOther (reason : string).

Definition invalid {A} (s : string) : res Error A := Err (ConfigInvalid (Plain s)).

Definition dq : string := text_of [zb 0x22].
Definition quoted (s : string) : string := dq +:+ s +:+ dq.

(** ** Validated records *)

Inductive CryptoBackend : Type := BackendOpenssl | Pkcs11Native.
Inductive Mode : Type := ModePkcs12 | ModePkcs11.
Inductive LockingMode : Type := LockOs | LockMutex.
Inductive UsbRemovedAction : Type := DoLock | DoLogout | DoHook | DoShutdown.
Inductive MonitorFailMode : Type := Strict | Permissive.
Inductive RevocationMode : Type := RevNone | RevCrl | RevOcsp | RevCrlThenOcsp.
Inductive HostIdFallback : Type := FallbackDeny | FallbackWarn | FallbackAllow.
Inductive Gravity : Type := North | South | East | West | Center.
Inductive LogLevel : Type := LevelTrace | LevelDebug | LevelInfo | LevelWarn | LevelError.
Inductive SyslogFacility : Type := FacAuth | FacAuthpriv | FacUser | FacDaemon.

Record FlyDmGreeterSection := MkFlyDmGreeter {
  fg_update_wallpaper : bool;
  fg_wallpaper_target : string;
  fg_wallpaper_backup : string;
  fg_wallpaper_font : string;
  fg_wallpaper_font_size : Z;
  fg_wallpaper_text_color : list byte;
  fg_wallpaper_gravity : Gravity;
  fg_wallpaper_offset_x : Z;
  fg_wallpaper_offset_y : Z;
  fg_template_ru : string;
  fg_template_en : string;
}.

Definition fly_dm_greeter_default : FlyDmGreeterSection :=
  {| fg_update_wallpaper := false;
     fg_wallpaper_target := "/usr/share/wallpapers/fly-default-light.jpg";
     fg_wallpaper_backup := "/var/lib/pam_certauth/wallpaper.orig.jpg";
     fg_wallpaper_font := "/usr/share/fonts/truetype/dejavu/DejaVuSans-Bold.ttf";
     fg_wallpaper_font_size := 64;
     fg_wallpaper_text_color := [zb 0; zb 0; zb 0; zb 255];
     fg_wallpaper_gravity := South;
     fg_wallpaper_offset_x := 0;
     fg_wallpaper_offset_y := 120;
     fg_template_ru := "Банкомат %n  host_id={host_id_short} ({source})";
     fg_template_en := "ATM %n  host_id={host_id_short} ({source})" |}.

Record MonitorSection := MkMonitorSection {
  mon_socket_path : string;
  mon_timeout : Z;
  mon_fail_mode : MonitorFailMode;
  mon_state_file_path : string;
  mon_on_usb_removed : UsbRemovedAction;
  mon_usb_removed_grace : Z;
  mon_suspend_grace : Z;
  mon_on_usb_removed_hook_path : option string;
  mon_idle_timeout : Z;
  mon_max_concurrent_connections : Z;
}.

Record PinningSection := MkPinningSection {
  pin_enabled : bool;
  pin_allowed_root_spki_sha256 : list string;
}.

Record RevocationSection := MkRevocationSection {
  rev_mode : RevocationMode;
  rev_crl_paths : list string;
}.

Record TrustSection := MkTrustSection {
  ts_anchors : list string;
  ts_intermediates : list string;
  ts_revocation : RevocationSection;
  ts_allowed_signature_algorithms : list string;
  ts_pinning : PinningSection;
  ts_max_chain_depth : Z;
  ts_clock_skew_seconds : Z;
}.

Record TrustOverride := MkTrustOverride {
  to_when_host_id_in : list string;
  to_anchors : list string;
  to_intermediates : list string;
}.

Record HostIdentitySection := MkHostIdentitySection {
  hi_sources : list HostIdSourceKind;
  hi_fallback : HostIdFallback;
  hi_override_value : option string;
  hi_custom_command : option string;
  hi_custom_command_timeout : Z;
}.

Record LoggingSection := MkLoggingSection {
  log_level : LogLevel;
  log_syslog_facility : SyslogFacility;
  log_journald_priority : bool;
}.

Record ValidatedConfig := MkConfig {
  cfg_crypto_backend : CryptoBackend;
  cfg_mode : Mode;
  cfg_pkcs11_module : option string;
  cfg_pkcs11_token_label : option string;
  cfg_pkcs11_object_label : option string;
  cfg_pkcs11_max_pin_attempts : Z;
  cfg_pkcs11_locking_mode : LockingMode;
  cfg_pkcs11_pin_prompt : option string;
  cfg_pkcs11_slot_wait : Z;
  cfg_pkcs12_path_pattern : option string;
  cfg_pkcs12_pin_prompt : option string;
  cfg_gost_engine_path : option string;
  cfg_usb_wait : Z;
  cfg_max_usb_partitions : Z;
  cfg_on_usb_removed : UsbRemovedAction;
  cfg_usb_removed_grace : Z;
  cfg_suspend_grace : Z;
  cfg_monitor_fail_mode : MonitorFailMode;
  cfg_monitor : MonitorSection;
  cfg_trust : TrustSection;
  cfg_trust_overrides : list TrustOverride;
  cfg_host_identity : HostIdentitySection;
  cfg_user_mappings : list UserMapping;
  cfg_logging : LoggingSection;
  cfg_hooks : list HookConfig;
  cfg_mac : MacPolicy;
  cfg_fly_dm_greeter : FlyDmGreeterSection;
}.

#[export] Instance HostIdSourceKind_eq_dec : EqDecision HostIdSourceKind.
Proof. solve_decision. Defined.
#[export] Instance UsbRemovedAction_eq_dec : EqDecision UsbRemovedAction.
Proof. solve_decision. Defined.
#[export] Instance MacRuntimeMode_eq_dec : EqDecision MacRuntimeMode.
Proof. solve_decision. Defined.
#[export] Instance CertIntegrityMode_eq_dec : EqDecision CertIntegrityMode.
Proof. solve_decision. Defined.
#[export] Instance RevocationMode_eq_dec : EqDecision RevocationMode.
Proof. solve_decision. Defined.
#[export] Instance CryptoBackend_eq_dec : EqDecision CryptoBackend.
Proof. solve_decision. Defined.
#[export] Instance Mode_eq_dec : EqDecision Mode.
Proof. solve_decision. Defined.

Definition needs_gost (cfg : ValidatedConfig) : bool :=
  match cfg_crypto_backend cfg with
  | BackendOpenssl =>
      existsb (λ s, is_gost (from_oid_string s)) (ts_allowed_signature_algorithms (cfg_trust cfg))
  | Pkcs11Native => false
  end.

(** ** Libraries *)

(** The [regex] crate. *)
Class RegexCrate := {
  Regex : Type;
  Regex_new : string → string + Regex;
  is_match : Regex → string → bool;
}.

(** [toml::from_str] into [RawConfig]. *)
Class Toml := toml_from_str : string → string + RawConfig.

(** ** Parsers *)

Definition log_level_from_str (s : string) : res Error LogLevel :=
  let l := to_ascii_lowercase s in
  if decide (l = "trace") then Ok LevelTrace
  else if decide (l = "debug") then Ok LevelDebug
  else if decide (l = "info") then Ok LevelInfo
  else if decide (l = "warn" ∨ l = "warning") then Ok LevelWarn
  else if decide (l = "error") then Ok LevelError
  else invalid ("invalid log level: " +:+ s).

Definition syslog_facility_from_str (s : string) : res Error SyslogFacility :=
  let l := to_ascii_lowercase s in
  if decide (l = "auth") then Ok FacAuth
  else if decide (l = "authpriv") then Ok FacAuthpriv
  else if decide (l = "user") then Ok FacUser
  else if decide (l = "daemon") then Ok FacDaemon
  else invalid ("invalid syslog facility: " +:+ s).

Definition source_kind_from_str (s : string) : res Error HostIdSourceKind :=
  if decide (s = "machine_id") then Ok MachineId
  else if decide (s = "dmi_board_serial" ∨ s = "board_serial") then Ok DmiBoardSerial
  else if decide (s = "dmi_system_uuid" ∨ s = "system_uuid") then Ok DmiSystemUuid
  else if decide (s = "dmi_system_serial" ∨ s = "system_serial") then Ok DmiSystemSerial
  else if decide (s = "hostname") then Ok Hostname
  else if decide (s = "custom_command") then Ok CustomCommand
  else if decide (s = "override") then Ok Override
  else invalid ("invalid host identity source: " +:+ s).

(** [u8::from_str_radix(&s[a..b], 16).ok()]: [Err] stands for [None]. *)
Definition hex_pair (s : string) (a b : Z) : res unit byte :=
  let? t := str_slice s a b in
  let? v := map_err (λ _, tt) (of_sum (from_str_radix 0 255 16 t)) in
  Ok (zb v).

(** [Err] stands for [None]. *)
Definition parse_hex_color (s : string) : res unit (list byte) :=
  match s with
  | String c r =>
      if negb (bool_decide (c = "#"%char)) then Err tt else
      if negb (forallb is_ascii_hexdigit (bytes_of r)) then Err tt else
      if decide (str_len r = 6) then
        let? cr := hex_pair r 0 2 in
        let? cg := hex_pair r 2 4 in
        let? cb := hex_pair r 4 6 in
        Ok [cr; cg; cb; zb 255]
      else if decide (str_len r = 8) then
        let? cr := hex_pair r 0 2 in
        let? cg := hex_pair r 2 4 in
        let? cb := hex_pair r 4 6 in
        let? ca := hex_pair r 6 8 in
        Ok [cr; cg; cb; ca]
      else Err tt
  | EmptyString => Err tt
  end.

Definition parse_gravity (s : string) : option Gravity :=
  let l := to_ascii_lowercase s in
  if decide (l = "north") then Some North
  else if decide (l = "south") then Some South
  else if decide (l = "east") then Some East
  else if decide (l = "west") then Some West
  else if decide (l = "center" ∨ l = "centre") then Some Center
  else None.

(** ** Validators that read no files *)

Definition absolute_path (field : string) (value : option string) (dflt : string)
    : res Error string :=
  match value with
  | Some p =>
      if negb (is_absolute p) then
        invalid ("fly_dm_greeter." +:+ field +:+ " must be absolute (got " +:+ p +:+ ")")
      else Ok p
  | None => Ok dflt
  end.

Definition validate_fly_dm_greeter (raw : option RawFlyDmGreeter)
    : res Error FlyDmGreeterSection :=
  let d := fly_dm_greeter_default in
  match raw with
  | None => Ok d
  | Some raw =>
      let? target := absolute_path "wallpaper_target" (rfg_wallpaper_target raw)
                       (fg_wallpaper_target d) in
      let? backup := absolute_path "wallpaper_backup" (rfg_wallpaper_backup raw)
                       (fg_wallpaper_backup d) in
      let? font := absolute_path "wallpaper_font" (rfg_wallpaper_font raw)
                     (fg_wallpaper_font d) in
      let? color :=
        match rfg_wallpaper_text_color raw with
        | Some s =>
            map_err (λ _, ConfigInvalid
              (Quoted "fly_dm_greeter.wallpaper_text_color must be #RRGGBB or #RRGGBBAA (got "
                 s ")")) (parse_hex_color s)
        | None => Ok (fg_wallpaper_text_color d)
        end in
      let? gravity :=
        match rfg_wallpaper_gravity raw with
        | Some s =>
            ok_or (parse_gravity s) (ConfigInvalid
              (Quoted "fly_dm_greeter.wallpaper_gravity must be one of north|south|east|west|center (got "
                 s ")"))
        | None => Ok (fg_wallpaper_gravity d)
        end in
      let size := default (fg_wallpaper_font_size d) (rfg_wallpaper_font_size raw) in
      if decide (size = 0) then invalid "fly_dm_greeter.wallpaper_font_size must be > 0" else
      Ok {| fg_update_wallpaper := default (fg_update_wallpaper d) (rfg_update_wallpaper raw);
            fg_wallpaper_target := target;
            fg_wallpaper_backup := backup;
            fg_wallpaper_font := font;
            fg_wallpaper_font_size := size;
            fg_wallpaper_text_color := color;
            fg_wallpaper_gravity := gravity;
            fg_wallpaper_offset_x := default (fg_wallpaper_offset_x d) (rfg_wallpaper_offset_x raw);
            fg_wallpaper_offset_y := default (fg_wallpaper_offset_y d) (rfg_wallpaper_offset_y raw);
            fg_template_ru := default (fg_template_ru d) (rfg_template_ru raw);
            fg_template_en := default (fg_template_en d) (rfg_template_en raw) |}
  end.

Definition MAC_CATEGORIES_HEX_MAX_LEN : Z := 16.

(** The closure over [fallback_max_integrity]. *)
Definition validate_fallback_label (r : RawIntegrityLabel) : res Error IntegrityLabel :=
  let? cats :=
    if decide (ril_categories r = "") then Ok 0
    else if decide (MAC_CATEGORIES_HEX_MAX_LEN < str_len (ril_categories r)) then
      invalid ("mac.fallback_max_integrity.categories must be at most 16 hex chars (got " +:+
               fmt_dec (str_len (ril_categories r)) +:+ ")")
    else
      map_err (λ e, ConfigInvalid (Plain ("mac.fallback_max_integrity.categories must be hex: "
                                          +:+ int_error_text e)))
        (of_sum (from_str_radix 0 (2 ^ 64 - 1) 16 (ril_categories r))) in
  Ok (MkLabel (ril_level r) cats).

(** [astra] is the build feature [astra-mac]. *)
Definition validate_mac (astra : bool) (raw : RawMacPolicy) : res Error MacPolicy :=
  let ci :=
    match rmac_cert_integrity raw with
    | Some RawRequired => Required
    | Some RawIgnore => Ignore
    | Some RawOptional | None => Optional
    end in
  let rt :=
    match rmac_runtime raw with
    | Some RawRuntimeRequired => RuntimeRequiredMode
    | Some RawRuntimeDisabled => RuntimeDisabled
    | Some RawRuntimeAuto | None => RuntimeAuto
    end in
  if decide (rt = RuntimeDisabled ∧ ci = Required) then
    invalid ("[mac].runtime = " +:+ quoted "disabled" +:+ " is incompatible with cert_integrity = "
             +:+ quoted "required" +:+ " (the stub backend cannot enforce the cert label)")
  else if decide (astra = false ∧ ci = Required) then
    invalid ("[mac].cert_integrity = " +:+ quoted "required" +:+
             " but binary built without `astra-mac` feature")
  else if decide (astra = false ∧ rt = RuntimeRequiredMode) then
    invalid ("[mac].runtime = " +:+ quoted "required" +:+
             " but binary built without `astra-mac` feature")
  else
    let? fallback :=
      match rmac_fallback_max_integrity raw with
      | None => Ok None
      | Some r => let? l := validate_fallback_label r in Ok (Some l)
      end in
    Ok (MkMacPolicy ci fallback (default true (rmac_warn_on_homedir_label_mismatch raw)) rt).

Definition MAX_CHAIN_DEPTH_HARD_CAP : Z := 16.
Definition DEFAULT_MAX_USB_PARTITIONS : Z := 8.
Definition MAX_USB_PARTITIONS_HARD_CAP : Z := 64.

Definition validate_max_usb_partitions (raw : option Z) : res Error Z :=
  let v := default DEFAULT_MAX_USB_PARTITIONS raw in
  if decide (v = 0) then invalid "max_usb_partitions must be >= 1"
  else if decide (MAX_USB_PARTITIONS_HARD_CAP < v) then
    invalid ("max_usb_partitions must be <= 64 (got " +:+ fmt_dec v +:+ ")")
  else Ok v.

Definition validate_pkcs12_path_pattern (raw : option string) : res Error (option string) :=
  match raw with
  | None => Ok None
  | Some value =>
      if decide (value = "") then invalid "pkcs12_path_pattern must be non-empty when set"
      else if starts_with value "/" then
        Err (ConfigInvalid (Quoted
          "pkcs12_path_pattern must be a relative path under the USB mountpoint (got " value ")"))
      else if existsb (λ seg, bool_decide (seg = "..") || bool_decide (seg = "."))
                (str_split (zb 0x2F) value) then
        Err (ConfigInvalid (Quoted
          "pkcs12_path_pattern must not contain '..' or '.' segments (got " value ")"))
      else Ok (Some value)
  end.

(** The loop over [host_identity.sources]; [seen] holds what was pushed. *)
Fixpoint validate_sources (raw : list string) (seen : list HostIdSourceKind)
    : res Error (list HostIdSourceKind) :=
  match raw with
  | [] => Ok seen
  | source :: r =>
      let? kind := source_kind_from_str source in
      if decide (kind ∈ seen) then invalid "duplicate host identity source"
      else validate_sources r (seen ++ [kind])
  end.

Definition validate_host_identity (raw : RawHostIdentity) : res Error HostIdentitySection :=
  let? sources := validate_sources (rhi_sources raw) [] in
  if decide (sources = []) then invalid "host_identity.sources must be non-empty" else
  check
    match rhi_custom_command raw with
    | Some cmd =>
        if negb (is_absolute cmd) then
          invalid ("host_identity.custom_command must be an absolute path (got " +:+ cmd +:+ ")")
        else Ok tt
    | None => Ok tt
    end;
  Ok {| hi_sources := sources;
        hi_fallback :=
          match rhi_fallback raw with
          | RawDeny => FallbackDeny
          | RawWarn => FallbackWarn
          | RawAllow => FallbackAllow
          end;
        hi_override_value := rhi_override_value raw;
        hi_custom_command := rhi_custom_command raw;
        hi_custom_command_timeout :=
          Z.max 1 (Z.min 30 (rhi_custom_command_timeout_seconds raw)) * NANOS_PER_SEC |}.

Definition PKCS11_LABEL_MAX_LEN : Z := 64.
Definition PKCS11_PROMPT_MAX_LEN : Z := 128.

Definition validate_pkcs11_label (field value : string) : res Error unit :=
  if decide (value = "") then invalid (field +:+ " must be non-empty when set")
  else if decide (PKCS11_LABEL_MAX_LEN < str_len value) then
    invalid (field +:+ " must be at most 64 bytes (got " +:+ fmt_dec (str_len value) +:+ ")")
  else if decide (zb 0 ∈ bytes_of value) then
    invalid (field +:+ " must not contain NUL bytes")
  else Ok tt.

Definition opt_check {A} (f : A → res Error unit) (o : option A) : res Error unit :=
  match o with Some a => f a | None => Ok tt end.

Definition validate_pkcs11_section (raw : RawConfig) (mode : Mode) : res Error unit :=
  if decide (mode = ModePkcs11 ∧ raw_pkcs11_module raw = None) then
    invalid ("pkcs11_module is required when mode = " +:+ quoted "pkcs11")
  else
  check opt_check (validate_pkcs11_label "pkcs11_token_label") (raw_pkcs11_token_label raw);
  check opt_check (validate_pkcs11_label "pkcs11_object_label") (raw_pkcs11_object_label raw);
  if negb (bool_decide (1 ≤ raw_pkcs11_max_pin_attempts raw ≤ 5)) then
    invalid ("pkcs11_max_pin_attempts must be in 1..=5, got " +:+
             fmt_dec (raw_pkcs11_max_pin_attempts raw))
  else if negb (bool_decide (0 ≤ raw_pkcs11_slot_wait_seconds raw ≤ 60)) then
    invalid ("pkcs11_slot_wait_seconds must be in 0..=60, got " +:+
             fmt_dec (raw_pkcs11_slot_wait_seconds raw))
  else
  opt_check (λ prompt,
    if decide (prompt = "") then invalid "pkcs11_pin_prompt must be non-empty when set"
    else if decide (PKCS11_PROMPT_MAX_LEN < str_len prompt) then
      invalid ("pkcs11_pin_prompt must be at most 128 bytes (got " +:+
               fmt_dec (str_len prompt) +:+ ")")
    else Ok tt) (raw_pkcs11_pin_prompt raw).

Definition DEFAULT_MONITORD_SOCKET : string := "/run/pam_certauth/monitord.sock".
Definition DEFAULT_MONITORD_STATE_FILE : string := "/run/pam_certauth/sessions.json".
Definition DEFAULT_MONITORD_TIMEOUT_MS : Z := 2000.
Definition MONITORD_TIMEOUT_MS_MIN : Z := 100.
Definition MONITORD_TIMEOUT_MS_MAX : Z := 60000.
Definition DEFAULT_MONITORD_IDLE_TIMEOUT_SECS : Z := 30.
Definition MONITORD_IDLE_TIMEOUT_MIN : Z := 1.
Definition MONITORD_IDLE_TIMEOUT_MAX : Z := 3600.
Definition DEFAULT_MONITORD_MAX_CONNS : Z := 64.
Definition MONITORD_MAX_CONNS_CAP : Z := 4096.
Definition MONITORD_USB_REMOVED_GRACE_MAX : Z := 600.
Definition MONITORD_SUSPEND_GRACE_MAX : Z := 600.

Definition NANOS_PER_MILLI : Z := 1000000.

Definition usb_removed_action (raw : RawOnUsbRemoved) : UsbRemovedAction :=
  match raw with
  | RawLock => DoLock
  | RawLogout => DoLogout
  | RawHookAction => DoHook
  | RawShutdown => DoShutdown
  end.

Definition monitor_fail_mode (raw : RawMonitorFailMode) : MonitorFailMode :=
  match raw with RawStrict => Strict | RawPermissive => Permissive end.

(** The match on [[monitor].fail_mode]. *)
Definition validate_fail_mode (raw : option string) (legacy : RawMonitorFailMode)
    : res Error MonitorFailMode :=
  match raw with
  | None => Ok (monitor_fail_mode legacy)
  | Some s =>
      if decide (s = "strict") then Ok Strict
      else if decide (s = "permissive" ∨ s = "degraded") then Ok Permissive
      else Err (ConfigInvalid (Quoted
             ("monitor.fail_mode must be one of " +:+ quoted "strict" +:+ ", " +:+
              quoted "permissive" +:+ ", " +:+ quoted "degraded" +:+ " (got ") s ")"))
  end.

(** The block that computes [on_usb_removed_hook_path]. *)
Definition validate_hook_path (action : UsbRemovedAction) (raw : option string)
    : res Error (option string) :=
  if decide (action = DoHook) then
    let? path := ok_or raw (ConfigInvalid (Plain
      ("monitor.on_usb_removed = " +:+ quoted "hook" +:+
       " requires monitor.on_usb_removed_hook_path"))) in
    if negb (is_absolute path) then
      invalid ("monitor.on_usb_removed_hook_path must be absolute (got " +:+ path +:+ ")")
    else Ok (Some path)
  else
    match raw with
    | Some _ =>
        invalid ("monitor.on_usb_removed_hook_path is only valid when on_usb_removed = " +:+
                 quoted "hook")
    | None => Ok None
    end.

Definition validate_monitor (top : RawConfig) (raw : RawMonitor) (legacy : RawMonitorFailMode)
    : res Error MonitorSection :=
  let socket_path := default DEFAULT_MONITORD_SOCKET (rmon_socket_path raw) in
  if negb (is_absolute socket_path) then
    invalid ("monitor.socket_path must be absolute (got " +:+ socket_path +:+ ")") else
  let state_file_path := default DEFAULT_MONITORD_STATE_FILE (rmon_state_file_path raw) in
  if negb (is_absolute state_file_path) then
    invalid ("monitor.state_file_path must be absolute (got " +:+ state_file_path +:+ ")") else
  let timeout_ms := default DEFAULT_MONITORD_TIMEOUT_MS (rmon_timeout_ms raw) in
  if negb (bool_decide (MONITORD_TIMEOUT_MS_MIN ≤ timeout_ms ≤ MONITORD_TIMEOUT_MS_MAX)) then
    invalid ("monitor.timeout_ms must be in 100..=60000 (got " +:+ fmt_dec timeout_ms +:+ ")") else
  let? fail_mode := validate_fail_mode (rmon_fail_mode raw) legacy in
  let action := usb_removed_action (default (raw_on_usb_removed top) (rmon_on_usb_removed raw)) in
  let? hook_path := validate_hook_path action (rmon_on_usb_removed_hook_path raw) in
  let grace := default (raw_usb_removed_grace_seconds top) (rmon_usb_removed_grace_seconds raw) in
  if decide (MONITORD_USB_REMOVED_GRACE_MAX < grace) then
    invalid ("monitor.usb_removed_grace_seconds must be <= 600 (got " +:+ fmt_dec grace +:+ ")") else
  let suspend := default (raw_suspend_grace_seconds top) (rmon_suspend_grace_seconds raw) in
  if decide (MONITORD_SUSPEND_GRACE_MAX < suspend) then
    invalid ("monitor.suspend_grace_seconds must be <= 600 (got " +:+ fmt_dec suspend +:+ ")") else
  let idle := default DEFAULT_MONITORD_IDLE_TIMEOUT_SECS (rmon_idle_timeout_seconds raw) in
  if negb (bool_decide (MONITORD_IDLE_TIMEOUT_MIN ≤ idle ≤ MONITORD_IDLE_TIMEOUT_MAX)) then
    invalid ("monitor.idle_timeout_seconds must be in 1..=3600 (got " +:+ fmt_dec idle +:+ ")") else
  let conns := default DEFAULT_MONITORD_MAX_CONNS (rmon_max_concurrent_connections raw) in
  if decide (conns = 0 ∨ MONITORD_MAX_CONNS_CAP < conns) then
    invalid ("monitor.max_concurrent_connections must be in 1..=4096 (got " +:+
             fmt_dec conns +:+ ")") else
  Ok {| mon_socket_path := socket_path;
        mon_timeout := timeout_ms * NANOS_PER_MILLI;
        mon_fail_mode := fail_mode;
        mon_state_file_path := state_file_path;
        mon_on_usb_removed := action;
        mon_usb_removed_grace := grace * NANOS_PER_SEC;
        mon_suspend_grace := suspend * NANOS_PER_SEC;
        mon_on_usb_removed_hook_path := hook_path;
        mon_idle_timeout := idle * NANOS_PER_SEC;
        mon_max_concurrent_connections := conns |}.

Definition user_mapping_pattern : string := "^[a-z_][a-z0-9_-]{0,31}$".

(** The criterion: exactly one of the three is set. *)
Definition validate_criteria (mapping : RawUserMapping) : res Error UserMatchCriteria :=
  match rum_cert_subject_cn mapping, rum_cert_san_email mapping, rum_cert_san_upn mapping with
  | Some v, None, None => Ok (SubjectCn v)
  | None, Some v, None => Ok (SanEmail v)
  | None, None, Some v => Ok (SanUpn v)
  | _, _, _ => invalid "user_mapping must set exactly one criterion"
  end.

Section validators.
Context {RX : RegexCrate}.

(** The [map] closure with its [seen] set. *)
Fixpoint validate_mappings (re : Regex) (seen : list string) (raw : list RawUserMapping)
    : res Error (list UserMapping) :=
  match raw with
  | [] => Ok []
  | mapping :: r =>
      let user := rum_pam_user mapping in
      if negb (is_match re user) || bool_decide (user ∈ seen) then
        invalid "invalid or duplicate pam_user"
      else
        let? criteria := validate_criteria mapping in
        let? rest := validate_mappings re (user :: seen) r in
        Ok (MkUserMapping user criteria :: rest)
  end.

Definition validate_user_mappings (raw : list RawUserMapping) : res Error (list UserMapping) :=
  let? re := map_err ErrOther (of_sum (Regex_new user_mapping_pattern)) in
  validate_mappings re [] raw.

End validators.

(** ** Validators that read files *)

Definition PEM_MARKER : string := "-----BEGIN CERTIFICATE-----".

(** [BTreeSet::insert], and collecting a list into a set. *)
Fixpoint bts_insert (x : string) (l : list string) : list string :=
  match l with
  | [] => [x]
  | y :: r =>
      match String.compare x y with
      | Lt => x :: l
      | Eq => l
      | Gt => y :: bts_insert x r
      end
  end.

Definition btree_set (l : list string) : list string := foldl (λ acc x, bts_insert x acc) [] l.

Definition pin_shape (entry : string) : bool :=
  bool_decide (str_len entry = 64) && forallb is_ascii_hexdigit (bytes_of entry).

Definition is_http_url (url : string) : bool :=
  starts_with url "http://" || starts_with url "https://".

Section loading.
Context {W : Type} {FS : Fs W} {RX : RegexCrate} {TM : Toml}.

Definition validate_pem (path : string) : io W Error unit :=
  let! text := io_map_err (λ _, ErrTrust (AnchorMissing path)) (read_to_string path) in
  lift (if str_contains text PEM_MARKER then Ok tt else Err (ErrTrust (AnchorNotPem path))).

Definition require_file (path : string) : io W Error unit :=
  let! f := path_is_file path in
  lift (if f : bool then Ok tt else Err (ErrTrust (CrlPathMissing path))).

Definition revocation_mode (raw : RawRevocationMode) : RevocationMode :=
  match raw with
  | RawRevNone => RevNone
  | RawCrl => RevCrl
  | RawOcsp => RevOcsp
  | RawCrlThenOcsp => RevCrlThenOcsp
  end.

Definition validate_trust (raw : RawTrust) : io W Error TrustSection :=
  if decide (rt_max_chain_depth raw = 0) then lift (Err (ErrTrust MaxChainDepthZero)) else
  if decide (MAX_CHAIN_DEPTH_HARD_CAP < rt_max_chain_depth raw) then
    lift (invalid ("trust.max_chain_depth " +:+ fmt_dec (rt_max_chain_depth raw) +:+
                   " exceeds hard cap 16")) else
  if decide (600 < rt_clock_skew_seconds raw) then lift (Err (ErrTrust ClockSkewTooLarge)) else
  do! io_each validate_pem (rt_anchors raw ++ rt_intermediates raw);
  let rev := rt_revocation raw in
  do! match rrev_mode rev with
      | RawCrl => io_each require_file (rrev_crl_paths rev)
      | _ => fret tt
      end;
  do! match rrev_mode rev with
      | RawOcsp | RawCrlThenOcsp =>
          if match rrev_ocsp_responder_url rev with Some url => is_http_url url | None => false end
          then fret tt
          else lift (Err (ErrTrust (OcspResponderInvalid "missing or non-http URL")))
      | _ => fret tt
      end;
  let pin := rt_pinning raw in
  do! (if rpin_enabled pin then
         lift (match List.find (λ e, negb (pin_shape e)) (rpin_allowed_root_spki_sha256 pin) with
               | Some entry => Err (ErrTrust (PinningHashInvalid entry))
               | None => Ok tt
               end)
       else fret tt);
  fret {| ts_anchors := rt_anchors raw;
          ts_intermediates := rt_intermediates raw;
          ts_revocation := MkRevocationSection (revocation_mode (rrev_mode rev)) (rrev_crl_paths rev);
          ts_allowed_signature_algorithms := btree_set (rt_allowed_signature_algorithms raw);
          ts_pinning := MkPinningSection (rpin_enabled pin) (rpin_allowed_root_spki_sha256 pin);
          ts_max_chain_depth := rt_max_chain_depth raw;
          ts_clock_skew_seconds := rt_clock_skew_seconds raw |}.

Definition validate_trust_override (raw : RawTrustOverride) : io W Error TrustOverride :=
  if decide (rto_when_host_id_in raw = []) then
    lift (invalid "trust_override.when_host_id_in must be non-empty") else
  do! io_each validate_pem (rto_anchors raw ++ rto_intermediates raw);
  fret (MkTrustOverride (btree_set (rto_when_host_id_in raw)) (rto_anchors raw)
          (rto_intermediates raw)).

Definition validate_gost_engine_path (raw : RawConfig) (backend : CryptoBackend)
    : io W Error (option string) :=
  match raw_gost_engine_path raw with
  | None => fret None
  | Some path =>
      if negb (bool_decide (backend = BackendOpenssl)) then
        lift (Err GostEnginePathRequiresOpenssl) else
      let! md := io_map_err (GostEnginePathUnreadable path) (call (fs_metadata path)) in
      if md_is_file md then fret (Some path)
      else lift (Err (GostEnginePathUnreadable path
             (MkIoError KindInvalidInput "gost_engine_path is not a regular file")))
  end.

Definition validate_logging (raw : RawLogging) : res Error LoggingSection :=
  let? level := log_level_from_str (rlog_level raw) in
  let? facility := syslog_facility_from_str (rlog_syslog_facility raw) in
  Ok (MkLoggingSection level facility (rlog_journald_priority raw)).

Definition locking_mode (raw : RawPkcs11LockingMode) : LockingMode :=
  match raw with RawOs => LockOs | RawMutex => LockMutex end.

(** [ValidatedConfig::try_from]. *)
Definition try_from (astra : bool) (raw : RawConfig) : io W Error ValidatedConfig :=
  let! trust := validate_trust (raw_trust raw) in
  let! host_identity := lift (validate_host_identity (raw_host_identity raw)) in
  let! user_mappings := lift (validate_user_mappings (raw_user_mapping raw)) in
  let! logging := lift (validate_logging (raw_logging raw)) in
  let! hooks := lift (map_err HookValidation (res_map validate_hook (raw_hooks raw))) in
  let backend := match raw_crypto_backend raw with
                 | RawOpenssl => BackendOpenssl
                 | RawPkcs11Native => Pkcs11Native
                 end in
  let! gost_engine_path := validate_gost_engine_path raw backend in
  let mode := match raw_mode raw with
              | RawModePkcs12 => ModePkcs12
              | RawModePkcs11 => ModePkcs11
              end in
  do! lift (validate_pkcs11_section raw mode);
  let! pattern := lift (validate_pkcs12_path_pattern (raw_pkcs12_path_pattern raw)) in
  let! partitions := lift (validate_max_usb_partitions (raw_max_usb_partitions raw)) in
  let! monitor := lift (validate_monitor raw (raw_monitor raw) (raw_monitor_fail_mode raw)) in
  let! overrides := io_map validate_trust_override (raw_trust_override raw) in
  let! mac := lift (validate_mac astra (raw_mac raw)) in
  let! greeter := lift (validate_fly_dm_greeter (raw_fly_dm_greeter raw)) in
  fret {| cfg_crypto_backend := backend;
          cfg_mode := mode;
          cfg_pkcs11_module := raw_pkcs11_module raw;
          cfg_pkcs11_token_label := raw_pkcs11_token_label raw;
          cfg_pkcs11_object_label := raw_pkcs11_object_label raw;
          cfg_pkcs11_max_pin_attempts := raw_pkcs11_max_pin_attempts raw;
          cfg_pkcs11_locking_mode := locking_mode (raw_pkcs11_locking_mode raw);
          cfg_pkcs11_pin_prompt := raw_pkcs11_pin_prompt raw;
          cfg_pkcs11_slot_wait := raw_pkcs11_slot_wait_seconds raw * NANOS_PER_SEC;
          cfg_pkcs12_path_pattern := pattern;
          cfg_pkcs12_pin_prompt := raw_pkcs12_pin_prompt raw;
          cfg_gost_engine_path := gost_engine_path;
          cfg_usb_wait := raw_usb_wait_seconds raw * NANOS_PER_SEC;
          cfg_max_usb_partitions := partitions;
          cfg_on_usb_removed := usb_removed_action (raw_on_usb_removed raw);
          cfg_usb_removed_grace := raw_usb_removed_grace_seconds raw * NANOS_PER_SEC;
          cfg_suspend_grace := raw_suspend_grace_seconds raw * NANOS_PER_SEC;
          cfg_monitor_fail_mode := monitor_fail_mode (raw_monitor_fail_mode raw);
          cfg_monitor := monitor;
          cfg_trust := trust;
          cfg_trust_overrides := overrides;
          cfg_host_identity := host_identity;
          cfg_user_mappings := user_mappings;
          cfg_logging := logging;
          cfg_hooks := hooks;
          cfg_mac := mac;
          cfg_fly_dm_greeter := greeter |}.

Definition load_validated_config (astra : bool) (path : string) : io W Error ValidatedConfig :=
  let! text := io_map_err (ErrIo ("read config " +:+ path)) (read_to_string path) in
  let! raw := lift (map_err (ConfigParse path) (of_sum (toml_from_str text))) in
  try_from astra raw.

End loading.

(** ** What an accepted configuration satisfies *)

(** The unsigned fields of the raw records, which the decoder guarantees. *)
Definition raw_typed (raw : RawConfig) : Prop :=
  0 ≤ raw_usb_wait_seconds raw ∧ 0 ≤ default 0 (raw_max_usb_partitions raw) ∧
  0 ≤ raw_usb_removed_grace_seconds raw ∧ 0 ≤ raw_suspend_grace_seconds raw ∧
  0 ≤ default 0 (rmon_usb_removed_grace_seconds (raw_monitor raw)) ∧
  0 ≤ default 0 (rmon_suspend_grace_seconds (raw_monitor raw)) ∧
  0 ≤ default 0 (rmon_max_concurrent_connections (raw_monitor raw)) ∧
  0 ≤ rt_max_chain_depth (raw_trust raw) ∧ 0 ≤ rt_clock_skew_seconds (raw_trust raw) ∧
  Forall (λ h, 0 ≤ rh_timeout_seconds h) (raw_hooks raw) ∧
  (∀ g, raw_fly_dm_greeter raw = Some g → 0 ≤ default 0 (rfg_wallpaper_font_size g)).

Definition label_wf (l : string) : Prop := l ≠ "" ∧ str_len l ≤ 64 ∧ zb 0 ∉ bytes_of l.

Definition prompt_wf (p : string) : Prop := p ≠ "" ∧ str_len p ≤ 128.

(** A relative path without dot segments. *)
Definition pattern_wf (p : string) : Prop :=
  p ≠ "" ∧ starts_with p "/" = false ∧ Forall (λ seg, seg ≠ ".." ∧ seg ≠ ".") (str_split (zb 0x2F) p).

Definition hook_wf (h : HookConfig) : Prop :=
  (∃ cmd args, hk_command h = cmd :: args ∧ is_absolute cmd = true) ∧
  1 * NANOS_PER_SEC ≤ hk_timeout h ≤ 120 * NANOS_PER_SEC ∧
  Forall (λ kv, Forall (λ part, match part with
                               | Var v => is_var_allowed (hk_stage h) v = true
                               | Literal _ => True
                               end) kv.2) (hk_env h).

Record monitor_wf (m : MonitorSection) : Prop := {
  mw_socket : is_absolute (mon_socket_path m) = true;
  mw_state_file : is_absolute (mon_state_file_path m) = true;
  mw_timeout : 100 * NANOS_PER_MILLI ≤ mon_timeout m ≤ 60000 * NANOS_PER_MILLI;
  mw_hook_path : match mon_on_usb_removed_hook_path m with
                 | Some p => mon_on_usb_removed m = DoHook ∧ is_absolute p = true
                 | None => mon_on_usb_removed m ≠ DoHook
                 end;
  mw_grace : 0 ≤ mon_usb_removed_grace m ≤ 600 * NANOS_PER_SEC;
  mw_suspend : 0 ≤ mon_suspend_grace m ≤ 600 * NANOS_PER_SEC;
  mw_idle : 1 * NANOS_PER_SEC ≤ mon_idle_timeout m ≤ 3600 * NANOS_PER_SEC;
  mw_conns : 1 ≤ mon_max_concurrent_connections m ≤ 4096;
}.

Record trust_wf (t : TrustSection) : Prop := {
  tw_depth : 1 ≤ ts_max_chain_depth t ≤ 16;
  tw_skew : 0 ≤ ts_clock_skew_seconds t ≤ 600;
  tw_pins : pin_enabled (ts_pinning t) = true →
    Forall (λ e, pin_shape e = true) (pin_allowed_root_spki_sha256 (ts_pinning t));
}.

Record host_identity_wf (h : HostIdentitySection) : Prop := {
  hw_sources : hi_sources h ≠ [];
  hw_unique : NoDup (hi_sources h);
  hw_command : ∀ c, hi_custom_command h = Some c → is_absolute c = true;
  hw_timeout : 1 * NANOS_PER_SEC ≤ hi_custom_command_timeout h ≤ 30 * NANOS_PER_SEC;
}.

Record greeter_wf (g : FlyDmGreeterSection) : Prop := {
  gw_target : is_absolute (fg_wallpaper_target g) = true;
  gw_backup : is_absolute (fg_wallpaper_backup g) = true;
  gw_font : is_absolute (fg_wallpaper_font g) = true;
  gw_size : 0 < fg_wallpaper_font_size g;
  gw_color : length (fg_wallpaper_text_color g) = 4%nat;
}.

(** [None] of an absent label, or a well-formed one. *)
Definition opt_wf {A} (P : A → Prop) (o : option A) : Prop := ∀ a, o = Some a → P a.

Record config_wf (astra : bool) (shape : string → bool) (cfg : ValidatedConfig) : Prop := {
  cw_trust : trust_wf (cfg_trust cfg);
  cw_host : host_identity_wf (cfg_host_identity cfg);
  cw_users : NoDup (um_pam_user <$> cfg_user_mappings cfg) ∧
             Forall (λ k, shape (um_pam_user k) = true) (cfg_user_mappings cfg);
  cw_hooks : Forall hook_wf (cfg_hooks cfg);
  cw_module : cfg_mode cfg = ModePkcs11 → is_Some (cfg_pkcs11_module cfg);
  cw_gost : is_Some (cfg_gost_engine_path cfg) → cfg_crypto_backend cfg = BackendOpenssl;
  cw_labels : opt_wf label_wf (cfg_pkcs11_token_label cfg) ∧
              opt_wf label_wf (cfg_pkcs11_object_label cfg) ∧
              opt_wf prompt_wf (cfg_pkcs11_pin_prompt cfg);
  cw_attempts : 1 ≤ cfg_pkcs11_max_pin_attempts cfg ≤ 5;
  cw_slot_wait : 0 ≤ cfg_pkcs11_slot_wait cfg ≤ 60 * NANOS_PER_SEC;
  cw_pattern : opt_wf pattern_wf (cfg_pkcs12_path_pattern cfg);
  cw_partitions : 1 ≤ cfg_max_usb_partitions cfg ≤ 64;
  cw_monitor : monitor_wf (cfg_monitor cfg);
  cw_overrides : Forall (λ o, to_when_host_id_in o ≠ []) (cfg_trust_overrides cfg);
  cw_mac : cert_integrity (cfg_mac cfg) = Required →
           astra = true ∧ mac_runtime (cfg_mac cfg) ≠ RuntimeDisabled;
  cw_mac_runtime : mac_runtime (cfg_mac cfg) = RuntimeRequiredMode → astra = true;
  cw_greeter : greeter_wf (cfg_fly_dm_greeter cfg);
}.

(** The file was readable text with a certificate marker when it was looked at. *)
Definition pem_seen {W} {FS : Fs W} (path : string) : Prop :=
  ∃ w w' text, read_to_string path w = (w', Ok text) ∧ str_contains text PEM_MARKER = true.

(** ** A sample file system, library and configuration *)

Module ConfigSample.

(** Files by path; nothing changes. *)
Definition files : Type := list (string * list byte).

Definition lookup_file (path : string) (fs : files) : IoError + list byte :=
  match List.find (λ p, bool_decide (p.1 = path)) fs with
  | Some p => inr p.2
  | None => inl (MkIoError KindNotFound "No such file or directory (os error 2)")
  end.

#[export] Instance fs : Fs files := {|
  fs_read path w := (w, lookup_file path w);
  fs_metadata path w :=
    (w, match lookup_file path w with
        | inr bs => inr (MkMetadata true false (zlen bs) 0x81A4)
        | inl e => inl e
        end);
|}.

Definition user_head (b : byte) : bool := in_range 0x61 0x7A b || bool_decide (b = zb 0x5F).

Definition user_tail (b : byte) : bool :=
  user_head b || in_range 0x30 0x39 b || bool_decide (b = zb 0x2D).

(** What the user pattern describes. *)
Definition user_shape (s : string) : bool :=
  match bytes_of s with
  | b :: r => user_head b && forallb user_tail r && bool_decide (length r ≤ 31)%nat
  | [] => false
  end.

#[export] Instance regex : RegexCrate := {|
  Regex := unit;
  Regex_new _ := inr tt;
  is_match _ := user_shape;
|}.

Definition trust : RawTrust :=
  MkRawTrust ["/ca.pem"] [] default_max_chain_depth 60 ["ecdsa-with-SHA256"] raw_revocation_default
    raw_pinning_default.

Definition raw (mode : RawMode) : RawConfig :=
  minimal_raw RawPkcs11Native mode trust
    (MkRawHostIdentity ["machine_id"] RawDeny None None default_custom_command_timeout)
    (MkRawLogging "info" "authpriv" false).

#[export] Instance toml : Toml := λ _, inr (raw RawModePkcs12).

Definition disk : files :=
  [("/etc/pam_certauth/config.toml", []); ("/ca.pem", bytes_of (PEM_MARKER +:+ "root"));
   ("/etc/machine-id", bytes_of "0123abcd")].

(** The configuration the tests of the later files run on. *)
Definition config (mode : Mode) (mac : MacPolicy) : ValidatedConfig :=
  {| cfg_crypto_backend := Pkcs11Native;
     cfg_mode := mode;
     cfg_pkcs11_module := Some "/lib/p11.so";
     cfg_pkcs11_token_label := None;
     cfg_pkcs11_object_label := None;
     cfg_pkcs11_max_pin_attempts := 3;
     cfg_pkcs11_locking_mode := LockOs;
     cfg_pkcs11_pin_prompt := None;
     cfg_pkcs11_slot_wait := 0;
     cfg_pkcs12_path_pattern := None;
     cfg_pkcs12_pin_prompt := None;
     cfg_gost_engine_path := None;
     cfg_usb_wait := 10 * NANOS_PER_SEC;
     cfg_max_usb_partitions := 8;
     cfg_on_usb_removed := DoLock;
     cfg_usb_removed_grace := 0;
     cfg_suspend_grace := 0;
     cfg_monitor_fail_mode := Strict;
     cfg_monitor :=
       MkMonitorSection DEFAULT_MONITORD_SOCKET (2000 * NANOS_PER_MILLI) Strict
         DEFAULT_MONITORD_STATE_FILE DoLock 0 0 None (30 * NANOS_PER_SEC) 64;
     cfg_trust :=
       MkTrustSection ["/ca.pem"] [] (MkRevocationSection RevNone []) ["ecdsa-with-SHA256"]
         (MkPinningSection false []) 5 60;
     cfg_trust_overrides := [];
     cfg_host_identity := MkHostIdentitySection [MachineId] FallbackDeny None None
                            (5 * NANOS_PER_SEC);
     cfg_user_mappings := [];
     cfg_logging := MkLoggingSection LevelInfo FacAuthpriv false;
     cfg_hooks := [];
     cfg_mac := mac;
     cfg_fly_dm_greeter := fly_dm_greeter_default |}.

End ConfigSample.

(** ** One lemma per validator *)

(** Splits the guards of a validator that answered [Ok]. *)
Ltac guards H :=
  repeat match type of H with
  | (if ?c then _ else _) = Ok _ => let E := fresh "G" in destruct c eqn:E; [try discriminate H|try discriminate H]
  | rbind _ _ = Ok _ => let a := fresh "a" in let E := fresh "E" in
      apply rbind_Ok_inv in H as (a & E & H)
  | (match ?o with Some _ => _ | None => _ end) = Ok _ => destruct o eqn:?; try discriminate H
  end.

Lemma validate_max_usb_partitions_wf raw v :
  0 ≤ default 0 raw → validate_max_usb_partitions raw = Ok v → 1 ≤ v ≤ 64.
Proof.
  unfold validate_max_usb_partitions, MAX_USB_PARTITIONS_HARD_CAP, DEFAULT_MAX_USB_PARTITIONS.
  intros Hr H. guards H. injection H as <-. destruct raw; simpl in *; lia.
Qed.

Lemma validate_pattern_wf raw p :
  validate_pkcs12_path_pattern raw = Ok (Some p) → raw = Some p ∧ pattern_wf p.
Proof.
  unfold validate_pkcs12_path_pattern. intros H. destruct raw as [v|]; [|done].
  guards H. injection H as <-. split; [done|]. split_and!; [done..|].
  apply Forall_forall. intros seg Hs. apply not_true_iff_false in G1.
  split; intros ->; apply G1; apply existsb_exists; eexists; (split; [by apply list_elem_of_In|done]).
Qed.

Lemma validate_label_wf field l : validate_pkcs11_label field l = Ok tt → label_wf l.
Proof.
  unfold validate_pkcs11_label, PKCS11_LABEL_MAX_LEN. intros H. guards H.
  split_and!; [done|lia|done].
Qed.

Lemma opt_check_Ok {A} (f : A → res Error unit) o P :
  (∀ a, f a = Ok tt → P a) → opt_check f o = Ok tt → opt_wf P o.
Proof. intros Hf H a ->. by apply Hf. Qed.

Lemma validate_pkcs11_section_wf raw mode :
  validate_pkcs11_section raw mode = Ok tt →
  (mode = ModePkcs11 → is_Some (raw_pkcs11_module raw)) ∧
  opt_wf label_wf (raw_pkcs11_token_label raw) ∧ opt_wf label_wf (raw_pkcs11_object_label raw) ∧
  opt_wf prompt_wf (raw_pkcs11_pin_prompt raw) ∧
  1 ≤ raw_pkcs11_max_pin_attempts raw ≤ 5 ∧ 0 ≤ raw_pkcs11_slot_wait_seconds raw ≤ 60.
Proof.
  unfold validate_pkcs11_section. intros H. destruct (decide _) as [|Hm]; [done|].
  apply rbind_Ok_inv in H as ([] & Ht & H). apply rbind_Ok_inv in H as ([] & Ho & H).
  destruct (bool_decide (1 ≤ _ ≤ 5)) eqn:G1; [|done]. apply bool_decide_eq_true in G1.
  destruct (bool_decide (0 ≤ _ ≤ 60)) eqn:G2; [|done]. apply bool_decide_eq_true in G2.
  simpl in H. split_and!; try lia.
  - intros ->. destruct (raw_pkcs11_module raw); [eauto|]. by destruct Hm.
  - eapply opt_check_Ok, Ht. apply validate_label_wf.
  - eapply opt_check_Ok, Ho. apply validate_label_wf.
  - eapply opt_check_Ok, H. intros p Hp. simpl in Hp. guards Hp. split; [done|].
    unfold PKCS11_PROMPT_MAX_LEN in *. lia.
Qed.

Lemma validate_sources_wf raw seen l :
  NoDup seen → validate_sources raw seen = Ok l → NoDup l.
Proof.
  revert seen. induction raw as [|s raw IH]; intros seen Hn H; simpl in H; [by injection H as <-|].
  apply rbind_Ok_inv in H as (k & _ & H). destruct (decide (k ∈ seen)); [done|].
  eapply IH, H. apply NoDup_app. split_and!; [done| |apply NoDup_singleton].
  intros x Hx Hk. apply list_elem_of_singleton in Hk as ->. done.
Qed.

Lemma validate_host_identity_wf raw h : validate_host_identity raw = Ok h → host_identity_wf h.
Proof.
  unfold validate_host_identity. intros H. apply rbind_Ok_inv in H as (l & Hl & H).
  destruct (decide (l = [])); [done|]. apply rbind_Ok_inv in H as ([] & Hc & H). injection H as <-.
  split; simpl; [done|by eapply validate_sources_wf, Hl; constructor| |].
  - intros c Hs. rewrite Hs in Hc. by destruct (is_absolute c).
  - unfold NANOS_PER_SEC. lia.
Qed.

Lemma validate_hook_path_wf action raw o :
  validate_hook_path action raw = Ok o →
  match o with Some p => action = DoHook ∧ is_absolute p = true | None => action ≠ DoHook end.
Proof.
  unfold validate_hook_path. intros H. destruct (decide (action = DoHook)) as [->|].
  - apply rbind_Ok_inv in H as (p & _ & H). destruct (is_absolute p) eqn:Hp; [|done].
    by injection H as <-.
  - destruct raw; [done|]. by injection H as <-.
Qed.

Lemma validate_monitor_wf top raw legacy m :
  0 ≤ raw_usb_removed_grace_seconds top → 0 ≤ raw_suspend_grace_seconds top →
  0 ≤ default 0 (rmon_usb_removed_grace_seconds raw) →
  0 ≤ default 0 (rmon_suspend_grace_seconds raw) →
  0 ≤ default 0 (rmon_max_concurrent_connections raw) →
  validate_monitor top raw legacy = Ok m → monitor_wf m.
Proof.
  intros Hg Hs Hg' Hs' Hc' H. unfold validate_monitor in H.
  destruct (is_absolute (default _ (rmon_socket_path raw))) eqn:Hsock; [|done].
  destruct (is_absolute (default _ (rmon_state_file_path raw))) eqn:Hstate; [|done].
  destruct (bool_decide (MONITORD_TIMEOUT_MS_MIN ≤ _ ≤ _)) eqn:Ht; [|done].
  apply bool_decide_eq_true in Ht. cbn [negb] in H.
  apply rbind_Ok_inv in H as (fm & _ & H). apply rbind_Ok_inv in H as (hp & Hhp & H).
  destruct (decide (MONITORD_USB_REMOVED_GRACE_MAX < _)) as [|G1]; [done|].
  destruct (decide (MONITORD_SUSPEND_GRACE_MAX < _)) as [|G2]; [done|].
  destruct (bool_decide (MONITORD_IDLE_TIMEOUT_MIN ≤ _ ≤ _)) eqn:Hi; [|done].
  apply bool_decide_eq_true in Hi. cbn [negb] in H.
  destruct (decide (_ ∨ _)) as [|Hc]; [done|]. injection H as <-.
  unfold MONITORD_TIMEOUT_MS_MIN, MONITORD_TIMEOUT_MS_MAX, MONITORD_USB_REMOVED_GRACE_MAX,
    MONITORD_SUSPEND_GRACE_MAX, MONITORD_IDLE_TIMEOUT_MIN, MONITORD_IDLE_TIMEOUT_MAX,
    MONITORD_MAX_CONNS_CAP, NANOS_PER_MILLI, NANOS_PER_SEC in *.
  split; unfold NANOS_PER_MILLI, NANOS_PER_SEC; cbn -[Z.mul Z.le]; try done.
  - lia.
  - by eapply validate_hook_path_wf.
  - destruct (rmon_usb_removed_grace_seconds raw); simpl in *; lia.
  - destruct (rmon_suspend_grace_seconds raw); simpl in *; lia.
  - lia.
  - destruct (rmon_max_concurrent_connections raw); simpl in *; [lia|].
    unfold DEFAULT_MONITORD_MAX_CONNS. lia.
Qed.

Lemma validate_mac_wf astra raw m :
  validate_mac astra raw = Ok m →
  (cert_integrity m = Required → astra = true ∧ mac_runtime m ≠ RuntimeDisabled) ∧
  (mac_runtime m = RuntimeRequiredMode → astra = true).
Proof.
  unfold validate_mac. set (ci := match rmac_cert_integrity raw with _ => _ end).
  set (rt := match rmac_runtime raw with _ => _ end). intros H.
  destruct (decide _) as [|G1]; [done|]. destruct (decide _) as [|G2]; [done|].
  destruct (decide _) as [|G3]; [done|]. apply rbind_Ok_inv in H as (fb & _ & H).
  injection H as <-. simpl. destruct astra; naive_solver.
Qed.

Lemma validate_mappings_wf `{RegexCrate} re seen raw l :
  validate_mappings re seen raw = Ok l →
  NoDup (um_pam_user <$> l) ∧ Forall (λ k, um_pam_user k ∉ seen) l ∧
  Forall (λ k, is_match re (um_pam_user k) = true) l.
Proof.
  revert seen l. induction raw as [|k raw IH]; intros seen l Hl; simpl in Hl.
  { injection Hl as <-. split_and!; constructor. }
  destruct (is_match re (rum_pam_user k)) eqn:Hm; [|done]. simpl in Hl.
  case_bool_decide as Hs; [done|].
  apply rbind_Ok_inv in Hl as (c & _ & Hl). apply rbind_Ok_inv in Hl as (r & Hr & Hl).
  injection Hl as <-. apply IH in Hr as (Hn & Hns & Hma). rewrite fmap_cons. simpl. split_and!.
  - constructor; [|done]. intros (y & He & Hin)%list_elem_of_fmap.
    rewrite Forall_forall in Hns. apply Hns in Hin. apply Hin. rewrite <-He. by left.
  - constructor; [done|]. eapply Forall_impl; [exact Hns|]. intros ? Hx ?. apply Hx. by right.
  - by constructor.
Qed.

Lemma check_vars_wf stage parts :
  check_vars stage parts = Ok tt →
  Forall (λ part, match part with
                  | Var v => is_var_allowed stage v = true
                  | Literal _ => True
                  end) parts.
Proof.
  induction parts as [|[s|v] r IH]; simpl; intros H; [constructor|constructor; auto|].
  destruct (is_var_allowed stage v) eqn:Hv; [|done]. constructor; auto.
Qed.

Lemma validate_env_wf stage raw env l :
  let P := λ kv : string * Template,
    Forall (λ part, match part with
                    | Var v => is_var_allowed stage v = true
                    | Literal _ => True
                    end) kv.2 in
  Forall P env → validate_env stage raw env = Ok l → Forall P l.
Proof.
  intros P. revert env. induction raw as [|[k v] raw IH]; intros env He H; simpl in H.
  { by injection H as <-. }
  apply rbind_Ok_inv in H as (t & _ & H). apply rbind_Ok_inv in H as ([] & Hc & H).
  eapply IH, H. apply bt_insert_Forall; [|done]. by apply check_vars_wf.
Qed.

Lemma validate_hook_wf raw h : 0 ≤ rh_timeout_seconds raw → validate_hook raw = Ok h → hook_wf h.
Proof.
  unfold validate_hook. intros Ht H. destruct (rh_command raw) as [|c r] eqn:Hc; [done|].
  destruct (is_absolute c) eqn:Ha; [|done]. simpl in H. destruct (decide _) as [|G]; [done|].
  apply rbind_Ok_inv in H as (env & He & H). injection H as <-.
  unfold hook_wf, NANOS_PER_SEC. cbn -[Z.mul Z.le]. split_and!; [by exists c, r|lia|lia|].
  eapply validate_env_wf, He. constructor.
Qed.

Lemma parse_hex_color_length s c : parse_hex_color s = Ok c → length c = 4%nat.
Proof.
  unfold parse_hex_color. intros H. destruct s as [|a r]; [done|].
  destruct (negb _); [done|]. destruct (negb _); [done|].
  destruct (decide _); [|destruct (decide _); [|done]]; invert_ok H; by subst.
Qed.

Lemma absolute_path_wf field value dflt p :
  is_absolute dflt = true → absolute_path field value dflt = Ok p → is_absolute p = true.
Proof.
  unfold absolute_path. intros Hd H. destruct value as [v|]; [|by injection H as <-].
  destruct (is_absolute v) eqn:Hv; [|done]. by injection H as <-.
Qed.

Lemma validate_fly_dm_greeter_wf raw g :
  (∀ r, raw = Some r → 0 ≤ default 0 (rfg_wallpaper_font_size r)) →
  validate_fly_dm_greeter raw = Ok g → greeter_wf g.
Proof.
  unfold validate_fly_dm_greeter. intros Hs H. destruct raw as [r|]; [|by injection H as <-].
  specialize (Hs r eq_refl).
  apply rbind_Ok_inv in H as (t & Ht & H). apply rbind_Ok_inv in H as (b & Hb & H).
  apply rbind_Ok_inv in H as (f & Hf & H). apply rbind_Ok_inv in H as (c & Hc & H).
  apply rbind_Ok_inv in H as (v & Hv & H). destruct (decide _) as [|Hz]; [done|].
  injection H as <-. split; cbn [fg_wallpaper_target fg_wallpaper_backup fg_wallpaper_font
    fg_wallpaper_font_size fg_wallpaper_text_color].
  - by eapply absolute_path_wf, Ht.
  - by eapply absolute_path_wf, Hb.
  - by eapply absolute_path_wf, Hf.
  - destruct (rfg_wallpaper_font_size r); simpl in *; lia.
  - destruct (rfg_wallpaper_text_color r); [|by injection Hc as <-].
    by eapply parse_hex_color_length, map_err_Ok_inv.
Qed.

Section loading_wf.
Context {W : Type} {FS : Fs W} {RX : RegexCrate} {TM : Toml}.

Lemma validate_pem_Ok path w w' : validate_pem path w = (w', Ok tt) → pem_seen path.
Proof.
  unfold validate_pem. intros H. peel H w1 text Ht. apply io_map_err_Ok_inv in Ht.
  apply lift_Ok_inv in H as [_ H]. destruct (str_contains text _) eqn:Hc; [|done].
  by exists w, w1, text.
Qed.

Lemma io_each_pem l w w' : io_each validate_pem l w = (w', Ok tt) → Forall pem_seen l.
Proof.
  intros H%io_each_Ok. eapply Forall_impl; [exact H|]. intros p (w1 & w2 & Hp).
  by eapply validate_pem_Ok.
Qed.

Lemma validate_trust_wf raw w w' t :
  0 ≤ rt_max_chain_depth raw → 0 ≤ rt_clock_skew_seconds raw →
  validate_trust raw w = (w', Ok t) →
  trust_wf t ∧ Forall pem_seen (ts_anchors t ++ ts_intermediates t).
Proof.
  unfold validate_trust, MAX_CHAIN_DEPTH_HARD_CAP. intros Hd Hs H.
  destruct (decide _); [done|]. destruct (decide _); [done|]. destruct (decide _); [done|].
  peel H w1 u1 H1. peel H w2 u2 H2. peel H w3 u3 H3. peel H w4 u4 H4. injection H as ? <-.
  destruct u1. apply io_each_pem in H1. split; [|done].
  split; cbn -[Z.le]; [lia|lia|]. intros Hp. rewrite Hp in H4. apply lift_Ok_inv in H4 as [_ H4].
  destruct (List.find _ _) eqn:Hf; [done|]. apply Forall_forall. intros e He.
  eapply find_none in Hf; [|by apply list_elem_of_In]. by apply negb_false_iff in Hf.
Qed.

Lemma validate_gost_Ok raw backend w w' o :
  validate_gost_engine_path raw backend w = (w', Ok o) → is_Some o → backend = BackendOpenssl.
Proof.
  unfold validate_gost_engine_path. destruct (raw_gost_engine_path raw); [|by intros [= ? <-] [? ?]].
  case_bool_decide; [done|]. done.
Qed.

Lemma bts_insert_nonempty x l : bts_insert x l ≠ [].
Proof. destruct l as [|y l]; simpl; [done|]. by destruct (String.compare x y). Qed.

Lemma btree_set_nonempty l : l ≠ [] → btree_set l ≠ [].
Proof.
  unfold btree_set. destruct l as [|x l]; [done|]. intros _. simpl.
  assert (∀ k acc, acc ≠ [] → foldl (λ acc x, bts_insert x acc) acc k ≠ []) as Hf.
  { induction k as [|y k IH]; intros acc Ha; [done|]. apply IH, bts_insert_nonempty. }
  by apply Hf.
Qed.

Lemma validate_trust_override_wf raw w w' o :
  validate_trust_override raw w = (w', Ok o) → to_when_host_id_in o ≠ [].
Proof.
  unfold validate_trust_override. intros H. destruct (decide _) as [|Hn]; [done|].
  peel H w1 u Hu. injection H as ? <-. simpl. by apply btree_set_nonempty.
Qed.

End loading_wf.

(** ** Loading does not unwind *)

Lemma hexdigit_boundary s i :
  forallb is_ascii_hexdigit (bytes_of s) = true → 0 ≤ i ≤ str_len s → is_char_boundary s i = true.
Proof.
  unfold is_char_boundary, str_len, zlen. intros Hh Hi.
  apply orb_true_iff. right. destruct (bytes_of s !! Z.to_nat i) as [b|] eqn:Hb.
  - rewrite forallb_forall in Hh. apply list_elem_of_lookup_2, list_elem_of_In, Hh in Hb.
    unfold is_ascii_hexdigit, in_range in *. rewrite !orb_true_iff, !bool_decide_eq_true in Hb.
    rewrite bool_decide_eq_false_2 by lia. done.
  - apply lookup_ge_None in Hb. apply bool_decide_eq_true. unfold zlen. lia.
Qed.

Lemma hex_pair_no_panic s a b :
  forallb is_ascii_hexdigit (bytes_of s) = true → 0 ≤ a ≤ b → b ≤ str_len s →
  no_panic (hex_pair s a b).
Proof.
  intros Hh Ha Hb. unfold hex_pair, str_slice.
  rewrite !hexdigit_boundary by (done || lia). simpl. rewrite slice_in by (done || lia).
  simpl. auto with rust.
Qed.

Lemma parse_hex_color_no_panic s : no_panic (parse_hex_color s).
Proof.
  unfold parse_hex_color. destruct s as [|c r]; [done|]. destruct (negb _); [done|].
  destruct (forallb _ _) eqn:Hh; [|done]. simpl.
  destruct (decide _) as [Hl|_]; [|destruct (decide _) as [Hl|_]; [|done]];
    repeat (apply rbind_no_panic; [apply hex_pair_no_panic; (done || lia)|intros ? _]); done.
Qed.

Lemma validate_fly_dm_greeter_no_panic raw : no_panic (validate_fly_dm_greeter raw).
Proof.
  unfold validate_fly_dm_greeter, absolute_path, invalid.
  pose proof parse_hex_color_no_panic. auto 20 with rust.
Qed.

Lemma validate_sources_no_panic raw seen : no_panic (validate_sources raw seen).
Proof.
  revert seen. induction raw as [|s raw IH]; intros seen; simpl; [done|].
  unfold source_kind_from_str, invalid. apply rbind_no_panic; [auto 20 with rust|]. auto with rust.
Qed.

Lemma validate_host_identity_no_panic raw : no_panic (validate_host_identity raw).
Proof.
  unfold validate_host_identity, invalid. pose proof validate_sources_no_panic. auto 20 with rust.
Qed.

Lemma validate_mappings_no_panic `{RegexCrate} re seen raw : no_panic (validate_mappings re seen raw).
Proof.
  revert seen. induction raw as [|k raw IH]; intros seen; simpl; [done|].
  unfold validate_criteria, invalid. auto 20 with rust.
Qed.

Lemma validate_pkcs11_section_no_panic raw mode : no_panic (validate_pkcs11_section raw mode).
Proof.
  unfold validate_pkcs11_section, opt_check, validate_pkcs11_label, invalid. auto 20 with rust.
Qed.

Lemma validate_monitor_no_panic top raw legacy : no_panic (validate_monitor top raw legacy).
Proof.
  unfold validate_monitor, validate_fail_mode, validate_hook_path, invalid. auto 30 with rust.
Qed.

Lemma validate_mac_no_panic astra raw : no_panic (validate_mac astra raw).
Proof. unfold validate_mac, validate_fallback_label, invalid. auto 20 with rust. Qed.

Lemma template_loop_no_panic n s literal name parts :
  (String.length s ≤ n)%nat → no_panic (template_loop s literal name parts).
Proof.
  revert s literal name parts. induction n as [|n IH]; intros [|c r] literal name parts Hn;
    simpl in Hn; try lia; destruct name; simpl; try done.
  - case_decide; [case_decide; [done|]|apply IH; lia]. apply rbind_no_panic.
    + unfold var_from_str. by case_match.
    + intros v _. apply IH. lia.
  - case_decide; [apply IH; lia|]. destruct r as [|d r']; [apply IH; simpl in *; lia|].
    simpl in Hn. case_decide; [apply IH; lia|]. case_decide; apply IH; simpl; lia.
Qed.

Lemma validate_env_no_panic stage raw env : no_panic (validate_env stage raw env).
Proof.
  revert env. induction raw as [|[k v] raw IH]; intros env; simpl; [done|].
  apply rbind_no_panic; [by eapply map_err_no_panic, template_loop_no_panic|]. intros t _.
  apply rbind_no_panic; [|auto]. induction t as [|[|] t IHt]; simpl; [done|done|].
  by case_match.
Qed.

Lemma validate_hook_no_panic raw : no_panic (validate_hook raw).
Proof.
  unfold validate_hook. pose proof validate_env_no_panic. auto 20 with rust.
Qed.

Section loading_safe.
Context {W : Type} {FS : Fs W} {RX : RegexCrate} {TM : Toml}.

Lemma validate_pem_safe path : io_safe (validate_pem path).
Proof. unfold validate_pem. auto with rust. Qed.

Lemma validate_trust_safe raw : io_safe (validate_trust raw).
Proof.
  unfold validate_trust, require_file, invalid. pose proof validate_pem_safe. auto 20 with rust.
Qed.

Lemma validate_trust_override_safe raw : io_safe (validate_trust_override raw).
Proof.
  unfold validate_trust_override, invalid. pose proof validate_pem_safe. auto 20 with rust.
Qed.

Lemma try_from_safe astra raw : io_safe (try_from astra raw).
Proof.
  unfold try_from, validate_user_mappings, validate_logging, log_level_from_str,
    syslog_facility_from_str, validate_gost_engine_path, validate_pkcs12_path_pattern,
    validate_max_usb_partitions, invalid.
  pose proof validate_trust_safe. pose proof validate_host_identity_no_panic.
  pose proof validate_mappings_no_panic. pose proof validate_pkcs11_section_no_panic.
  pose proof validate_monitor_no_panic. pose proof validate_trust_override_safe.
  pose proof validate_mac_no_panic. pose proof validate_fly_dm_greeter_no_panic.
  assert (∀ l, no_panic (res_map validate_hook l)).
  { intros l. apply res_map_no_panic. intros h _. apply validate_hook_no_panic. }
  auto 40 with rust.
Qed.

Lemma load_validated_config_safe astra path : io_safe (load_validated_config astra path).
Proof. unfold load_validated_config. pose proof try_from_safe. auto 20 with rust. Qed.

End loading_safe.

Lemma accepted_config_wf {W} {FS : Fs W} {RX : RegexCrate} astra raw re w w' cfg
    (Htyped : raw_typed raw) (Hre : Regex_new user_mapping_pattern = inr re)
    (Hok : try_from astra raw w = (w', Ok cfg)) :
  config_wf astra (is_match re) cfg ∧
  Forall pem_seen (ts_anchors (cfg_trust cfg) ++ ts_intermediates (cfg_trust cfg)).
Proof.
  destruct Htyped as (_ & Hpt & Hg & Hs & Hg' & Hs' & Hc' & Hd & Hk & Hh & Hf).
  unfold try_from in Hok.
  peel Hok w1 trust H1. apply validate_trust_wf in H1 as [Ht Hp]; [|done..].
  peel Hok w2 host H2. apply lift_Ok_inv in H2 as [-> H2%validate_host_identity_wf].
  peel Hok w3 users H3. apply lift_Ok_inv in H3 as [-> H3]. unfold validate_user_mappings in H3.
  rewrite Hre in H3. apply validate_mappings_wf in H3 as (Hn & _ & Hm).
  peel Hok w4 logging H4. apply lift_Ok_inv in H4 as [-> _].
  peel Hok w5 hooks H5. apply lift_Ok_inv in H5 as [-> H5%map_err_Ok_inv%res_map_Ok].
  peel Hok w6 gost H6. pose proof (validate_gost_Ok _ _ _ _ _ H6) as Hgo.
  peel Hok w7 u H7. apply lift_Ok_inv in H7 as [-> H7]. destruct u.
  apply validate_pkcs11_section_wf in H7 as (Hmod & Htl & Hol & Hpp & Hat & Hsw).
  peel Hok w8 pat H8. apply lift_Ok_inv in H8 as [-> H8].
  peel Hok w9 parts H9. apply lift_Ok_inv in H9 as [-> H9%validate_max_usb_partitions_wf]; [|done].
  peel Hok w10 mon H10. apply lift_Ok_inv in H10 as [-> H10%validate_monitor_wf]; [|done..].
  peel Hok w11 ovs H11. apply io_map_Ok in H11.
  peel Hok w12 mac H12. apply lift_Ok_inv in H12 as [-> [Hm1 Hm2]%validate_mac_wf].
  peel Hok w13 gr H13. apply lift_Ok_inv in H13 as [-> H13%validate_fly_dm_greeter_wf]; [|done].
  injection Hok as ? <-. split; [|done].
  split; cbn -[Z.le Z.mul]; try done.
  - clear -H5 Hh. induction H5; [constructor|]. inversion_clear Hh.
    constructor; [by eapply validate_hook_wf|auto].
  - unfold NANOS_PER_SEC. lia.
  - intros p ->. by apply validate_pattern_wf in H8 as [_ ?].
  - clear -H11. induction H11 as [|x y l k (? & ? & Ho)]; constructor; [|done].
    by eapply validate_trust_override_wf.
Qed.

(** What a loaded configuration is, as far as its decoder keeps to the types
    of the fields. *)
Lemma loaded_config_wf {W} {FS : Fs W} {RX : RegexCrate} {TM : Toml} astra path re w w' cfg :
  (∀ text raw, toml_from_str text = inr raw → raw_typed raw) →
  Regex_new user_mapping_pattern = inr re →
  load_validated_config astra path w = (w', Ok cfg) → config_wf astra (is_match re) cfg.
Proof.
  intros Ht Hre H. unfold load_validated_config in H. peel H w1 text Hx. peel H w2 raw Hraw.
  apply lift_Ok_inv in Hraw as [-> Hraw%map_err_Ok_inv].
  destruct (toml_from_str text) as [e|raw'] eqn:Htoml; [done|]. injection Hraw as ->.
  apply (accepted_config_wf astra raw re w1 w'); [by eapply Ht|done..].
Qed.

(** C12: Every configuration the validator accepts is well-formed: the depth and
    the skew of the trust section, PIN attempts, waits, partitions and every
    limit of the monitor section are in range, paths that must be absolute are,
    the removal hook is set exactly in hook mode, the bundle pattern is relative
    without dot segments, users and identity sources are unique, hooks use only
    variables of their stage, the MAC policy is one the build can enforce, and
    every trust file was a readable certificate file when it was looked at. *)
Theorem try_from_wf {W} {FS : Fs W} {RX : RegexCrate} astra raw re w w' cfg
    (Htyped : raw_typed raw) (Hre : Regex_new user_mapping_pattern = inr re)
    (Hok : try_from astra raw w = (w', Ok cfg)) :
  config_wf astra (is_match re) cfg ∧
  Forall pem_seen (ts_anchors (cfg_trust cfg) ++ ts_intermediates (cfg_trust cfg)).
Proof. by apply (accepted_config_wf astra raw re w w'). Qed.

Lemma try_from_wf_witness :
  let (w, cfg) := try_from (FS := ConfigSample.fs) (RX := ConfigSample.regex) true
                    (ConfigSample.raw RawModePkcs12) ConfigSample.disk in
  ∃ c, cfg = Ok c ∧ config_wf true ConfigSample.user_shape c.
Proof.
  destruct (try_from _ _ _) as [w' r] eqn:He.
  assert (is_ok r = true) as Hr.
  { change (is_ok (w', r).2 = true). rewrite <-He. by vm_compute. }
  destruct r as [c|?|]; [|done..]. exists c. split; [done|].
  refine (proj1 (try_from_wf (FS := ConfigSample.fs) (RX := ConfigSample.regex) true
                   (ConfigSample.raw RawModePkcs12) tt _ _ _ _ eq_refl He)).
  unfold raw_typed. split_and!; first [simpl; lia | by intros | apply Forall_nil_2].
Defined.
