(* ===== verification/Exec.v ===== *)
(** * Running a hook ([hooks/{fork_exec,child_setup,rlimit,user,wait,pipe_reader,executor}.rs])

    The [ForkExecExecutor]: what the parent prepares, what the child does
    between [fork] and [execve], how its output is read and how it is waited
    for.  The system calls are the classes [UserDb], [ChildSys], [ProcSys] and
    [ExecSys] over an abstract world; [ChildKernel] states what the calls of
    the child do to the state a program inherits through [execve]. *)

From S2P Require Import Prelude Text Sys Certificate Hooks RawConfig Config.
Local Open Scope Z_scope.

(** ** Reading the output *)

Definition MAX_LINE_BYTES : Z := 4096.
Definition MAX_CAPTURED_BYTES : Z := 1024 * 1024.
Definition USIZE_MAX : Z := 2 ^ 64 - 1.
Definition NEWLINE : byte := zb 0x0A.

Inductive PipeStream : Type :=
| Stdout
| Stderr.

(** What reaches the log; the stage and the command that tag it are left out. *)
Inductive PipeLog : Type :=
| LineLogged (stream : PipeStream) (text : string)
| CapWarned (stream : PipeStream).

Record PipeReader := MkPipeReader {
  rd_stream : PipeStream;
  rd_partial : list byte;
  rd_line_count : Z;
  rd_bytes_ingested : Z;
  rd_capped : bool;
  rd_log : list PipeLog;
}.

Definition pipe_reader_new (stream : PipeStream) : PipeReader :=
  MkPipeReader stream [] 0 0 false [].

(** The text of a line. *)
Definition line_text (raw : list byte) : string :=
  if decide (MAX_LINE_BYTES < zlen raw)
  then from_utf8_lossy (take (Z.to_nat MAX_LINE_BYTES) raw) +:+ " … [truncated]"
  else from_utf8_lossy raw.

(** [emit_line] on the partial line, which [mem::take] empties. *)
Definition flush_partial (r : PipeReader) : PipeReader :=
  MkPipeReader (rd_stream r) [] (rd_line_count r + 1) (rd_bytes_ingested r) (rd_capped r)
    (rd_log r ++ [LineLogged (rd_stream r) (line_text (rd_partial r))]).

Definition feed_byte (r : PipeReader) (b : byte) : PipeReader :=
  if decide (b = NEWLINE) then flush_partial r
  else MkPipeReader (rd_stream r) (rd_partial r ++ [b]) (rd_line_count r) (rd_bytes_ingested r)
         (rd_capped r) (rd_log r).

Definition set_ingested (r : PipeReader) (n : Z) : PipeReader :=
  MkPipeReader (rd_stream r) (rd_partial r) (rd_line_count r) n (rd_capped r) (rd_log r).

Definition cap (r : PipeReader) : PipeReader :=
  MkPipeReader (rd_stream r) [] (rd_line_count r) (rd_bytes_ingested r) true
    (rd_log r ++ [CapWarned (rd_stream r)]).

Definition process_chunk (r : PipeReader) (chunk : list byte) : PipeReader :=
  let ingested := Z.min (rd_bytes_ingested r + zlen chunk) USIZE_MAX in
  let already := Z.max 0 (ingested - zlen chunk) in
  let remaining_budget := Z.max 0 (MAX_CAPTURED_BYTES - already) in
  let head_len := Z.min (zlen chunk) remaining_budget in
  let r := foldl feed_byte (set_ingested r ingested) (take (Z.to_nat head_len) chunk) in
  if bool_decide (head_len < zlen chunk) && negb (rd_capped r) then cap r else r.

(** [read_available] and [drain], on what the read gave. *)
Definition read_available (r : PipeReader) (got : IoError + list byte)
    : PipeReader * (IoError + Z) :=
  match got with
  | inr [] => (r, inr 0)
  | inr bs => (process_chunk r bs, inr (zlen bs))
  | inl e => if decide (io_kind e = KindWouldBlock) then (r, inr 0) else (r, inl e)
  end.

Definition drain (r : PipeReader) (got : IoError + list byte) : PipeReader * (IoError + Z) :=
  match got with
  | inl e => (r, inl e)
  | inr bs =>
      let r := process_chunk r bs in
      let r := if negb (bool_decide (rd_partial r = [])) && negb (rd_capped r)
               then flush_partial r else r in
      (r, inr (rd_line_count r))
  end.

(** ** Waiting *)

Inductive WaitStatus : Type :=
| Exited (code : Z)
| Signaled (signo : Z)
| StillAlive
| OtherStatus.

Record ExitStatus := MkExitStatus {
  es_code : option Z;
  es_signal : option Z;
}.

Definition from_wait_status (ws : WaitStatus) : ExitStatus :=
  match ws with
  | Exited code => MkExitStatus (Some code) None
  | Signaled signo => MkExitStatus None (Some signo)
  | _ => MkExitStatus None None
  end.

Definition conventional_code (s : ExitStatus) : Z :=
  match es_code s, es_signal s with
  | Some c, _ => c
  | None, Some s => 128 + s
  | None, None => -1
  end.

Record WaitOutcome := MkWaitOutcome {
  wo_status : ExitStatus;
  wo_killed_by_timeout : bool;
  wo_elapsed : Z;
}.

Definition SIGKILL : Z := 9.
Definition SIGTERM : Z := 15.

(** [waitpid] with and without [WNOHANG], [killpg] and [setpgid]; failures
    give the error number. *)
Class ProcSys (W : Type) := {
  waitpid_nohang : Z → W → W * (Z + WaitStatus);
  waitpid_block : Z → W → W * (Z + WaitStatus);
  killpg : Z → Z → W → W * (Z + unit);
  setpgid : Z → Z → W → W;
}.

Definition WAIT_POLL_INTERVAL : Z := 50 * NANOS_PER_MILLI.
Definition TERM_GRACE : Z := 2 * NANOS_PER_SEC.

(** Polls that are enough for a clock that [sleep] moves. *)
Definition wait_fuel (timeout : Z) : nat := Z.to_nat (timeout / WAIT_POLL_INTERVAL) + 2.

Section waiting.
Context {W : Type} {CLK : Clock W} {PS : ProcSys W}.

(** Both polling loops: a status, or [None] at the deadline. *)
Fixpoint poll_child (fuel : nat) (pid deadline : Z) : io W HookError (option WaitStatus) :=
  match fuel with
  | O => lift Panic
  | S f =>
      let! polled := ask (waitpid_nohang pid) in
      match polled with
      | inr StillAlive =>
          let! now := ask instant_now in
          if decide (deadline ≤ now) then fret None
          else do! ask (λ w, (sleep WAIT_POLL_INTERVAL w, tt)); poll_child f pid deadline
      | inr other => fret (Some other)
      | inl errno => if decide (errno = EINTR) then poll_child f pid deadline
                     else lift (Err (HookWait errno))
      end
  end.

Fixpoint reap_child (fuel : nat) (pid : Z) : io W HookError WaitStatus :=
  match fuel with
  | O => lift Panic
  | S f =>
      let! reaped := ask (waitpid_block pid) in
      match reaped with
      | inr ws => fret ws
      | inl errno => if decide (errno = EINTR) then reap_child f pid
                     else lift (Err (HookWait errno))
      end
  end.

(** A group that is gone is no error. *)
Definition signal_group (pgid signo : Z) : io W HookError unit :=
  let! r := ask (killpg pgid signo) in
  match r with
  | inr _ => fret tt
  | inl errno => if decide (errno = ESRCH) then fret tt else lift (Err (HookWait errno))
  end.

Definition wait_outcome (ws : WaitStatus) (killed : bool) (start : Z)
    : io W HookError WaitOutcome :=
  let! now := ask instant_now in
  fret (MkWaitOutcome (from_wait_status ws) killed (now - start)).

Definition escalate (reaps : nat) (pid pgid start : Z) : io W HookError WaitOutcome :=
  do! signal_group pgid SIGTERM;
  let! now := ask instant_now in
  let! ended := poll_child (wait_fuel TERM_GRACE) pid (now + TERM_GRACE) in
  match ended with
  | Some ws => wait_outcome ws true start
  | None =>
      do! signal_group pgid SIGKILL;
      let! ws := reap_child reaps pid in
      wait_outcome ws true start
  end.

(** [reaps] bounds the interrupted calls of the last, blocking wait. *)
Definition wait_with_timeout (reaps : nat) (pid pgid timeout : Z) : io W HookError WaitOutcome :=
  let! start := ask instant_now in
  let! ended := poll_child (wait_fuel timeout) pid (start + timeout) in
  match ended with
  | Some ws => wait_outcome ws false start
  | None => escalate reaps pid pgid start
  end.

End waiting.

(** ** Resource limits *)

Inductive Resource : Type :=
| RLIMIT_CPU
| RLIMIT_NOFILE
| RLIMIT_FSIZE
| RLIMIT_NPROC.

Record RlimitCaps := MkRlimitCaps {
  cpu_seconds : Z;
  max_open_files : Z;
  max_processes : Z;
  max_file_size_bytes : Z;
}.

Definition default_caps_for_timeout (timeout : Z) : RlimitCaps :=
  let secs := timeout / NANOS_PER_SEC in
  MkRlimitCaps (Z.max (Z.min (secs * 2) (2 ^ 64 - 1)) 2) 256 64 (1024 * 1024).

(** ** The user of a hook *)

Record PwEntry := MkPwEntry {
  pw_name : string;
  pw_uid : Z;
  pw_gid : Z;
  pw_dir : string;
}.

Class UserDb (W : Type) := {
  User_from_name : string → W → W * (Z + option PwEntry);
  getgrouplist : string → Z → W → W * (Z + list Z);
}.

(** [group_list] where [nix] has no [getgrouplist]: the buffer is doubled until
    the call succeeds or the buffer is as large as it may get.  The call gets
    the size of the buffer, and answers a code, a count and the buffer. *)
Class AppleGroups (W : Type) :=
  libc_getgrouplist : string → Z → Z → W → W * (Z * Z * list Z).

Definition EINVAL : Z := 22.
Definition C_INT_MAX : Z := 2 ^ 31 - 1.
Definition GROUPS_HARD_CAP : Z := 4096.

(** [u32::try_from(g).unwrap_or(0)]. *)
Definition to_gid (g : Z) : Z := if decide (0 ≤ g) then g else 0.

Fixpoint group_list_loop {W} {AG : AppleGroups W} (fuel : nat) (name : string) (basegid ngroups : Z)
    : io W Z (list Z) :=
  match fuel with
  | O => lift Panic
  | S f =>
      let! out := ask (libc_getgrouplist name basegid ngroups) in
      let '(rc, count, buf) := out in
      if decide (0 ≤ rc) then fret (to_gid <$> take (Z.to_nat count) buf)
      else if decide (GROUPS_HARD_CAP ≤ ngroups) then lift (Err EINVAL)
      else group_list_loop f name basegid (Z.min (Z.min (ngroups * 2) C_INT_MAX) GROUPS_HARD_CAP)
  end.

(** 32, 64, ..., 4096: eight calls at most. *)
Definition group_list_apple {W} {AG : AppleGroups W} (name : string) (primary_gid : Z)
    : io W Z (list Z) :=
  group_list_loop 8 name (if decide (primary_gid ≤ C_INT_MAX) then primary_gid else C_INT_MAX) 32.

Definition lookup_user {W} {UDB : UserDb W} (name : string) : io W HookError UserInfo :=
  if decide (name = "") then lift (Err (ChildSetup "empty username")) else
  if decide (zb 0 ∈ bytes_of name)
  then lift (Err (ChildSetup "username contains NUL byte")) else
  let! user := io_map_err (UserResolution name) (call (User_from_name name)) in
  let! user := lift (ok_or user (UserResolution name ENOENT)) in
  let! groups := io_map_err (UserResolution name) (call (getgrouplist name (pw_gid user))) in
  fret (MkUserInfo (pw_name user) (pw_uid user) (pw_gid user) groups (pw_dir user)).

(** ** The child *)

(** The calls between [fork] and [execve]; [true] where the call returned 0. *)
Class ChildSys (W : Type) := {
  sys_setpgid_self : W → W * bool;
  sys_setsid : W → W * bool;
  (** [open("/dev/null", O_RDONLY | O_CLOEXEC)]. *)
  sys_open_devnull : W → W * option Z;
  sys_dup2 : Z → Z → W → W * bool;
  sys_close : Z → W → W;
  (** [close_range(3, ~0, 0)]. *)
  sys_close_range : W → W * bool;
  (** The soft limit of [RLIMIT_NOFILE]. *)
  sys_getrlimit_nofile : W → W * option Z;
  (** Both limits of a resource. *)
  sys_setrlimit : Resource → Z → W → W * (Z + unit);
  sys_umask : Z → W → W;
  sys_no_new_privs : W → W * bool;
  sys_setgroups : list Z → W → W * bool;
  sys_setgid : Z → W → W * bool;
  sys_setuid : Z → W → W * bool;
  (** Path, arguments and environment; [false] when it returned. *)
  sys_execve : string → list string → list string → W → W * bool;
}.

(** The program [execve] started. *)
Record Image := MkImage {
  im_path : string;
  im_argv : list string;
  im_env : list string;
}.

Section child.
Context {W : Type} {CS : ChildSys W}.

(** A call whose failure ends the child: [die] writes the message and exits
    with status 127. *)
Definition or_die (f : W → W * bool) (msg : string) : io W string unit :=
  let! ok := ask f in lift (if ok : bool then Ok tt else Err msg).

Definition void (f : W → W) : io W string unit := λ w, (f w, Ok tt).

(** [for fd in 3..max_fd], upwards. *)
Fixpoint close_from (fd : Z) (n : nat) (w : W) : W :=
  match n with
  | O => w
  | S n => close_from (fd + 1) n (sys_close fd w)
  end.

Definition HARD_CAP : Z := 65536.

Definition close_high_fds_via_rlimit (w : W) : W :=
  let (w, cur) := sys_getrlimit_nofile w in
  let max_fd := match cur with Some cur => Z.min cur HARD_CAP | None => 1024 end in
  close_from 3 (Z.to_nat (max_fd - 3)) w.

Definition close_high_fds (w : W) : W :=
  let (w, closed) := sys_close_range w in
  if closed : bool then w else close_high_fds_via_rlimit w.

Definition apply_caps (caps : RlimitCaps) : io W Z unit :=
  do! call (sys_setrlimit RLIMIT_CPU (cpu_seconds caps));
  do! call (sys_setrlimit RLIMIT_NOFILE (max_open_files caps));
  do! call (sys_setrlimit RLIMIT_FSIZE (max_file_size_bytes caps));
  call (sys_setrlimit RLIMIT_NPROC (max_processes caps)).

(** Step 3: the standard descriptors. *)
Definition redirect_std (stdout_w stderr_w : Z) : io W string unit :=
  let nl := text_of [NEWLINE] in
  let! dn := ask sys_open_devnull in
  let! dn_fd := lift (ok_or dn ("hook child: open(/dev/null) failed" +:+ nl)) in
  do! or_die (sys_dup2 dn_fd 0) ("hook child: dup2(devnull, 0) failed" +:+ nl);
  do! void (sys_close dn_fd);
  do! or_die (sys_dup2 stdout_w 1) ("hook child: dup2(stdout, 1) failed" +:+ nl);
  do! or_die (sys_dup2 stderr_w 2) ("hook child: dup2(stderr, 2) failed" +:+ nl);
  do! (if decide (2 < stdout_w) then void (sys_close stdout_w) else fret tt);
  if decide (2 < stderr_w ∧ stderr_w ≠ stdout_w) then void (sys_close stderr_w) else fret tt.

(** Step 8: groups, then gid, then uid. *)
Definition drop_privileges (run_as : option UserInfo) (groups : list Z) : io W string unit :=
  let nl := text_of [NEWLINE] in
  match run_as with
  | None => fret tt
  | Some user =>
      do! (if decide (groups = []) then fret tt
           else or_die (sys_setgroups groups) ("hook child: setgroups failed" +:+ nl));
      do! or_die (sys_setgid (ui_gid user)) ("hook child: setgid failed" +:+ nl);
      or_die (sys_setuid (ui_uid user)) ("hook child: setuid failed" +:+ nl)
  end.

Definition child_setup (argv env : list string) (run_as : option UserInfo) (caps : RlimitCaps)
    (stdout_w stderr_w : Z) (groups : list Z) : io W string Image :=
  let nl := text_of [NEWLINE] in
  do! or_die sys_setpgid_self ("hook child: setpgid failed" +:+ nl);
  let! _ := ask sys_setsid in
  do! redirect_std stdout_w stderr_w;
  do! void close_high_fds;
  do! io_map_err (λ _, "hook child: setrlimit failed" +:+ nl) (apply_caps caps);
  do! void (sys_umask 0x3F);
  do! or_die sys_no_new_privs ("hook child: prctl(NO_NEW_PRIVS) failed" +:+ nl);
  do! drop_privileges run_as groups;
  match argv with
  | [] => lift (Err ("hook child: empty argv" +:+ nl))
  | path :: _ =>
      do! or_die (sys_execve path argv env) ("hook child: execve failed" +:+ nl);
      fret (MkImage path argv env)
  end.

End child.

(** ** The executor *)

Class ExecSys (W : Type) := {
  (** [pipe(2)]: the read end and the write end. *)
  sys_pipe : W → W * (Z + (Z * Z));
  (** [fork(2)] with the code its child runs; the child's number. *)
  sys_fork : io W string Image → W → W * (Z + Z);
  (** [thread::Builder::spawn] of a named thread. *)
  spawn_thread : string → W → W * bool;
  (** What [read_to_end] on a pipe gave, once the reading thread is joined. *)
  read_to_end : Z → W → W * (IoError + list byte);
}.

Section executor.
Context {W : Type} {CLK : Clock W} {PS : ProcSys W} {UDB : UserDb W} {CS : ChildSys W}.
Context {ES : ExecSys W}.

Definition build_groups_box (user : option UserInfo) : list Z :=
  match user with Some u => ui_groups u | None => [] end.

(** [CString::new] on each argument. *)
Fixpoint argv_cstrings (args : list string) : res HookError (list string) :=
  match args with
  | [] => Ok []
  | a :: r =>
      if decide (zb 0 ∈ bytes_of a) then Err (ChildSetup "argv contains NUL byte") else
      let? out := argv_cstrings r in Ok (a :: out)
  end.

Definition hook_user (hook : HookConfig) (vars : HookVars) : io W HookError (option UserInfo) :=
  match hk_run_as hook with
  | RunAsRoot => fret None
  | RunAsUser =>
      let! name := lift (ok_or (hv_pam_user vars)
                           (ChildSetup "run_as=user but vars.pam_user is None")) in
      let! u := lookup_user name in fret (Some u)
  end.

Definition close_all (fds : list Z) (w : W) : W := foldl (λ w fd, sys_close fd w) w fds.

(** Both pipes; the first one is closed when there is no second one. *)
Definition make_pipes : io W HookError ((Z * Z) * (Z * Z)) := λ w,
  match sys_pipe w with
  | (w1, inl e) => (w1, Err (HookPipe e))
  | (w1, inr (out_r, out_w)) =>
      match sys_pipe w1 with
      | (w2, inl e) => (close_all [out_w; out_r] w2, Err (HookPipe e))
      | (w2, inr err) => (w2, Ok ((out_r, out_w), err))
      end
  end.

Definition child_main (argv env : list string) (run_as : option UserInfo) (caps : RlimitCaps)
    (out_r out_w err_r err_w : Z) (groups : list Z) : io W string Image :=
  do! void (sys_close out_r);
  do! void (sys_close err_r);
  child_setup argv env run_as caps out_w err_w groups.

(** The line count of a reader thread, joined. *)
Definition joined_lines (stream : PipeStream) (fd : Z) : io W HookError Z :=
  let! got := ask (read_to_end fd) in
  fret (rd_line_count (drain (pipe_reader_new stream) got).1).

(** [spawn_reader]; a reader that is not taken over by a thread is dropped. *)
Definition spawn_reader (name : string) (dropped : list Z) : io W HookError unit := λ w,
  match spawn_thread name w with
  | (w1, true) => (w1, Ok tt)
  | (w1, false) => (close_all dropped w1, Err (ChildSetup (name +:+ " reader thread spawn failed")))
  end.

Definition supervise_parent (reaps : nat) (child out_r out_w err_r err_w : Z) (hook : HookConfig)
    (start : Z) : io W HookError HookOutcome :=
  do! ask (λ w, (close_all [out_w; err_w] w, tt));
  do! spawn_reader "pam_certauth.hook.stdout" [err_r; out_r];
  do! spawn_reader "pam_certauth.hook.stderr" [err_r];
  do! ask (λ w, (setpgid child child w, tt));
  let! ended := wait_with_timeout reaps child child (hk_timeout hook) in
  let! stdout_lines := joined_lines Stdout out_r in
  let! stderr_lines := joined_lines Stderr err_r in
  let! now := ask instant_now in
  do! ask (λ w, (close_all [err_r; out_r] w, tt));
  fret (MkHookOutcome (hk_stage hook) (hk_command hook) (conventional_code (wo_status ended))
          (wo_killed_by_timeout ended) (now - start) stdout_lines stderr_lines).

Definition execute (reaps : nat) (hook : HookConfig) (vars : HookVars)
    : io W HookError HookOutcome :=
  let! user := hook_user hook vars in
  let! env := lift (build_env_vector hook vars user) in
  if decide (hk_command hook = []) then lift (Err (CommandUnusable "")) else
  let! argv := lift (argv_cstrings (hk_command hook)) in
  let caps := default_caps_for_timeout (hk_timeout hook) in
  let! ((out_r, out_w), (err_r, err_w)) := make_pipes in
  let! start := ask instant_now in
  let! child := io_map_err HookFork (call (sys_fork
    (child_main argv env user caps out_r out_w err_r err_w (build_groups_box user)))) in
  supervise_parent reaps child out_r out_w err_r err_w hook start.

End executor.

(** ** The executor of the tests *)

Record NoopExecutor := MkNoopExecutor {
  ne_outcomes : list (HookError + HookOutcome);
  ne_calls : list (HookStage * list string);
}.

(** [NoopExecutor::new], [with_outcome], [with_outcomes]. *)
Definition noop_new : NoopExecutor := MkNoopExecutor [] [].
Definition noop_with_outcome (outcome : HookOutcome) : NoopExecutor := MkNoopExecutor [inr outcome] [].
Definition noop_with_outcomes (outcomes : list (HookError + HookOutcome)) : NoopExecutor :=
  MkNoopExecutor outcomes [].

Definition noop_execute (e : NoopExecutor) (hook : HookConfig) (vars : HookVars)
    : NoopExecutor * res HookError HookOutcome :=
  let calls := ne_calls e ++ [(hk_stage hook, hk_command hook)] in
  match ne_outcomes e with
  | r :: rest => (MkNoopExecutor rest calls, of_sum r)
  | [] => (MkNoopExecutor [] calls,
           Ok (MkHookOutcome (hk_stage hook) (hk_command hook) 0 false 0 0 0))
  end.

(** ** What a program inherits *)

Inductive Desc : Type :=
| DevNull
| OtherFile (id : Z).

(** The part of a process that [execve] keeps: its descriptors, its group and
    session, and its limits and credentials. *)
Record ProcView := MkView {
  v_fds : gmap Z Desc;
  v_group_leader : bool;
  v_session : Z;
  v_cpu : option Z;
  v_nofile : option Z;
  v_fsize : option Z;
  v_nproc : option Z;
  v_umask : Z;
  v_no_new_privs : bool;
  v_groups : list Z;
  v_gid : Z;
  v_uid : Z;
}.

Definition with_fds (f : gmap Z Desc → gmap Z Desc) (v : ProcView) : ProcView :=
  MkView (f (v_fds v)) (v_group_leader v) (v_session v) (v_cpu v) (v_nofile v) (v_fsize v)
    (v_nproc v) (v_umask v) (v_no_new_privs v) (v_groups v) (v_gid v) (v_uid v).

Definition with_group (leader : bool) (session : Z) (v : ProcView) : ProcView :=
  MkView (v_fds v) leader session (v_cpu v) (v_nofile v) (v_fsize v)
    (v_nproc v) (v_umask v) (v_no_new_privs v) (v_groups v) (v_gid v) (v_uid v).

Definition with_limit (r : Resource) (n : Z) (v : ProcView) : ProcView :=
  let set (here : bool) (old : option Z) := if here then Some n else old in
  MkView (v_fds v) (v_group_leader v) (v_session v)
    (set (match r with RLIMIT_CPU => true | _ => false end) (v_cpu v))
    (set (match r with RLIMIT_NOFILE => true | _ => false end) (v_nofile v))
    (set (match r with RLIMIT_FSIZE => true | _ => false end) (v_fsize v))
    (set (match r with RLIMIT_NPROC => true | _ => false end) (v_nproc v))
    (v_umask v) (v_no_new_privs v) (v_groups v) (v_gid v) (v_uid v).

Definition with_cred (umask : Z) (nnp : bool) (groups : list Z) (gid uid : Z) (v : ProcView)
    : ProcView :=
  MkView (v_fds v) (v_group_leader v) (v_session v) (v_cpu v) (v_nofile v) (v_fsize v)
    (v_nproc v) umask nnp groups gid uid.

Definition std_only (fds : gmap Z Desc) : gmap Z Desc := filter (λ p, p.1 < 3) fds.

(** What the manual pages say of the calls that return 0, for the process
    [view]; a process that leads a group cannot start a session. *)
Class ChildKernel (W : Type) `{ChildSys W} := {
  view : W → ProcView;
  k_setpgid : ∀ w w', sys_setpgid_self w = (w', true) →
    view w' = with_group true (v_session (view w)) (view w);
  k_setsid : ∀ w, v_group_leader (view w) = true → view (sys_setsid w).1 = view w;
  k_open : ∀ w w' fd, sys_open_devnull w = (w', Some fd) →
    0 ≤ fd ∧ v_fds (view w) !! fd = None ∧ (∀ k, 0 ≤ k < fd → is_Some (v_fds (view w) !! k)) ∧
    view w' = with_fds <[fd := DevNull]> (view w);
  k_dup2 : ∀ old new w w', sys_dup2 old new w = (w', true) →
    ∃ d, v_fds (view w) !! old = Some d ∧ view w' = with_fds <[new := d]> (view w);
  k_close : ∀ fd w, view (sys_close fd w) = with_fds (delete fd) (view w);
  k_close_range : ∀ w w', sys_close_range w = (w', true) → view w' = with_fds std_only (view w);
  k_no_close_range : ∀ w w', sys_close_range w = (w', false) → view w' = view w;
  k_getrlimit : ∀ w, view (sys_getrlimit_nofile w).1 = view w;
  k_setrlimit : ∀ r n w w', sys_setrlimit r n w = (w', inr tt) → view w' = with_limit r n (view w);
  k_umask : ∀ m w, let v := view w in
    view (sys_umask m w) = with_cred m (v_no_new_privs v) (v_groups v) (v_gid v) (v_uid v) v;
  k_no_new_privs : ∀ w w', sys_no_new_privs w = (w', true) → let v := view w in
    view w' = with_cred (v_umask v) true (v_groups v) (v_gid v) (v_uid v) v;
  k_setgroups : ∀ gs w w', sys_setgroups gs w = (w', true) → let v := view w in
    view w' = with_cred (v_umask v) (v_no_new_privs v) gs (v_gid v) (v_uid v) v;
  k_setgid : ∀ g w w', sys_setgid g w = (w', true) → let v := view w in
    view w' = with_cred (v_umask v) (v_no_new_privs v) (v_groups v) g (v_uid v) v;
  k_setuid : ∀ u w w', sys_setuid u w = (w', true) → let v := view w in
    view w' = with_cred (v_umask v) (v_no_new_privs v) (v_groups v) (v_gid v) u v;
}.

(** What the program of a hook starts with. *)
Definition hook_view (v : ProcView) (out err : Desc) (caps : RlimitCaps)
    (run_as : option UserInfo) (groups : list Z) : ProcView :=
  MkView {[0 := DevNull; 1 := out; 2 := err]} true (v_session v)
    (Some (cpu_seconds caps)) (Some (max_open_files caps)) (Some (max_file_size_bytes caps))
    (Some (max_processes caps)) 0x3F true
    (match run_as with
     | Some _ => if decide (groups = []) then v_groups v else groups
     | None => v_groups v
     end)
    (match run_as with Some u => ui_gid u | None => v_gid v end)
    (match run_as with Some u => ui_uid u | None => v_uid v end).

(** ** A sample kernel *)

Module ExecSample.

(** The kernel's state is the one process. *)
Definition kernel : Type := ProcView.

(** The lowest free descriptor. *)
Fixpoint lowest_free (fuel : nat) (fd : Z) (fds : gmap Z Desc) : Z :=
  match fuel with
  | O => fd
  | S f => match fds !! fd with
           | Some _ => lowest_free f (fd + 1) fds
           | None => fd
           end
  end.

Definition new_fd (k : kernel) : Z :=
  let fds := v_fds k in lowest_free (size fds) 0 fds.

(** Changing groups and the group needs uid 0. *)
Definition privileged (k : kernel) (k' : kernel) : kernel * bool :=
  if decide (v_uid k = 0) then (k', true) else (k, false).

#[export] Instance child_sys : ChildSys kernel := {|
  sys_setpgid_self v := (with_group true (v_session v) v, true);
  sys_setsid v := if v_group_leader v then (v, false) else (with_group true 77 v, true);
  sys_open_devnull v := (with_fds <[new_fd v := DevNull]> v, Some (new_fd v));
  sys_dup2 old new v :=
    match v_fds v !! old with
    | Some d => (with_fds <[new := d]> v, true)
    | None => (v, false)
    end;
  sys_close fd := with_fds (delete fd);
  sys_close_range v := (with_fds std_only v, true);
  sys_getrlimit_nofile v := (v, Some 1024);
  sys_setrlimit r n v := (with_limit r n v, inr tt);
  sys_umask m v := with_cred m (v_no_new_privs v) (v_groups v) (v_gid v) (v_uid v) v;
  sys_no_new_privs v := (with_cred (v_umask v) true (v_groups v) (v_gid v) (v_uid v) v, true);
  sys_setgroups gs v :=
    privileged v (with_cred (v_umask v) (v_no_new_privs v) gs (v_gid v) (v_uid v) v);
  sys_setgid g v :=
    privileged v (with_cred (v_umask v) (v_no_new_privs v) (v_groups v) g (v_uid v) v);
  sys_setuid u v :=
    privileged v (with_cred (v_umask v) (v_no_new_privs v) (v_groups v) (v_gid v) u v);
  sys_execve _ _ _ k := (k, true);
|}.

(** A process of root in session 5 with the given descriptors. *)
Definition process (fds : gmap Z Desc) : kernel :=
  MkView fds false 5 None None None None 0x12 false [0] 0 0.

(** A pipe takes the two lowest free descriptors; [fork] does as it is told. *)
Definition exec_sys (fork : Z + Z) : ExecSys kernel := {|
  sys_pipe v :=
    let v1 := with_fds <[new_fd v := OtherFile 20]> v in
    (with_fds <[new_fd v1 := OtherFile 21]> v1, inr (new_fd v, new_fd v1));
  sys_fork _ v := (v, fork);
  spawn_thread _ v := (v, true);
  read_to_end _ v := (v, inr []);
|}.

(** Users, time and children of the sample. *)
#[export] Instance user_db : UserDb kernel := {|
  User_from_name _ v := (v, inr None);
  getgrouplist _ _ v := (v, inr []);
|}.

#[export] Instance kernel_clock : Clock kernel := {|
  instant_now v := (v, 0);
  sleep _ v := v;
|}.

#[export] Instance kernel_procs : ProcSys kernel := {|
  waitpid_nohang _ v := (v, inr (Exited 0));
  waitpid_block _ v := (v, inr (Exited 0));
  killpg _ _ v := (v, inr tt);
  setpgid _ _ v := v;
|}.

(** A child that ends only when it is killed: the time, and whether it was. *)
#[export] Instance stubborn_clock : Clock (Z * bool) := {|
  instant_now s := (s, s.1);
  sleep d s := (s.1 + d, s.2);
|}.

#[export] Instance stubborn_procs : ProcSys (Z * bool) := {|
  waitpid_nohang _ s := (s, inr (if (s.2 : bool) then Signaled SIGKILL else StillAlive));
  waitpid_block _ s := (s, inr (Signaled SIGKILL));
  killpg _ signo s := ((s.1, bool_decide (signo = SIGKILL)), inr tt : Z + unit);
  setpgid _ _ s := s;
|}.

Definition alice : UserInfo := MkUserInfo "alice" 1000 1000 [1000; 27] "/home/alice".

Definition caps : RlimitCaps := default_caps_for_timeout (10 * NANOS_PER_SEC).

End ExecSample.

(** ** The child's environment *)

Section child_proofs.
Context {W : Type} {CS : ChildSys W} {CK : ChildKernel W}.

Lemma or_die_Ok f msg (w w' : W) u : or_die f msg w = (w', Ok u) → f w = (w', true).
Proof.
  unfold or_die, fbind, ask, lift. destruct (f w) as [w1 [|]]; [|done]. by intros [= ->].
Qed.

Lemma void_Ok f (w w' : W) u : void f w = (w', Ok u) → w' = f w.
Proof. unfold void. by intros [= <-]. Qed.

(** The descriptors after step 3, where the standard input is open and the two
    write ends are above the standard descriptors. *)
Record std_open (v : ProcView) (out err : Z) (dout derr : Desc) : Prop := {
  so_stdin : is_Some (v_fds v !! 0);
  so_out : v_fds v !! out = Some dout;
  so_err : v_fds v !! err = Some derr;
  so_out_high : 2 < out;
  so_err_high : 2 < err;
  so_distinct : out ≠ err;
  so_nonneg : ∀ k d, v_fds v !! k = Some d → 0 ≤ k;
}.

Definition std_fds (out err : Desc) : gmap Z Desc := {[0 := DevNull; 1 := out; 2 := err]}.

Lemma std_fds_eq fds out err dout derr dn :
  0 < dn → dn ≠ out → dn ≠ err → 2 < out → 2 < err → (∀ k d, fds !! k = Some d → 0 ≤ k) →
  std_only (delete err (delete out (<[2 := derr]> (<[1 := dout]>
    (delete dn (<[0 := DevNull]> (<[dn := DevNull]> fds))))))) = std_fds dout derr.
Proof.
  intros Hdn Ho He Hout Herr Hnn. apply map_eq. intros k. unfold std_only, std_fds.
  destruct (decide (k = 0)) as [->|H0].
  { rewrite lookup_insert_eq, map_lookup_filter.
    rewrite !lookup_delete_ne, !lookup_insert_ne, lookup_delete_ne, lookup_insert_eq by lia.
    cbn. by rewrite option_guard_True. }
  destruct (decide (k = 1)) as [->|H1].
  { rewrite lookup_insert_ne, lookup_insert_eq, map_lookup_filter by lia.
    rewrite !lookup_delete_ne, lookup_insert_ne, lookup_insert_eq by lia.
    cbn. by rewrite option_guard_True. }
  destruct (decide (k = 2)) as [->|H2].
  { rewrite !lookup_insert_ne, lookup_singleton_eq, map_lookup_filter by lia.
    rewrite !lookup_delete_ne, lookup_insert_eq by lia. cbn. by rewrite option_guard_True. }
  rewrite !lookup_insert_ne, lookup_singleton_ne by lia. apply map_lookup_filter_None. right.
  intros d Hd. cbn. apply lookup_delete_Some in Hd as [_ Hd]. apply lookup_delete_Some in Hd as [_ Hd].
  rewrite !lookup_insert_ne in Hd by lia. apply lookup_delete_Some in Hd as [Hne Hd].
  rewrite !lookup_insert_ne in Hd by done. apply Hnn in Hd. lia.
Qed.

Lemma redirect_std_view out err dout derr w w' u :
  std_open (view w) out err dout derr → redirect_std out err w = (w', Ok u) →
  ∃ fds, view w' = with_fds (λ _, fds) (view w) ∧ std_only fds = std_fds dout derr.
Proof.
  intros [Hin Hout Herr Hoh Heh Hne Hnn] H. unfold redirect_std in H.
  peel H w1 dn Hdn. unfold ask in Hdn. destruct (sys_open_devnull w) as [w1' o] eqn:Ho.
  injection Hdn as -> <-. peel H w2 fd Hfd. apply lift_Ok_inv in Hfd as [-> Hfd].
  destruct o as [fd'|]; [|done]. injection Hfd as ->.
  apply k_open in Ho as (Hpos & Hfree & Hlow & Hv1).
  assert (fd ≠ 0) by (intros ->; rewrite Hfree in Hin; by destruct Hin).
  assert (fd ≠ out) by (intros ->; congruence). assert (fd ≠ err) by (intros ->; congruence).
  peel H w3 u3 H3. apply or_die_Ok, k_dup2 in H3 as (d3 & Hd3 & Hv3).
  peel H w4 u4 H4. apply void_Ok in H4 as ->.
  peel H w5 u5 H5. apply or_die_Ok, k_dup2 in H5 as (d5 & Hd5 & Hv5).
  peel H w6 u6 H6. apply or_die_Ok, k_dup2 in H6 as (d6 & Hd6 & Hv6).
  peel H w7 u7 H7. destruct (decide (2 < out)); [|lia].
  destruct (decide (2 < err ∧ err ≠ out)) as [_|Hno]; [|by destruct Hno].
  apply void_Ok in H7 as ->. apply void_Ok in H as ->.
  rewrite Hv1 in Hd3, Hv3. rewrite k_close, Hv3 in Hd5, Hv5. rewrite Hv5 in Hd6, Hv6.
  rewrite !k_close, Hv6. cbn [v_fds with_fds] in *.
  rewrite lookup_insert_eq in Hd3. injection Hd3 as <-.
  rewrite lookup_delete_ne, !lookup_insert_ne, Hout in Hd5 by lia. injection Hd5 as <-.
  rewrite lookup_insert_ne, lookup_delete_ne, !lookup_insert_ne, Herr in Hd6 by lia.
  injection Hd6 as <-.
  eexists. split; [reflexivity|]. apply std_fds_eq; [lia|done..].
Qed.

Lemma apply_caps_view caps w w' u :
  apply_caps caps w = (w', Ok u) →
  view w' = with_limit RLIMIT_NPROC (max_processes caps)
    (with_limit RLIMIT_FSIZE (max_file_size_bytes caps)
      (with_limit RLIMIT_NOFILE (max_open_files caps)
        (with_limit RLIMIT_CPU (cpu_seconds caps) (view w)))).
Proof.
  intros H. unfold apply_caps in H. peel H w1 u1 H1. peel H w2 u2 H2. peel H w3 u3 H3.
  destruct u, u1, u2, u3. apply call_Ok_inv, k_setrlimit in H, H1, H2, H3. congruence.
Qed.

Lemma drop_privileges_view run_as groups w w' u :
  drop_privileges run_as groups w = (w', Ok u) →
  let v := view w in
  view w' = with_cred (v_umask v) (v_no_new_privs v)
    (match run_as with
     | Some _ => if decide (groups = []) then v_groups v else groups
     | None => v_groups v
     end)
    (match run_as with Some u => ui_gid u | None => v_gid v end)
    (match run_as with Some u => ui_uid u | None => v_uid v end) v.
Proof.
  intros H. destruct run_as as [user|]; cbn [drop_privileges] in H.
  - peel H w1 u1 H1. peel H w2 u2 H2. apply or_die_Ok, k_setuid in H. apply or_die_Ok, k_setgid in H2.
    assert (view w1 = with_cred (v_umask (view w)) (v_no_new_privs (view w))
      (if decide (groups = []) then v_groups (view w) else groups) (v_gid (view w)) (v_uid (view w))
      (view w)) as Hg.
    { case_decide; [injection H1 as <-; by destruct (view w)|]. by apply or_die_Ok, k_setgroups in H1. }
    cbn in *. by rewrite H, H2, Hg.
  - injection H as <-. by destruct (view w).
Qed.

Lemma close_high_fds_view w :
  (sys_close_range w).2 = true → view (close_high_fds w) = with_fds std_only (view w).
Proof.
  unfold close_high_fds. destruct (sys_close_range w) as [w1 b] eqn:Hc. intros Hb. cbn in Hb.
  subst b. by apply k_close_range.
Qed.

End child_proofs.

(** C20: When the program of a hook starts, its only descriptors are the null
    device and the two pipes, it leads its own group, the four limits and the
    umask are set, it cannot gain privileges, and, run as a user, it has that
    user's groups (the parent's if the list is empty), group and id.  This holds
    for a parent with an open standard input and pipes whose write ends are two
    descriptors above 2, on a kernel with [close_range(2)]; without a standard
    input the hook has none either, as [stdin_left_closed] shows. *)
Theorem child_inherits {W} {CS : ChildSys W} {CK : ChildKernel W} argv env run_as caps out err
    groups dout derr w w' img
    (Hok : child_setup argv env run_as caps out err groups w = (w', Ok img))
    (Hstd : std_open (view w) out err dout derr)
    (Hrange : ∀ w, (sys_close_range w).2 = true) :
  ∃ w1, view w1 = hook_view (view w) dout derr caps run_as groups ∧
    sys_execve (im_path img) (im_argv img) (im_env img) w1 = (w', true) ∧
    im_argv img = argv ∧ im_env img = env ∧ head argv = Some (im_path img).
Proof.
  unfold child_setup in Hok. peel Hok w1 u1 H1. apply or_die_Ok, k_setpgid in H1.
  peel Hok w2 u2 H2. unfold ask in H2. pose proof (k_setsid w1) as Hs.
  destruct (sys_setsid w1) as [w2' b]. injection H2 as -> _. rewrite H1 in Hs.
  specialize (Hs eq_refl). cbn in Hs. peel Hok w3 u3 H3.
  assert (std_open (view w2) out err dout derr) as Hstd2.
  { rewrite Hs. destruct Hstd. by split. }
  destruct (redirect_std_view _ _ _ _ _ _ _ Hstd2 H3) as (fds & Hv3 & Hfds).
  peel Hok w4 u4 H4. apply void_Ok in H4 as ->. peel Hok w5 u5 H5.
  apply io_map_err_Ok_inv, apply_caps_view in H5. rewrite close_high_fds_view in H5 by done.
  peel Hok w6 u6 H6. apply void_Ok in H6 as ->. peel Hok w7 u7 H7.
  apply or_die_Ok, k_no_new_privs in H7. cbn zeta in H7. rewrite k_umask in H7.
  peel Hok w8 u8 H8. apply drop_privileges_view in H8. cbn zeta in H8.
  destruct argv as [|path rest]; [done|]. peel Hok w9 u9 H9. apply or_die_Ok in H9.
  injection Hok as <- <-. exists w8. split_and!; [|done..].
  rewrite H8, H7, H5, Hv3, Hs. unfold hook_view. fold (std_fds dout derr). by rewrite <-Hfds.
Qed.

(** The sample kernel is one. *)
Lemma lowest_free_spec fds n fd :
  Z.of_nat n + fd = Z.of_nat (size fds) → 0 ≤ fd → (∀ k, 0 ≤ k < fd → is_Some (fds !! k)) →
  let r := ExecSample.lowest_free n fd fds in
  0 ≤ r ∧ fds !! r = None ∧ ∀ k, 0 ≤ k < r → is_Some (fds !! k).
Proof.
  revert fd. induction n as [|n IH]; intros fd Hs Hp Hall; cbn.
  - split; [done|]. split; [|done]. destruct (fds !! fd) as [d|] eqn:Hd; [|done]. exfalso.
    assert (list_to_set (seqZ 0 (fd + 1)) ⊆ dom fds) as Hsub.
    { intros k Hk%elem_of_list_to_set%elem_of_seqZ. apply elem_of_dom.
      destruct (decide (k = fd)) as [->|]; [by eexists|]. apply Hall. lia. }
    apply subseteq_size in Hsub.
    rewrite size_list_to_set, length_seqZ, size_dom in Hsub by apply NoDup_seqZ. lia.
  - destruct (fds !! fd) as [d|] eqn:Hd; [|done]. apply IH; [lia..|].
    intros k Hk. destruct (decide (k = fd)) as [->|]; [by eexists|]. apply Hall. lia.
Qed.

#[export] Instance sample_kernel : ChildKernel ExecSample.kernel (H := ExecSample.child_sys).
Proof.
  refine {| view := λ v : ExecSample.kernel, v |}; cbn.
  - by intros w w' [= <-].
  - intros w Hl. by rewrite Hl.
  - intros w w' fd [= <- <-]. destruct (lowest_free_spec (v_fds w) (size (v_fds w)) 0)
      as (H1 & H2 & H3); [lia|done|lia|]. split_and!; done.
  - intros old new w w'. destruct (v_fds w !! old) as [d|]; [|done]. intros [= <-]. by exists d.
  - done.
  - by intros w w' [= <-].
  - done.
  - done.
  - by intros r n w w' [= <-].
  - done.
  - by intros w w' [= <-].
  - intros gs w w'. unfold ExecSample.privileged. case_decide; [|done]. by intros [= <-].
  - intros g w w'. unfold ExecSample.privileged. case_decide; [|done]. by intros [= <-].
  - intros u w w'. unfold ExecSample.privileged. case_decide; [|done]. by intros [= <-].
Defined.

Lemma child_inherits_witness :
  let w := ExecSample.process {[0 := OtherFile 1; 2 := OtherFile 1; 5 := OtherFile 9;
                                7 := OtherFile 10; 8 := OtherFile 11]} in
  let run := child_setup (CS := ExecSample.child_sys) ["/bin/true"] ["LANG=C"]
               (Some ExecSample.alice) ExecSample.caps 7 8 [1000; 27] w in
  ∃ w1 img, run.2 = Ok img ∧ view w1 =
    hook_view (view w) (OtherFile 10) (OtherFile 11) ExecSample.caps (Some ExecSample.alice)
      [1000; 27].
Proof.
  intros w run.
  destruct (child_inherits (CS := ExecSample.child_sys) (CK := sample_kernel)
    ["/bin/true"] ["LANG=C"] (Some ExecSample.alice) ExecSample.caps 7 8 [1000; 27]
    (OtherFile 10) (OtherFile 11) w run.1 (MkImage "/bin/true" ["/bin/true"] ["LANG=C"]))
    as (w1 & Hv & _).
  - vm_compute. reflexivity.
  - split; try (vm_compute; reflexivity); try lia; [by eexists|].
    intros k d Hk. cbn [v_fds view sample_kernel w ExecSample.process] in Hk.
    repeat (apply lookup_insert_Some in Hk as [[<- _]|[_ Hk]]; [lia|]).
    apply lookup_singleton_Some in Hk as [<- _]. lia.
  - done.
  - eexists w1, _. split; [vm_compute; reflexivity|exact Hv].
Defined.

(** A parent without a standard input gives the hook none: the null device
    is opened as descriptor 0 itself, and closed again after [dup2]. *)
Theorem stdin_left_closed :
  let w := ExecSample.process {[7 := OtherFile 10; 8 := OtherFile 11]} in
  let (w', r) := child_setup (CS := ExecSample.child_sys) ["/bin/true"] [] None ExecSample.caps
                   7 8 [] w in
  r = Ok (MkImage "/bin/true" ["/bin/true"] []) ∧
  v_fds w' !! 0 = None ∧ v_fds w' !! 1 = Some (OtherFile 10) ∧ v_fds w' !! 2 = Some (OtherFile 11).
Proof. vm_compute. auto. Qed.

(** ** The reader *)

(** The complete lines of the output, and what follows the last newline. *)
Definition complete_lines (bs : list byte) : list (list byte) :=
  List.removelast (split_bytes NEWLINE bs).
Definition last_line (bs : list byte) : list byte := List.last (split_bytes NEWLINE bs) [].

Definition log_line (s : PipeStream) (raw : list byte) : PipeLog := LineLogged s (line_text raw).

Lemma split_bytes_snoc c l b :
  split_bytes c (l ++ [b]) =
  if decide (b = c) then split_bytes c l ++ [[]]
  else List.removelast (split_bytes c l) ++ [List.last (split_bytes c l) [] ++ [b]].
Proof.
  induction l as [|x l IH]; cbn [app split_bytes]; [by case_decide|].
  destruct (decide (x = c)) as [->|Hx].
  - rewrite IH. destruct (split_bytes c l) as [|h t] eqn:Hs; [by destruct (split_bytes_ne c l)|].
    by case_decide.
  - rewrite IH. destruct (split_bytes c l) as [|h t] eqn:Hs; [by destruct (split_bytes_ne c l)|].
    case_decide; [done|]. by destruct t as [|h2 t].
Qed.

Lemma feed_spec s n bs :
  let r := foldl feed_byte (set_ingested (pipe_reader_new s) n) bs in
  r = MkPipeReader s (last_line bs) (zlen (complete_lines bs)) n false
        (log_line s <$> complete_lines bs).
Proof.
  unfold complete_lines, last_line. induction bs as [|b bs IH] using rev_ind; cbn; [done|].
  rewrite foldl_app. cbn in IH |- *. rewrite IH, split_bytes_snoc. unfold feed_byte.
  destruct (List.exists_last (split_bytes_ne NEWLINE bs)) as (ls & a & ->).
  case_decide; cbn; rewrite !List.removelast_last, !List.last_last; [|done].
  unfold flush_partial. cbn. rewrite fmap_app. f_equal. unfold zlen. rewrite length_app. cbn. lia.
Qed.

Lemma foldl_feed_capped r bs : rd_capped (foldl feed_byte r bs) = rd_capped r.
Proof.
  revert r. induction bs as [|b bs IH]; intros r; cbn; [done|]. rewrite IH. unfold feed_byte.
  by case_decide.
Qed.

Lemma foldl_feed_ingested r bs : rd_bytes_ingested (foldl feed_byte r bs) = rd_bytes_ingested r.
Proof.
  revert r. induction bs as [|b bs IH]; intros r; cbn; [done|]. rewrite IH. unfold feed_byte.
  by case_decide.
Qed.

Lemma foldl_feed_set r n bs :
  foldl feed_byte (set_ingested r n) bs = set_ingested (foldl feed_byte r bs) n.
Proof.
  revert r. induction bs as [|b bs IH]; intros r; cbn; [done|]. rewrite <-IH. f_equal.
  unfold feed_byte. by case_decide.
Qed.

Lemma split_bytes_length c bs : (length (split_bytes c bs) ≤ S (length bs))%nat.
Proof.
  induction bs as [|b bs IH]; cbn; [done|]. case_decide; cbn; [lia|].
  destruct (split_bytes c bs); cbn in *; lia.
Qed.

Lemma complete_lines_bound n bs :
  (length bs ≤ n)%nat → (length (complete_lines bs) ≤ n)%nat.
Proof.
  intros Hn. unfold complete_lines. pose proof (split_bytes_length NEWLINE bs) as Hl.
  destruct (List.exists_last (split_bytes_ne NEWLINE bs)) as (ls & a & He). rewrite He in *.
  rewrite List.removelast_last. rewrite length_app in Hl. cbn in Hl. lia.
Qed.

(** What is left of the capture limit. *)
Definition budget (r : PipeReader) : nat := Z.to_nat (MAX_CAPTURED_BYTES - rd_bytes_ingested r).

Lemma process_chunk_eq r chunk :
  0 ≤ rd_bytes_ingested r → rd_bytes_ingested r + zlen chunk ≤ USIZE_MAX →
  process_chunk r chunk =
  let r1 := foldl feed_byte (set_ingested r (rd_bytes_ingested r + zlen chunk))
              (take (budget r) chunk) in
  if bool_decide (budget r < length chunk)%nat && negb (rd_capped r) then cap r1 else r1.
Proof.
  intros Hr Hmax. unfold process_chunk, budget. rewrite (Z.min_l _ USIZE_MAX) by lia.
  replace (Z.max 0 (rd_bytes_ingested r + zlen chunk - zlen chunk)) with (rd_bytes_ingested r) by lia.
  set (m := MAX_CAPTURED_BYTES - rd_bytes_ingested r). unfold zlen in *.
  replace (take (Z.to_nat (Z.min (Z.of_nat (length chunk)) (Z.max 0 m))) chunk)
    with (take (Z.to_nat m) chunk).
  2: { destruct (decide (Z.of_nat (length chunk) ≤ m)).
       - rewrite !take_ge by lia. done.
       - f_equal. lia. }
  replace (bool_decide (Z.min (Z.of_nat (length chunk)) (Z.max 0 m) < Z.of_nat (length chunk)))
    with (bool_decide (Z.to_nat m < length chunk)%nat) by (apply bool_decide_ext; lia).
  cbn zeta. by rewrite foldl_feed_capped.
Qed.

(** Within the capture limit the log holds the lines of the output, the
    last one also when no newline ends it, and the count is their number. *)
Theorem drain_lines (s : PipeStream) (bs : list byte) (Hcap : zlen bs ≤ MAX_CAPTURED_BYTES) :
  let lines := complete_lines bs ++ (if decide (last_line bs = []) then [] else [last_line bs]) in
  let (r, n) := drain (pipe_reader_new s) (inr bs) in
  rd_log r = log_line s <$> lines ∧ n = inr (zlen lines) ∧ rd_capped r = false.
Proof.
  unfold drain. rewrite process_chunk_eq;
    [|done|cbn [rd_bytes_ingested pipe_reader_new]; unfold USIZE_MAX, MAX_CAPTURED_BYTES in *; lia].
  assert (budget (pipe_reader_new s) ≥ length bs)%nat as Hb.
  { unfold budget, zlen in *. cbn [rd_bytes_ingested pipe_reader_new]. lia. }
  rewrite take_ge, (bool_decide_eq_false_2 (budget _ < _)%nat) by lia. cbn [andb].
  rewrite (feed_spec s _ bs).
  cbn [rd_partial rd_capped negb]. rewrite andb_true_r. case_decide as Hl; [rewrite Hl|].
  - cbn. by rewrite app_nil_r.
  - rewrite bool_decide_eq_false_2 by done. cbn. rewrite fmap_app. split_and!; [done| |done].
    f_equal. unfold zlen. rewrite length_app. cbn. lia.
Qed.

Lemma drain_lines_witness :
  let bs := bytes_of "one" ++ [NEWLINE] ++ bytes_of "two" in
  let (r, n) := drain (pipe_reader_new Stdout) (inr bs) in
  rd_log r = [LineLogged Stdout "one"; LineLogged Stdout "two"] ∧ n = inr 2.
Proof.
  pose proof (drain_lines Stdout (bytes_of "one" ++ [NEWLINE] ++ bytes_of "two")) as H.
  specialize (H ltac:(vm_compute; discriminate)). vm_compute in H. destruct H as (H1 & H2 & _).
  vm_compute. split; [exact H1|exact H2].
Defined.

(** The log does not depend on how the pipe's bytes are cut into reads. *)
Theorem process_chunk_app (r : PipeReader) (a b : list byte)
    (Hr : 0 ≤ rd_bytes_ingested r) (Hmax : rd_bytes_ingested r + zlen a + zlen b ≤ USIZE_MAX) :
  process_chunk (process_chunk r a) b = process_chunk r (a ++ b).
Proof.
  assert (zlen (a ++ b) = zlen a + zlen b) as Hab by (unfold zlen; rewrite length_app; lia).
  assert (0 ≤ zlen a) by (unfold zlen; lia). assert (0 ≤ zlen b) by (unfold zlen; lia).
  rewrite (process_chunk_eq r a), (process_chunk_eq r (a ++ b)) by lia. cbn zeta.
  rewrite !foldl_feed_set. set (ra := foldl feed_byte r (take (budget r) a)).
  assert (rd_capped ra = rd_capped r) as Hc by apply foldl_feed_capped.
  rewrite take_app, foldl_app. fold ra. rewrite length_app, Hab.
  destruct (decide (budget r < length a)%nat) as [Ha|Ha].
  - rewrite (bool_decide_eq_true_2 (budget r < length a)%nat), bool_decide_eq_true_2 by lia.
    replace (budget r - length a)%nat with 0%nat by lia. cbn [andb].
    rewrite process_chunk_eq by (destruct (rd_capped r); cbn; lia). cbn zeta.
    match goal with |- context [budget ?x] => replace (budget x) with 0%nat end.
    2: { unfold budget, zlen in *. destruct (rd_capped r); cbn; lia. }
    rewrite !take_0. cbn [foldl]. rewrite Z.add_assoc. destruct (rd_capped r); cbn [negb];
      rewrite ?andb_false_r; cbn; by rewrite ?Hc, ?andb_false_r.
  - rewrite (bool_decide_eq_false_2 (budget r < length a)%nat) by done. cbn [andb].
    rewrite process_chunk_eq by (cbn; lia). cbn zeta.
    rewrite !foldl_feed_set. cbn [rd_bytes_ingested rd_capped set_ingested].
    replace (budget (set_ingested ra (rd_bytes_ingested r + zlen a))) with (budget r - length a)%nat.
    2: { unfold budget, zlen in *. cbn. lia. }
    rewrite (bool_decide_ext (budget r - length a < length b)%nat
               (budget r < length a + length b)%nat) by lia.
    rewrite Hc, Z.add_assoc. done.
Qed.

Lemma process_chunk_app_witness :
  let r := pipe_reader_new Stderr in
  process_chunk (process_chunk r (bytes_of "on")) (bytes_of "e" ++ [NEWLINE]) =
  process_chunk r (bytes_of "one" ++ [NEWLINE]) ∧
  rd_log (process_chunk r (bytes_of "one" ++ [NEWLINE])) = [LineLogged Stderr "one"].
Proof.
  split; [|vm_compute; reflexivity].
  exact (process_chunk_app (pipe_reader_new Stderr) (bytes_of "on") (bytes_of "e" ++ [NEWLINE])
    ltac:(vm_compute; discriminate) ltac:(vm_compute; discriminate)).
Defined.

(** A hook that writes more than the capture limit gets the complete lines
    of the first mebibyte logged, one warning, and nothing after it. *)
Lemma drain_capped (s : PipeStream) (bs : list byte)
    (Hcap : MAX_CAPTURED_BYTES < zlen bs ≤ USIZE_MAX) :
  let lines := complete_lines (take (Z.to_nat MAX_CAPTURED_BYTES) bs) in
  let (r, n) := drain (pipe_reader_new s) (inr bs) in
  rd_log r = (log_line s <$> lines) ++ [CapWarned s] ∧ n = inr (zlen lines) ∧
  zlen lines ≤ MAX_CAPTURED_BYTES.
Proof.
  unfold drain. rewrite process_chunk_eq by (cbn [rd_bytes_ingested pipe_reader_new]; lia).
  assert (budget (pipe_reader_new s) = Z.to_nat MAX_CAPTURED_BYTES) as -> by done.
  assert (0 < MAX_CAPTURED_BYTES) by done.
  rewrite (bool_decide_eq_true_2 (Z.to_nat MAX_CAPTURED_BYTES < length bs)%nat)
    by (unfold zlen in *; lia).
  cbn [andb rd_capped pipe_reader_new negb]. rewrite (feed_spec s _ _).
  cbn [cap rd_partial rd_capped rd_stream rd_line_count rd_log negb]. rewrite andb_false_r.
  cbn [rd_log rd_line_count]. split_and!; [done..|]. unfold zlen.
  pose proof (complete_lines_bound (Z.to_nat MAX_CAPTURED_BYTES)
    (take (Z.to_nat MAX_CAPTURED_BYTES) bs) (firstn_le_length _ _)) as Hb. lia.
Qed.

(** ** The wait *)

Section wait_spec.
Context {W : Type} {CLK : Clock W} {PS : ProcSys W}.

(** Time passes while a child is waited for, and a poll is never interrupted:
    [EINTR] is documented for calls without [WNOHANG]. *)
Record wait_clock : Prop := {
  wc_now : ∀ w, clock w ≤ clock (instant_now w).1;
  wc_sleep : ∀ d w, clock w + d ≤ clock (sleep d w);
  wc_poll : ∀ pid w, clock w ≤ clock (waitpid_nohang pid w).1;
  wc_block : ∀ pid w, clock w ≤ clock (waitpid_block pid w).1;
  wc_kill : ∀ pgid signo w, clock w ≤ clock (killpg pgid signo w).1;
  wc_no_eintr : ∀ pid w, (waitpid_nohang pid w).2 ≠ inl EINTR;
}.

(** The blocking wait is interrupted fewer than [n] times in a row. *)
Fixpoint reaped_within (n : nat) (pid : Z) (w : W) : Prop :=
  match n with
  | O => False
  | S n => match waitpid_block pid w with
           | (w', inl errno) => errno = EINTR → reaped_within n pid w'
           | (_, inr _) => True
           end
  end.

Context (Hclk : wait_clock).

Lemma now_after w w1 now : instant_now w = (w1, now) → clock w = now ∧ now ≤ clock w1.
Proof.
  intros H. pose proof (wc_now Hclk w) as Hn. unfold clock in *. rewrite H in *. cbn in *. lia.
Qed.

Lemma poll_child_eq f pid deadline w :
  poll_child (S f) pid deadline w =
  match waitpid_nohang pid w with
  | (w1, inr StillAlive) =>
      let (w2, now) := instant_now w1 in
      if decide (deadline ≤ now) then (w2, Ok None)
      else poll_child f pid deadline (sleep WAIT_POLL_INTERVAL w2)
  | (w1, inr st) => (w1, Ok (Some st))
  | (w1, inl e) => if decide (e = EINTR) then poll_child f pid deadline w1
                   else (w1, Err (HookWait e))
  end.
Proof.
  cbn [poll_child]. unfold fbind, ask. destruct (waitpid_nohang pid w) as [w1 [e|[]]]; [|done..| |done].
  - by case_decide.
  - destruct (instant_now w1) as [w2 now]. by case_decide.
Qed.

Lemma poll_child_total n pid deadline w :
  deadline - clock w ≤ Z.of_nat n * WAIT_POLL_INTERVAL →
  match poll_child (S n) pid deadline w with
  | (w', Ok None) => deadline ≤ clock w'
  | (w', Ok (Some _)) => clock w ≤ clock w'
  | (_, Err e) => ∃ errno, e = HookWait errno
  | (_, Panic) => False
  end.
Proof.
  revert w. induction n as [|n IH]; intros w Hd; rewrite poll_child_eq;
    pose proof (wc_poll Hclk pid w) as Hp; pose proof (wc_no_eintr Hclk pid w) as Hne;
    destruct (waitpid_nohang pid w) as [w1 [e|st]]; cbn [fst snd] in Hp, Hne.
  1, 3: rewrite decide_False by congruence; by eexists.
  all: destruct st; try exact Hp; destruct (instant_now w1) as [w2 now] eqn:Hi;
    apply now_after in Hi as [Hi1 Hi2]; case_decide; try lia.
  pose proof (wc_sleep Hclk WAIT_POLL_INTERVAL w2) as Hs. rewrite Nat2Z.inj_succ, Z.mul_succ_l in Hd.
  assert (0 < WAIT_POLL_INTERVAL) by done.
  assert (deadline - clock (sleep WAIT_POLL_INTERVAL w2) ≤ Z.of_nat n * WAIT_POLL_INTERVAL)
    as Hd2 by lia.
  specialize (IH _ Hd2).
  destruct (poll_child (S n) pid deadline _) as [w3 [[st|]|e|]]; try done. lia.
Qed.

Lemma wait_fuel_enough timeout deadline w :
  0 ≤ timeout → deadline ≤ clock w + timeout →
  ∃ n, wait_fuel timeout = S n ∧ deadline - clock w ≤ Z.of_nat n * WAIT_POLL_INTERVAL.
Proof.
  intros Ht Hd. exists (S (Z.to_nat (timeout / WAIT_POLL_INTERVAL))). split; [unfold wait_fuel; lia|].
  pose proof (Z.div_mod timeout WAIT_POLL_INTERVAL). pose proof (Z.mod_pos_bound timeout WAIT_POLL_INTERVAL).
  unfold WAIT_POLL_INTERVAL, NANOS_PER_MILLI in *. lia.
Qed.

Lemma reap_child_total n pid w :
  reaped_within n pid w →
  match reap_child n pid w with
  | (w', Ok _) => clock w ≤ clock w'
  | (_, Err e) => ∃ errno, e = HookWait errno
  | (_, Panic) => False
  end.
Proof.
  revert w. induction n as [|n IH]; intros w; cbn; [done|]. unfold fbind, ask.
  pose proof (wc_block Hclk pid w) as Hb. destruct (waitpid_block pid w) as [w1 [e|st]]; cbn [fst snd] in Hb.
  - intros Hr. case_decide; [|by eexists]. specialize (IH w1 (Hr H)).
    destruct (reap_child n pid w1) as [w2 [st|e'|]]; [lia|done..].
  - by intros _.
Qed.

Lemma signal_group_total pgid signo w :
  match signal_group pgid signo w with
  | (w', Ok _) => clock w ≤ clock w'
  | (_, Err e) => ∃ errno, e = HookWait errno
  | (_, Panic) => False
  end.
Proof.
  unfold signal_group, fbind, ask. pose proof (wc_kill Hclk pgid signo w) as Hk.
  destruct (killpg pgid signo w) as [w1 [e|u]]; cbn [fst snd] in Hk; [|done].
  case_decide; [done|by eexists].
Qed.

Lemma wait_outcome_total ws killed start w :
  clock w ≤ clock (wait_outcome ws killed start w).1 ∧
  ∃ o, (wait_outcome ws killed start w).2 = Ok o ∧ wo_killed_by_timeout o = killed ∧
    wo_status o = from_wait_status ws ∧ clock w - start ≤ wo_elapsed o.
Proof.
  unfold wait_outcome, fbind, ask. destruct (instant_now w) as [w1 now] eqn:Hi.
  apply now_after in Hi as [<- Hi]. cbn. split; [done|]. eexists. split_and!; [done..|].
  cbn. lia.
Qed.

(** A wait that ended: in time, or after its deadline. *)
Definition wait_ended (timeout : Z) (r : W * res HookError WaitOutcome) : Prop :=
  match r.2 with
  | Ok o => wo_killed_by_timeout o = true → timeout ≤ wo_elapsed o
  | Err e => ∃ errno, e = HookWait errno
  | Panic => False
  end.

Lemma escalate_total reaps pid pgid start timeout w :
  (∀ w, reaped_within reaps pid w) → start + timeout ≤ clock w →
  wait_ended timeout (escalate reaps pid pgid start w).
Proof.
  intros Hreap Hlate. unfold escalate. rewrite fbind_eq.
  pose proof (signal_group_total pgid SIGTERM w) as Hs.
  destruct (signal_group pgid SIGTERM w) as [w1 [u|e|]]; [|done..].
  rewrite fbind_eq. unfold ask. destruct (instant_now w1) as [w2 now] eqn:Hi.
  apply now_after in Hi as [Hi1 Hi2].
  destruct (wait_fuel_enough TERM_GRACE (now + TERM_GRACE) w2) as (n & -> & Hn); [done|lia|].
  rewrite fbind_eq. pose proof (poll_child_total n pid (now + TERM_GRACE) w2 Hn) as Hp.
  destruct (poll_child _ _ _ w2) as [w3 [[st|]|e|]]; [|..|done|done].
  - destruct (wait_outcome_total st true start w3) as (_ & o & Ho & _ & _ & He).
    unfold wait_ended. rewrite Ho. lia.
  - assert (0 < TERM_GRACE) by done. rewrite fbind_eq.
    pose proof (signal_group_total pgid SIGKILL w3) as Hk.
    destruct (signal_group pgid SIGKILL w3) as [w4 [u'|e|]]; [|done..].
    rewrite fbind_eq. pose proof (reap_child_total reaps pid w4 (Hreap w4)) as Hr.
    destruct (reap_child reaps pid w4) as [w5 [st|e|]]; [|done..].
    destruct (wait_outcome_total st true start w5) as (_ & o & Ho & _ & _ & He).
    unfold wait_ended. rewrite Ho. lia.
Qed.

End wait_spec.

(** C30: With a clock that runs and a child that can be reaped, the wait ends: a
    status of the child, or an error of the system calls, and it reports a
    kill only when the hook's time was up. *)
Theorem wait_with_timeout_total {W} {CLK : Clock W} {PS : ProcSys W} reaps pid pgid timeout w
    (Hclk : wait_clock (W := W)) (Ht : 0 ≤ timeout) (Hreap : ∀ w, reaped_within reaps pid w) :
  wait_ended timeout (wait_with_timeout reaps pid pgid timeout w).
Proof.
  unfold wait_with_timeout. rewrite fbind_eq. unfold ask.
  destruct (instant_now w) as [w1 start] eqn:Hi. apply (now_after Hclk) in Hi as [Hi1 Hi2].
  destruct (wait_fuel_enough timeout (start + timeout) w1) as (n & -> & Hn); [done|lia|].
  rewrite fbind_eq. pose proof (poll_child_total Hclk n pid (start + timeout) w1 Hn) as Hp.
  destruct (poll_child _ _ _ w1) as [w2 [[st|]|e|]]; [|..|done|done].
  - destruct (wait_outcome_total Hclk st false start w2) as (_ & o & Ho & Hk & _).
    unfold wait_ended. rewrite Ho. congruence.
  - by apply escalate_total.
Qed.

Lemma wait_with_timeout_total_witness :
  wait_with_timeout (CLK := ExecSample.stubborn_clock) (PS := ExecSample.stubborn_procs) 1 42 42
    NANOS_PER_SEC (0, false) =
  ((3 * NANOS_PER_SEC, true),
   Ok (MkWaitOutcome (MkExitStatus None (Some SIGKILL)) true (3 * NANOS_PER_SEC))) ∧
  wait_ended NANOS_PER_SEC
    (wait_with_timeout (CLK := ExecSample.stubborn_clock) (PS := ExecSample.stubborn_procs) 1 42 42
       NANOS_PER_SEC (0, false)).
Proof.
  split; [vm_compute; reflexivity|].
  apply (wait_with_timeout_total (CLK := ExecSample.stubborn_clock)
    (PS := ExecSample.stubborn_procs) 1 42 42 NANOS_PER_SEC (0, false)).
  - split; try (intros; cbn; lia). by intros pid [t [|]].
  - done.
  - done.
Defined.

(** ** Signals *)

(** The calls of [killpg], recorded. *)
#[local] Instance traced_clock {W} (CLK : Clock W) : Clock (W * list (Z * Z)) := {|
  instant_now s := let (w, now) := instant_now s.1 in ((w, s.2), now);
  sleep d s := (sleep d s.1, s.2);
|}.

#[local] Instance traced_sys {W} (PS : ProcSys W) : ProcSys (W * list (Z * Z)) := {|
  waitpid_nohang pid s := let (w, r) := waitpid_nohang pid s.1 in ((w, s.2), r);
  waitpid_block pid s := let (w, r) := waitpid_block pid s.1 in ((w, s.2), r);
  killpg pgid signo s :=
    let (w, r) := killpg pgid signo s.1 in ((w, s.2 ++ [(pgid, signo)]), r);
  setpgid pid pgid s := (setpgid pid pgid s.1, s.2);
|}.

Section signals.
Context {W : Type} {CLK : Clock W} {PS : ProcSys W}.
Implicit Types s : W * list (Z * Z).

Lemma poll_child_quiet fuel pid deadline s : (poll_child fuel pid deadline s).1.2 = s.2.
Proof.
  revert s. induction fuel as [|f IH]; intros [w l]; [done|]. rewrite poll_child_eq. cbn.
  destruct (waitpid_nohang pid w) as [w1 [e|[]]]; cbn; [case_decide; [apply IH|done]|done..| |done].
  destruct (instant_now w1) as [w2 now]. case_decide; [done|]. apply IH.
Qed.

Lemma reap_child_quiet fuel pid s : (reap_child fuel pid s).1.2 = s.2.
Proof.
  revert s. induction fuel as [|f IH]; intros [w l]; [done|]. cbn [reap_child]. unfold fbind, ask. cbn.
  destruct (waitpid_block pid w) as [w1 [e|st]]; [|done]. case_decide; [apply IH|done].
Qed.

Lemma signal_group_traced pgid signo s s' u :
  signal_group pgid signo s = (s', Ok u) → s'.2 = s.2 ++ [(pgid, signo)].
Proof.
  destruct s as [w l]. unfold signal_group, fbind, ask. cbn.
  destruct (killpg pgid signo w) as [w1 [e|x]]; [case_decide; [|done]|]; by intros [= <- _].
Qed.

Lemma wait_outcome_quiet ws killed start s s' o :
  wait_outcome ws killed start s = (s', Ok o) → s'.2 = s.2 ∧ wo_killed_by_timeout o = killed.
Proof.
  destruct s as [w l]. unfold wait_outcome, fbind, ask. cbn. destruct (instant_now w).
  by intros [= <- <-].
Qed.

End signals.

(** A child that ends in time is sent no signal; one that does not has its
    group sent [SIGTERM], and [SIGKILL] only after that. *)
Theorem wait_signals {W} {CLK : Clock W} {PS : ProcSys W} reaps pid pgid timeout (w w' : W) sent o
    (Hok : wait_with_timeout reaps pid pgid timeout (w, []) = ((w', sent), Ok o)) :
  if wo_killed_by_timeout o
  then sent = [(pgid, SIGTERM)] ∨ sent = [(pgid, SIGTERM); (pgid, SIGKILL)]
  else sent = [].
Proof.
  unfold wait_with_timeout in Hok. peel Hok s1 start H1. unfold ask in H1. cbn in H1.
  destruct (instant_now w) as [w1 now]. injection H1 as <- _. peel Hok s2 ended H2.
  pose proof (poll_child_quiet (wait_fuel timeout) pid (start + timeout) (w1, [])) as Hq.
  rewrite H2 in Hq. cbn in Hq. destruct ended as [st|].
  { apply wait_outcome_quiet in Hok as [Hl ->]. cbn in Hl. congruence. }
  unfold escalate in Hok. peel Hok s3 u3 H3. apply signal_group_traced in H3. rewrite Hq in H3.
  peel Hok s4 now4 H4. unfold ask in H4. destruct s3 as [w3 l3]. cbn in H4, H3.
  destruct (instant_now w3) as [w4 n4]. injection H4 as <- _. peel Hok s5 ended5 H5.
  pose proof (poll_child_quiet (wait_fuel TERM_GRACE) pid (now4 + TERM_GRACE) (w4, l3)) as Hq5.
  rewrite H5 in Hq5. cbn in Hq5. destruct ended5 as [st|].
  { apply wait_outcome_quiet in Hok as [Hl ->]. cbn in Hl. left. congruence. }
  peel Hok s6 u6 H6. apply signal_group_traced in H6. peel Hok s7 st7 H7.
  pose proof (reap_child_quiet reaps pid s6) as Hq7. rewrite H7 in Hq7. cbn in Hq7.
  apply wait_outcome_quiet in Hok as [Hl ->]. cbn in Hl. right.
  rewrite Hl, Hq7, H6, Hq5, H3. done.
Qed.

Lemma wait_signals_witness :
  [(42, SIGTERM); (42, SIGKILL)] = [(42, SIGTERM)] ∨
  [(42, SIGTERM); (42, SIGKILL)] = [(42, SIGTERM); (42, SIGKILL)].
Proof.
  refine (wait_signals (CLK := ExecSample.stubborn_clock) (PS := ExecSample.stubborn_procs)
    1 42 42 NANOS_PER_SEC (0, false) (3 * NANOS_PER_SEC, true) [(42, SIGTERM); (42, SIGKILL)]
    (MkWaitOutcome (MkExitStatus None (Some SIGKILL)) true (3 * NANOS_PER_SEC)) _).
  vm_compute. reflexivity.
Defined.

(** ** The executor *)

Lemma argv_cstrings_Ok args argv :
  argv_cstrings args = Ok argv → argv = args ∧ Forall (λ a, zb 0 ∉ bytes_of a) args.
Proof.
  revert argv. induction args as [|a r IH]; intros argv; cbn; [by intros [= <-]|].
  case_decide as Hz; [done|]. intros H. apply rbind_Ok_inv in H as (out & Ho & H).
  injection H as <-. apply IH in Ho as [-> Ha]. split; [done|]. by constructor.
Qed.

(** A hook that ran was started from its command, with the environment that
    was built and, when it runs as the user, with what the user database says
    of the user of the login; its outcome is the one of that child. *)
Theorem execute_starts_command {W} {CLK : Clock W} {PS : ProcSys W} {UDB : UserDb W}
    {CS : ChildSys W} {ES : ExecSys W} reaps hook vars w w' o
    (Hok : execute reaps hook vars w = (w', Ok o)) :
  ∃ user env out_r out_w err_r err_w w1 w2 pid,
    build_env_vector hook vars user = Ok env ∧
    match hk_run_as hook with
    | RunAsRoot => user = None
    | RunAsUser => ∃ name u, hv_pam_user vars = Some name ∧ user = Some u ∧
                     lookup_user name w = (w1, Ok u)
    end ∧
    Forall (λ a, zb 0 ∉ bytes_of a) (hk_command hook) ∧
    sys_fork (child_main (hk_command hook) env user (default_caps_for_timeout (hk_timeout hook))
                out_r out_w err_r err_w (build_groups_box user)) w2.1 = (w2.2, inr pid) ∧
    ho_stage o = hk_stage hook ∧ ho_command o = hk_command hook ∧
    ∃ w3 w4 ended, wait_with_timeout reaps pid pid (hk_timeout hook) w3 = (w4, Ok ended) ∧
      ho_exit_code o = conventional_code (wo_status ended) ∧
      ho_killed_by_timeout o = wo_killed_by_timeout ended.
Proof.
  unfold execute in Hok. peel Hok w1 user Hu. peel Hok w2 env Henv.
  apply lift_Ok_inv in Henv as [-> Henv]. case_decide; [done|]. peel Hok w3 argv Hargv.
  apply lift_Ok_inv in Hargv as [-> Hargv]. apply argv_cstrings_Ok in Hargv as [-> Hnul].
  peel Hok w4 pipes Hpipes. destruct pipes as [[out_r out_w] [err_r err_w]].
  peel Hok w5 start Hstart. peel Hok w6 pid Hfork. apply io_map_err_Ok_inv, call_Ok_inv in Hfork.
  unfold supervise_parent in Hok. peel Hok w7 u7 H7. peel Hok w8 u8 H8. peel Hok w9 u9 H9.
  peel Hok w10 u10 H10. peel Hok w11 ended H11. peel Hok w12 ol H12. peel Hok w13 el H13.
  peel Hok w14 now H14. peel Hok w15 u15 H15. injection Hok as <- <-.
  exists user, env, out_r, out_w, err_r, err_w, w1, (w5, w6), pid. split_and!; [done| |done..|].
  - unfold hook_user in Hu. destruct (hk_run_as hook); [by injection Hu|].
    peel Hu w0 name Hname. apply lift_Ok_inv in Hname as [-> Hname].
    peel Hu w0' u Hl. injection Hu as -> <-. destruct (hv_pam_user vars) as [n|]; [|done].
    injection Hname as ->. by exists name, u.
  - exists w10, w11, ended. done.
Qed.

Lemma execute_starts_command_witness :
  let w := ExecSample.process {[0 := OtherFile 1; 1 := OtherFile 1; 2 := OtherFile 1]} in
  let run := execute (CLK := ExecSample.kernel_clock) (PS := ExecSample.kernel_procs)
    (UDB := ExecSample.user_db) (CS := ExecSample.child_sys) (ES := ExecSample.exec_sys (inr 42))
    1 sample_config sample_vars w in
  ∃ o, run.2 = Ok o ∧ ho_command o = ["/bin/true"] ∧ v_fds run.1 = v_fds w.
Proof.
  intros w run.
  destruct (execute_starts_command (CLK := ExecSample.kernel_clock)
    (PS := ExecSample.kernel_procs) (UDB := ExecSample.user_db) (CS := ExecSample.child_sys)
    (ES := ExecSample.exec_sys (inr 42)) 1 sample_config sample_vars w run.1
    (MkHookOutcome PreAuth ["/bin/true"] 0 false 0 0 0) ltac:(vm_compute; reflexivity))
    as (_ & _ & _ & _ & _ & _ & _ & _ & _ & _ & _ & _ & _ & _ & Hc & _).
  exists (MkHookOutcome PreAuth ["/bin/true"] 0 false 0 0 0).
  split; [vm_compute; reflexivity|]. split; [exact Hc|]. vm_compute. reflexivity.
Defined.

(** When [fork] fails the four descriptors of the pipes stay open. *)
Theorem failed_fork_leaks_pipes :
  let w := ExecSample.process {[0 := OtherFile 1; 1 := OtherFile 1; 2 := OtherFile 1]} in
  let (w', r) :=
    execute (CLK := ExecSample.kernel_clock) (PS := ExecSample.kernel_procs)
      (UDB := ExecSample.user_db) (CS := ExecSample.child_sys) (ES := ExecSample.exec_sys (inl 11))
      1 sample_config sample_vars w in
  r = Err (HookFork 11) ∧ size (v_fds w) = 3%nat ∧ size (v_fds w') = 7%nat.
Proof. vm_compute. auto. Qed.

(** ** The groups of a user *)

Lemma group_list_loop_total {W} {AG : AppleGroups W} k name gid n w :
  0 < n → GROUPS_HARD_CAP ≤ n * 2 ^ Z.of_nat k → (group_list_loop (S k) name gid n w).2 ≠ Panic.
Proof.
  revert n w. induction k as [|k IH]; intros n w Hn Hc; cbn [group_list_loop]; rewrite fbind_eq; unfold ask;
    destruct (libc_getgrouplist name gid n w) as [w' [[rc count] buf]]; case_decide; try done;
    case_decide as Hd; try done; unfold GROUPS_HARD_CAP in *.
  - lia.
  - apply IH; unfold GROUPS_HARD_CAP, C_INT_MAX; [lia|].
    rewrite Nat2Z.inj_succ, Z.pow_succ_r in Hc by lia. nia.
Qed.

(** The lookup of the groups ends, whatever the system call answers; what it
    returns is a prefix of the buffer the call filled, as group numbers. *)
Theorem group_list_ends {W} {AG : AppleGroups W} name gid w :
  (group_list_apple name gid w).2 ≠ Panic ∧
  ∀ groups, (group_list_apple name gid w).2 = Ok groups →
    Forall (λ g, 0 ≤ g) groups ∧
    ∃ n w1 w2 rc count buf, 0 ≤ rc ∧ n ≤ GROUPS_HARD_CAP ∧
      libc_getgrouplist name (Z.min gid C_INT_MAX) n w1 = (w2, (rc, count, buf)) ∧
      groups = to_gid <$> take (Z.to_nat count) buf.
Proof.
  unfold group_list_apple. split; [by apply group_list_loop_total|].
  replace (if decide (gid ≤ C_INT_MAX) then gid else C_INT_MAX) with (Z.min gid C_INT_MAX)
    by (case_decide; lia).
  assert (32 ≤ GROUPS_HARD_CAP) as Hn by (unfold GROUPS_HARD_CAP; lia). revert Hn w. generalize 32. generalize 8%nat.
  intros fuel. induction fuel as [|f IH]; intros n Hn w groups; cbn [group_list_loop]; [done|].
  rewrite fbind_eq. unfold ask. destruct (libc_getgrouplist _ _ n w) as [w' [[rc count] buf]] eqn:Hg.
  case_decide; [|case_decide; [done|apply IH; lia]]. intros [= <-]. split.
  - apply Forall_fmap, Forall_forall. intros g _. cbn. unfold to_gid. case_decide; lia.
  - by exists n, w, w', rc, count, buf.
Qed.
