(* ===== verification/Client.v ===== *)
(** * The client of monitord ([ipc/{mod,client,failmode}.rs])

    One connection per call: connect, [Hello], the request, its reply; and the
    fail mode around it.  The socket is the class [SocketSys].  The second half
    connects the client to the server of [Server.v]: the calls of the PAM
    module are the requests of the daemon's state manager. *)

From S2P Require Import Prelude Text Sys Errors Certificate Proto Registry State Server.
From S2P Require Import Hooks RawConfig Config.
Local Open Scope Z_scope.

(** ** The interface *)

(** What the flow tells monitord. *)
Record OpenSessionInfo := MkOpenInfo {
  oi_session_id : string;
  oi_pam_user : string;
  oi_pam_service : string;
  oi_host_id_hash : string;
  oi_target : SessionTarget;
  oi_usb_serial : option string;
  oi_cert_cn : string;
  oi_cert_serial : string;
  oi_engineer_ski : string;
  oi_engineer_cert_sha256 : string;
  oi_uid : Z;
}.

(** An unexpected reply is carried as the message it renders. *)
Inductive IpcError : Type :=
| IpcNotConnected
| IpcEncode (e : FramingError)
| IpcWire (e : WireError)
| IpcDecode (e : string)
| IpcIo (e : IoError)
| IpcTimeout
| IpcUnavailable
| IpcProtocolMismatch (server : Z)
| IpcDeviceGone
| IpcUnauthorized
| IpcDisabled
| IpcUnexpectedReply (m : ServerMessage)
| IpcProtocol (code : ServerErrorCode) (message : string)
| IpcServer (code : Z) (message : string).

Record MonitorClient (W : Type) := MkMonitorClient {
  mc_hello : io W IpcError unit;
  mc_open_session : OpenSessionInfo → io W IpcError unit;
  mc_close_session : string → string → io W IpcError unit;
  mc_ping : io W IpcError unit;
}.
Arguments MkMonitorClient {W}.
Arguments mc_hello {W}.
Arguments mc_open_session {W}.
Arguments mc_close_session {W}.
Arguments mc_ping {W}.

Definition StubClient {W} : MonitorClient W :=
  MkMonitorClient (fret tt) (λ _, fret tt) (λ _ _, fret tt) (fret tt).

(** ** The connection *)

(** The [uuid] crate: [parse_str], and [new_v5] under [NAMESPACE_OID]. *)
Class UuidCrate := {
  Uuid_parse_str : string → option Uuid;
  Uuid_new_v5_oid : list byte → Uuid;
}.

Definition uuid_from_session_id {UC : UuidCrate} (s : string) : Uuid :=
  match Uuid_parse_str s with
  | Some parsed => parsed
  | None => Uuid_new_v5_oid (bytes_of s)
  end.

(** The version of the core crate, and the wall clock in nanoseconds. *)
Class CorePkg := core_pkg_version : string.
Class WallClock (W : Type) := system_time_now : W → W * Z.

(** A Unix stream socket; [sock_read_until] is [read_until] on the newline. *)
Class SocketSys (W : Type) := {
  Sock : Type;
  sock_connect : string → W → W * (IoError + Sock);
  sock_set_read_timeout : Sock → Z → W → W * (IoError + unit);
  sock_set_write_timeout : Sock → Z → W → W * (IoError + unit);
  sock_try_clone : Sock → W → W * (IoError + unit);
  sock_write_all : Sock → list byte → W → W * (IoError + unit);
  sock_flush : Sock → W → W * (IoError + unit);
  sock_read_until : Sock → W → W * (IoError + list byte);
}.

Record ActiveSessionReply := MkActiveReply {
  ar_session_id : string;
  ar_cert_cn : string;
  ar_engineer_ski : string;
  ar_engineer_cert_sha256 : string;
  ar_host_id_hash : string;
}.

Definition map_server_error (code : Z) (message : string) : IpcError :=
  if decide (code = DEVICE_GONE) then IpcDeviceGone
  else if decide (code = PROTOCOL_MISMATCH) then IpcProtocolMismatch 0
  else if decide (code = UNAUTHORIZED) then IpcUnauthorized
  else IpcServer code message.

Section client.
Context {W : Type} {SK : SocketSys W} {WC : WallClock W} {UC : UuidCrate} {PKG : CorePkg}.
Context {JC : Json ClientMessage} {JS : Json ServerMessage}.

Definition AGENT : string := "libpam_certauth/" +:+ core_pkg_version.

Definition client_send (s : Sock) (msg : ClientMessage) : io W IpcError unit :=
  let! bytes := lift (map_err IpcWire (encode_message msg)) in
  do! io_map_err IpcIo (call (sock_write_all s bytes));
  io_map_err IpcIo (call (sock_flush s)).

(** [read_line] refuses what is not UTF-8. *)
Definition client_recv (s : Sock) : io W IpcError ServerMessage :=
  let! bytes := io_map_err IpcIo (call (sock_read_until s)) in
  let! line := lift (ok_or (from_utf8 bytes)
    (IpcIo (MkIoError KindInvalidData "stream did not contain valid UTF-8"))) in
  if decide (bytes = []) then lift (Err IpcUnavailable)
  else lift (map_err IpcWire (decode_line line)).

(** The replies every call treats alike. *)
Definition unexpected {A} (reply : ServerMessage) : io W IpcError A :=
  lift (Err (match reply with
             | ErrorMsg code message => map_server_error code message
             | other => IpcUnexpectedReply other
             end)).

Definition monitord_connect (path : string) (timeout : Z) : io W IpcError Sock :=
  let! s := io_map_err (λ _, IpcUnavailable) (call (sock_connect path)) in
  do! io_map_err IpcIo (call (sock_set_read_timeout s timeout));
  do! io_map_err IpcIo (call (sock_set_write_timeout s timeout));
  do! io_map_err IpcIo (call (sock_try_clone s));
  do! client_send s (Hello PROTOCOL_VERSION (Some AGENT));
  let! reply := client_recv s in
  match reply with
  | HelloAck _ v => if decide (v = PROTOCOL_VERSION) then fret s
                    else lift (Err (IpcProtocolMismatch v))
  | other => unexpected other
  end.

Definition client_ping (s : Sock) : io W IpcError unit :=
  do! client_send s Ping;
  let! reply := client_recv s in
  match reply with Pong => fret tt | other => unexpected other end.

Definition send_session_open (s : Sock) (payload : SessionOpenPayload) : io W IpcError unit :=
  do! client_send s (SessionOpen payload);
  let! reply := client_recv s in
  match reply with Ack => fret tt | other => unexpected other end.

Definition get_active_session_by_uid (s : Sock) (uid : Z) : io W IpcError ActiveSessionReply :=
  do! client_send s (GetActiveSessionByUid uid);
  let! reply := client_recv s in
  match reply with
  | ActiveSessionMsg id cn ski sha host => fret (MkActiveReply id cn ski sha host)
  | other => unexpected other
  end.

Definition send_session_close (s : Sock) (id : Uuid) (closed_at : Z) : io W IpcError unit :=
  do! client_send s (SessionClose id closed_at);
  let! reply := client_recv s in
  match reply with Ack => fret tt | other => unexpected other end.

Definition send_update_session_target (s : Sock) (id : Uuid) (target : SessionTarget)
    : io W IpcError unit :=
  do! client_send s (UpdateSessionTarget id target);
  let! reply := client_recv s in
  match reply with
  | SessionTargetUpdated _ | Ack => fret tt
  | other => unexpected other
  end.

(** ** The clients *)

Definition open_payload (info : OpenSessionInfo) (now : Z) : SessionOpenPayload :=
  MkSessionOpen (uuid_from_session_id (oi_session_id info)) (oi_pam_user info)
    (oi_pam_service info) (oi_target info) (oi_usb_serial info) (oi_host_id_hash info) now
    (oi_cert_cn info) (oi_cert_serial info) (oi_engineer_ski info)
    (oi_engineer_cert_sha256 info) (oi_uid info).

(** [ConnectPerCall] over a [MonitorClientFactory]. *)
Definition ConnectPerCall (path : string) (timeout : Z) : MonitorClient W :=
  let connect := monitord_connect path timeout in
  {| mc_hello := let! s := connect in client_ping s;
     mc_open_session info :=
       let! s := connect in
       let! now := ask system_time_now in
       send_session_open s (open_payload info now);
     mc_close_session id _ :=
       let! s := connect in
       let! now := ask system_time_now in
       send_session_close s (uuid_from_session_id id) now;
     mc_ping := let! s := connect in client_ping s |}.

End client.

(** ** The fail mode *)

Definition is_fatal (e : IpcError) : bool :=
  match e with IpcDeviceGone | IpcUnauthorized => true | _ => false end.

Definition apply_fail_mode {W} (mode : MonitorFailMode) (f : io W IpcError unit)
    : io W IpcError unit := λ w,
  match f w with
  | (w', Err e) =>
      if is_fatal e then (w', Err e) else
      match mode with
      | Strict => (w', Err e)
      | Permissive => (w', Ok tt)
      end
  | r => r
  end.

Definition FailModeWrapper {W} (c : MonitorClient W) (mode : MonitorFailMode) : MonitorClient W :=
  {| mc_hello := apply_fail_mode mode (mc_hello c);
     mc_open_session info := apply_fail_mode mode (mc_open_session c info);
     mc_close_session id reason := apply_fail_mode mode (mc_close_session c id reason);
     mc_ping := apply_fail_mode mode (mc_ping c) |}.

(** ** The client and the server

    The two ends of a socket in lockstep: the server has served what the
    client wrote, and the client reads the next of its replies.  The client
    writes a frame only after it has read the reply to the one before, so the
    server's reader never holds more than the frame it is at. *)

Record link (S : Type) := MkLink {
  lk_manager : S;
  lk_sent : list (list byte);
  lk_read : nat;
  lk_now : Z;
}.
Arguments MkLink {S}.
Arguments lk_manager {S}.
Arguments lk_sent {S}.
Arguments lk_read {S}.
Arguments lk_now {S}.

Section link.
Context {S : Type} (ask : S → IpcRequest → S * ask_result).
Context {JC : Json ClientMessage} {JS : Json ServerMessage} {CP : CratePkg}.

Definition served (l : link S) : S * list (list byte) :=
  (serve_connection_with ask (λ _, true) 0 (idle_timeout accept_config_default)
     (InByte <$> concat (lk_sent l)) (lk_manager l)).1.

(** The state manager now. *)
Definition daemon (l : link S) : S := (served l).1.

(** A new connection starts where the last one left the daemon. *)
Definition link_socket : SocketSys (link S) := {|
  Sock := unit;
  sock_connect _ l := (MkLink (daemon l) [] 0 (lk_now l), inr tt);
  sock_set_read_timeout _ _ l := (l, inr tt);
  sock_set_write_timeout _ _ l := (l, inr tt);
  sock_try_clone _ l := (l, inr tt);
  sock_write_all _ bytes l := (MkLink (lk_manager l) (lk_sent l ++ [bytes]) (lk_read l) (lk_now l), inr tt);
  sock_flush _ l := (l, inr tt);
  sock_read_until _ l :=
    (MkLink (lk_manager l) (lk_sent l) (Datatypes.S (lk_read l)) (lk_now l),
     inr (default [] ((served l).2 !! lk_read l)));
|}.

Definition link_clock : WallClock (link S) := λ l, (l, lk_now l).

End link.

(** ** Lemmas *)

Section link_lemmas.
Context {S : Type} (ask : S → IpcRequest → S * ask_result).
Context {JC : Json ClientMessage} {JCL : JsonLaws ClientMessage}.
Context {JS : Json ServerMessage} {JSL : JsonLaws ServerMessage}.
Context {CP : CratePkg} {UC : UuidCrate} {PKG : CorePkg}.
#[local] Existing Instance link_clock.
#[local] Instance link_sk : SocketSys (link S) := link_socket ask.

(** A message whose frame the client takes. *)
Definition reply_fits (m : ServerMessage) : Prop :=
  ∃ f, encode_message m = Ok f ∧ zlen f ≤ MAX_FRAME_BYTES.

Lemma client_recv_frame (l : link S) m f :
  (served ask l).2 !! lk_read l = Some f → encode_message m = Ok f → zlen f ≤ MAX_FRAME_BYTES →
  client_recv (tt : Sock) l =
    (MkLink (lk_manager l) (lk_sent l) (Datatypes.S (lk_read l)) (lk_now l), Ok m).
Proof.
  intros Hr (bs & Hj & -> & _)%encode_message_inv Hl. unfold client_recv.
  assert (utf8_valid (bs ++ [LF]) = true) as Hu.
  { by rewrite utf8_valid_app by by eapply json_utf8. }
  rewrite fbind_eq. unfold io_map_err, call. cbn [sock_read_until link_sk link_socket].
  rewrite Hr. cbn [default from_option id of_sum map_err]. rewrite fbind_eq. unfold from_utf8. rewrite Hu.
  cbn [ok_or lift]. rewrite decide_False by by destruct bs.
  unfold decode_line. rewrite bytes_of_text_of.
  unfold lift. by rewrite (decode_encoded m).
Qed.

Lemma client_send_frame (l : link S) (m : ClientMessage) f :
  encode_message m = Ok f →
  client_send (tt : Sock) m l = (MkLink (lk_manager l) (lk_sent l ++ [f]) (lk_read l) (lk_now l), Ok tt).
Proof. intros He. unfold client_send. rewrite fbind_eq. unfold lift. by rewrite He. Qed.

Context (hello ack : list byte).
Context (Hhello : frame_of (Hello PROTOCOL_VERSION (Some AGENT)) hello).
Context (Hack : encode_message (HelloAck cargo_pkg_version PROTOCOL_VERSION) = Ok ack).
Context (Hack_fits : zlen ack ≤ MAX_FRAME_BYTES).

Lemma served_hello st n now : served ask (MkLink st [hello] n now) = (st, [ack]).
Proof.
  unfold served. cbn [lk_sent lk_manager concat].
  by rewrite (serve_connection_frames _ _ _ st st (Some AGENT) hello ack [] [] [] []).
Qed.

Lemma served_request st n now (m : ClientMessage) f st' reply out :
  frame_of m f → dispatch ask st (on_wire m) = (st', reply) → encode_message reply = Ok out →
  served ask (MkLink st [hello; f] n now) = (st', [ack; out]).
Proof.
  intros Hf Hd He. unfold served. cbn [lk_sent lk_manager concat].
  rewrite (serve_connection_frames _ _ _ st st' (Some AGENT) hello ack [m] [f] [reply] [out]); try done.
  - constructor; [done|constructor].
  - cbn [fmap list_fmap serve_all]. by rewrite Hd.
  - constructor; [done|constructor].
Qed.

Lemma connect_handshake path timeout (l : link S) :
  monitord_connect path timeout l = (MkLink (daemon ask l) [hello] 1 (lk_now l), Ok (tt : Sock)).
Proof.
  unfold monitord_connect, io_map_err, call.
  do 4 (rewrite fbind_eq; cbn [sock_connect sock_set_read_timeout sock_set_write_timeout
    sock_try_clone link_sk link_socket of_sum map_err]).
  rewrite fbind_eq, (client_send_frame _ _ hello) by apply Hhello. cbn [lk_manager lk_sent lk_read lk_now app].
  rewrite fbind_eq, (client_recv_frame _ (HelloAck cargo_pkg_version PROTOCOL_VERSION) ack); try done.
  by rewrite served_hello.
Qed.

(** A request and its reply on the connection. *)
Lemma exchange st now (m : ClientMessage) f st' reply :
  frame_of m f → dispatch ask st (on_wire m) = (st', reply) → reply_fits reply →
  ∃ l', daemon ask l' = st' ∧ lk_now l' = now ∧ ∀ A (k : ServerMessage → io (link S) IpcError A),
    (do! client_send (tt : Sock) m; let! reply := client_recv (tt : Sock) in k reply)
      (MkLink st [hello] 1 now) = k reply l'.
Proof.
  intros Hf Hd (out & He & Hl). exists (MkLink st [hello; f] 2 now).
  unfold daemon. rewrite (served_request st 2 now m f st' reply out) by done. split_and!; [done..|].
  intros A k. rewrite fbind_eq, (client_send_frame _ _ f) by apply Hf. cbn [lk_manager lk_sent lk_read lk_now app].
  rewrite fbind_eq, (client_recv_frame _ reply out); try done.
  by rewrite (served_request st 1 now m f st' reply out).
Qed.

(** What a call makes of the reply it wanted [Ack] for. *)
Definition acked (reply : ServerMessage) : res IpcError unit :=
  match reply with
  | Ack => Ok tt
  | ErrorMsg code message => Err (map_server_error code message)
  | other => Err (IpcUnexpectedReply other)
  end.

Lemma open_session_served path timeout info (l : link S) f st' reply :
  frame_of (SessionOpen (open_payload info (lk_now l))) f →
  dispatch ask (daemon ask l) (on_wire (SessionOpen (open_payload info (lk_now l)))) = (st', reply) →
  reply_fits reply →
  ∃ l', daemon ask l' = st' ∧ lk_now l' = lk_now l ∧
    mc_open_session (ConnectPerCall path timeout) info l = (l', acked reply).
Proof.
  intros Hf Hd Hr. cbn [mc_open_session ConnectPerCall].
  rewrite fbind_eq, connect_handshake, fbind_eq. cbn [Sys.ask system_time_now link_clock lk_now].
  unfold send_session_open.
  edestruct (exchange (daemon ask l) (lk_now l)) as (l' & Hl' & Hn & Hk); [done..|].
  rewrite Hk. exists l'. split_and!; [done..|]. by destruct reply.
Qed.

Lemma close_session_served path timeout id reason (l : link S) f st' reply :
  frame_of (SessionClose (uuid_from_session_id id) (lk_now l)) f →
  dispatch ask (daemon ask l) (on_wire (SessionClose (uuid_from_session_id id) (lk_now l))) = (st', reply) →
  reply_fits reply →
  ∃ l', daemon ask l' = st' ∧ lk_now l' = lk_now l ∧
    mc_close_session (ConnectPerCall path timeout) id reason l = (l', acked reply).
Proof.
  intros Hf Hd Hr. cbn [mc_close_session ConnectPerCall].
  rewrite fbind_eq, connect_handshake, fbind_eq. cbn [Sys.ask system_time_now link_clock lk_now].
  unfold send_session_close.
  edestruct (exchange (daemon ask l) (lk_now l)) as (l' & Hl' & Hn & Hk); [done..|].
  rewrite Hk. exists l'. split_and!; [done..|]. by destruct reply.
Qed.

End link_lemmas.

Section safe.
Context {W : Type} {SK : SocketSys W} {WC : WallClock W} {UC : UuidCrate} {PKG : CorePkg}.
Context {JC : Json ClientMessage} {JS : Json ServerMessage}.

Lemma client_send_safe s msg : io_safe (client_send (W := W) s msg).
Proof.
  unfold client_send. pose proof (encode_message_no_panic msg). apply io_safe_bind; [|auto with rust].
  by apply io_safe_lift, map_err_no_panic.
Qed.

Lemma client_recv_safe s : io_safe (client_recv (W := W) s).
Proof.
  unfold client_recv. apply io_safe_bind; [auto with rust|intros bs].
  apply io_safe_bind; [auto with rust|intros line]. case_decide; apply io_safe_lift; [done|].
  apply map_err_no_panic. apply decode_bytes_no_panic.
Qed.

Lemma unexpected_safe {A} reply : io_safe (unexpected (W := W) (A := A) reply).
Proof. by apply io_safe_lift. Qed.

#[local] Hint Resolve client_send_safe client_recv_safe unexpected_safe : rust.

Lemma connect_safe path timeout : io_safe (monitord_connect (W := W) path timeout).
Proof. unfold monitord_connect. auto 20 with rust. Qed.

Lemma close_session_safe path timeout mode id reason :
  io_safe (mc_close_session (FailModeWrapper (ConnectPerCall (W := W) path timeout) mode) id reason).
Proof.
  assert (io_safe (mc_close_session (ConnectPerCall (W := W) path timeout) id reason)) as Hs.
  { cbn [mc_close_session ConnectPerCall]. unfold send_session_close. pose proof connect_safe.
    auto 20 with rust. }
  intros w. cbn [mc_close_session FailModeWrapper]. unfold apply_fail_mode. specialize (Hs w).
  destruct (mc_close_session _ _ _ w) as [w' [[]|e|]]; [done| |done].
  destruct (is_fatal e); [done|]. by destruct mode.
Qed.

End safe.

Lemma apply_fail_mode_ok {W} mode (f : io W IpcError unit) w w' :
  f w = (w', Ok tt) → apply_fail_mode mode f w = (w', Ok tt).
Proof. unfold apply_fail_mode. by intros ->. Qed.

Lemma apply_fail_mode_fatal {W} mode (f : io W IpcError unit) w w' e :
  f w = (w', Err e) → is_fatal e = true → apply_fail_mode mode f w = (w', Err e).
Proof. unfold apply_fail_mode. by intros -> ->. Qed.

(** The session the daemon tracks for a call. *)
Definition opened {UC : UuidCrate} (info : OpenSessionInfo) (now : Z) : ActiveSession :=
  MkSession (uuid_from_session_id (oi_session_id info)) (oi_pam_user info) (oi_pam_service info)
    (oi_target info) (oi_usb_serial info) (oi_host_id_hash info) (wire_time now) (oi_cert_cn info)
    (oi_cert_serial info) (oi_engineer_ski info) (oi_engineer_cert_sha256 info) (oi_uid info).

(** ** A monitord and its client *)

Module ClientSample.

#[export] Instance payload_eq_dec : EqDecision SessionOpenPayload.
Proof. solve_decision. Defined.

Definition crate : CorePkg := "0.1.0".
Definition uuid : UuidCrate :=
  {| Uuid_parse_str _ := None; Uuid_new_v5_oid := zlen |}.

Definition info : OpenSessionInfo :=
  MkOpenInfo "s1" "alice" "login" "00" TargetUnknown (Some "usb1") "Alice" "01" "" "" 1000.

Definition agent : option string := Some (AGENT (PKG := crate)).
Definition payload : SessionOpenPayload := open_payload (UC := uuid) info 0.
Definition gone : string := "usb serial usb1 not present".

Definition client_json : Json ClientMessage := {|
  json_to_vec m :=
    match m with
    | Hello v a => if decide (v = 2 ∧ a = agent) then inr (bytes_of "{H}") else inl "unsupported"
    | SessionOpen p => if decide (p = payload) then inr (bytes_of "{O}") else inl "unsupported"
    | _ => inl "unsupported"
    end;
  json_from_slice bs :=
    if decide (bs = bytes_of "{H}") then inr (Hello 2 agent)
    else if decide (bs = bytes_of "{O}") then inr (SessionOpen payload)
    else inl "bad json";
|}.

Definition server_json : Json ServerMessage := {|
  json_to_vec m :=
    match m with
    | HelloAck s v => if decide (s = "0.1.0" ∧ v = 2) then inr (bytes_of "{A}") else inl "unsupported"
    | Ack => inr (bytes_of "{K}")
    | ErrorMsg c t => if decide (c = DEVICE_GONE ∧ t = gone) then inr (bytes_of "{G}") else inl "unsupported"
    | _ => inl "unsupported"
    end;
  json_from_slice bs :=
    if decide (bs = bytes_of "{A}") then inr (HelloAck "0.1.0" 2)
    else if decide (bs = bytes_of "{K}") then inr Ack
    else if decide (bs = bytes_of "{G}") then inr (ErrorMsg DEVICE_GONE gone)
    else inl "bad json";
|}.

Lemma plain_laws {T} `{Json T, OnWire T} :
  (∀ m bs, json_to_vec m = inr bs →
     json_from_slice bs = inr (on_wire m) ∧ forallb (λ b, 0x20 <=? bz b) bs = true ∧ utf8_valid bs = true) →
  JsonLaws T.
Proof.
  intros Hm. split; intros m bs Hj; destruct (Hm m bs Hj) as (Hr & Hc & Hu); [done| |done].
  apply Forall_forall. intros b Hb. apply Z.leb_le.
  apply (proj1 (forallb_forall _ _) Hc). by apply list_elem_of_In.
Qed.

Lemma client_laws : JsonLaws ClientMessage (H := client_json).
Proof.
  apply plain_laws. intros [v a|p| | | |] bs; simpl; try done.
  - case_decide as Hd; [|done]. destruct Hd as [-> ->]. intros [= <-]. by vm_compute.
  - case_decide as Hd; [|done]. rewrite Hd. intros [= <-]. by vm_compute.
Qed.

Lemma server_laws : JsonLaws ServerMessage (H := server_json).
Proof.
  apply plain_laws. intros [s v| | | |ss|c t] bs; simpl; try done.
  - case_decide as Hd; [|done]. destruct Hd as [-> ->]. intros [= <-]. by vm_compute.
  - intros [= <-]. by vm_compute.
  - case_decide as Hd; [|done]. destruct Hd as [-> ->]. intros [= <-]. by vm_compute.
Qed.

End ClientSample.

(** ** Theorems *)

(** C7: What the module's client and the daemon do together.  Opening a session
    over the socket asks the state manager once: when the device's serial is
    not plugged in, the call fails with [DeviceGone] in either fail mode and
    the daemon is as it was; otherwise it succeeds, and the daemon tracks
    exactly the session described by the call, its time in whole seconds. *)
Theorem open_session_registers {UT : UuidText} {CP : CratePkg} {UC : UuidCrate} {PKG : CorePkg}
    {JC : Json ClientMessage} {JCL : JsonLaws ClientMessage}
    {JS : Json ServerMessage} {JSL : JsonLaws ServerMessage}
    (present : string → bool) (persist_ok : bool) (mode : MonitorFailMode)
    path timeout info (l : link mstate) hello ack request
    (Hhello : frame_of (Hello PROTOCOL_VERSION (Some AGENT)) hello)
    (Hack : encode_message (HelloAck cargo_pkg_version PROTOCOL_VERSION) = Ok ack)
    (Hack_fits : zlen ack ≤ MAX_FRAME_BYTES)
    (Hreq : frame_of (SessionOpen (open_payload info (lk_now l))) request)
    (Hok : reply_fits Ack)
    (Hgone : ∀ serial, oi_usb_serial info = Some serial →
       reply_fits (ErrorMsg DEVICE_GONE ("usb serial " +:+ serial +:+ " not present"))) :
  let asked := ask_manager present persist_ok in
  let c := FailModeWrapper
             (ConnectPerCall (SK := link_socket asked) (WC := link_clock) path timeout) mode in
  ∃ l', lk_now l' = lk_now l ∧
    if match oi_usb_serial info with Some serial => present serial | None => true end
    then mc_open_session c info l = (l', Ok tt) ∧
         find_by_session_id (ms_registry (daemon asked l')) (uuid_from_session_id (oi_session_id info)) =
           Some (opened info (lk_now l))
    else mc_open_session c info l = (l', Err IpcDeviceGone) ∧ daemon asked l' = daemon asked l.
Proof.
  intros asked c. set (st := daemon asked l).
  pose proof (open_session_served asked hello ack Hhello Hack Hack_fits path timeout info l request) as Ho.
  cbn [on_wire ClientMessage_on_wire dispatch] in Ho. unfold ask_reply, asked, ask_manager in Ho.
  change (session_of _) with (opened info (lk_now l)) in Ho. fold (ask_manager present persist_ok) in Ho.
  fold asked st in Ho. unfold handle_ipc in Ho. cbn [usb_serial opened] in Ho.
  destruct (oi_usb_serial info) as [serial|]; [destruct (present serial)|].
  - edestruct Ho as (l' & Hl & Hn & Hc); [done|done|done|]. exists l'. split_and!; [done|by apply apply_fail_mode_ok|].
    rewrite Hl. unfold find_by_session_id. simpl. by rewrite lookup_insert_eq.
  - edestruct Ho as (l' & Hl & Hn & Hc); [done|done|by apply Hgone|]. exists l'.
    split_and!; [done|by apply apply_fail_mode_fatal|done].
  - edestruct Ho as (l' & Hl & Hn & Hc); [done|done|done|]. exists l'. split_and!; [done|by apply apply_fail_mode_ok|].
    rewrite Hl. unfold find_by_session_id. simpl. by rewrite lookup_insert_eq.
Qed.

Lemma open_session_registers_witness :
  let asked := ask_manager (UT := ServerSample.uuid) (CP := ServerSample.pkg) (λ _, false) true in
  ∃ l', lk_now l' = 0 ∧
    mc_open_session (FailModeWrapper
        (ConnectPerCall (UC := ClientSample.uuid) (PKG := ClientSample.crate)
           (JC := ClientSample.client_json) (JS := ClientSample.server_json)
           (SK := link_socket (JC := ClientSample.client_json) (JS := ClientSample.server_json)
                    (CP := ServerSample.pkg) asked) (WC := link_clock) "/run/m.sock" 0) Permissive)
      ClientSample.info (MkLink ServerSample.st0 [] 0 0) = (l', Err IpcDeviceGone) ∧
    daemon (JC := ClientSample.client_json) (JS := ClientSample.server_json) (CP := ServerSample.pkg)
      asked l' = ServerSample.st0.
Proof.
  apply (open_session_registers (UT := ServerSample.uuid) (CP := ServerSample.pkg)
    (UC := ClientSample.uuid) (PKG := ClientSample.crate)
    (JCL := ClientSample.client_laws) (JSL := ClientSample.server_laws) (λ _, false) true Permissive
    "/run/m.sock" 0 ClientSample.info (MkLink ServerSample.st0 [] 0 0)
    (bytes_of "{H}" ++ [LF]) (bytes_of "{A}" ++ [LF]) (bytes_of "{O}" ++ [LF])).
  - split; [reflexivity|by vm_compute].
  - reflexivity.
  - by vm_compute.
  - split; [reflexivity|by vm_compute].
  - exists (bytes_of "{K}" ++ [LF]). split; [reflexivity|by vm_compute].
  - intros serial [= <-]. exists (bytes_of "{G}" ++ [LF]). split; [reflexivity|by vm_compute].
Defined.

(** Closing over the socket: the call succeeds, and the daemon tracks no
    session of that id any more. *)
Theorem close_session_forgets {UT : UuidText} {CP : CratePkg} {UC : UuidCrate} {PKG : CorePkg}
    {JC : Json ClientMessage} {JCL : JsonLaws ClientMessage}
    {JS : Json ServerMessage} {JSL : JsonLaws ServerMessage}
    (present : string → bool) (persist_ok : bool) path timeout id reason (l : link mstate)
    hello ack request
    (Hhello : frame_of (Hello PROTOCOL_VERSION (Some AGENT)) hello)
    (Hack : encode_message (HelloAck cargo_pkg_version PROTOCOL_VERSION) = Ok ack)
    (Hack_fits : zlen ack ≤ MAX_FRAME_BYTES)
    (Hreq : frame_of (SessionClose (uuid_from_session_id id) (lk_now l)) request)
    (Hok : reply_fits Ack) :
  let asked := ask_manager present persist_ok in
  ∃ l', mc_close_session (ConnectPerCall (SK := link_socket asked) (WC := link_clock) path timeout)
          id reason l = (l', Ok tt) ∧
    find_by_session_id (ms_registry (daemon asked l')) (uuid_from_session_id id) = None.
Proof.
  intros asked.
  destruct (close_session_served asked hello ack Hhello Hack Hack_fits path timeout id reason l request
    (handle_ipc present persist_ok (daemon asked l)
       (IpcSessionClose (uuid_from_session_id id) (wire_time (lk_now l)))).1 Ack)
    as (l' & Hl & _ & Hc); [done..|].
  exists l'. split; [done|]. rewrite Hl. apply registry_remove_gone.
Qed.

(** The fail mode: in strict mode the wrapper changes nothing; in permissive
    mode a call fails only with [DeviceGone] or [Unauthorized], and nothing
    else about it changes. *)
Theorem fail_mode_spec {W} (f : io W IpcError unit) w :
  apply_fail_mode Strict f w = f w ∧
  (apply_fail_mode Permissive f w).1 = (f w).1 ∧
  ((f w).2 = Panic ↔ (apply_fail_mode Permissive f w).2 = Panic) ∧
  ∀ e, (apply_fail_mode Permissive f w).2 = Err e ↔
       (f w).2 = Err e ∧ (e = IpcDeviceGone ∨ e = IpcUnauthorized).
Proof.
  unfold apply_fail_mode. destruct (f w) as [w' [[]|e|]]; simpl.
  - split_and!; [done..|]. intros e. split; [done|by intros [? _]].
  - destruct e; simpl; split_and!; try done; intros e';
      (split; [intros [= <-]; eauto|intros [[= <-] [|]]; done]).
  - split_and!; [done..|]. intros e. split; [done|by intros [? _]].
Qed.

(** Errors of a call satisfy [P]. *)
Definition errs_in {W E A} (P : E → Prop) (c : io W E A) : Prop :=
  ∀ w e, (c w).2 = Err e → P e.

Lemma errs_in_bind {W E A B} (P : E → Prop) (c : io W E A) (k : A → io W E B) :
  errs_in P c → (∀ a, errs_in P (k a)) → errs_in P (fbind c k).
Proof.
  intros Hc Hk w e. unfold fbind. specialize (Hc w). destruct (c w) as [w' [a|e'|]]; simpl in *;
    [apply Hk|intros [= ->]; by apply Hc|done].
Qed.

Lemma errs_in_lift {W E A} (P : E → Prop) (r : res E A) :
  (∀ e, r = Err e → P e) → errs_in (W := W) P (lift r).
Proof. intros Hr w e. apply Hr. Qed.

Lemma errs_in_map {W E F A} (P : F → Prop) (g : E → F) (c : io W E A) :
  (∀ e, P (g e)) → errs_in P (io_map_err g c).
Proof.
  intros Hg w e. unfold io_map_err. destruct (c w) as [w' []]; simpl; try done.
  by intros [= <-].
Qed.

Lemma errs_in_ask {W E A} (P : E → Prop) (f : W → W * A) : errs_in P (ask f).
Proof. intros w e. unfold ask. by destruct (f w). Qed.

Ltac errs_step :=
  match goal with
  | |- errs_in _ (fbind _ _) => apply errs_in_bind; [|intros ?]
  | |- errs_in _ (lift _) => apply errs_in_lift; intros ?
  | |- errs_in _ (fret _) => by intros ? ?
  | |- errs_in _ (io_map_err _ _) => by apply errs_in_map
  | |- errs_in _ (ask _) => apply errs_in_ask
  | |- errs_in _ (match ?x with _ => _ end) => destruct x
  end.

(** A slow daemon is not told from a broken one: no call of the client ever
    returns [Timeout], over any socket; an expired read or write comes out as
    an I/O error. *)
Theorem client_never_times_out {W} {SK : SocketSys W} {WC : WallClock W} {UC : UuidCrate}
    {PKG : CorePkg} {JC : Json ClientMessage} {JS : Json ServerMessage} path timeout info id reason :
  let c := ConnectPerCall path timeout in
  errs_in (λ e, e ≠ IpcTimeout) (mc_open_session c info) ∧
  errs_in (λ e, e ≠ IpcTimeout) (mc_close_session c id reason) ∧
  errs_in (λ e, e ≠ IpcTimeout) (mc_ping c).
Proof.
  assert (∀ s msg, errs_in (λ e, e ≠ IpcTimeout) (client_send s msg)) as Hs.
  { intros s msg. unfold client_send. repeat errs_step. destruct (encode_message msg); simpl; congruence. }
  assert (∀ s, errs_in (λ e, e ≠ IpcTimeout) (client_recv s)) as Hr.
  { intros s. unfold client_recv. repeat errs_step; [destruct (from_utf8 _); simpl; congruence|congruence|].
    destruct (decode_line _); simpl; congruence. }
  assert (∀ A reply, errs_in (λ e, e ≠ IpcTimeout) (unexpected (W := W) (A := A) reply)) as Hu.
  { intros A reply. apply errs_in_lift. intros e [= <-]. destruct reply; try done.
    unfold map_server_error. by repeat case_decide. }
  assert (errs_in (λ e, e ≠ IpcTimeout) (monitord_connect path timeout)) as Hc.
  { unfold monitord_connect. repeat (errs_step || done); eauto; congruence. }
  cbn [mc_open_session mc_close_session mc_ping ConnectPerCall].
  split_and!; repeat (apply errs_in_bind; [solve [eauto|apply errs_in_ask]|intros ?]);
    unfold send_session_open, send_session_close, client_ping; repeat (errs_step || done); eauto.
Qed.
