(* ===== verification/Usb.v ===== *)
(** * USB sticks: discovery, mounting and credentials
      ([usb/*.rs], [mount/usb.rs], [mount_guard.rs], [discovery.rs], [RealFlowIo] of [flow.rs])

    From udev's devices to the partitions worth trying, the hardened read-only
    mount with its guard, and the bundle below the mountpoint.  udev is the
    class [Udev], the mount system calls are the class [MountSys]. *)

From Stdlib Require Import Ascii Sorting.Sorted.
From S2P Require Import Prelude Text Sys Certificate Hooks RawConfig Config.
Local Open Scope Z_scope.

(** ** Devices *)

Inductive UsbError : Type :=
| UdevFailed (msg : string)
| UsbIo (errno : Z)
| UsbTimeout
| NoMatchingDevice
| MissingProperty (name : string)
| UsbUnsupportedPlatform
| TooManyPartitions (devnode : string) (count limit : Z).

Record UsbDevice := MkUsbDevice {
  devnode : string;
  dev_serial : option string;
  dev_vid : Z;
  dev_pid : Z;
  dev_fs_type : option string;
}.

Record PartitionCandidate := MkCandidate {
  pc_devnode : string;
  pc_fs_type : option string;
  pc_fs_label : option string;
}.

Definition ALLOWED_FS : list string := ["vfat"; "exfat"; "ext4"; "ntfs"].

Definition fs_allowed (fs : option string) : bool :=
  match fs with Some t => bool_decide (t ∈ ALLOWED_FS) | None => false end.

Definition select_partitions (parent_fs_type : option string)
    (partitions : list PartitionCandidate) : list PartitionCandidate :=
  match parent_fs_type with
  | Some _ => []
  | None => List.filter (λ p, fs_allowed (pc_fs_type p)) partitions
  end.

(** ** The order of kernel names *)

(** Length of the run of ASCII digits that ends the text. *)
Fixpoint digits_run (rev_bytes : list byte) : nat :=
  match rev_bytes with
  | b :: r => if in_range 0x30 0x39 b then S (digits_run r) else 0
  | [] => 0
  end.

Definition split_suffix (s : string) : string * Z :=
  let bs := bytes_of s in
  let idx := (length bs - digits_run (rev bs))%nat in
  (text_of (take idx bs),
   match from_str_radix 0 (2 ^ 64 - 1) 10 (text_of (drop idx bs)) with
   | inr n => n
   | inl _ => 0
   end).

Definition natural_cmp (a b : string) : comparison :=
  let (pa, na) := split_suffix a in
  let (pb, nb) := split_suffix b in
  match String.compare pa pb with
  | Eq => Z.compare na nb
  | other => other
  end.

(** [slice::sort_by]: a stable sort. *)
Fixpoint insert_by {A} (cmp : A → A → comparison) (x : A) (l : list A) : list A :=
  match l with
  | [] => [x]
  | y :: r => match cmp x y with
              | Gt => y :: insert_by cmp x r
              | _ => x :: l
              end
  end.

Fixpoint sort_by {A} (cmp : A → A → comparison) (l : list A) : list A :=
  match l with
  | [] => []
  | x :: r => insert_by cmp x (sort_by cmp r)
  end.

(** ** udev *)

Inductive UdevMatch (D : Type) : Type :=
| MatchSubsystem (s : string)
| MatchProperty (k v : string)
| MatchParent (d : D).
Arguments MatchSubsystem {D} s.
Arguments MatchProperty {D} k v.
Arguments MatchParent {D} d.

Class Udev (W : Type) := {
  UDevice : Type;
  Monitor : Type;
  udev_devnode : UDevice → option string;
  udev_property : UDevice → string → option (list byte);
  udev_sysname : UDevice → list byte;
  (** An enumerator with the matches, scanned; errors as their text. *)
  udev_scan : list (UdevMatch UDevice) → W → W * (string + list UDevice);
  (** A listening monitor on the subsystem. *)
  monitor_listen : string → W → W * (string + Monitor);
  (** The queued events: whether it is an [add], and the device. *)
  monitor_drain : Monitor → W → W * list (bool * UDevice);
  (** [poll(2)] on the monitor with a timeout in milliseconds: the number of
      ready descriptors, or the error number. *)
  monitor_poll : Monitor → Z → W → W * (Z + Z);
}.

Definition U16_MAX : Z := 65535.

(** The cap of the config-less [enumerate_once]. *)
Definition ENUMERATE_MAX_USB_PARTITIONS : Z := 64.

Section udev.
Context {W : Type} {UD : Udev W} {CLK : Clock W}.

Definition property_text (d : UDevice) (name : string) : option string :=
  from_utf8_lossy <$> udev_property d name.

(** [.filter(|s| !s.is_empty())]. *)
Definition nonempty (o : option string) : option string :=
  match o with Some "" => None | _ => o end.

Definition property_is (d : UDevice) (name value : string) : bool :=
  bool_decide (udev_property d name = Some (bytes_of value)).

Definition parse_hex16 (v : option (list byte)) : res UsbError Z :=
  let? s := ok_or (match v with Some bs => from_utf8 bs | None => None end)
              (MissingProperty "ID_VENDOR_ID/ID_MODEL_ID") in
  map_err (λ _, MissingProperty ("malformed hex VID/PID: " +:+ s))
    (of_sum (from_str_radix 0 U16_MAX 16 s)).

Definition is_whole_disk (d : UDevice) : bool := property_is d "DEVTYPE" "disk".

(** One child of the scan: its kernel name and candidate. *)
Definition partition_of (child : UDevice) : option (string * PartitionCandidate) :=
  if negb (property_is child "DEVTYPE" "partition") then None else
  match udev_devnode child with
  | None => None
  | Some node =>
      Some (from_utf8_lossy (udev_sysname child),
            MkCandidate node (nonempty (property_text child "ID_FS_TYPE"))
              (nonempty (property_text child "ID_FS_LABEL")))
  end.

Definition collect_partition_candidates (parent : UDevice)
    : io W UsbError (list PartitionCandidate) :=
  let! children := io_map_err UdevFailed
    (call (udev_scan [MatchSubsystem "block"; MatchParent parent])) in
  fret (sort_by (λ a b, natural_cmp a.1 b.1) (omap partition_of children)).*2.

Definition devices_from (d : UDevice) (filter : option (Z * Z)) (max_usb_partitions : Z)
    : io W UsbError (list UsbDevice) :=
  match udev_devnode d with
  | None => fret []
  | Some node =>
      let! vid := lift (parse_hex16 (udev_property d "ID_VENDOR_ID")) in
      let! pid := lift (parse_hex16 (udev_property d "ID_MODEL_ID")) in
      if match filter with Some (fv, fp) => bool_decide (vid ≠ fv ∨ pid ≠ fp) | None => false end
      then fret [] else
      let serial := match property_text d "ID_SERIAL_SHORT" with
                    | Some s => Some s
                    | None => property_text d "ID_SERIAL"
                    end in
      match nonempty (property_text d "ID_FS_TYPE") with
      | Some fs => fret [MkUsbDevice node serial vid pid (Some fs)]
      | None =>
          if negb (is_whole_disk d) then fret [] else
          let! candidates := io_ok (collect_partition_candidates d) in
          match candidates with
          | None => fret []
          | Some cs =>
              if decide (max_usb_partitions < zlen cs)
              then lift (Err (TooManyPartitions node (zlen cs) max_usb_partitions))
              else fret ((λ p, MkUsbDevice (pc_devnode p) serial vid pid (pc_fs_type p)) <$>
                         select_partitions None cs)
          end
      end
  end.

Definition enumerate_once_with_limit (filter : option (Z * Z)) (max_usb_partitions : Z)
    : io W UsbError (list UsbDevice) :=
  let! scanned := io_map_err UdevFailed
    (call (udev_scan [MatchSubsystem "block"; MatchProperty "ID_BUS" "usb"])) in
  let! found := io_map (λ d, devices_from d filter max_usb_partitions) scanned in
  fret (concat found).

Definition enumerate_once (filter : option (Z * Z)) : io W UsbError (list UsbDevice) :=
  enumerate_once_with_limit filter ENUMERATE_MAX_USB_PARTITIONS.

(** The drain loop: the devices of the first added USB device that has some. *)
Fixpoint drain_events (filter : option (Z * Z)) (max : Z) (events : list (bool * UDevice))
    : io W UsbError (list UsbDevice) :=
  match events with
  | [] => fret []
  | (added, d) :: r =>
      if added && property_is d "ID_BUS" "usb" then
        let! devs := devices_from d filter max in
        if decide (devs = []) then drain_events filter max r else fret devs
      else drain_events filter max r
  end.

(** [u16::try_from(remaining.as_millis()).unwrap_or(u16::MAX)]. *)
Definition poll_millis (remaining : Z) : Z :=
  let ms := remaining / NANOS_PER_MILLI in if decide (ms ≤ U16_MAX) then ms else U16_MAX.

Fixpoint monitor_loop (fuel : nat) (m : Monitor) (filter : option (Z * Z)) (max deadline : Z)
    : io W UsbError (list UsbDevice) :=
  match fuel with
  | O => lift Panic
  | S f =>
      let! now := ask instant_now in
      if decide (deadline ≤ now) then lift (Err UsbTimeout) else
      let! events := ask (monitor_drain m) in
      let! devs := drain_events filter max events in
      if negb (bool_decide (devs = [])) then fret devs else
      let! ready := ask (monitor_poll m (poll_millis (deadline - now))) in
      match ready with
      | inr n => if decide (n = 0) then lift (Err UsbTimeout)
                 else monitor_loop f m filter max deadline
      | inl errno => if decide (errno = EINTR) then monitor_loop f m filter max deadline
                     else lift (Err (UsbIo errno))
      end
  end.

(** [wait_for_usb_real]; [rounds] bounds the wake-ups of the monitor. *)
Definition wait_for_usb_devices (rounds : nat) (timeout : Z) (filter : option (Z * Z)) (max : Z)
    : io W UsbError (list UsbDevice) :=
  let! already := enumerate_once_with_limit filter max in
  if negb (bool_decide (already = [])) then fret already else
  let! m := io_map_err UdevFailed (call (monitor_listen "block")) in
  let! now := ask instant_now in
  monitor_loop rounds m filter max (now + timeout).

End udev.

(** [wait_for_usb_with]: polling any enumerator. *)
Section polling.
Context {W : Type} {CLK : Clock W}.
Variable enumerate : option (Z * Z) → io W UsbError (list UsbDevice).

Fixpoint poll_loop (fuel : nat) (filter : option (Z * Z)) (deadline poll_interval : Z)
    : io W UsbError (list UsbDevice) :=
  match fuel with
  | O => lift Panic
  | S f =>
      let! now := ask instant_now in
      let! devs := enumerate filter in
      if negb (bool_decide (devs = [])) then fret devs
      else if decide (deadline ≤ now) then lift (Err UsbTimeout)
      else
        do! ask (λ w, (sleep (Z.min poll_interval (deadline - now)) w, tt));
        poll_loop f filter deadline poll_interval
  end.

Definition wait_for_usb_with (fuel : nat) (timeout : Z) (filter : option (Z * Z))
    (poll_interval : Z) : io W UsbError (list UsbDevice) :=
  let! now := ask instant_now in poll_loop fuel filter (now + timeout) poll_interval.

End polling.

(** [MockEnumerator]. *)
Record MockEnumerator := MkMockEnumerator {
  me_devices : list UsbDevice;
  me_error : option string;
}.

Definition vid_pid_match (filter : option (Z * Z)) (d : UsbDevice) : bool :=
  match filter with
  | Some (v, p) => bool_decide (dev_vid d = v) && bool_decide (dev_pid d = p)
  | None => true
  end.

Definition mock_enumerate (m : MockEnumerator) (filter : option (Z * Z))
    : res UsbError (list UsbDevice) :=
  match me_error m with
  | Some msg => Err (UdevFailed msg)
  | None => Ok (List.filter (vid_pid_match filter) (me_devices m))
  end.

(** ** Mounting *)

(** [MountFlags]: a [u32] of bits. *)
Definition MF_NOSUID : Z := 1.
Definition MF_NODEV : Z := Z.shiftl 1 1.
Definition MF_NOEXEC : Z := Z.shiftl 1 2.
Definition MF_RO : Z := Z.shiftl 1 3.
Definition MF_NOATIME : Z := Z.shiftl 1 4.

Definition flags_contain (flags other : Z) : bool := bool_decide (Z.land flags other = other).

(** [MsFlags] of the kernel. *)
Definition MS_RDONLY : Z := 1.
Definition MS_NOSUID : Z := 2.
Definition MS_NODEV : Z := 4.
Definition MS_NOEXEC : Z := 8.
Definition MS_NOATIME : Z := 1024.

Inductive MountGuardError : Type :=
| GuardMount (target : string) (errno : Z)
| GuardUmount (target : string) (errno : Z)
| GuardMkdir (path : string) (source : IoError)
| GuardRmdir (path : string) (source : IoError)
| InvalidSessionId (reason : string).

(** [MountSyscall] carries the number of the kernel's error or the error of
    creating the directory. *)
Inductive MountError : Type :=
| MountSyscall (e : Z + IoError)
| UnsupportedFs (fs : string)
| MountpointInvalid (path : string)
| MountGuardFailed (e : MountGuardError)
| MountUnsupportedPlatform.

Class MountSys (W : Type) := {
  (** [mount(2)] without data; [umount2(2)] with [MNT_DETACH]. *)
  sys_mount : string → string → string → Z → W → W * (Z + unit);
  sys_umount_detach : string → W → W * (Z + unit);
  fs_create_dir_all : string → W → W * (IoError + unit);
  fs_remove_dir : string → W → W * (IoError + unit);
}.

(** [NixMounter::mount]: the translation of the flags. *)
Definition ms_flags (flags : Z) : Z :=
  let add own ms acc := if flags_contain flags own then Z.lor acc ms else acc in
  add MF_NOATIME MS_NOATIME (add MF_RO MS_RDONLY (add MF_NOEXEC MS_NOEXEC
    (add MF_NODEV MS_NODEV (add MF_NOSUID MS_NOSUID 0)))).

Definition hardened_flags : Z :=
  Z.lor (Z.lor (Z.lor (Z.lor MF_NOSUID MF_NODEV) MF_NOEXEC) MF_RO) MF_NOATIME.

Definition select_fs_type (dev : UsbDevice) : res MountError string :=
  match dev_fs_type dev with
  | Some fs => Ok fs
  | None => Err (UnsupportedFs "(unknown)")
  end.

(** [MountOps] over the world; [RealMountOps] has the system calls, and a mount
    that does nothing. *)
Record MountOps (W : Type) := MkMountOps {
  ops_mount : string → string → string → Z → option string → io W MountGuardError unit;
  ops_umount : string → io W MountGuardError unit;
  ops_mkdir : string → io W MountGuardError unit;
  ops_rmdir : string → io W MountGuardError unit;
}.
Arguments MkMountOps {W}.
Arguments ops_mount {W}.
Arguments ops_umount {W}.
Arguments ops_mkdir {W}.
Arguments ops_rmdir {W}.

Record MountGuard := MkGuard {
  mg_target : string;
  mg_mounted : bool;
}.

Definition adopt (target : string) : MountGuard := MkGuard target true.

(** [Drop for MountGuard]: errors are logged. *)
Definition drop_guard {W} (ops : MountOps W) (g : MountGuard) (w : W) : W :=
  let w1 := if mg_mounted g then (ops_umount ops (mg_target g) w).1 else w in
  (ops_rmdir ops (mg_target g) w1).1.

Definition session_char (b : byte) : bool :=
  in_range 0x30 0x39 b || in_range 0x41 0x5A b || in_range 0x61 0x7A b ||
  bool_decide (b = zb 0x5F) || bool_decide (b = zb 0x2D).

Definition new_tmpfs {W} (ops : MountOps W) (base session_id : string)
    : io W MountGuardError MountGuard :=
  if negb (forallb session_char (bytes_of session_id)) || bool_decide (session_id = "") ||
     bool_decide (64 < str_len session_id)
  then lift (Err (InvalidSessionId "must match [A-Za-z0-9_-]{1,64}")) else
  let target := path_join base session_id in
  do! ops_mkdir ops target;
  do! ops_mount ops "tmpfs" target "tmpfs" hardened_flags (Some "size=4m,mode=0700");
  fret (MkGuard target true).

Section mounting.
Context {W : Type} {FS : Fs W} {MS : MountSys W}.

Definition RealMountOps : MountOps W :=
  {| ops_mount _ _ _ _ _ := fret tt;
     ops_umount target := io_map_err (GuardUmount target) (call (sys_umount_detach target));
     ops_mkdir path := io_map_err (GuardMkdir path) (call (fs_create_dir_all path));
     ops_rmdir path := io_map_err (GuardRmdir path) (call (fs_remove_dir path)) |}.

Definition nix_mount (source target fs_type : string) (flags : Z) : io W MountError unit :=
  io_map_err (MountSyscall ∘ inl) (call (sys_mount source target fs_type (ms_flags flags))).

(** [mount_usb_device_with]: the mounter is given. *)
Definition mount_usb_device_with
    (mounter : string → string → string → Z → io W MountError unit)
    (dev : UsbDevice) (mountpoint : string) : io W MountError unit :=
  let! there := path_exists mountpoint in
  if negb there then lift (Err (MountpointInvalid mountpoint)) else
  let! fs := lift (select_fs_type dev) in
  if negb (bool_decide (fs ∈ ALLOWED_FS)) then lift (Err (UnsupportedFs fs)) else
  mounter (devnode dev) mountpoint fs hardened_flags.

Definition mount_usb_device (dev : UsbDevice) (mountpoint : string)
    : io W MountError MountGuard :=
  let! there := path_exists mountpoint in
  if negb there then lift (Err (MountpointInvalid mountpoint)) else
  let! fs := lift (select_fs_type dev) in
  if negb (bool_decide (fs ∈ ALLOWED_FS)) then lift (Err (UnsupportedFs fs)) else
  do! nix_mount (devnode dev) mountpoint fs hardened_flags;
  fret (adopt mountpoint).

End mounting.

(** ** Credentials *)

Definition MAX_P12_BYTES : Z := 10 * 1024 * 1024.
Definition MAX_CHAIN_BYTES : Z := 1024 * 1024.
Definition DEFAULT_PKCS12_PATH_PATTERN : string := "certs/user.p12".

Record DiscoveredCreds := MkCreds {
  p12_path : string;
  p12_bytes : list byte;
  chain_pem : option (list byte);
}.

Inductive DiscoveryError : Type :=
| DiscoveryIo (e : IoError)
| P12NotFound (path : string)
| P12TooLarge (actual : Z)
| ChainTooLarge (actual : Z).

Definition expand_user (pattern pam_user : string) : string :=
  str_replace pattern "${user}" pam_user.

Section discovery.
Context {W : Type} {FS : Fs W}.

Definition discover_credentials (mountpoint pattern pam_user : string)
    : io W DiscoveryError DiscoveredCreds :=
  let relative := expand_user pattern pam_user in
  let path := path_join mountpoint relative in
  let! there := path_is_file path in
  if negb there then lift (Err (P12NotFound relative)) else
  let! md := io_map_err DiscoveryIo (call (fs_metadata path)) in
  if decide (MAX_P12_BYTES < md_len md) then lift (Err (P12TooLarge (md_len md))) else
  let! bytes := io_map_err DiscoveryIo (call (fs_read path)) in
  let chain_path := path_join (path_join mountpoint "certs") "chain.pem" in
  let! has_chain := path_is_file chain_path in
  let! chain :=
    if has_chain : bool then
      let! cmd := io_map_err DiscoveryIo (call (fs_metadata chain_path)) in
      if decide (MAX_CHAIN_BYTES < md_len cmd) then lift (Err (ChainTooLarge (md_len cmd))) else
      let! pem := io_map_err DiscoveryIo (call (fs_read chain_path)) in fret (Some pem)
    else fret None in
  fret (MkCreds path bytes chain).

End discovery.

(** ** The production adapter *)

Record RealFlowIo := MkRealFlowIo {
  rio_timeout : Z;
  rio_filter : option (Z * Z);
  rio_max_usb_partitions : Z;
  rio_mountpoint_base : string;
  rio_session_id : string;
  rio_mount_seq : Z;
}.

Definition real_flow_io_new (timeout : Z) (filter : option (Z * Z)) (max : Z)
    (base session_id : string) : RealFlowIo :=
  MkRealFlowIo timeout filter max base session_id 0.

(** The directory of an attempt. *)
Definition mount_target (rio : RealFlowIo) : string :=
  let seq := rio_mount_seq rio in
  path_join (rio_mountpoint_base rio)
    (if decide (seq = 0) then rio_session_id rio else rio_session_id rio +:+ "-" +:+ fmt_dec seq).

(** [seq.wrapping_add(1)]. *)
Definition next_seq (rio : RealFlowIo) : RealFlowIo :=
  MkRealFlowIo (rio_timeout rio) (rio_filter rio) (rio_max_usb_partitions rio)
    (rio_mountpoint_base rio) (rio_session_id rio) ((rio_mount_seq rio + 1) mod 2 ^ 32).

(** [RealFlowIo::mount]: the adapter with its counter moved on, and the guard. *)
Definition real_mount {W} {FS : Fs W} {MS : MountSys W} (rio : RealFlowIo) (dev : UsbDevice)
    : W → W * (RealFlowIo * res MountError MountGuard) := λ w,
  let target := mount_target rio in
  let (w', r) :=
    (do! io_map_err (MountSyscall ∘ inr) (call (fs_create_dir_all target));
     mount_usb_device dev target) w in
  (w', (next_seq rio, r)).

(** ** A sample machine *)

Module UsbSample.

Import ConfigSample.

(** A udev database, the directories that exist, and what is mounted. *)
Record udevice := MkUdevice {
  ud_node : option string;
  ud_props : list (string * string);
  ud_sysname : string;
  ud_parent : string;
}.

Record machine := MkMachine {
  mc_devices : list udevice;
  mc_dirs : list string;
  mc_mounts : list (string * string * string * Z);
  mc_now : Z;
}.

Definition prop (d : udevice) (k : string) : option string :=
  snd <$> List.find (λ p, bool_decide (p.1 = k)) (ud_props d).

Definition matches (d : udevice) (m : UdevMatch udevice) : bool :=
  match m with
  | MatchSubsystem _ => true
  | MatchProperty k v => bool_decide (prop d k = Some v)
  | MatchParent p => bool_decide (ud_parent d = ud_sysname p)
  end.

#[export] Instance udev : Udev machine := {|
  UDevice := udevice;
  Monitor := unit;
  udev_devnode := ud_node;
  udev_property d k := bytes_of <$> prop d k;
  udev_sysname d := bytes_of (ud_sysname d);
  udev_scan ms w := (w, inr (List.filter (λ d, forallb (matches d) ms) (mc_devices w)));
  monitor_listen _ w := (w, inr tt);
  monitor_drain _ w := (w, []);
  monitor_poll _ ms w :=
    (MkMachine (mc_devices w) (mc_dirs w) (mc_mounts w) (mc_now w + ms * NANOS_PER_MILLI), inr 0);
|}.

#[export] Instance clock : Clock machine := {|
  instant_now w := (w, mc_now w);
  sleep d w := MkMachine (mc_devices w) (mc_dirs w) (mc_mounts w) (mc_now w + d);
|}.

#[export] Instance dirs : Fs machine := {|
  fs_read _ w := (w, inl (MkIoError KindNotFound ""));
  fs_metadata p w :=
    (w, if decide (p ∈ mc_dirs w) then inr (MkMetadata false true 0 0)
        else inl (MkIoError KindNotFound ""));
|}.

(** [mount(2)] knows no [ntfs]. *)
#[export] Instance mounts : MountSys machine := {|
  sys_mount src tgt fs flags w :=
    if decide (fs = "ntfs") then (w, inl 19)
    else (MkMachine (mc_devices w) (mc_dirs w) ((src, tgt, fs, flags) :: mc_mounts w) (mc_now w),
          inr tt);
  sys_umount_detach tgt w :=
    (MkMachine (mc_devices w) (mc_dirs w)
       (List.filter (λ m, negb (bool_decide (m.1.1.2 = tgt))) (mc_mounts w)) (mc_now w), inr tt);
  fs_create_dir_all p w :=
    (MkMachine (mc_devices w) (p :: mc_dirs w) (mc_mounts w) (mc_now w), inr tt);
  fs_remove_dir p w :=
    (MkMachine (mc_devices w) (List.filter (λ q, negb (bool_decide (q = p))) (mc_dirs w))
       (mc_mounts w) (mc_now w), inr tt);
|}.

Definition ids : list (string * string) :=
  [("ID_BUS", "usb"); ("ID_VENDOR_ID", "0951"); ("ID_MODEL_ID", "1666")].

Definition disk : udevice := MkUdevice (Some "/dev/sdb") (("DEVTYPE", "disk") :: ids) "sdb" "usb1".

Definition part (n fs : string) : udevice :=
  MkUdevice (Some ("/dev/sdb" +:+ n))
    (("DEVTYPE", "partition") :: ("ID_FS_TYPE", fs) :: ids) ("sdb" +:+ n) "sdb".

Definition start (devices : list udevice) : machine := MkMachine devices [] [] 0.

End UsbSample.

(** ** Sorting *)

Section sorting.
Context {A : Type} (cmp : A → A → comparison).
Hypothesis cmp_antisym : ∀ x y, cmp x y = CompOpp (cmp y x).

Lemma insert_by_perm x l : insert_by cmp x l ≡ₚ x :: l.
Proof.
  induction l as [|y l IH]; simpl; [done|]. destruct (cmp x y); [done..|].
  rewrite IH. constructor.
Qed.

Lemma sort_by_perm l : sort_by cmp l ≡ₚ l.
Proof. induction l as [|x l IH]; simpl; [done|]. by rewrite insert_by_perm, IH. Qed.

Lemma insert_by_sorted x l :
  Sorted (λ a b, cmp a b ≠ Gt) l → Sorted (λ a b, cmp a b ≠ Gt) (insert_by cmp x l).
Proof.
  induction 1 as [|y l Hs IH Hh]; simpl; [by repeat constructor|].
  destruct (cmp x y) eqn:Hc; [constructor; [by constructor|constructor; congruence]..|].
  constructor; [done|]. assert (cmp y x ≠ Gt) by (rewrite cmp_antisym, Hc; done).
  destruct Hh as [|z l Hz]; simpl; [by constructor|]. by destruct (cmp x z); constructor.
Qed.

Lemma sort_by_sorted l : Sorted (λ a b, cmp a b ≠ Gt) (sort_by cmp l).
Proof. induction l; simpl; [constructor|]. by apply insert_by_sorted. Qed.

End sorting.

Lemma natural_cmp_antisym a b : natural_cmp a b = CompOpp (natural_cmp b a).
Proof.
  unfold natural_cmp. destruct (split_suffix a) as [pa na], (split_suffix b) as [pb nb].
  rewrite (String.compare_antisym pb pa). destruct (String.compare pa pb); simpl; [|done..].
  apply Z.compare_antisym.
Qed.

Lemma digits_run_all l : Forall (λ b, in_range 0x30 0x39 b = true) l → digits_run l = length l.
Proof. induction 1 as [|b l Hb Hl IH]; [done|]. simpl. by rewrite Hb, IH. Qed.

Lemma digits_run_app l r :
  Forall (λ b, in_range 0x30 0x39 b = true) l → digits_run r = 0%nat →
  digits_run (l ++ r) = length l.
Proof. induction 1 as [|b l Hb Hl IH]; intros Hr; [done|]. simpl. by rewrite Hb, IH. Qed.

Lemma fmt_nat_digits n :
  0 ≤ n → Forall (λ b, in_range 0x30 0x39 b = true) (fmt_nat 10 n).
Proof.
  intros Hn. unfold fmt_nat. generalize (S (Z.to_nat (Z.log2 n))). intros fuel. revert n Hn.
  induction fuel as [|f IH]; intros n Hn; cbn [digits]; [constructor|].
  assert (∀ d, 0 ≤ d < 10 → in_range 0x30 0x39 (digit_byte d) = true) as Hd.
  { intros d Hd. unfold digit_byte, in_range. rewrite decide_True by lia.
    apply bool_decide_eq_true. rewrite bz_zb_small by lia. lia. }
  case_decide; [constructor; [apply Hd; lia|constructor]|].
  apply Forall_app. split; [apply IH; lia|]. constructor; [apply Hd; lia|constructor].
Qed.

(** Text that does not end in a digit, followed by a number. *)
Lemma split_suffix_numbered p n :
  digits_run (rev (bytes_of p)) = 0%nat → 0 ≤ n < 2 ^ 64 →
  split_suffix (p +:+ fmt_dec n) = (p, n).
Proof.
  intros Hp Hn. unfold split_suffix. unfold fmt_dec. rewrite decide_False by lia.
  rewrite bytes_of_app, bytes_of_text_of, rev_app_distr.
  rewrite digits_run_app; [|apply Forall_rev, fmt_nat_digits; lia|done].
  rewrite length_rev, length_app.
  replace (length (bytes_of p) + length (fmt_nat 10 n) - length (fmt_nat 10 n))%nat
    with (length (bytes_of p)) by lia.
  rewrite take_app_length, drop_app_length, text_of_bytes_of.
  rewrite from_str_radix_fmt_nat by lia. done.
Qed.

(** ** Devices *)

Section device_proofs.
Context {W : Type} {UD : Udev W} {CLK : Clock W}.

Lemma io_ok_inv {S E F A} (c : io S E A) (s s' : S) o :
  io_ok (F := F) c s = (s', Ok (Some o)) → c s = (s', Ok o).
Proof. unfold io_ok. destruct (c s) as [s1 [a|e|]]; simpl; by intros [= -> ->]. Qed.

(** The partitions of a disk, in natural order of their kernel names. *)
Definition partitions_of (cs : list PartitionCandidate) : Prop :=
  ∃ tagged children, cs = tagged.*2 ∧ tagged ≡ₚ omap partition_of children ∧
    Sorted (λ a b, natural_cmp a.1 b.1 ≠ Gt) tagged.

Lemma collect_partition_candidates_Ok d w w' cs :
  collect_partition_candidates d w = (w', Ok cs) → partitions_of cs.
Proof.
  unfold collect_partition_candidates. intros H. peel H w1 children Hc. injection H as _ <-.
  exists (sort_by (λ a b, natural_cmp a.1 b.1) (omap partition_of children)), children.
  split; [done|]. split; [apply sort_by_perm|].
  apply (sort_by_sorted (λ a b, natural_cmp a.1 b.1)). intros x y. apply natural_cmp_antisym.
Qed.

End device_proofs.

(** A device gives either nothing, or itself when it carries a file system,
    or, for a whole disk without one, its partitions with an allow-listed file
    system in natural order, at most the configured number of them; each has
    the identifiers of the device and passes the filter. *)
Theorem devices_from_sound {W} {UD : Udev W} (d : UDevice) filter max w w' devs
    (Hok : devices_from d filter max w = (w', Ok devs)) :
  Forall (λ dev, vid_pid_match filter dev = true ∧ is_Some (dev_fs_type dev)) devs ∧
  (devs = [] ∨
   (∃ dev, devs = [dev] ∧ udev_devnode d = Some (devnode dev) ∧
      dev_fs_type dev = nonempty (property_text d "ID_FS_TYPE")) ∨
   (is_whole_disk d = true ∧ nonempty (property_text d "ID_FS_TYPE") = None ∧
    ∃ cs, partitions_of cs ∧ zlen cs ≤ max ∧
      devnode <$> devs = pc_devnode <$> List.filter (λ p, fs_allowed (pc_fs_type p)) cs ∧
      Forall (λ dev, fs_allowed (dev_fs_type dev) = true) devs)).
Proof.
  unfold devices_from in Hok. destruct (udev_devnode d) as [node|]; [|by injection Hok as _ <-; auto].
  peel Hok w1 vid Hv. peel Hok w2 pid Hp.
  set (skip := match filter with Some (fv, fp) => _ | None => _ end) in Hok.
  destruct skip eqn:Hskip; [by injection Hok as _ <-; auto|].
  assert (∀ n s fs, vid_pid_match filter (MkUsbDevice n s vid pid fs) = true) as Hm.
  { intros n s fs. unfold vid_pid_match, skip in *. destruct filter as [[fv fp]|]; [|done].
    apply bool_decide_eq_false in Hskip. cbn.
    rewrite !bool_decide_eq_true_2 by (destruct (decide (vid = fv)), (decide (pid = fp)); tauto). done. }
  destruct (nonempty (property_text d "ID_FS_TYPE")) as [fs|] eqn:Hfs.
  { injection Hok as _ <-. split; [repeat constructor; [apply Hm|by eexists]|].
    right. left. by eexists. }
  destruct (is_whole_disk d); [|by injection Hok as _ <-; auto].
  cbn [negb] in Hok. peel Hok w3 cs Hcs. destruct cs as [cs|]; [|by injection Hok as _ <-; auto].
  apply io_ok_inv in Hcs. apply collect_partition_candidates_Ok in Hcs.
  case_decide as Hmax; [done|]. injection Hok as _ <-. unfold select_partitions.
  assert (Forall (λ p, fs_allowed (pc_fs_type p) = true)
            (List.filter (λ p, fs_allowed (pc_fs_type p)) cs)) as Hall.
  { apply Forall_forall. intros p Hin%list_elem_of_In%filter_In. by destruct Hin. }
  split; [|right; right; split; [done|]; split; [done|]; exists cs; split_and!; [done|lia|..]].
  - apply Forall_fmap. eapply Forall_impl; [exact Hall|]. intros p Hp'. split; [apply Hm|].
    cbn. unfold fs_allowed in Hp'. by destruct (pc_fs_type p).
  - by rewrite <-list_fmap_compose.
  - apply Forall_fmap. eapply Forall_impl; [exact Hall|]. done.
Qed.

Lemma devices_from_sound_witness :
  ∃ w' devs,
    devices_from (UD := UsbSample.udev) UsbSample.disk None 8
      (UsbSample.start [UsbSample.part "10" "vfat"; UsbSample.part "2" "ext4";
                        UsbSample.part "1" "swap"]) = (w', Ok devs) ∧
    devnode <$> devs = ["/dev/sdb2"; "/dev/sdb10"] ∧
    Forall (λ dev, vid_pid_match None dev = true ∧ is_Some (dev_fs_type dev)) devs.
Proof.
  eexists _, _. split; [vm_compute; reflexivity|]. split; [reflexivity|].
  refine (proj1 (devices_from_sound (UD := UsbSample.udev) UsbSample.disk None 8
    (UsbSample.start [UsbSample.part "10" "vfat"; UsbSample.part "2" "ext4";
                      UsbSample.part "1" "swap"]) _ _ _)). vm_compute. reflexivity.
Defined.

Lemma string_compare_refl p : String.compare p p = Eq.
Proof. generalize (String.compare_antisym p p). by destruct (String.compare p p). Qed.

(** The kernel's numbering is followed: [sdb2] comes before [sdb10]. *)
Lemma natural_cmp_numbered p i j :
  digits_run (rev (bytes_of p)) = 0%nat → 0 ≤ i < 2 ^ 64 → 0 ≤ j < 2 ^ 64 →
  natural_cmp (p +:+ fmt_dec i) (p +:+ fmt_dec j) = Z.compare i j.
Proof.
  intros Hp Hi Hj. unfold natural_cmp. rewrite !split_suffix_numbered by done.
  by rewrite string_compare_refl.
Qed.

(** A partition with a file system is also listed as a device of its own, so
    the enumeration of a partitioned stick names it twice. *)
Theorem partition_listed_twice :
  ∃ w' d1 d2,
    enumerate_once_with_limit (UD := UsbSample.udev) None 8
      (UsbSample.start [UsbSample.disk; UsbSample.part "1" "vfat"]) = (w', Ok [d1; d2]) ∧
    devnode d1 = "/dev/sdb1" ∧ d2 = d1.
Proof. eexists _, _, _. split; [vm_compute; reflexivity|]. split; reflexivity. Qed.

(** The partition limit counts every partition, also those without a file
    system that could be mounted: they alone make the stick unusable. *)
Theorem limit_counts_unusable_partitions :
  ∃ w', devices_from (UD := UsbSample.udev) UsbSample.disk None 1
    (UsbSample.start [UsbSample.part "1" "vfat"; UsbSample.part "2" "swap"]) =
    (w', Err (TooManyPartitions "/dev/sdb" 2 1)).
Proof. eexists. vm_compute. reflexivity. Qed.

(** However long the configured wait, one quiet poll ends it: the poll's
    timeout is capped at 65535 milliseconds, and a poll that finds nothing is
    taken for the end of the wait. *)
Theorem long_wait_cut_short {W} {UD : Udev W} {CLK : Clock W} f (m : Monitor) filter max deadline
    w w1 w2 w3 now
    (Hnow : instant_now w = (w1, now)) (Hlong : 65536 * NANOS_PER_MILLI ≤ deadline - now)
    (Hdrain : monitor_drain m w1 = (w2, []))
    (Hpoll : monitor_poll m 65535 w2 = (w3, inr 0)) :
  monitor_loop (S f) m filter max deadline w = (w3, Err UsbTimeout).
Proof.
  assert (poll_millis (deadline - now) = 65535) as Hms.
  { unfold poll_millis, U16_MAX, NANOS_PER_MILLI in *. rewrite decide_False by lia. done. }
  cbn [monitor_loop]. unfold fbind, ask. rewrite Hnow. unfold NANOS_PER_MILLI in Hlong.
  rewrite decide_False by lia. rewrite Hdrain. cbn [drain_events]. unfold fret.
  rewrite bool_decide_eq_true_2 by done. cbn [negb]. rewrite Hms, Hpoll. done.
Qed.

Lemma long_wait_cut_short_witness :
  wait_for_usb_devices (UD := UsbSample.udev) (CLK := UsbSample.clock) 5 (300 * NANOS_PER_SEC)
    None 8 (UsbSample.start []) =
  (UsbSample.MkMachine [] [] [] (65535 * NANOS_PER_MILLI), Err UsbTimeout).
Proof.
  exact (long_wait_cut_short (UD := UsbSample.udev) (CLK := UsbSample.clock) 4 tt None 8
    (300 * NANOS_PER_SEC) (UsbSample.start []) (UsbSample.start []) (UsbSample.start []) _ 0
    eq_refl ltac:(vm_compute; discriminate) eq_refl eq_refl).
Defined.

(** ** Mounting *)

Section mounting_proofs.
Context {W : Type} {FS : Fs W} {MS : MountSys W}.

Lemma ms_flags_hardened :
  ms_flags hardened_flags =
  Z.lor (Z.lor (Z.lor (Z.lor MS_RDONLY MS_NOSUID) MS_NODEV) MS_NOEXEC) MS_NOATIME.
Proof. reflexivity. Qed.

(** The one way to a mount: a file system of the allow list, and the flags. *)
Lemma mount_usb_device_Ok dev target w w' g :
  mount_usb_device dev target w = (w', Ok g) →
  ∃ w1 fs, dev_fs_type dev = Some fs ∧ fs ∈ ALLOWED_FS ∧ g = adopt target ∧
    sys_mount (devnode dev) target fs (ms_flags hardened_flags) w1 = (w', inr tt).
Proof.
  unfold mount_usb_device, nix_mount. intros H. peel H w2 there Ht. destruct there; [|done]. cbn [negb] in H.
  peel H w3 fs Hfs. unfold select_fs_type in Hfs. destruct (dev_fs_type dev) as [t|]; [|done].
  injection Hfs as <- <-. case_bool_decide; [|done]. cbn [negb] in H. peel H w1 u Hu.
  injection H as <- <-. apply io_map_err_Ok_inv, call_Ok_inv in Hu. destruct u. by exists w2, t.
Qed.

End mounting_proofs.

Lemma real_mount_Ok {W} {FS : Fs W} {MS : MountSys W} rio dev w w' rio' g
    (Hok : real_mount rio dev w = (w', (rio', Ok g))) :
  g = adopt (mount_target rio) ∧ rio' = next_seq rio ∧
  ∃ w1 fs flags, sys_mount (devnode dev) (mount_target rio) fs flags w1 = (w', inr tt) ∧
    fs ∈ ALLOWED_FS ∧ dev_fs_type dev = Some fs ∧
    Forall (λ bit, Z.land flags bit = bit) [MS_RDONLY; MS_NOSUID; MS_NODEV; MS_NOEXEC].
Proof.
  unfold real_mount in Hok.
  destruct ((do! _; mount_usb_device dev (mount_target rio)) w) as [w0 r] eqn:Hr.
  injection Hok as -> <- ->. peel Hr w1 u Hu.
  apply mount_usb_device_Ok in Hr as (w2 & fs & Hfs & Hin & -> & Hm).
  split; [done|]. split; [done|]. eexists w2, fs, _. split; [exact Hm|]. split; [done|].
  split; [done|]. by repeat constructor.
Qed.

(** Whatever the stick claims to be, a mount that succeeds was asked of the
    kernel read-only, without set-user-id, devices or programs, with a file
    system of the allow list, on the attempt's own directory, which the guard
    unmounts and removes. *)
Theorem real_mount_hardened {W} {FS : Fs W} {MS : MountSys W} rio dev w w' rio' g
    (Hok : real_mount rio dev w = (w', (rio', Ok g))) :
  g = adopt (mount_target rio) ∧ rio' = next_seq rio ∧
  ∃ w1 fs flags, sys_mount (devnode dev) (mount_target rio) fs flags w1 = (w', inr tt) ∧
    fs ∈ ALLOWED_FS ∧ dev_fs_type dev = Some fs ∧
    Forall (λ bit, Z.land flags bit = bit) [MS_RDONLY; MS_NOSUID; MS_NODEV; MS_NOEXEC].
Proof. by apply (real_mount_Ok rio dev w w' rio' g). Qed.

Lemma real_mount_hardened_witness :
  let rio := real_flow_io_new 0 None 8 "/run/pam_certauth" "s1" in
  let dev := MkUsbDevice "/dev/sdb1" None 1 2 (Some "vfat") in
  let (w', out) := real_mount (FS := UsbSample.dirs) (MS := UsbSample.mounts) rio dev
                     (UsbSample.start []) in
  ∃ g, out.2 = Ok g ∧ g = adopt "/run/pam_certauth/s1".
Proof.
  refine (ex_intro _ (adopt "/run/pam_certauth/s1") (conj eq_refl _)).
  exact (proj1 (real_mount_hardened (FS := UsbSample.dirs) (MS := UsbSample.mounts)
    (real_flow_io_new 0 None 8 "/run/pam_certauth" "s1")
    (MkUsbDevice "/dev/sdb1" None 1 2 (Some "vfat")) (UsbSample.start []) _ _ _ eq_refl)).
Defined.

(** A mount that fails leaves the directory it created behind: no guard
    exists yet, and the next attempt uses another name. *)
Theorem failed_mount_leaves_directory :
  let rio := real_flow_io_new 0 None 8 "/run/pam_certauth" "s1" in
  let dev := MkUsbDevice "/dev/sdb1" None 1 2 (Some "ntfs") in
  let (w', out) := real_mount (FS := UsbSample.dirs) (MS := UsbSample.mounts) rio dev
                     (UsbSample.start []) in
  out.2 = Err (MountSyscall (inl 19)) ∧ UsbSample.mc_dirs w' = ["/run/pam_certauth/s1"] ∧
  mount_target out.1 = "/run/pam_certauth/s1-1".
Proof. vm_compute. auto. Qed.

Lemma fmt_dec_inj i j : 0 ≤ i < 2 ^ 64 → 0 ≤ j < 2 ^ 64 → fmt_dec i = fmt_dec j → i = j.
Proof.
  intros Hi Hj He. pose proof (from_str_radix_fmt_dec 0 (2 ^ 64 - 1) i) as Hpi.
  rewrite He, from_str_radix_fmt_dec in Hpi by lia. specialize (Hpi ltac:(lia) ltac:(lia)).
  by injection Hpi.
Qed.

Lemma path_join_inj base r1 r2 :
  starts_with r1 "/" = false → starts_with r2 "/" = false →
  path_join base r1 = path_join base r2 → r1 = r2.
Proof.
  intros H1 H2. unfold path_join. rewrite H1, H2. destruct (bytes_of base); [done|].
  case_bool_decide; intros He; apply (f_equal bytes_of) in He; rewrite !bytes_of_app in He.
  - by apply app_inv_head in He; apply bytes_of_inj.
  - apply app_inv_head in He. by injection He as He; apply bytes_of_inj.
Qed.

Lemma starts_with_app s t : s ≠ "" → starts_with s "/" = false → starts_with (s +:+ t) "/" = false.
Proof.
  intros Hs. unfold starts_with. rewrite bytes_of_app. destruct (bytes_of s) eqn:Hb; [|done].
  by destruct Hs; apply bytes_of_inj.
Qed.

(** The directories of one login are all different, until the counter wraps. *)
Lemma mount_target_inj t fl mx base sid i j :
  sid ≠ "" → starts_with sid "/" = false → 0 ≤ i < 2 ^ 32 → 0 ≤ j < 2 ^ 32 →
  mount_target (MkRealFlowIo t fl mx base sid i) = mount_target (MkRealFlowIo t fl mx base sid j) →
  i = j.
Proof.
  intros Hs Hsid Hi Hj. unfold mount_target. cbn [rio_mount_seq rio_mountpoint_base rio_session_id].
  assert (∀ k, starts_with (if decide (k = 0) then sid else sid +:+ "-" +:+ fmt_dec k) "/" = false)
    as Hrel by (intros k; case_decide; [done|by apply starts_with_app]).
  intros He%path_join_inj; [|apply Hrel..].
  assert (∀ u, sid ≠ sid +:+ "-" +:+ u) as Hne.
  { intros u Hu. apply (f_equal (length ∘ bytes_of)) in Hu. cbn in Hu.
    rewrite bytes_of_app, length_app in Hu. simpl in Hu. lia. }
  do 2 case_decide; subst; [done|by destruct (Hne (fmt_dec j))|by destruct (Hne (fmt_dec i))|].
  apply (f_equal bytes_of) in He. rewrite !bytes_of_app in He. apply app_inv_head in He.
  injection He as He. apply fmt_dec_inj; [lia..|by apply bytes_of_inj].
Qed.

(** ** Credentials *)

Definition no_dot_slash (user : string) : Prop :=
  user ≠ "" ∧ Forall (λ b, b ≠ zb 0x2E ∧ b ≠ zb 0x2F) (bytes_of user).

Lemma expand_user_bytes pattern user :
  bytes_of (expand_user pattern user) =
  replace_all (bytes_of "${user}") (bytes_of user) (bytes_of pattern).
Proof. unfold expand_user, str_replace, replace_all. apply bytes_of_text_of. Qed.

Lemma expand_user_relative pattern user :
  pattern_wf pattern → no_dot_slash user → starts_with (expand_user pattern user) "/" = false.
Proof.
  intros (Hne & Hrel & _) (Hu & Hsafe). unfold starts_with in *. rewrite expand_user_bytes.
  destruct (bytes_of pattern) as [|b r] eqn:Hp; [done|].
  unfold replace_all. cbn [length replace_fuel]. destruct (is_prefix_bytes (bytes_of "${user}") (b :: r)).
  - destruct (bytes_of user) as [|x l] eqn:Hb; [by destruct Hu; apply bytes_of_inj|].
    inversion_clear Hsafe as [|? ? [_ Hx]]. cbn. rewrite bool_decide_eq_false_2; [done|]. intros Heq. apply Hx. by rewrite <-Heq.
  - by cbn in *.
Qed.

Lemma expand_user_segments pattern user :
  pattern_wf pattern → no_dot_slash user →
  Forall (λ seg, seg ≠ "..") (str_split (zb 0x2F) (expand_user pattern user)).
Proof.
  intros (_ & _ & Hseg) (Hu & Hsafe). unfold str_split in *. rewrite expand_user_bytes.
  rewrite split_replace_all; [|done|apply (bool_decide_unpack _); by vm_compute|].
  2: { intros Hin. rewrite Forall_forall in Hsafe. by destruct (Hsafe _ Hin). }
  rewrite Forall_fmap in Hseg. rewrite !Forall_fmap. eapply Forall_impl; [exact Hseg|].
  intros seg [Hdd _]. cbn in *. intros He.
  assert (replace_all (bytes_of "${user}") (bytes_of user) seg = bytes_of "..") as Hr.
  { rewrite <-He. symmetry. apply bytes_of_text_of. }
  destruct (replace_fuel_cases (bytes_of "${user}") (bytes_of user) (length seg) seg)
    as [Hc|(l & r & Hc)]; unfold replace_all in Hr; rewrite Hc in Hr;
    [apply Hdd; by rewrite Hr|].
  destruct (bytes_of user) as [|x u] eqn:Hb; [by destruct Hu; apply bytes_of_inj|].
  inversion_clear Hsafe as [|? ? [Hdot _]]. apply Hdot.
  assert (x ∈ bytes_of "..") as Hin.
  { rewrite <-Hr. apply elem_of_app. right. left. }
  change (bytes_of "..") with [zb 0x2E; zb 0x2E] in Hin.
  by apply elem_of_cons in Hin as [?|?%list_elem_of_singleton].
Qed.

Lemma discover_credentials_Ok {W} {FS : Fs W} mountpoint pattern user w w' creds
    (Hm : mountpoint ≠ "") (Hpat : pattern_wf pattern) (Huser : no_dot_slash user)
    (Hok : discover_credentials mountpoint pattern user w = (w', Ok creds)) :
  ∃ rel, (p12_path creds = mountpoint +:+ rel ∨ p12_path creds = mountpoint +:+ "/" +:+ rel) ∧
    starts_with rel "/" = false ∧ Forall (λ seg, seg ≠ "..") (str_split (zb 0x2F) rel) ∧
    ∃ w1 w2 md w3, fs_metadata (p12_path creds) w1 = (w2, inr md) ∧ md_len md ≤ MAX_P12_BYTES ∧
      fs_read (p12_path creds) w2 = (w3, inr (p12_bytes creds)).
Proof.
  exists (expand_user pattern user). unfold discover_credentials in Hok.
  peel Hok w1 there Ht. destruct there; [|done]. cbn [negb] in Hok.
  peel Hok w2 md Hmd. apply io_map_err_Ok_inv, call_Ok_inv in Hmd. case_decide; [done|].
  peel Hok w3 bs Hbs. apply io_map_err_Ok_inv, call_Ok_inv in Hbs.
  peel Hok w4 hc Hhc. peel Hok w5 chain Hchain. injection Hok as <- <-. cbn [p12_path p12_bytes].
  split; [|split; [by apply expand_user_relative|split; [by apply expand_user_segments|]]].
  - apply path_join_rel; [done|by apply expand_user_relative].
  - exists w1, w2, md, w3. split; [done|]. split; [lia|done].
Qed.

(** With a validated pattern and a user name without dots and slashes, the
    bundle that is read lies below the mountpoint, is no larger than ten
    mebibytes when looked at, and the chain beside it has its fixed name. *)
Theorem discovery_confined {W} {FS : Fs W} mountpoint pattern user w w' creds
    (Hm : mountpoint ≠ "") (Hpat : pattern_wf pattern) (Huser : no_dot_slash user)
    (Hok : discover_credentials mountpoint pattern user w = (w', Ok creds)) :
  ∃ rel, (p12_path creds = mountpoint +:+ rel ∨ p12_path creds = mountpoint +:+ "/" +:+ rel) ∧
    starts_with rel "/" = false ∧ Forall (λ seg, seg ≠ "..") (str_split (zb 0x2F) rel) ∧
    ∃ w1 w2 md w3, fs_metadata (p12_path creds) w1 = (w2, inr md) ∧ md_len md ≤ MAX_P12_BYTES ∧
      fs_read (p12_path creds) w2 = (w3, inr (p12_bytes creds)).
Proof. by apply (discover_credentials_Ok mountpoint pattern user w w' creds). Qed.

Lemma discovery_confined_witness :
  ∃ rel,
    (p12_path (MkCreds "/mnt/home/alice.p12" [] None) = "/mnt" +:+ rel ∨
     p12_path (MkCreds "/mnt/home/alice.p12" [] None) = "/mnt" +:+ "/" +:+ rel) ∧
    starts_with rel "/" = false ∧ Forall (λ seg, seg ≠ "..") (str_split (zb 0x2F) rel).
Proof.
  destruct (discovery_confined (FS := ConfigSample.fs) "/mnt" "home/${user}.p12" "alice"
    [("/mnt/home/alice.p12", [])] [("/mnt/home/alice.p12", [])]
    (MkCreds "/mnt/home/alice.p12" [] None) ltac:(done)
    ltac:(split; [done|split; [reflexivity|by repeat constructor]])
    ltac:(split; [done|by repeat constructor]) ltac:(vm_compute; reflexivity))
    as (rel & H1 & H2 & H3 & _).
  exists rel. split; [exact H1|]. split; [exact H2|exact H3].
Defined.

(** Nothing checks the user name itself: with [..] for a name a valid
    pattern leads out of the mountpoint. *)
Theorem discovery_escapes :
  pattern_wf "${user}/user.p12" ∧
  (discover_credentials (FS := ConfigSample.fs) "/mnt" "${user}/user.p12" "..")
    [("/mnt/../user.p12", [])] =
  ([("/mnt/../user.p12", [])], Ok (MkCreds "/mnt/../user.p12" [] None)).
Proof.
  split; [split; [done|split; [reflexivity|by repeat constructor]]|]. vm_compute. reflexivity.
Qed.
