(* ===== verification/Events.v ===== *)
(** * Events and actions of the daemon ([udev_monitor.rs], [udev_query.rs],
    [logind/listener.rs], [logind/actions.rs], [actions.rs], [testing.rs])

    What flows into the state manager of [State.v] and out of it: the udev
    thread turns device events into [UdevEvent]s, the logind listener turns bus
    signals into [LogindSignal]s, and the action runner turns the requests of
    the manager into calls on logind or a hook.  [dstep] puts the queues and the
    manager together. *)

From S2P Require Import Prelude Text Sys Errors Certificate Proto Registry State Hooks RawConfig Config Usb.
Local Open Scope Z_scope.

(** ** Presence ([udev_query.rs]) *)

(** [UdevQuery::is_serial_present]. *)
Definition UdevQuery (W : Type) : Type := string → W → W * bool.

Definition AlwaysAbsent {W} : UdevQuery W := λ _ w, (w, false).
Definition AlwaysPresent {W} : UdevQuery W := λ _ w, (w, true).
Definition FakeUdevQuery {W} (serials : gset string) : UdevQuery W := λ serial w,
  (w, bool_decide (serial ∈ serials)).

(** The properties of a device, names and values as the kernel has them. *)
Class UdevProps (W : Type) {UD : Udev W} := udev_properties : UDevice → list (list byte * list byte).

Section query.
Context {W : Type} {UD : Udev W}.

Definition matches_serial (d : UDevice) (serial : string) : bool :=
  existsb (λ key, bool_decide (udev_property d key ≫= from_utf8 = Some serial))
    ["ID_SERIAL_SHORT"; "ID_SERIAL"].

Definition RealUdevQuery : UdevQuery W := λ serial w,
  match udev_scan [MatchSubsystem "block"] w with
  | (w', inr devices) => (w', existsb (λ d, matches_serial d serial) devices)
  | (w', inl _) => (w', false)
  end.

End query.

(** ** The udev thread ([udev_monitor.rs]) *)

(** The map of the properties that are text. *)
Definition props_of (ps : list (list byte * list byte)) : gmap string string :=
  foldl (λ m p, match from_utf8 p.1, from_utf8 p.2 with
                | Some k, Some v => <[k := v]> m
                | _, _ => m
                end) ∅ ps.

(** Other block devices that come and go are of no interest. *)
Definition is_dropped (ev : UdevEvent) : bool :=
  negb (ue_is_usb ev) && match ue_action ev with UdevAdd | UdevRemove => true | UdevChange => false end.

(** What one device event sends. *)
Definition monitor_event (ps : list (list byte * list byte)) : option UdevEvent :=
  match parse_udev_fields (props_of ps) with
  | Some ev => if is_dropped ev then None else Some ev
  | None => None
  end.

(** The shutdown token, and the sending end of the channel: whether the
    receiver is still there. *)
Class UdevTask (W : Type) := {
  shutdown_cancelled : W → W * bool;
  udev_tx_send : UdevEvent → W → W * bool;
}.

Definition POLL_MILLIS : Z := 250.

Section monitor.
Context {W : Type} {UD : Udev W} {UP : UdevProps W} {TK : UdevTask W} {CLK : Clock W}.

Fixpoint forward_events (devices : list UDevice) (w : W) : W * bool :=
  match devices with
  | [] => (w, true)
  | d :: r =>
      match monitor_event (udev_properties d) with
      | None => forward_events r w
      | Some ev =>
          let (w', alive) := udev_tx_send ev w in
          if alive then forward_events r w' else (w', false)
      end
  end.

(** The loop of [run_monitor], as many rounds of it as there is fuel: [false]
    when it is still running. *)
Fixpoint udev_loop (fuel : nat) (mon : Monitor) : io W (string + Z) bool :=
  match fuel with
  | O => fret false
  | S f =>
      let! stop := ask shutdown_cancelled in
      if stop : bool then fret true else
      let! n := io_map_err inr (call (monitor_poll mon POLL_MILLIS)) in
      if decide (n = 0) then udev_loop f mon else
      let! events := ask (monitor_drain mon) in
      let! alive := ask (forward_events events.*2) in
      if alive : bool then udev_loop f mon else fret true
  end.

Definition run_monitor (fuel : nat) : io W (string + Z) bool :=
  let! mon := io_map_err inl (call (monitor_listen "block")) in
  udev_loop fuel mon.

(** The thread: a monitor that fails is set up again after a second. *)
Fixpoint udev_thread (fuel : nat) (w : W) : W * bool :=
  match fuel with
  | O => (w, false)
  | S f =>
      let (w, stop) := shutdown_cancelled w in
      if stop then (w, true) else
      match run_monitor fuel w with
      | (w, Ok true) => udev_thread f w
      | (w, Err _) => udev_thread f (sleep NANOS_PER_SEC w)
      | (w, _) => (w, false)
      end
  end.

End monitor.

(** ** The bus ([logind/listener.rs], [logind/actions.rs]) *)

Inductive DbusBody : Type :=
| BodyStr (s : string)
| BodyBool (b : bool).

(** The [zbus] crate: connections, proxies, method calls, signal messages and
    what their bodies decode to. *)
Class Dbus (W : Type) := {
  Connection : Type;
  Proxy : Type;
  SignalMsg : Type;
  connect_system : W → W * (string + Connection);
  connect_address : string → W → W * (string + Connection);
  proxy_new : Connection → string → string → string → W → W * (string + Proxy);
  call_method : Proxy → string → DbusBody → W → W * (string + unit);
  receive_signal : Proxy → string → W → W * (string + unit);
  body_bool : SignalMsg → option bool;
  body_session : SignalMsg → option (string * string);
}.

Inductive BusAddress : Type :=
| BusSystem
| BusCustom (address : string).

Definition LOGIN1 : string := "org.freedesktop.login1".
Definition LOGIN1_PATH : string := "/org/freedesktop/login1".
Definition LOGIN1_MANAGER : string := "org.freedesktop.login1.Manager".

(** The two streams of the [select!]; [StreamsEnded] is its [else]. *)
Inductive StreamItem (M : Type) : Type :=
| PrepareItem (m : M)
| RemovedItem (m : M)
| StreamsEnded.
Arguments PrepareItem {M} m.
Arguments RemovedItem {M} m.
Arguments StreamsEnded {M}.

Section logind.
Context {W : Type} {DB : Dbus W}.

Definition signal_of (item : StreamItem SignalMsg) : option LogindSignal :=
  match item with
  | PrepareItem m => PrepareForSleep <$> body_bool m
  | RemovedItem m => (λ '(id, op), SessionRemoved id op) <$> body_session m
  | StreamsEnded => None
  end.

(** The signals the listener sends for the items of its streams, until they end
    or the receiver, which takes [room] of them, is gone. *)
Fixpoint listen (room : nat) (items : list (StreamItem SignalMsg)) : list LogindSignal :=
  match items with
  | [] | StreamsEnded :: _ => []
  | item :: r =>
      match signal_of item, room with
      | None, _ => listen room r
      | Some s, S n => s :: listen n r
      | Some _, O => []
      end
  end.

Definition subscribe (bus : BusAddress) : io W string unit :=
  let! conn := match bus with
               | BusSystem => call connect_system
               | BusCustom address => call (connect_address address)
               end in
  let! proxy := call (proxy_new conn LOGIN1 LOGIN1_PATH LOGIN1_MANAGER) in
  do! call (receive_signal proxy "PrepareForSleep");
  call (receive_signal proxy "SessionRemoved").

End logind.

(** [LogindActionsTrait]. *)
Record LogindActionsTrait (W : Type) := MkActions {
  lock_session : string → io W string unit;
  terminate_session : string → io W string unit;
  power_off : io W string unit;
}.
Arguments MkActions {W}.
Arguments lock_session {W}.
Arguments terminate_session {W}.
Arguments power_off {W}.

Definition NoopActions {W} : LogindActionsTrait W :=
  MkActions (λ _, fret tt) (λ _, fret tt) (fret tt).

(** [LogindActions] over a connection; each call makes a proxy. *)
Definition LogindActions {W} {DB : Dbus W} (conn : Connection) : LogindActionsTrait W :=
  let method name body :=
    let! proxy := call (proxy_new conn LOGIN1 LOGIN1_PATH LOGIN1_MANAGER) in
    call (call_method proxy name body) in
  MkActions (λ id, method "LockSession" (BodyStr id)) (λ id, method "TerminateSession" (BodyStr id))
    (method "PowerOff" (BodyBool false)).

(** [RecordingActions] of the test support: the calls as text, pushed to a list
    that is part of the world. *)
Definition RecordingActions {W} (push_call : string → W → W) : LogindActionsTrait W :=
  let push s := λ w, (push_call s w, Ok tt) in
  MkActions (λ id, push ("LockSession(" +:+ id +:+ ")")) (λ id, push ("TerminateSession(" +:+ id +:+ ")"))
    (push "PowerOff").

(** ** The action runner ([actions.rs]) *)

(** [Command::new(_).env(..)…status()]: whether the status is a success, and
    its text. *)
Class Commands (W : Type) :=
  command_status : string → list (string * string) → W → W * (IoError + (bool * string)).

Section runner.
Context {W : Type} {UT : UuidText} {CM : Commands W} (actions : LogindActionsTrait W).

Definition run_hook (path : string) (session : ActiveSession) : io W string unit :=
  let! status := io_map_err io_text (call (command_status path (hook_env session))) in
  let (success, text) := status : bool * string in
  if success then fret tt else lift (Err ("hook returned non-zero status: " +:+ text)).

Definition action_handle (req : ActionRequest) : io W string unit :=
  let logind_id := logind_id (target (ar_session req)) in
  match ar_action req with
  | Lock =>
      let! id := lift (ok_or logind_id "Lock requested but session has no logind id") in
      lock_session actions id
  | Logout =>
      let! id := lift (ok_or logind_id "Logout requested but session has no logind id") in
      terminate_session actions id
  | Hook path => run_hook path (ar_session req)
  | Shutdown => power_off actions
  end.

(** The task: a request that fails is logged, the next one is taken. *)
Fixpoint run_actions (reqs : list ActionRequest) (w : W) : W :=
  match reqs with
  | [] => w
  | req :: r => run_actions r (action_handle req w).1
  end.

End runner.

(** ** The daemon as a system

    The events of the three sources go through one queue to the manager; the
    runner takes its requests in order, the next one only after the call for
    the last one has returned, which a hook or the bus may never let happen:
    [ds_awaits] is the call it waits for.  [ds_devices] and [ds_calls] record
    what the udev socket delivered and what the runner asked for. *)

Record dstate := MkDaemon {
  ds_mgr : mstate;
  ds_queue : list event;
  ds_taken : nat;
  ds_calls : list LogindCall;
  ds_devices : list (list (list byte * list byte));
  ds_awaits : option LogindCall;
}.

(** Events that do not come through the queue. *)
Definition of_time (ev : event) : Prop :=
  match ev with
  | EvTick _ | EvFire _ | EvDrop _ => True
  | EvIpc _ | EvUdev _ | EvLogind _ => False
  end.

Definition calls_of {UT : UuidText} (req : ActionRequest) : option LogindCall :=
  match handle_action req with Ok c => Some c | _ => None end.

Section system.
Context {UT : UuidText} {CP : CratePkg} (cfg : StateConfig).

(** A step of the daemon, with the event its manager handled in it. *)
Inductive dstep : dstate → option event → dstate → Prop :=
| DDevice mgr q n calls devs aw ps :
    dstep (MkDaemon mgr q n calls devs aw) None
          (MkDaemon mgr (q ++ option_list (EvUdev <$> monitor_event ps)) n calls (ps :: devs) aw)
| DSignal mgr q n calls devs aw sig :
    dstep (MkDaemon mgr q n calls devs aw) None (MkDaemon mgr (q ++ [EvLogind sig]) n calls devs aw)
| DRequest mgr q n calls devs aw req :
    dstep (MkDaemon mgr q n calls devs aw) None (MkDaemon mgr (q ++ [EvIpc req]) n calls devs aw)
| DHandle mgr ev q n calls devs aw mgr' :
    step cfg mgr ev mgr' →
    dstep (MkDaemon mgr (ev :: q) n calls devs aw) (Some ev) (MkDaemon mgr' q n calls devs aw)
| DTime mgr ev q n calls devs aw mgr' :
    of_time ev → step cfg mgr ev mgr' →
    dstep (MkDaemon mgr q n calls devs aw) (Some ev) (MkDaemon mgr' q n calls devs aw)
| DAct mgr q n calls devs req :
    ms_actions mgr !! n = Some req →
    dstep (MkDaemon mgr q n calls devs None) None
          (MkDaemon mgr q (S n) (calls ++ option_list (calls_of req)) devs (calls_of req))
| DReturn mgr q n calls devs c :
    dstep (MkDaemon mgr q n calls devs (Some c)) None (MkDaemon mgr q n calls devs None).

(** A run, with the history of its manager: newest event first, each with its
    time. *)
Inductive dreach (d0 : dstate) : list (Z * event) → dstate → Prop :=
| DReachRefl : dreach d0 [] d0
| DReachStep tr d l d' :
    dreach d0 tr d → dstep d l d' → dreach d0 (option_list ((ms_now (ds_mgr d),.) <$> l) ++ tr) d'.

Lemma dreach_quiet d0 tr d d' : dreach d0 tr d → dstep d None d' → dreach d0 tr d'.
Proof. apply (DReachStep d0 tr d None d'). Qed.

Lemma dreach_event d0 tr d ev d' now :
  dreach d0 tr d → dstep d (Some ev) d' → ms_now (ds_mgr d) = now → dreach d0 ((now, ev) :: tr) d'.
Proof. intros Hr Hs <-. apply (DReachStep d0 tr d (Some ev) d' Hr Hs). Qed.

(** The daemon as [run_async] starts it. *)
Definition daemon_start (r : SessionRegistry) (disk : list ActiveSession) (now : Z) : dstate :=
  MkDaemon (init_state r disk now) [] 0 [] [] None.

Definition from_device (devs : list (list (list byte * list byte))) (u : UdevEvent) : Prop :=
  ∃ ps, ps ∈ devs ∧ monitor_event ps = Some u.

Lemma from_device_cons devs ps u : from_device devs u → from_device (ps :: devs) u.
Proof. intros (q & Hq & Hm). exists q. split; [by right|done]. Qed.

Lemma step_actions_grow st ev st' : step cfg st ev st' → ms_actions st `prefix_of` ms_actions st'.
Proof.
  intros H. destruct H as [st req present ok|st u|st sig ok|st d Hd|st tok t Ht Hf|st tok t c Ht Hc]; try done.
  - destruct (handle_ipc_frame present ok st req) as (_ & _ & _ & _ & -> & _). done.
  - unfold handle_udev. by repeat case_match.
  - unfold handle_logind. by repeat case_match.
  - cbn. by apply prefix_app_r.
Qed.

Record dinv (st0 : mstate) (tr : list (Z * event)) (d : dstate) : Prop := {
  di_exec : exec cfg st0 tr (ds_mgr d);
  di_trace : ∀ t u, (t, EvUdev u) ∈ tr → from_device (ds_devices d) u;
  di_queue : ∀ u, EvUdev u ∈ ds_queue d → from_device (ds_devices d) u;
  di_taken : (ds_taken d ≤ length (ms_actions (ds_mgr d)))%nat;
  di_calls : ds_calls d = omap calls_of (take (ds_taken d) (ms_actions (ds_mgr d)));
}.

Lemma dinv_manager st0 tr mgr ev q q' n calls devs aw mgr' :
  step cfg mgr ev mgr' → dinv st0 tr (MkDaemon mgr q n calls devs aw) →
  (∀ u, ev = EvUdev u → from_device devs u) → (∀ u, EvUdev u ∈ q' → EvUdev u ∈ q) →
  dinv st0 ((ms_now mgr, ev) :: tr) (MkDaemon mgr' q' n calls devs aw).
Proof.
  intros Hs [He Ht Hq Hn Hc] Hev Hq'. cbn in *.
  destruct (step_actions_grow _ _ _ Hs) as [more Hm]. split; cbn.
  - by econstructor.
  - intros t u [E|Hin]%elem_of_cons; [injection E as _ E; by apply Hev|by eapply Ht].
  - auto.
  - rewrite Hm, length_app. lia.
  - by rewrite Hc, Hm, take_app_le.
Qed.

Lemma dstep_inv st0 tr d l d' :
  dstep d l d' → dinv st0 tr d → dinv st0 (option_list ((ms_now (ds_mgr d),.) <$> l) ++ tr) d'.
Proof.
  intros H Hi. destruct H as [mgr q n calls devs aw ps|mgr q n calls devs aw sig|mgr q n calls devs aw req
    |mgr ev q n calls devs aw mgr' Hs|mgr ev q n calls devs aw mgr' Ht Hs|mgr q n calls devs req Hr
    |mgr q n calls devs c].
  - destruct Hi as [He Htr Hq Hn Hc].
    split; cbn [ds_mgr ds_queue ds_taken ds_calls ds_devices fmap option_fmap option_map option_list app] in *;
      [done|..|done|done].
    + intros t u Hin. by eapply from_device_cons, Htr.
    + intros u [Hin|Hin]%elem_of_app; [by apply from_device_cons, Hq|].
      destruct (monitor_event ps) as [u'|] eqn:Hm; [|by apply not_elem_of_nil in Hin].
      apply list_elem_of_singleton in Hin. injection Hin as ->. exists ps. split; [by left|done].
  - destruct Hi as [? ? Hq ? ?]. split; cbn in *; try done.
    intros u [Hin|Hin%list_elem_of_singleton]%elem_of_app; [by apply Hq|done].
  - destruct Hi as [? ? Hq ? ?]. split; cbn in *; try done.
    intros u [Hin|Hin%list_elem_of_singleton]%elem_of_app; [by apply Hq|done].
  - eapply dinv_manager; [exact Hs|exact Hi|..].
    + intros u ->. apply (di_queue _ _ _ Hi). by left.
    + intros u Hin. by right.
  - eapply dinv_manager; [exact Hs|exact Hi|by intros u ->|done].
  - destruct Hi as [? ? ? Hn Hc]. split; cbn in *; [done|done|done|by apply lookup_lt_Some in Hr|].
    rewrite (take_S_r _ _ _ Hr), omap_app, <-Hc. cbn. by destruct (calls_of req).
  - by destruct Hi.
Qed.

Lemma dreach_inv_from st0 tr0 d0 tr d :
  dreach d0 tr d → dinv st0 tr0 d0 → dinv st0 (tr ++ tr0) d.
Proof.
  induction 1 as [|tr d l d' _ IH Hs]; [done|]. intros Hi. rewrite <-app_assoc.
  eapply dstep_inv; [exact Hs|by apply IH].
Qed.

Lemma daemon_start_inv r disk now : dinv (init_state r disk now) [] (daemon_start r disk now).
Proof.
  split; cbn; [constructor|by intros t u ?%not_elem_of_nil|by intros u ?%not_elem_of_nil|lia|done].
Qed.

Lemma dreach_inv r disk now tr d :
  dreach (daemon_start r disk now) tr d → dinv (init_state r disk now) tr d.
Proof.
  intros H. rewrite <-(app_nil_r tr). eapply dreach_inv_from; [exact H|apply daemon_start_inv].
Qed.

(** The manager of a run. *)
Lemma dreach_exec d0 tr d : dreach d0 tr d → exec cfg (ds_mgr d0) tr (ds_mgr d).
Proof.
  induction 1 as [|tr d l d' _ IH Hs]; [constructor|].
  destruct Hs; cbn [fmap option_fmap option_map option_list app ds_mgr] in *; try done; by econstructor.
Qed.

End system.

Lemma elem_of_take_any {A} (x : A) n l : x ∈ take n l → x ∈ l.
Proof. intros H. rewrite <-(take_drop n l). apply elem_of_app. by left. Qed.

(** What a removal event of the manager says about the device. *)
Lemma monitor_event_removal ps u serial :
  monitor_event ps = Some u → ue_action u = UdevRemove → ue_serial u = Some serial →
  props_of ps !! "ACTION" = Some "remove" ∧ props_of ps !! "ID_BUS" = Some "usb" ∧
  (props_of ps !! "ID_SERIAL_SHORT" = Some serial ∨
   props_of ps !! "ID_SERIAL_SHORT" = None ∧ props_of ps !! "ID_SERIAL" = Some serial).
Proof.
  unfold monitor_event, parse_udev_fields, is_dropped. cbn [ue_action ue_is_usb ue_serial].
  destruct (decide (props_of ps !! "ID_BUS" = Some "usb")) as [Hb|Hb];
    [rewrite bool_decide_eq_true_2 by done|rewrite bool_decide_eq_false_2 by done]; cbn [negb andb].
  - intros [= <-] Ha Hs. cbn [ue_action ue_serial] in *. split_and!.
    + by repeat case_match; simplify_eq.
    + done.
    + destruct (props_of ps !! "ID_SERIAL_SHORT"); [left|right]; by simplify_eq.
  - case_match eqn:E; [done|]. intros [= <-] Ha. cbn in Ha. rewrite Ha in E. done.
Qed.

(** ** Theorems *)

(** C5: Every call the daemon makes on logind, or hook it runs, is for a session
    whose device was removed: the manager handled the removal of a USB block
    device whose serial is the session's, the grace period passed after it, and
    nothing excused it in between; the call is the configured one. *)
Theorem daemon_calls_justified {UT : UuidText} {CP : CratePkg} cfg r disk now tr d c
    (Hreach : dreach cfg (daemon_start r disk now) tr d) (Hc : c ∈ ds_calls d) :
  ∃ a serial ps, justified cfg tr a ∧
    handle_action a = Ok c ∧ usb_serial (ar_session a) = Some serial ∧ ps ∈ ds_devices d ∧
    props_of ps !! "ACTION" = Some "remove" ∧ props_of ps !! "ID_BUS" = Some "usb" ∧
    (props_of ps !! "ID_SERIAL_SHORT" = Some serial ∨
     props_of ps !! "ID_SERIAL_SHORT" = None ∧ props_of ps !! "ID_SERIAL" = Some serial).
Proof.
  apply dreach_inv in Hreach as [He Ht _ _ Hcalls]. rewrite Hcalls in Hc.
  apply list_elem_of_omap in Hc as (a & Ha & Hac). unfold calls_of in Hac.
  destruct (handle_action a) as [c'|e|] eqn:Hh; [|done..]. injection Hac as ->.
  assert (a ∈ ms_actions (ds_mgr d)) as Hin by (by eapply elem_of_take_any).
  pose proof He as [_ _ _ Hact]%exec_inv. rewrite Forall_forall in Hact.
  pose proof (Hact a Hin) as Hj. pose proof Hj as (_ & serial & after & t0 & (u & before & -> & Hu & Hs & _) & Hus & _).
  destruct (Ht t0 u) as (ps & Hps & Hm); [apply elem_of_app; right; by left|].
  exists a, serial, ps. repeat (split; [done|]).
  by eapply monitor_event_removal.
Qed.

Module EventsSample.

Definition prop (k v : string) : list byte * list byte := (bytes_of k, bytes_of v).
Definition removed : list (list byte * list byte) :=
  [prop "ACTION" "remove"; prop "ID_BUS" "usb"; prop "ID_SERIAL_SHORT" "usb1"].

Definition session : ActiveSession := set_target (LogindSession "s1") StateSample.session.
Definition reg : SessionRegistry := registry_add registry_new session.
Definition timer0 : timer := MkTimer "usb1" [session] (5 * NANOS_PER_SEC) None.
Definition moved : UdevEvent := MkUdevEvent UdevRemove None (Some "usb1") None true.
Definition pulled : mstate := handle_udev StateSample.cfg (init_state reg [] 0) moved.
Definition late : mstate := StateSample.waited pulled.
Definition fired : mstate := fire StateSample.cfg late 0 timer0.
Definition locked : dstate := MkDaemon fired [] 1 [LockSession "s1"] [removed] (Some (LockSession "s1")).

Definition history : list (Z * event) :=
  [(5 * NANOS_PER_SEC, EvFire 0); (0, EvTick (5 * NANOS_PER_SEC)); (0, EvUdev moved)].

Lemma locked_reached :
  dreach (UT := StateSample.uuid_text) (CP := StateSample.crate) StateSample.cfg
    (daemon_start reg [] 0) history locked.
Proof.
  eapply dreach_quiet.
  2:{ apply (DAct StateSample.cfg fired [] 0 [] [removed] (HandleUsbRemoved session Lock)). by vm_compute. }
  eapply dreach_event; [|apply (DTime StateSample.cfg late (EvFire 0)); [done|]|reflexivity].
  2:{ apply (StepFire StateSample.cfg late 0 timer0); [by vm_compute|]. split; [by vm_compute|done]. }
  eapply dreach_event; [|apply (DTime StateSample.cfg pulled (EvTick (5 * NANOS_PER_SEC))); [done|]|reflexivity].
  2:{ by apply (StepTick StateSample.cfg pulled). }
  eapply dreach_event; [|apply (DHandle StateSample.cfg (init_state reg [] 0) (EvUdev moved)); apply StepUdev|reflexivity].
  eapply dreach_quiet; [apply DReachRefl|]. apply (DDevice StateSample.cfg (init_state reg [] 0) [] 0 [] [] None removed).
Qed.

End EventsSample.

Lemma daemon_calls_justified_witness :
  LockSession "s1" ∈ ds_calls EventsSample.locked ∧
  ∃ a, justified StateSample.cfg EventsSample.history a ∧
    handle_action (UT := StateSample.uuid_text) a = Ok (LockSession "s1").
Proof.
  assert (LockSession "s1" ∈ ds_calls EventsSample.locked) as Hin by left. split; [exact Hin|].
  destruct (daemon_calls_justified (UT := StateSample.uuid_text) (CP := StateSample.crate) StateSample.cfg
    EventsSample.reg [] 0 EventsSample.history EventsSample.locked (LockSession "s1")
    EventsSample.locked_reached Hin) as (a & serial & ps & Hj & Hh & _). exists a. split; assumption.
Defined.

(** *** The runner *)

(** A world that records what is asked of logind and which hooks are run,
    whether the calls succeed or not. *)
Record asks {W} {CM : Commands W} (calls : W → list LogindCall) (actions : LogindActionsTrait W) : Prop := {
  as_lock : ∀ id w, calls (lock_session actions id w).1 = calls w ++ [LockSession id];
  as_terminate : ∀ id w, calls (terminate_session actions id w).1 = calls w ++ [TerminateSession id];
  as_power_off : ∀ w, calls (power_off actions w).1 = calls w ++ [PowerOff];
  as_hook : ∀ path env w, calls (command_status path env w).1 = calls w ++ [RunHook path env];
}.

Lemma action_handle_calls {W} {UT : UuidText} {CM : Commands W} calls (actions : LogindActionsTrait W) req w :
  asks calls actions →
  calls (action_handle actions req w).1 = calls w ++ option_list (calls_of req).
Proof.
  intros Ha. unfold action_handle, calls_of, handle_action.
  destruct (ar_action req) as [| |path|].
  - rewrite fbind_eq. destruct (logind_id _) as [id|]; cbn; [apply Ha|by rewrite app_nil_r].
  - rewrite fbind_eq. destruct (logind_id _) as [id|]; cbn; [apply Ha|by rewrite app_nil_r].
  - cbn. rewrite <-(as_hook _ _ Ha). unfold run_hook. rewrite fbind_eq. unfold io_map_err, call.
    destruct (command_status _ _ _) as [w1 [e|[[] text]]]; done.
  - cbn. apply Ha.
Qed.

(** The runner asks for exactly what the manager requested, in order: a request
    without a logind session is skipped, and one that fails, for whatever
    reason, does not keep the next ones from being handled. *)
Theorem runner_asks_in_order {W} {UT : UuidText} {CM : Commands W} calls (actions : LogindActionsTrait W) reqs w
    (Ha : asks calls actions) :
  calls (run_actions actions reqs w) = calls w ++ omap calls_of reqs.
Proof.
  revert w. induction reqs as [|req reqs IH]; intros w; [by rewrite app_nil_r|].
  cbn [run_actions omap list_omap]. rewrite IH, (action_handle_calls calls) by done.
  rewrite <-app_assoc. by destruct (calls_of req).
Qed.

(** *** Serials *)

Lemma from_utf8_Some bs s : from_utf8 bs = Some s → bs = bytes_of s.
Proof. unfold from_utf8. destruct (utf8_valid bs); [|done]. intros [= <-]. by rewrite bytes_of_text_of. Qed.

Lemma from_utf8_bytes_of s : utf8_valid (bytes_of s) = true → from_utf8 (bytes_of s) = Some s.
Proof. unfold from_utf8. intros ->. by rewrite text_of_bytes_of. Qed.

Lemma props_of_sound ps k s :
  props_of ps !! k = Some s → ∃ v, (bytes_of k, v) ∈ ps ∧ from_utf8 v = Some s.
Proof.
  unfold props_of. induction ps as [|[k' v'] ps IH] using rev_ind; [done|]. rewrite foldl_snoc. cbn [fst snd].
  assert (∀ x : option string, x = Some s → (x = Some s → ∃ v, (bytes_of k, v) ∈ ps ∧ from_utf8 v = Some s) →
    ∃ v, (bytes_of k, v) ∈ ps ++ [(k', v')] ∧ from_utf8 v = Some s) as Hold.
  { intros x Hx Hi. destruct (Hi Hx) as (v & Hv & Hu). exists v. split; [apply elem_of_app; by left|done]. }
  destruct (from_utf8 k') as [k''|] eqn:Hk; [|by intros H; eapply Hold].
  destruct (from_utf8 v') as [v''|] eqn:Hv; [|by intros H; eapply Hold].
  intros [[-> ->]|[Hne H]]%lookup_insert_Some; [|by eapply Hold].
  apply from_utf8_Some in Hk as ->. exists v'. split; [|done]. apply elem_of_app. right. by left.
Qed.

Lemma props_of_complete ps k v :
  utf8_valid (bytes_of k) = true → (bytes_of k, v) ∈ ps → utf8_valid v = true → is_Some (props_of ps !! k).
Proof.
  unfold props_of. intros Hk Hin Hv. induction ps as [|[k' v'] ps IH] using rev_ind.
  { by apply not_elem_of_nil in Hin. }
  rewrite foldl_snoc. cbn [fst snd]. apply elem_of_app in Hin as [Hin|Hin%list_elem_of_singleton].
  - repeat case_match; [|by apply IH..]. apply lookup_insert_is_Some'. right. by apply IH.
  - injection Hin as <- <-. rewrite (from_utf8_bytes_of _ Hk). unfold from_utf8. rewrite Hv.
    by rewrite lookup_insert_eq.
Qed.

(** The map has the property of the device, when it is text. *)
Lemma props_of_lookup ps k (o : option (list byte)) :
  utf8_valid (bytes_of k) = true → (∀ v, (bytes_of k, v) ∈ ps ↔ o = Some v) → props_of ps !! k = o ≫= from_utf8.
Proof.
  intros Hk Ho. destruct (props_of ps !! k) as [s|] eqn:Hl.
  - apply props_of_sound in Hl as (v & Hv & Hs). apply Ho in Hv as ->. cbn. by rewrite Hs.
  - destruct o as [v|]; [|done]. cbn. unfold from_utf8. destruct (utf8_valid v) eqn:Hv; [|done].
    destruct (props_of_complete ps k v Hk) as [s Hs]; [by apply Ho|done|]. congruence.
Qed.

(** The property of the device is text, or not there. *)
Definition is_text {W} {UD : Udev W} (d : UDevice) (key : string) : Prop :=
  ∀ v, udev_property d key = Some v → utf8_valid v = true.

Lemma property_text_eq {W} {UD : Udev W} (d : UDevice) key :
  is_text d key → property_text d key = udev_property d key ≫= from_utf8.
Proof.
  intros Ht. unfold property_text. destruct (udev_property d key) as [v|] eqn:Hv; [|done]. cbn.
  destruct (from_utf8 v) as [s|] eqn:Hs; [f_equal; by apply from_utf8_lossy_valid|].
  unfold from_utf8 in Hs. by rewrite (Ht v Hv) in Hs.
Qed.

Lemma devices_from_serial {W} {UD : Udev W} (d : UDevice) filter max w w' devs dev :
  devices_from d filter max w = (w', Ok devs) → dev ∈ devs →
  dev_serial dev = match property_text d "ID_SERIAL_SHORT" with
                   | Some s => Some s
                   | None => property_text d "ID_SERIAL"
                   end.
Proof.
  unfold devices_from. intros H Hin. destruct (udev_devnode d) as [node|]; [|injection H as <- <-; by apply not_elem_of_nil in Hin].
  peel H w1 vid Hvid. peel H w2 pid Hpid. destruct (match filter with Some _ => _ | None => _ end);
    [injection H as <- <-; by apply not_elem_of_nil in Hin|].
  destruct (nonempty _) as [fs|]; [injection H as <- <-; by apply list_elem_of_singleton in Hin as ->|].
  destruct (negb (is_whole_disk d)); [injection H as <- <-; by apply not_elem_of_nil in Hin|].
  peel H w3 cs Hcs. destruct cs as [cs|]; [|injection H as <- <-; by apply not_elem_of_nil in Hin].
  case_decide; [done|]. injection H as <- <-. apply list_elem_of_fmap in Hin as (p & -> & _). done.
Qed.

(** C31: The module and the daemon agree on the device, where both serial
    properties of the stick are UTF-8 and the event carries the stick's serial
    properties: the serial the module finds for it, and registers the session
    with, is one the presence query of the daemon recognises the stick by, and it
    is the serial of the event the daemon gets when the stick goes.  (A serial
    that is not UTF-8 the module reads with replacement characters and the
    daemon not at all.) *)
Theorem serials_agree {W} {UD : Udev W} (d : UDevice) filter max w w' devs dev serial ps u
    (Hfound : devices_from d filter max w = (w', Ok devs)) (Hdev : dev ∈ devs)
    (Hserial : dev_serial dev = Some serial)
    (Htext : is_text d "ID_SERIAL_SHORT" ∧ is_text d "ID_SERIAL")
    (Hsame : ∀ k v, k ∈ ["ID_SERIAL_SHORT"; "ID_SERIAL"] →
       (bytes_of k, v) ∈ ps ↔ udev_property d k = Some v)
    (Hevent : monitor_event ps = Some u) :
  matches_serial d serial = true ∧ ue_serial u = Some serial.
Proof.
  destruct Htext as [Ht1 Ht2]. pose proof (devices_from_serial _ _ _ _ _ _ _ Hfound Hdev) as Hs.
  rewrite Hserial, (property_text_eq d _ Ht1), (property_text_eq d _ Ht2) in Hs. split.
  - unfold matches_serial. cbn [existsb].
    destruct (udev_property d "ID_SERIAL_SHORT" ≫= from_utf8) as [s|] eqn:H1; rewrite <-Hs.
    + apply orb_true_iff. left. by apply bool_decide_eq_true_2.
    + apply orb_true_iff. right. apply orb_true_iff. left. by apply bool_decide_eq_true_2.
  - unfold monitor_event, parse_udev_fields in Hevent. destruct (is_dropped _); [done|]. injection Hevent as <-. cbn [ue_serial].
    rewrite (props_of_lookup ps "ID_SERIAL_SHORT" (udev_property d "ID_SERIAL_SHORT")) by
      (done || (intros v; apply Hsame; left)).
    rewrite (props_of_lookup ps "ID_SERIAL" (udev_property d "ID_SERIAL")) by
      (done || (intros v; apply Hsame; right; left)).
    done.
Qed.

(** *** The thread *)

(** A world that records the devices drained from the socket and the events
    sent, with a receiver that stays. *)
Record watched {W} {UD : Udev W} {TK : UdevTask W} {CLK : Clock W} (seen : W → list UDevice)
    (sent : W → list UdevEvent) : Prop := {
  wt_send : ∀ ev w, (udev_tx_send ev w).2 = true ∧ sent (udev_tx_send ev w).1 = sent w ++ [ev] ∧
                    seen (udev_tx_send ev w).1 = seen w;
  wt_drain : ∀ mon w, seen (monitor_drain mon w).1 = seen w ++ (monitor_drain mon w).2.*2 ∧
                      sent (monitor_drain mon w).1 = sent w;
  wt_stop : ∀ w, seen (shutdown_cancelled w).1 = seen w ∧ sent (shutdown_cancelled w).1 = sent w;
  wt_listen : ∀ s w, seen (monitor_listen s w).1 = seen w ∧ sent (monitor_listen s w).1 = sent w;
  wt_poll : ∀ mon ms w, seen (monitor_poll mon ms w).1 = seen w ∧ sent (monitor_poll mon ms w).1 = sent w;
  wt_sleep : ∀ ns w, seen (sleep ns w) = seen w ∧ sent (sleep ns w) = sent w;
}.

Section thread.
Context {W : Type} {UD : Udev W} {UP : UdevProps W} {TK : UdevTask W} {CLK : Clock W}.
Context (seen : W → list UDevice) (sent : W → list UdevEvent) (Hw : watched seen sent).

Abbreviation kept := (omap (λ d, monitor_event (udev_properties d))).

(** What was drained in between, and nothing else, was sent. *)
Definition forwarded (w w' : W) : Prop :=
  ∃ new, seen w' = seen w ++ new ∧ sent w' = sent w ++ kept new.

Lemma forwarded_same w w' : seen w' = seen w ∧ sent w' = sent w → forwarded w w'.
Proof. intros [H1 H2]. exists []. by rewrite H1, H2, !app_nil_r. Qed.

Lemma forwarded_trans w1 w2 w3 : forwarded w1 w2 → forwarded w2 w3 → forwarded w1 w3.
Proof.
  intros (n1 & H1 & S1) (n2 & H2 & S2). exists (n1 ++ n2).
  by rewrite H2, H1, S2, S1, omap_app, !app_assoc.
Qed.

Lemma forward_events_sent ds w :
  (forward_events ds w).2 = true ∧ seen (forward_events ds w).1 = seen w ∧
  sent (forward_events ds w).1 = sent w ++ kept ds.
Proof.
  revert w. induction ds as [|d ds IH]; intros w; [by rewrite app_nil_r|]. cbn [forward_events omap list_omap].
  destruct (monitor_event (udev_properties d)) as [ev|]; [|apply IH].
  destruct (wt_send _ _ Hw ev w) as (Ha & Hs & Hn). destruct (udev_tx_send ev w) as [w1 alive].
  cbn [fst snd] in *. subst alive. destruct (IH w1) as (H1 & H2 & H3). rewrite H2, H3, Hs, <-app_assoc. done.
Qed.

Lemma udev_loop_forwards fuel mon w : forwarded w (udev_loop fuel mon w).1.
Proof.
  revert w. induction fuel as [|f IH]; intros w; [by apply forwarded_same|]. cbn [udev_loop].
  rewrite fbind_eq. unfold ask at 1. pose proof (wt_stop _ _ Hw w) as H1.
  destruct (shutdown_cancelled w) as [w1 stop]. apply forwarded_same in H1.
  destruct stop; [done|]. eapply forwarded_trans; [exact H1|]. clear H1 w.
  rewrite fbind_eq. unfold io_map_err, call. pose proof (wt_poll _ _ Hw mon POLL_MILLIS w1) as H2.
  destruct (monitor_poll mon POLL_MILLIS w1) as [w2 [e|n]]; cbn [of_sum map_err]; apply forwarded_same in H2; [done|].
  eapply forwarded_trans; [exact H2|]. clear H2 w1. case_decide; [apply IH|].
  rewrite fbind_eq. unfold ask at 1. destruct (wt_drain _ _ Hw mon w2) as [H3 H4].
  destruct (monitor_drain mon w2) as [w3 events]. cbn [fst snd] in *.
  rewrite fbind_eq. unfold ask at 1. destruct (forward_events_sent events.*2 w3) as (H5 & H6 & H7).
  destruct (forward_events events.*2 w3) as [w4 alive]. cbn [fst snd] in *. subst alive.
  eapply forwarded_trans; [|apply IH]. exists events.*2. split; congruence.
Qed.

Lemma run_monitor_forwards fuel w : forwarded w (run_monitor fuel w).1.
Proof.
  unfold run_monitor. rewrite fbind_eq. unfold io_map_err, call.
  pose proof (wt_listen _ _ Hw "block" w) as H1. destruct (monitor_listen "block" w) as [w1 [e|mon]];
    cbn [of_sum map_err]; apply forwarded_same in H1; [done|].
  eapply forwarded_trans; [exact H1|apply udev_loop_forwards].
Qed.

Lemma thread_forwards fuel w : forwarded w (udev_thread fuel w).1.
Proof.
  revert w. induction fuel as [|f IH]; intros w; [by apply forwarded_same|]. cbn [udev_thread].
  pose proof (wt_stop _ _ Hw w) as H1. destruct (shutdown_cancelled w) as [w1 stop].
  apply forwarded_same in H1. destruct stop; [done|]. eapply forwarded_trans; [exact H1|].
  pose proof (run_monitor_forwards (S f) w1) as H2. destruct (run_monitor (S f) w1) as [w2 [[]|e|]]; try done.
  - eapply forwarded_trans; [exact H2|apply IH].
  - eapply forwarded_trans; [exact H2|]. eapply forwarded_trans; [apply forwarded_same, (wt_sleep _ _ Hw)|apply IH].
Qed.

End thread.

(** The thread loses no event it drained: however long it runs and however
    often its socket fails, what it sends is exactly, and in order, the events
    of the devices it drained, without the other block devices that came or
    went. *)
Theorem udev_thread_forwards {W} {UD : Udev W} {UP : UdevProps W} {TK : UdevTask W} {CLK : Clock W}
    (seen : W → list UDevice) (sent : W → list UdevEvent) fuel w (Hw : watched seen sent) :
  ∃ new, seen (udev_thread fuel w).1 = seen w ++ new ∧
    sent (udev_thread fuel w).1 = sent w ++ omap (λ d, monitor_event (udev_properties d)) new.
Proof. by apply thread_forwards. Qed.

Module RunnerSample.

(** Every call is recorded and fails. *)
Definition refuse (c : LogindCall) : io (list LogindCall) string unit := λ w, (w ++ [c], Err "refused").

#[export] Instance commands : Commands (list LogindCall) := λ path env w,
  (w ++ [RunHook path env], inl (MkIoError KindNotFound "not found")).

Definition actions : LogindActionsTrait (list LogindCall) :=
  MkActions (λ id, refuse (LockSession id)) (λ id, refuse (TerminateSession id)) (refuse PowerOff).

Lemma recorded : asks id actions.
Proof. by split. Qed.

Definition reqs : list ActionRequest :=
  [HandleUsbRemoved EventsSample.session Lock; HandleUsbRemoved StateSample.session Logout;
   HandleUsbRemoved EventsSample.session Shutdown].

(** A stick, and a thread that sees its removal once and is then stopped. *)
Definition stick : UsbSample.udevice :=
  UsbSample.MkUdevice (Some "/dev/sdb1")
    [("ID_VENDOR_ID", "1234"); ("ID_MODEL_ID", "abcd"); ("ID_SERIAL_SHORT", "usb1"); ("ID_FS_TYPE", "vfat")]
    "sdb1" "sdb".

Definition plugged : UsbSample.machine := UsbSample.MkMachine [stick] [] [] 0.

Record watch := MkWatch {
  wa_pending : list (list (list byte * list byte));
  wa_seen : list (list (list byte * list byte));
  wa_sent : list UdevEvent;
}.

#[export] Instance watch_udev : Udev watch := {|
  UDevice := list (list byte * list byte);
  Monitor := unit;
  udev_devnode _ := None;
  udev_property _ _ := None;
  udev_sysname _ := [];
  udev_scan _ w := (w, inr []);
  monitor_listen _ w := (w, inr tt);
  monitor_drain _ w := (MkWatch [] (wa_seen w ++ wa_pending w) (wa_sent w), (λ p, (false, p)) <$> wa_pending w);
  monitor_poll _ _ w := (w, inr 1);
|}.

#[export] Instance watch_props : UdevProps watch := λ d, d.

#[export] Instance watch_task : UdevTask watch := {|
  shutdown_cancelled w := (w, bool_decide (wa_pending w = []));
  udev_tx_send ev w := (MkWatch (wa_pending w) (wa_seen w) (wa_sent w ++ [ev]), true);
|}.

#[export] Instance watch_clock : Clock watch := {| instant_now w := (w, 0); sleep _ w := w |}.

Lemma watch_watched : watched wa_seen wa_sent.
Proof.
  split; try done. intros mon w. cbn. split; [|done]. f_equal.
  rewrite <-list_fmap_compose. symmetry. apply list_fmap_id.
Qed.

(** The stick goes, and a disk that is not on the USB bus with it. *)
Definition start : watch :=
  MkWatch [EventsSample.removed; [EventsSample.prop "ACTION" "remove"]] [] [].

Definition stopped : watch * bool := udev_thread 3 start.

End RunnerSample.

Lemma runner_asks_in_order_witness :
  run_actions (UT := StateSample.uuid_text) (CM := RunnerSample.commands) RunnerSample.actions
    RunnerSample.reqs [] = [LockSession "s1"; PowerOff].
Proof.
  etransitivity; [exact (runner_asks_in_order (UT := StateSample.uuid_text) id RunnerSample.actions
    RunnerSample.reqs [] RunnerSample.recorded)|reflexivity].
Defined.

Lemma serials_agree_witness :
  matches_serial (UD := UsbSample.udev) RunnerSample.stick "usb1" = true ∧
  ue_serial EventsSample.moved = Some "usb1".
Proof.
  apply (serials_agree (UD := UsbSample.udev) RunnerSample.stick None 16 RunnerSample.plugged RunnerSample.plugged
    [MkUsbDevice "/dev/sdb1" (Some "usb1") 0x1234 0xabcd (Some "vfat")]
    (MkUsbDevice "/dev/sdb1" (Some "usb1") 0x1234 0xabcd (Some "vfat")) "usb1" EventsSample.removed).
  - vm_compute. reflexivity.
  - by left.
  - reflexivity.
  - split; intros v Hv; vm_compute in Hv; [|discriminate Hv]. injection Hv as <-. reflexivity.
  - intros k v Hk. repeat (apply elem_of_cons in Hk as [->|Hk]); [| |by apply not_elem_of_nil in Hk].
    + cbn. split; [|intros [= <-]; right; right; left].
      intros Hin. repeat (apply elem_of_cons in Hin as [E|Hin]; [injection E; intros; subst; try done|]);
        by apply not_elem_of_nil in Hin.
    + cbn. split; [|done].
      intros Hin. repeat (apply elem_of_cons in Hin as [E|Hin]; [injection E; intros; subst; try done|]);
        by apply not_elem_of_nil in Hin.
  - vm_compute. reflexivity.
Defined.

Lemma udev_thread_forwards_witness :
  RunnerSample.stopped.2 = true ∧ RunnerSample.wa_sent RunnerSample.stopped.1 = [EventsSample.moved].
Proof.
  split; [vm_compute; reflexivity|].
  destruct (udev_thread_forwards (W := RunnerSample.watch) (UD := RunnerSample.watch_udev)
    (UP := RunnerSample.watch_props) (TK := RunnerSample.watch_task) (CLK := RunnerSample.watch_clock)
    RunnerSample.wa_seen RunnerSample.wa_sent 3
    RunnerSample.start RunnerSample.watch_watched) as (new & Hseen & Hsent).
  etransitivity; [exact Hsent|]. vm_compute in Hseen. rewrite <-Hseen. vm_compute. reflexivity.
Defined.
