(* ===== verification/HostIdentity.v ===== *)
(** * Host identity ([host_identity/*.rs], [lib.rs])

    The sources of the host identifier, the chain that takes the first one
    that works, and [resolve_host_identity].  File sources read through [Fs];
    the custom command runs through the class [Processes]; the clock makes its
    poll loop finite.  [char::to_lowercase] beyond ASCII is a
    table of the Unicode data, taken from the class [UnicodeTables]. *)

From Stdlib Require Import Ascii.
From S2P Require Import Prelude Text Sys Openssl Sample X509Ext Certificate HostBinding Hooks.
From S2P Require Import RawConfig Config.
Local Open Scope Z_scope.

(** ** Errors *)

(** The variants of [HostIdentityError] a source answers with. *)
Inductive FetchError : Type :=
| FetchRead (path : string) (source : IoError)
| FetchEmpty (source_kind : HostIdSourceKind)
| CommandFailed (stderr : string) (code : option Z)
| CommandTimeout.

(** What an attempt records: [None] is the text [empty after normalization],
    [Some e] the text of the error. *)
Definition Attempt : Type := HostIdSourceKind * option FetchError.

(** The variant the chain adds. *)
Inductive HostIdentityError : Type :=
| AllSourcesFailed (attempts : list Attempt).

(** ** Normalization *)

(** The lower case of one character that is not ASCII, as UTF-8. *)
Class UnicodeTables := lower_char : list byte → list byte.

(** [flat_map(char::to_lowercase)] on UTF-8 text. *)
Fixpoint lower_fuel `{UnicodeTables} (fuel : nat) (bs : list byte) : list byte :=
  match fuel, bs with
  | S f, b :: r =>
      if in_range 0x00 0x7F b then byte_lower b :: lower_fuel f r
      else let n := (utf8_chunk bs).1 in lower_char (take n bs) ++ lower_fuel f (drop n bs)
  | _, _ => []
  end.

Definition kept (b : byte) : bool := negb (bool_decide (b = zb 0x3A) || bool_decide (b = zb 0x20)).

Definition normalize_host_id `{UnicodeTables} (input : string) : string :=
  let bs := List.filter kept (bytes_of (str_trim input)) in
  text_of (lower_fuel (length bs) bs).

(** ** Sources *)

Inductive HostIdSource : Type :=
| MachineIdSource
| DmiBoardSerialSource
| DmiSystemUuidSource
| DmiSystemSerialSource
| HostnameSource
| CustomCommandSource (cmd : string) (timeout : Z).

Definition source_kind (s : HostIdSource) : HostIdSourceKind :=
  match s with
  | MachineIdSource => MachineId
  | DmiBoardSerialSource => DmiBoardSerial
  | DmiSystemUuidSource => DmiSystemUuid
  | DmiSystemSerialSource => DmiSystemSerial
  | HostnameSource => Hostname
  | CustomCommandSource _ _ => CustomCommand
  end.

(** [std::process::ExitStatus]: the exit code, [None] when a signal ended the
    process. *)
Definition status_success (code : option Z) : bool := bool_decide (code = Some 0).

(** [std::process]. *)
Class Processes (W : Type) := {
  Child : Type;
  spawn : string → W → W * (IoError + Child);
  try_wait : Child → W → W * (IoError + option (option Z));
  (** [kill] then [wait]; their errors are ignored. *)
  kill_and_wait : Child → W → W;
  (** What a reader thread collected, once it is joined. *)
  join_stdout : Child → W → W * list byte;
  join_stderr : Child → W → W * list byte;
}.

Definition POLL_INTERVAL : Z := 50 * NANOS_PER_MILLI.

(** Polls that are enough for a clock that [sleep] moves. *)
Definition poll_fuel (timeout : Z) : nat := Z.to_nat (timeout / POLL_INTERVAL) + 2.

Section sources.
Context {W : Type} {FS : Fs W} {CLK : Clock W} {PR : Processes W}.

(** Both [join]s of the timeout branch. *)
Definition reap (c : Child) (w : W) : W :=
  (join_stderr c (join_stdout c (kill_and_wait c w)).1).1.

(** The poll loop of [CustomCommandSource::fetch]. *)
Fixpoint wait_loop (fuel : nat) (cmd : string) (c : Child) (deadline : Z)
    : io W FetchError (option Z) :=
  match fuel with
  | O => lift Panic
  | S f => λ w,
      match try_wait c w with
      | (w1, inr (Some status)) => (w1, Ok status)
      | (w1, inr None) =>
          let (w2, now) := instant_now w1 in
          if decide (deadline ≤ now) then (reap c w2, Err CommandTimeout)
          else wait_loop f cmd c deadline (sleep POLL_INTERVAL w2)
      | (w1, inl e) => (kill_and_wait c w1, Err (FetchRead cmd e))
      end
  end.

Definition custom_command_fetch (cmd : string) (timeout : Z) : io W FetchError string :=
  let! child := io_map_err (FetchRead cmd) (call (spawn cmd)) in
  let! now := ask instant_now in
  let! status := wait_loop (poll_fuel timeout) cmd child (now + timeout) in
  let! out := ask (join_stdout child) in
  let! err := ask (join_stderr child) in
  if status_success status then fret (str_trim (from_utf8_lossy out))
  else lift (Err (CommandFailed (str_trim (from_utf8_lossy err)) status)).

Definition read_source (path : string) : io W FetchError string :=
  io_map_err (FetchRead path) (read_to_string path).

(** The [dmi_source!] sources and the host name refuse an empty value. *)
Definition nonempty_source (kind : HostIdSourceKind) (path : string)
    : io W FetchError string :=
  let! raw := read_source path in
  let value := str_trim raw in
  lift (if decide (value = "") then Err (FetchEmpty kind) else Ok value).

Definition dmi_fetch (kind : HostIdSourceKind) (file fs_root : string)
    : io W FetchError string :=
  nonempty_source kind (path_join (path_join fs_root "sys/class/dmi/id") file).

Definition hostname_fetch (fs_root : string) : io W FetchError string :=
  nonempty_source Hostname (path_join fs_root "etc/hostname").

Definition machine_id_fetch (fs_root : string) : io W FetchError string :=
  let! raw := read_source (path_join fs_root "etc/machine-id") in fret (str_trim raw).

Definition fetch (s : HostIdSource) (fs_root : string) : io W FetchError string :=
  match s with
  | MachineIdSource => machine_id_fetch fs_root
  | DmiBoardSerialSource => dmi_fetch DmiBoardSerial "board_serial" fs_root
  | DmiSystemUuidSource => dmi_fetch DmiSystemUuid "product_uuid" fs_root
  | DmiSystemSerialSource => dmi_fetch DmiSystemSerial "product_serial" fs_root
  | HostnameSource => hostname_fetch fs_root
  | CustomCommandSource cmd timeout => custom_command_fetch cmd timeout
  end.

End sources.

(** ** The chain *)

Record ResolvedHostId := MkResolved {
  ri_source_kind : HostIdSourceKind;
  ri_raw : string;
  ri_normalized : string;
  ri_hash_hex : string;
}.

Definition hash_prefix {E} (r : ResolvedHostId) : res E string :=
  str_to (ri_hash_hex r) (Z.min (str_len (ri_hash_hex r)) 8).

Record ProbeResult := MkProbe {
  pr_source : HostIdSourceKind;
  pr_outcome : option FetchError + ResolvedHostId;
}.

Record HostIdentityResolver := MkResolver {
  hr_sources : list HostIdSource;
  hr_fallback : HostIdFallback;
  hr_fs_root : string;
}.

Definition source_of (cfg : HostIdentitySection) (kind : HostIdSourceKind) : list HostIdSource :=
  match kind with
  | MachineId => [MachineIdSource]
  | DmiBoardSerial => [DmiBoardSerialSource]
  | DmiSystemUuid => [DmiSystemUuidSource]
  | DmiSystemSerial => [DmiSystemSerialSource]
  | Hostname => [HostnameSource]
  | CustomCommand =>
      match hi_custom_command cfg with
      | Some cmd => [CustomCommandSource cmd (hi_custom_command_timeout cfg)]
      | None => []
      end
  | Override => []
  end.

Definition from_validated (cfg : HostIdentitySection) (fs_root : string) : HostIdentityResolver :=
  MkResolver (flat_map (source_of cfg) (hi_sources cfg)) (hi_fallback cfg) fs_root.

Section chain.
Context {W : Type} {FS : Fs W} {CLK : Clock W} {PR : Processes W} {UT : UnicodeTables} {SHA : Sha256}.

Definition resolved (kind : HostIdSourceKind) (raw normalized : string) : ResolvedHostId :=
  MkResolved kind raw normalized (sha256_hex normalized).

(** One source: the identifier, or why there is none. *)
Definition probe_source (fs_root : string) (s : HostIdSource)
    : io W HostIdentityError (option FetchError + ResolvedHostId) := λ w,
  match fetch s fs_root w with
  | (w', Ok raw) =>
      let normalized := normalize_host_id raw in
      (w', Ok (if decide (normalized = "") then inl None
               else inr (resolved (source_kind s) raw normalized)))
  | (w', Err e) => (w', Ok (inl (Some e)))
  | (w', Panic) => (w', Panic)
  end.

Definition probe_all (r : HostIdentityResolver) : io W HostIdentityError (list ProbeResult) :=
  io_map (λ s, let! o := probe_source (hr_fs_root r) s in fret (MkProbe (source_kind s) o))
    (hr_sources r).

(** What [resolve] answers when no source worked. *)
Definition fallback_host_id (f : HostIdFallback) (attempts : list Attempt)
    : res HostIdentityError ResolvedHostId :=
  match f with
  | FallbackDeny => Err (AllSourcesFailed attempts)
  | FallbackWarn | FallbackAllow => Ok (resolved Override "unknown" "unknown")
  end.

Fixpoint resolve_loop (fs_root : string) (f : HostIdFallback) (attempts : list Attempt)
    (sources : list HostIdSource) : io W HostIdentityError ResolvedHostId :=
  match sources with
  | [] => lift (fallback_host_id f attempts)
  | s :: rest =>
      let! o := probe_source fs_root s in
      match o with
      | inr r => fret r
      | inl why => resolve_loop fs_root f (attempts ++ [(source_kind s, why)]) rest
      end
  end.

Definition resolve (r : HostIdentityResolver) : io W HostIdentityError ResolvedHostId :=
  resolve_loop (hr_fs_root r) (hr_fallback r) [] (hr_sources r).

Definition hash_tuple (kind : HostIdSourceKind) (raw : string)
    : HostIdSourceKind * string * string :=
  (kind, raw, sha256_hex (normalize_host_id raw)).

(** The part of [resolve_host_identity] below the override.  The prefixes that
    are only logged are computed, since cutting them may panic. *)
Definition resolve_by_chain (cfg : HostIdentitySection)
    : io W HostIdentityError (HostIdSourceKind * string * string) :=
  let chain := from_validated cfg "/" in
  let! probes := probe_all chain in
  do! io_each (λ p, match pr_outcome p with
                    | inr r => let! _ := lift (hash_prefix r) in fret tt
                    | inl _ => fret tt
                    end) probes;
  let! id := resolve chain in
  let! _ := lift (hash_prefix id) in
  fret (ri_source_kind id, ri_raw id, ri_hash_hex id).

Definition resolve_host_identity (cfg : HostIdentitySection)
    : io W HostIdentityError (HostIdSourceKind * string * string) :=
  if decide (Override ∈ hi_sources cfg) then
    match hi_override_value cfg with
    | Some raw => fret (hash_tuple Override raw)
    | None => resolve_by_chain cfg
    end
  else resolve_by_chain cfg.

End chain.

(** ** Specifications *)

Section spec.
Context {W : Type} {FS : Fs W} {CLK : Clock W} {PR : Processes W} {UT : UnicodeTables} {SHA : Sha256}.

(** A source that gave nothing, at some moment. *)
Definition source_failed (fs_root : string) (s : HostIdSource) : Prop :=
  ∃ w w' why, probe_source fs_root s w = (w', Ok (inl why)).

(** A source that gave the identifier, at some moment. *)
Definition source_gave (fs_root : string) (s : HostIdSource) (id : ResolvedHostId) : Prop :=
  ∃ w w' raw, fetch s fs_root w = (w', Ok raw) ∧ normalize_host_id raw ≠ "" ∧
    id = resolved (source_kind s) raw (normalize_host_id raw).

(** Looking at the source leaves the world as it is, and does not unwind. *)
Definition source_stable (fs_root : string) (w : W) (s : HostIdSource) : Prop :=
  (fetch s fs_root w).1 = w ∧ no_panic (fetch s fs_root w).2.

(** The choice [resolve] makes, as a function of the probes. *)
Fixpoint pick (f : HostIdFallback) (attempts : list Attempt) (probes : list ProbeResult)
    : res HostIdentityError ResolvedHostId :=
  match probes with
  | [] => fallback_host_id f attempts
  | p :: rest =>
      match pr_outcome p with
      | inr r => Ok r
      | inl why => pick f (attempts ++ [(pr_source p, why)]) rest
      end
  end.

(** Time passes, and a [sleep] lasts at least as long as it is told. *)
Record clock_runs : Prop := {
  clock_now : ∀ w, clock w ≤ clock (instant_now w).1;
  clock_wait : ∀ c w, clock w ≤ clock (try_wait c w).1;
  clock_sleep : ∀ d w, clock w + d ≤ clock (sleep d w);
}.

End spec.

(** ** A sample host *)

Module HostSample.

Import ConfigSample.

(** Characters beyond ASCII stay as they are. *)
#[export] Instance unicode : UnicodeTables := λ c, c.

(** A clock over the files; every command prints one line and ends. *)
Definition host : Type := files * Z.

#[export] Instance host_fs : Fs host := {|
  fs_read path w := (w, lookup_file path w.1);
  fs_metadata path w := (w, (fs_metadata path w.1).2);
|}.

#[export] Instance host_clock : Clock host := {|
  instant_now w := (w, w.2);
  sleep d w := (w.1, w.2 + d);
|}.

#[export] Instance processes : Processes host := {|
  Child := string;
  spawn cmd w := (w, inr cmd);
  try_wait _ w := (w, if decide (0 < w.2) then inr (Some (Some 0)) else inr None);
  kill_and_wait _ w := w;
  join_stdout _ w := (w, bytes_of "atm-7");
  join_stderr _ w := (w, []);
|}.

End HostSample.

(** ** The chain *)

Section chain_proofs.
Context {W : Type} {FS : Fs W} {CLK : Clock W} {PR : Processes W} {UT : UnicodeTables} {SHA : Sha256}.

Lemma probe_source_inr fs_root s w w' id :
  probe_source fs_root s w = (w', Ok (inr id)) → source_gave fs_root s id.
Proof.
  unfold probe_source. destruct (fetch s fs_root w) as [w1 [raw|e|]] eqn:Hf; [|done..].
  case_decide as Hn; [done|]. intros [= <- <-]. by exists w, w1, raw.
Qed.

Lemma resolve_loop_Ok fs_root f attempts sources w w' id :
  resolve_loop fs_root f attempts sources w = (w', Ok id) →
  (∃ pre s post, sources = pre ++ s :: post ∧ Forall (source_failed fs_root) pre ∧
     source_gave fs_root s id) ∨
  (Forall (source_failed fs_root) sources ∧ f ≠ FallbackDeny ∧
   id = resolved Override "unknown" "unknown").
Proof.
  revert attempts w. induction sources as [|s rest IH]; intros attempts w H; cbn [resolve_loop] in H.
  - right. apply lift_Ok_inv in H as [_ H]. unfold fallback_host_id in H.
    destruct f; [done|..]; injection H as <-; done.
  - peel H w1 o Ho. destruct o as [why|r].
    + apply IH in H as [(pre & s' & post & -> & Hp & Hg)|(Hall & Hf & ->)].
      * left. exists (s :: pre), s', post. split; [done|]. split; [|done].
        constructor; [by exists w, w1, why|done].
      * right. split; [constructor; [by exists w, w1, why|done]|done].
    + injection H as <- <-. left. exists [], s, rest. split; [done|]. split; [constructor|].
      by eapply probe_source_inr.
Qed.

Lemma resolve_loop_Err fs_root f attempts sources w w' e :
  resolve_loop fs_root f attempts sources w = (w', Err e) →
  f = FallbackDeny ∧ ∃ l, e = AllSourcesFailed (attempts ++ l) ∧ l.*1 = source_kind <$> sources.
Proof.
  revert attempts w. induction sources as [|s rest IH]; intros attempts w H; cbn [resolve_loop] in H.
  - injection H as _ H. unfold fallback_host_id in H. destruct f; [|done..]. injection H as <-.
    split; [done|]. exists []. by rewrite app_nil_r.
  - unfold fbind in H. destruct (probe_source fs_root s w) as [w1 [[why|r]|e1|]] eqn:Hp; [|done| |done].
    + apply IH in H as (Hf & l & -> & Hl). split; [done|]. exists ((source_kind s, why) :: l).
      by rewrite <-app_assoc, fmap_cons, Hl.
    + unfold probe_source in Hp. by destruct (fetch s fs_root w) as [w2 [?|?|]].
Qed.

End chain_proofs.

(** The resolver gives the identifier of the first configured source that
    works, with every earlier source having failed; without a working source it
    fails under [deny], naming every source in order, and answers the fixed
    identifier [unknown] under the other two fallbacks. *)
Theorem resolve_first_working {W} {FS : Fs W} {CLK : Clock W} {PR : Processes W} {UT : UnicodeTables}
    {SHA : Sha256} (r : HostIdentityResolver) (w : W) :
  match resolve r w with
  | (_, Ok id) =>
      (∃ pre s post, hr_sources r = pre ++ s :: post ∧
         Forall (source_failed (hr_fs_root r)) pre ∧ source_gave (hr_fs_root r) s id) ∨
      (Forall (source_failed (hr_fs_root r)) (hr_sources r) ∧ hr_fallback r ≠ FallbackDeny ∧
       id = resolved Override "unknown" "unknown")
  | (_, Err e) =>
      hr_fallback r = FallbackDeny ∧
      ∃ l, e = AllSourcesFailed l ∧ l.*1 = source_kind <$> hr_sources r
  | (_, Panic) => Exists (λ s, ∃ w1 w2, fetch s (hr_fs_root r) w1 = (w2, Panic)) (hr_sources r)
  end.
Proof.
  destruct (resolve r w) as [w' [id|e|]] eqn:H; unfold resolve in H.
  - by eapply resolve_loop_Ok.
  - by eapply resolve_loop_Err in H.
  - revert H. generalize (@nil Attempt). revert w. induction (hr_sources r) as [|s rest IH];
      intros w attempts H; cbn [resolve_loop] in H; [by destruct (hr_fallback r)|].
    unfold fbind, probe_source in H.
    destruct (fetch s (hr_fs_root r) w) as [w1 [raw|e|]] eqn:Hf.
    + case_decide; [right; by eapply IH|done].
    + right. by eapply IH.
    + left. by exists w, w1.
Qed.

(** Where looking at the sources changes nothing, [probe_all] and [resolve]
    agree: [resolve] answers what the probes in order determine. *)
Theorem probe_all_resolve_agree {W} {FS : Fs W} {CLK : Clock W} {PR : Processes W} {UT : UnicodeTables}
    {SHA : Sha256} (r : HostIdentityResolver) (w : W)
    (Hstable : Forall (source_stable (hr_fs_root r) w) (hr_sources r)) :
  ∃ probes, probe_all r w = (w, Ok probes) ∧ pr_source <$> probes = source_kind <$> hr_sources r ∧
    resolve r w = (w, pick (hr_fallback r) [] probes).
Proof.
  unfold probe_all, resolve. generalize (@nil Attempt).
  induction Hstable as [|s rest [Hw Hs] Hrest IH]; intros attempts.
  { exists []. split_and!; [done..|]. cbn. by destruct (hr_fallback r). }
  cbn [io_map resolve_loop]. unfold fbind, fret, probe_source.
  destruct (fetch s (hr_fs_root r) w) as [w1 [raw|e|]]; simpl in Hw, Hs; [| |done]; subst w1.
  - case_decide as Hn.
    + destruct (IH (attempts ++ [(source_kind s, None)])) as (probes & Hp & Hk & Hr).
      unfold probe_all, fbind, fret, probe_source in Hp. rewrite Hp.
      eexists. split_and!; [done|by rewrite fmap_cons, Hk|]. exact Hr.
    + destruct (IH attempts) as (probes & Hp & Hk & _).
      unfold probe_all, fbind, fret, probe_source in Hp. rewrite Hp.
      eexists. split_and!; [done|by rewrite fmap_cons, Hk|done].
  - destruct (IH (attempts ++ [(source_kind s, Some e)])) as (probes & Hp & Hk & Hr).
    unfold probe_all, fbind, fret, probe_source in Hp. rewrite Hp.
    eexists. split_and!; [done|by rewrite fmap_cons, Hk|]. exact Hr.
Qed.

Lemma probe_all_resolve_agree_witness :
  ∃ probes,
    probe_all (FS := HostSample.host_fs) (CLK := HostSample.host_clock)
    (PR := HostSample.processes) (UT := HostSample.unicode)
      (SHA := Sample.digest) (MkResolver [HostnameSource; MachineIdSource] FallbackDeny "/")
      (ConfigSample.disk, 0) = ((ConfigSample.disk, 0), Ok probes) ∧
    ∃ id, pick (SHA := Sample.digest) FallbackDeny [] probes = Ok id ∧ ri_source_kind id = MachineId.
Proof.
  destruct (probe_all_resolve_agree (FS := HostSample.host_fs) (CLK := HostSample.host_clock)
    (PR := HostSample.processes)
    (UT := HostSample.unicode) (SHA := Sample.digest)
    (MkResolver [HostnameSource; MachineIdSource] FallbackDeny "/") (ConfigSample.disk, 0))
    as (probes & Hp & _ & Hr).
  { repeat constructor; by vm_compute. }
  exists probes. split; [exact Hp|]. apply (f_equal snd) in Hr. cbn [snd hr_fallback] in Hr.
  rewrite <-Hr. eexists. split; vm_compute; reflexivity.
Defined.

(** ** The command ends *)

Section command.
Context {W : Type} {FS : Fs W} {CLK : Clock W} {PR : Processes W}.

Lemma wait_loop_safe n cmd c deadline w (Hc : clock_runs (W := W)) :
  deadline - clock w ≤ Z.of_nat n * POLL_INTERVAL →
  no_panic (wait_loop (S n) cmd c deadline w).2.
Proof.
  destruct Hc as [Hnow Hwait Hsleep]. revert w. induction n as [|n IH]; intros w Hd.
  all: cbn [wait_loop]; specialize (Hwait c w); destruct (try_wait c w) as [w1 [e|[st|]]];
    simpl in Hwait; try done; specialize (Hnow w1); unfold clock in Hnow, Hwait at 2;
    destruct (instant_now w1) as [w2 now] eqn:Hi; simpl in Hnow, Hwait; case_decide; try done.
  - lia.
  - apply IH. specialize (Hsleep POLL_INTERVAL w2). unfold clock in *. lia.
Qed.

Lemma custom_command_fetch_safe cmd timeout (Hc : clock_runs (W := W)) :
  0 ≤ timeout → io_safe (custom_command_fetch cmd timeout).
Proof.
  intros Ht. unfold custom_command_fetch. apply io_safe_bind; [auto with rust|]. intros child w.
  unfold fbind, ask. destruct (instant_now w) as [w1 now] eqn:Hi.
  assert (no_panic (wait_loop (poll_fuel timeout) cmd child (now + timeout) w1).2) as Hw.
  { unfold poll_fuel. rewrite Nat.add_succ_r. apply wait_loop_safe; [done|].
    pose proof (clock_now Hc w) as Hn. unfold clock in Hn at 1. rewrite Hi in Hn. simpl in Hn.
    unfold POLL_INTERVAL, NANOS_PER_MILLI. lia. }
  destruct (wait_loop _ _ _ _ w1) as [w2 [st|e|]]; [|done..].
  destruct (join_stdout child w2) as [w3 out]. destruct (join_stderr child w3) as [w4 err].
  by destruct (status_success st).
Qed.

Lemma fetch_safe s fs_root (Hc : clock_runs (W := W)) :
  (∀ cmd timeout, s = CustomCommandSource cmd timeout → 0 ≤ timeout) → io_safe (fetch s fs_root).
Proof.
  intros Ht. destruct s; cbn [fetch];
    unfold machine_id_fetch, dmi_fetch, hostname_fetch, nonempty_source, read_source;
    [auto with rust..|]. by apply custom_command_fetch_safe; [|eapply Ht].
Qed.

End command.

Lemma flat_map_source_of cfg s :
  s ∈ flat_map (source_of cfg) (hi_sources cfg) →
  ∀ cmd timeout, s = CustomCommandSource cmd timeout → timeout = hi_custom_command_timeout cfg.
Proof.
  intros Hs%list_elem_of_In cmd timeout ->. apply in_flat_map in Hs as (k & _ & Hk).
  destruct k; simpl in Hk; try (destruct Hk as [Hk|[]]; discriminate Hk); [|done].
  destruct (hi_custom_command cfg); [|done]. destruct Hk as [[= _ <-]|[]]. done.
Qed.

(** The prefix of a hex text is cut at a character boundary. *)
Lemma hash_prefix_resolved {E} `{Sha256} kind raw normalized :
  ∃ p, @hash_prefix E (resolved kind raw normalized) = Ok p.
Proof.
  unfold hash_prefix, resolved, str_to, sha256_hex. cbn [ri_hash_hex].
  set (h := hex_encode _). set (i := Z.min _ _).
  assert (0 ≤ i ≤ str_len h) as Hi by (unfold i, str_len; pose proof (zlen_nonneg (bytes_of h)); lia).
  assert (is_char_boundary h i = true) as ->.
  { apply hexdigit_boundary; [|done]. apply forallb_forall. intros c Hc%list_elem_of_In.
    pose proof (hex_encode_range (sha256 (bytes_of normalized))) as Hr. fold h in Hr.
    rewrite Forall_forall in Hr. apply Hr in Hc. unfold is_ascii_hexdigit, in_range.
    rewrite !orb_true_iff, !bool_decide_eq_true. lia. }
  unfold slice_to. rewrite slice_in; [by eexists|lia|]. unfold str_len in Hi. lia.
Qed.

Section total.
Context {W : Type} {FS : Fs W} {CLK : Clock W} {PR : Processes W} {UT : UnicodeTables} {SHA : Sha256}.

Lemma probe_source_safe fs_root s : io_safe (fetch s fs_root) → io_safe (probe_source fs_root s).
Proof.
  intros Hf w. unfold probe_source. specialize (Hf w).
  by destruct (fetch s fs_root w) as [w1 [raw|e|]].
Qed.

Lemma probe_source_shape fs_root s w w' o :
  probe_source fs_root s w = (w', Ok (inr o)) → ∃ kind raw normalized, o = resolved kind raw normalized.
Proof. intros (? & ? & raw & _ & _ & ->)%probe_source_inr. eauto. Qed.

Lemma resolve_loop_safe fs_root f attempts sources :
  Forall (λ s, io_safe (fetch s fs_root)) sources →
  io_safe (resolve_loop fs_root f attempts sources).
Proof.
  intros Hs. revert attempts. induction Hs as [|s rest Hs Hrest IH]; intros attempts.
  - cbn. destruct f; apply io_safe_lift; done.
  - cbn [resolve_loop]. apply io_safe_bind; [by apply probe_source_safe|]. intros [why|r]; [done|].
    apply io_safe_ret.
Qed.

Lemma probes_shape fs_root sources w w' probes :
  io_map (λ s, let! o := probe_source fs_root s in fret (MkProbe (source_kind s) o)) sources w
    = (w', Ok probes) →
  Forall (λ p, ∀ r, pr_outcome p = inr r → ∃ kind raw normalized, r = resolved kind raw normalized)
    probes.
Proof.
  intros H%io_map_Ok. induction H as [|s p sources probes (w1 & w2 & Hp) _ IH]; constructor; [|done].
  peel Hp w3 o Ho. injection Hp as _ <-. cbn. intros r ->. by eapply probe_source_shape.
Qed.

Lemma probe_all_safe fs_root sources :
  Forall (λ s, io_safe (fetch s fs_root)) sources →
  io_safe (io_map (λ s, let! o := probe_source fs_root s in fret (MkProbe (source_kind s) o)) sources).
Proof.
  induction 1 as [|s rest Hs Hrest IH]; [apply io_safe_ret|]. cbn [io_map].
  apply io_safe_bind; [|auto with rust].
  apply io_safe_bind; [by apply probe_source_safe|auto with rust].
Qed.

Lemma probe_all_no_err fs_root sources w w' e :
  io_map (λ s, let! o := probe_source fs_root s in fret (MkProbe (source_kind s) o)) sources w
    ≠ (w', Err e).
Proof.
  revert w. induction sources as [|s rest IH]; intros w H; [done|]. cbn [io_map] in H.
  unfold fbind, probe_source, fret in H.
  destruct (fetch s fs_root w) as [w1 [raw|e1|]]; [| |done];
    (destruct (io_map _ rest w1) as [w2 [?|?|]] eqn:Hr;
     [done|by eapply IH; injection H as <- <-|done]).
Qed.

(** Cutting the logged prefixes changes nothing. *)
Lemma prefixes_ok probes :
  Forall (λ p, ∀ r, pr_outcome p = inr r → ∃ kind raw normalized, r = resolved kind raw normalized)
    probes →
  ∀ w, io_each (S := W) (E := HostIdentityError)
    (λ p, match pr_outcome p with
          | inr r => let! _ := lift (hash_prefix r) in fret tt
          | inl _ => fret tt
          end) probes w = (w, Ok tt).
Proof.
  induction 1 as [|p probes Hp _ IH]; intros w; [done|]. cbn [io_each]. unfold fbind.
  destruct (pr_outcome p) as [why|r]; [apply IH|].
  destruct (Hp r eq_refl) as (kind & raw & n & ->). unfold lift, fret.
  destruct (hash_prefix_resolved (E := HostIdentityError) kind raw n) as [pre ->]. apply IH.
Qed.

(** What [resolve] answered: where it is from, and the hash that goes with it. *)
Lemma resolve_hash r w w' id :
  resolve r w = (w', Ok id) →
  ri_hash_hex id = sha256_hex (normalize_host_id (ri_raw id)) ∧
  ((∃ s, s ∈ hr_sources r ∧ source_gave (hr_fs_root r) s id) ∨
   (hr_fallback r ≠ FallbackDeny ∧ ri_source_kind id = Override ∧ ri_raw id = "unknown")).
Proof.
  intros [(pre & s & post & Hs & _ & Hg)|(_ & Hf & ->)]%resolve_loop_Ok; cbn.
  - destruct Hg as (w1 & w2 & raw & Hf & Hn & ->). split; [done|]. left. exists s.
    split; [rewrite Hs; apply elem_of_app; right; by left|]. by exists w1, w2, raw.
  - split; [done|]. by right.
Qed.

Lemma resolve_by_chain_spec cfg w :
  Forall (λ s, io_safe (fetch s "/")) (flat_map (source_of cfg) (hi_sources cfg)) →
  match resolve_by_chain cfg w with
  | (_, Ok (kind, raw, hash)) =>
      hash = sha256_hex (normalize_host_id raw) ∧
      ((∃ s id, s ∈ flat_map (source_of cfg) (hi_sources cfg) ∧ source_gave "/" s id ∧
          kind = ri_source_kind id ∧ raw = ri_raw id) ∨
       (kind = Override ∧ raw = "unknown" ∧ hi_fallback cfg ≠ FallbackDeny))
  | (_, Err e) => hi_fallback cfg = FallbackDeny
  | (_, Panic) => False
  end.
Proof.
  intros Hsafe. unfold resolve_by_chain. unfold fbind at 1.
  destruct (probe_all _ w) as [w1 r1] eqn:Hp. pose proof (probe_all_safe _ _ Hsafe w) as H1.
  unfold probe_all in Hp. cbn [hr_fs_root hr_sources from_validated] in Hp. rewrite Hp in H1.
  destruct r1 as [probes|e|]; [|by apply probe_all_no_err in Hp|done].
  apply probes_shape in Hp. unfold fbind at 1.
  rewrite (prefixes_ok probes Hp w1).
  unfold fbind at 1. destruct (resolve _ w1) as [w3 [id|e|]] eqn:Hr.
  - pose proof (resolve_hash _ _ _ _ Hr) as [Hh Hs].
    assert (∃ kind raw n, id = resolved kind raw n) as (kind & raw & n & ->).
    { apply resolve_loop_Ok in Hr as [(? & ? & ? & _ & _ & ? & ? & ? & _ & _ & ->)|(_ & _ & ->)];
        eauto. }
    unfold fbind, lift.
    destruct (hash_prefix_resolved (E := HostIdentityError) kind raw n) as [pre ->].
    cbn. split; [done|].
    destruct Hs as [(s & Hin & Hg)|(Hf & Hk & Hw)]; [left|right; done]. by exists s, (resolved kind raw n).
  - by apply resolve_loop_Err in Hr as [Hf _].
  - pose proof (resolve_loop_safe "/" (hi_fallback cfg) [] _ Hsafe w1) as Hn. unfold resolve in Hr.
    cbn [hr_fs_root hr_sources hr_fallback from_validated] in Hr. by rewrite Hr in Hn.
Qed.

End total.

(** On a validated section and with a clock that runs,
    [resolve_host_identity] always ends without unwinding (a command that never
    exits is cut off).  It answers the configured override when [override] is
    among the sources, else the identifier of a configured source, else the
    fixed [unknown] unless the fallback is [deny], and the hash is always that
    of the normalized value; it fails only under [deny]. *)
Theorem resolve_host_identity_total {W} {FS : Fs W} {CLK : Clock W} {PR : Processes W} {UT : UnicodeTables}
    {SHA : Sha256} (cfg : HostIdentitySection) (w : W)
    (Hclock : clock_runs (W := W)) (Hwf : host_identity_wf cfg) :
  match resolve_host_identity cfg w with
  | (_, Ok (kind, raw, hash)) =>
      hash = sha256_hex (normalize_host_id raw) ∧
      ((kind = Override ∧ Override ∈ hi_sources cfg ∧ hi_override_value cfg = Some raw) ∨
       (∃ s id, s ∈ flat_map (source_of cfg) (hi_sources cfg) ∧ source_gave "/" s id ∧
          kind = ri_source_kind id ∧ raw = ri_raw id) ∨
       (kind = Override ∧ raw = "unknown" ∧ hi_fallback cfg ≠ FallbackDeny))
  | (_, Err e) => hi_fallback cfg = FallbackDeny
  | (_, Panic) => False
  end.
Proof.
  unfold resolve_host_identity.
  assert (Forall (λ s, io_safe (fetch s "/")) (flat_map (source_of cfg) (hi_sources cfg))) as Hsafe.
  { apply Forall_forall. intros s Hs. apply fetch_safe; [done|]. intros cmd t Ht.
    apply flat_map_source_of with (cmd := cmd) (timeout := t) in Hs as ->; [|done].
    destruct (hw_timeout _ Hwf) as [Hl _]. unfold NANOS_PER_SEC in Hl. lia. }
  apply (resolve_by_chain_spec cfg w) in Hsafe.
  case_decide as Ho; [destruct (hi_override_value cfg) as [raw|] eqn:Hv|].
  - cbn. split; [done|]. by left.
  - destruct (resolve_by_chain cfg w) as [w' [[[kind raw] hash]|e|]]; [|done..].
    destruct Hsafe as [Hh Hs]. split; [done|]. by right.
  - destruct (resolve_by_chain cfg w) as [w' [[[kind raw] hash]|e|]]; [|done..].
    destruct Hsafe as [Hh Hs]. split; [done|]. by right.
Qed.

Lemma resolve_host_identity_total_witness :
  let cfg := MkHostIdentitySection [CustomCommand; MachineId] FallbackDeny None (Some "/bin/id")
               (5 * NANOS_PER_SEC) in
  match resolve_host_identity (FS := HostSample.host_fs) (CLK := HostSample.host_clock)
    (PR := HostSample.processes)
          (UT := HostSample.unicode) (SHA := Sample.digest) cfg (ConfigSample.disk, 0) with
  | (_, Ok (kind, raw, hash)) => kind = CustomCommand ∧ raw = "atm-7"
  | _ => False
  end.
Proof.
  intros cfg. pose proof (resolve_host_identity_total (FS := HostSample.host_fs)
    (CLK := HostSample.host_clock)
    (PR := HostSample.processes) (UT := HostSample.unicode) (SHA := Sample.digest) cfg
    (ConfigSample.disk, 0)) as Ht.
  assert (clock_runs (W := HostSample.host) (CLK := HostSample.host_clock)
    (PR := HostSample.processes)) as Hc.
  { split; intros; cbn; lia. }
  assert (host_identity_wf cfg) as Hwf.
  { split; cbn -[Z.mul Z.le]; [done| |by intros c [= <-]|unfold NANOS_PER_SEC; lia].
    apply NoDup_cons. split; [by rewrite list_elem_of_singleton|apply NoDup_singleton]. }
  specialize (Ht Hc Hwf). clear Hc Hwf. vm_compute. split; reflexivity.
Defined.

(** A host entry of a certificate that repeats the raw identifier of a host
    authorises that host exactly when the identifier is already in normal form:
    the host's hash is over the normalized text, the entry's over the text as
    written (for a digest that tells the two texts apart). *)
Theorem raw_entry_needs_normal_form {UT : UnicodeTables} {SHA : Sha256} kind raw
    (Hsha : sha256 (bytes_of raw) = sha256 (bytes_of (normalize_host_id raw)) →
            raw = normalize_host_id raw) :
  host_matches (ri_hash_hex (resolved kind raw (normalize_host_id raw))) (Raw raw) = true ↔
  normalize_host_id raw = raw.
Proof.
  unfold host_matches, eq_ignore_ascii_case, resolved, sha256_hex. cbn [ri_hash_hex].
  rewrite bool_decide_eq_true, !to_ascii_lowercase_hex. split.
  - intros H%hex_encode_inj. by rewrite <-Hsha.
  - by intros ->.
Qed.

Lemma raw_entry_needs_normal_form_witness :
  @host_matches Sample.digest (ri_hash_hex (resolved (SHA := Sample.digest) DmiBoardSerial
    "A1:B2" (@normalize_host_id HostSample.unicode "A1:B2"))) (Raw "A1:B2") = false.
Proof.
  apply not_true_iff_false.
  rewrite (raw_entry_needs_normal_form (UT := HostSample.unicode) (SHA := Sample.digest)
             DmiBoardSerial "A1:B2").
  - vm_compute. discriminate.
  - intros H. vm_compute in H. discriminate H.
Defined.
