(* ===== verification/Startup.v ===== *)
(** * Start-up checks ([startup_check.rs] and [startup_check/], [check.rs])

    The sweep that the daemon runs before it starts and that the [check]
    subcommand prints: the order of the PAM stack, the MAC runtime against the
    kernel, the trust files, the capability, and the host identity.  A record
    carries its identifier and severity; of the message only what is
    interpolated, since the identifier fixes the wording. *)

From S2P Require Import Prelude Text Sys Errors Openssl Der Sample X509Ext Certificate HostBinding.
From S2P Require Import Gost Trust MacLabel MacOrchestrator PdpFfi Hooks RawConfig Config HostIdentity.
Local Open Scope Z_scope.

Inductive StartupCheckSeverity : Type :=
| SevInfo
| SevWarn
| SevError.

#[export] Instance StartupCheckSeverity_eq_dec : EqDecision StartupCheckSeverity.
Proof. solve_decision. Defined.

(** What a message names. *)
Inductive Message : Type :=
| Fixed
| AtPath (path : string)
| AtLines (path : string) (a b : Z)
| ReadFailed (path : string) (e : IoError)
| Blocks (path : string) (count : Z)
| WithMode (path : string) (mode : Z)
| SourceOk (kind : HostIdSourceKind) (hash_hex : string)
| SourceFailed (kind : HostIdSourceKind) (why : option FetchError).

Record StartupCheckRecord := MkRecord {
  sr_check : string;
  sr_severity : StartupCheckSeverity;
  sr_message : Message;
}.

Definition info (name : string) (msg : Message) : StartupCheckRecord := MkRecord name SevInfo msg.
Definition warn (name : string) (msg : Message) : StartupCheckRecord := MkRecord name SevWarn msg.
Definition error (name : string) (msg : Message) : StartupCheckRecord := MkRecord name SevError msg.

(** [StartupCheckReport::count], [has_errors]. *)
Definition report_count (records : list StartupCheckRecord) (sev : StartupCheckSeverity) : Z :=
  zlen (List.filter (λ r, bool_decide (sr_severity r = sev)) records).

Definition has_errors (records : list StartupCheckRecord) : bool :=
  bool_decide (0 < report_count records SevError).

(** [StartupCheckReport::log]: each record as an event of its severity. *)
Inductive TraceEvent : Type :=
| TraceInfo (target name : string) (message : Message)
| TraceWarn (target name : string) (message : Message)
| TraceError (target name : string) (message : Message).

Definition report_log (records : list StartupCheckRecord) : list TraceEvent :=
  (λ r,
    match sr_severity r with
    | SevInfo => TraceInfo "pam_certauth.startup_check" (sr_check r) (sr_message r)
    | SevWarn => TraceWarn "pam_certauth.startup_check" (sr_check r) (sr_message r)
    | SevError => TraceError "pam_certauth.startup_check" (sr_check r) (sr_message r)
    end) <$> records.

(** ** The PAM stack *)

Definition STANDARD_SERVICES : list string := ["login"; "fly-dm"; "fly-dm-np"; "sshd"; "sudo"; "su"].

Definition is_certauth_include (line : string) : bool :=
  match split_whitespace line with
  | [first; name] =>
      bool_decide (first = "@include") &&
      bool_decide (name ∈ ["certauth"; "certauth-only"; "certauth-optional"])
  | _ => false
  end.

(** The first word, and a module anywhere in the line. *)
Definition phase_mentions (phase module line : string) : bool :=
  match split_whitespace line with
  | first :: _ => bool_decide (first = phase) && str_contains line module
  | [] => false
  end.

Definition is_auth_parsec_mac : string → bool := phase_mentions "auth" "pam_parsec_mac.so".
Definition is_session_pam_certauth : string → bool := phase_mentions "session" "pam_certauth.so".
Definition is_session_pam_systemd : string → bool := phase_mentions "session" "pam_systemd.so".

Definition is_common_session_include (line : string) : bool :=
  match split_whitespace line with
  | [first; name] =>
      bool_decide (first = "@include") &&
      (bool_decide (name = "common-session") || bool_decide (name = "common-session-noninteractive"))
  | _ => false
  end.

(** The four lines [evaluate_service] remembers, counted from zero. *)
Record Scan := MkScan {
  sn_include : option Z;
  sn_parsec : option Z;
  sn_session : option Z;
  sn_systemd : option Z;
}.

Definition get_or_insert (o : option Z) (hit : bool) (i : Z) : option Z :=
  match o with Some _ => o | None => if hit then Some i else None end.

Definition scan_line (st : Scan) (i : Z) (raw : string) : Scan :=
  let line := str_trim_start raw in
  if starts_with line "#" || bool_decide (line = "") then st else
  let include := is_certauth_include line in
  MkScan (get_or_insert (sn_include st) include i)
    (get_or_insert (sn_parsec st) (negb include && is_auth_parsec_mac line) i)
    (get_or_insert (sn_session st) (is_session_pam_certauth line) i)
    (get_or_insert (sn_systemd st) (is_session_pam_systemd line || is_common_session_include line) i).

Fixpoint scan_lines (st : Scan) (i : Z) (lines : list string) : Scan :=
  match lines with
  | [] => st
  | raw :: rest => scan_lines (scan_line st i raw) (i + 1) rest
  end.

Definition evaluate_service (path text : string) : list StartupCheckRecord :=
  let st := scan_lines (MkScan None None None None) 0 (str_lines text) in
  match sn_include st, sn_parsec st with
  | Some inc, Some par =>
      if decide (inc < par) then [error "pam_stack_misorder" (AtLines path (inc + 1) (par + 1))]
      else [info "pam_stack_ok" (AtPath path)]
  | _, _ => []
  end ++
  match sn_session st, sn_systemd st with
  | Some ses, Some sys =>
      if decide (ses < sys)
      then [error "pam_stack_session_misorder" (AtLines path (ses + 1) (sys + 1))]
      else [info "pam_stack_session_ok" (AtPath path)]
  | Some _, None => [info "pam_stack_session_no_systemd" (AtPath path)]
  | None, _ => []
  end.

(** ** The trust files *)

Definition BEGIN_CERTIFICATE : list byte := bytes_of "-----BEGIN CERTIFICATE-----".

(** The [while] loop, on what is left of the bytes. *)
Fixpoint count_from (fuel : nat) (bs : list byte) : Z :=
  match fuel with
  | O => 0
  | S f =>
      if decide (zlen bs < zlen BEGIN_CERTIFICATE) then 0
      else if is_prefix_bytes BEGIN_CERTIFICATE bs
      then 1 + count_from f (drop (length BEGIN_CERTIFICATE) bs)
      else count_from f (drop 1 bs)
  end.

Definition count_pem_blocks (bs : list byte) : Z := count_from (S (length bs)) bs.

(** [missing_check] and the others: the identifier of a list's files. *)
Definition check_name (prefix suffix : string) : string :=
  (if decide (prefix = "trust_anchor") then "trust_anchor" else "trust_intermediate") +:+ suffix.

(** ** The kernel *)

Inductive KernelParsecState : Type :=
| KernelActive
| KernelDisabled
| KernelUnavailable.

#[export] Instance KernelParsecState_eq_dec : EqDecision KernelParsecState.
Proof. solve_decision. Defined.

Definition check_mac_runtime (cfg : ValidatedConfig) (kernel : KernelParsecState)
    : list StartupCheckRecord :=
  match mac_runtime (cfg_mac cfg), kernel with
  | RuntimeRequiredMode, KernelActive => [info "mac_runtime_required_ok" Fixed]
  | RuntimeRequiredMode, _ => [error "mac_runtime_required_missing_kernel" Fixed]
  | RuntimeAuto, KernelActive => [info "mac_runtime_auto_active" Fixed]
  | RuntimeAuto, _ => [warn "mac_runtime_auto_fallback" Fixed]
  | RuntimeDisabled, KernelActive => [info "mac_runtime_disabled_with_kernel" Fixed]
  | RuntimeDisabled, _ => [info "mac_runtime_disabled" Fixed]
  end.

(** [StartupCheckOptions]; the injected probe is a function of the machine. *)
Record StartupCheckOptions (W : Type) := MkOptions {
  so_pam_d_root : string;
  so_fs_root : option string;
  so_kernel_parsec_probe : option (W → W * KernelParsecState);
}.
Arguments MkOptions {W}.
Arguments so_pam_d_root {W}.
Arguments so_fs_root {W}.
Arguments so_kernel_parsec_probe {W}.

Definition startup_options_default {W} : StartupCheckOptions W := MkOptions "/etc/pam.d" None None.

Section checks.
Context {W : Type} {FS : Fs W} {CLK : Clock W} {PR : Processes W} {PDP : Libpdp W}.
Context {UT : UnicodeTables} {SHA : Sha256}.
(** The [astra-mac] feature. *)
Context (astra : bool).

Definition check_service {E} (pam_d_root svc : string) : io W E (list StartupCheckRecord) :=
  let path := path_join pam_d_root svc in
  let! there := path_exists path in
  if negb there then fret [] else
  let! text := io_try (read_to_string path) in
  match text with
  | inr t => fret (evaluate_service path t)
  | inl e => fret [warn "pam_stack_read_failed" (ReadFailed path e)]
  end.

Definition check_pam_stack {E} (pam_d_root : string) : io W E (list StartupCheckRecord) :=
  let! rs := io_map (check_service pam_d_root) STANDARD_SERVICES in fret (concat rs).

Definition check_pem_file {E} (prefix path : string) : io W E (list StartupCheckRecord) :=
  let! there := path_exists path in
  if negb there then fret [error (check_name prefix "_missing") (AtPath path)] else
  let! got := ask (fs_read path) in
  match got with
  | inl e => fret [error (check_name prefix "_unreadable") (ReadFailed path e)]
  | inr bytes =>
      if decide (bytes = []) then fret [error (check_name prefix "_empty") (AtPath path)] else
      let count := count_pem_blocks bytes in
      if decide (count = 0) then fret [warn (check_name prefix "_no_pem") (AtPath path)]
      else fret [info (check_name prefix "_ok") (Blocks path count)]
  end.

Definition check_pem_list {E} (prefix : string) (paths : list string)
    : io W E (list StartupCheckRecord) :=
  let! rs := io_map (check_pem_file prefix) paths in fret (concat rs).

Definition check_anchors {E} (cfg : ValidatedConfig) : io W E (list StartupCheckRecord) :=
  let! a := check_pem_list "trust_anchor" (ts_anchors (cfg_trust cfg)) in
  let! i := check_pem_list "trust_intermediate" (ts_intermediates (cfg_trust cfg)) in
  fret (a ++ i).

Definition check_ca_dir_permissions {E} (fs_root : option string) : io W E (list StartupCheckRecord) :=
  let ca_dir := path_join (default "/" fs_root) "etc/pam_certauth/ca" in
  let! meta := ask (fs_metadata ca_dir) in
  match meta with
  | inl _ => fret []
  | inr md =>
      if negb (md_is_dir md) then fret [] else
      let mode := Z.land (md_mode md) 0xFFF in
      if decide (Z.land (md_mode md) 2 ≠ 0)
      then fret [warn "trust_ca_dir_world_writable" (WithMode ca_dir mode)]
      else fret [info "trust_ca_dir_ok" (WithMode ca_dir mode)]
  end.

Definition real_kernel_parsec_probe (w : W) : W * KernelParsecState :=
  if astra then
    let (w, rt) := Ffi.probe_runtime w in
    (w, match rt with
        | Active => KernelActive
        | Disabled => KernelDisabled
        | Unavailable => KernelUnavailable
        end)
  else (w, KernelUnavailable).

Definition chmac_cap_present (w : W) : W * bool :=
  if astra then Ffi.check_chmac_capability w else (w, true).

Definition check_parsec_caps {E} (cfg : ValidatedConfig) (kernel : KernelParsecState)
    : io W E (list StartupCheckRecord) :=
  let writes_expected :=
    match mac_runtime (cfg_mac cfg), cert_integrity (cfg_mac cfg) with
    | RuntimeDisabled, _ | _, Ignore => false
    | _, _ => true
    end in
  if negb writes_expected || bool_decide (kernel ≠ KernelActive) then fret [] else
  let! present := ask chmac_cap_present in
  fret [if present : bool then info "parsec_cap_chmac_ok" Fixed else warn "parsec_cap_chmac_missing" Fixed].

Definition check_host_identity (cfg : ValidatedConfig) (fs_root : option string)
    : io W HostIdentityError (list StartupCheckRecord) :=
  let! probes := probe_all (from_validated (cfg_host_identity cfg) (default "/" fs_root)) in
  if decide (probes = []) then fret [info "host_identity_sources" Fixed] else
  fret ((λ p, match pr_outcome p with
              | inr r => info "host_identity_source_ok" (SourceOk (pr_source p) (ri_hash_hex r))
              | inl why => warn "host_identity_source_failed" (SourceFailed (pr_source p) why)
              end) <$> probes).

Definition run_startup_checks (cfg : ValidatedConfig) (opts : StartupCheckOptions W)
    : io W HostIdentityError (list StartupCheckRecord) :=
  let! stack := check_pam_stack (so_pam_d_root opts) in
  let! kernel := ask (default real_kernel_parsec_probe (so_kernel_parsec_probe opts)) in
  let! anchors := check_anchors cfg in
  let! ca_dir := check_ca_dir_permissions (so_fs_root opts) in
  let! caps := check_parsec_caps cfg kernel in
  let! host := check_host_identity cfg (so_fs_root opts) in
  fret (stack ++ check_mac_runtime cfg kernel ++ anchors ++ ca_dir ++ caps ++ host).

(** [pam-certauth check]: the exit status, and what is printed. *)
Definition check_run {RX : RegexCrate} {TM : Toml} (config : string)
    : io W HostIdentityError (bool * list StartupCheckRecord) :=
  let! loaded := io_try (load_validated_config astra config) in
  match loaded with
  | inl _ => fret (false, [])
  | inr cfg =>
      let! report := run_startup_checks cfg startup_options_default in
      fret (bool_decide (report_count report SevError = 0), report)
  end.

End checks.

(** ** The first line of a kind *)

(** A line that is neither blank nor a comment, of the given kind. *)
Definition relevant (P : string → bool) (raw : string) : bool :=
  let line := str_trim_start raw in
  negb (starts_with line "#" || bool_decide (line = "")) && P line.

Definition first_line (P : string → bool) (lines : list string) : option nat :=
  fst <$> list_find (λ raw, relevant P raw = true) lines.

(** The first line of one kind comes before the first line of another. *)
Definition misordered (P Q : string → bool) (text : string) : Prop :=
  ∃ i j, first_line P (str_lines text) = Some i ∧ first_line Q (str_lines text) = Some j ∧ (i < j)%nat.

Definition is_systemd_anchor (line : string) : bool :=
  is_session_pam_systemd line || is_common_session_include line.

Definition at_line (i : Z) (o : option Z) (n : option nat) : option Z :=
  match o with Some _ => o | None => (λ n, i + Z.of_nat n) <$> n end.

Lemma first_line_cons P raw rest :
  first_line P (raw :: rest) = if relevant P raw then Some 0%nat else S <$> first_line P rest.
Proof.
  unfold first_line. simpl. case_decide as H; [by rewrite H|].
  destruct (relevant P raw); [done|]. by destruct (list_find _ rest) as [[]|].
Qed.

Lemma at_line_cons P i o raw rest :
  at_line i o (first_line P (raw :: rest)) =
    at_line (i + 1) (get_or_insert o (relevant P raw) i) (first_line P rest).
Proof.
  rewrite first_line_cons. destruct o as [n|]; [done|]. destruct (relevant P raw); simpl.
  - f_equal. lia.
  - destruct (first_line P rest); [|done]. simpl. f_equal. lia.
Qed.

Lemma include_not_auth line : is_certauth_include line = true → is_auth_parsec_mac line = false.
Proof.
  unfold is_certauth_include, is_auth_parsec_mac, phase_mentions.
  destruct (split_whitespace line) as [|first [|name []]]; try done.
  intros [->%bool_decide_eq_true _]%andb_true_iff. done.
Qed.

Lemma scan_line_eq st i raw :
  scan_line st i raw =
    MkScan (get_or_insert (sn_include st) (relevant is_certauth_include raw) i)
      (get_or_insert (sn_parsec st) (relevant is_auth_parsec_mac raw) i)
      (get_or_insert (sn_session st) (relevant is_session_pam_certauth raw) i)
      (get_or_insert (sn_systemd st) (relevant is_systemd_anchor raw) i).
Proof.
  unfold scan_line, relevant. set (line := str_trim_start raw).
  destruct (starts_with line "#" || bool_decide (line = "")); cbn [negb andb].
  - by destruct st as [[] [] [] []].
  - destruct (is_certauth_include line) eqn:Hi; [|done]. by rewrite (include_not_auth line Hi).
Qed.

Lemma scan_lines_eq lines : ∀ st i,
  scan_lines st i lines =
    MkScan (at_line i (sn_include st) (first_line is_certauth_include lines))
      (at_line i (sn_parsec st) (first_line is_auth_parsec_mac lines))
      (at_line i (sn_session st) (first_line is_session_pam_certauth lines))
      (at_line i (sn_systemd st) (first_line is_systemd_anchor lines)).
Proof.
  induction lines as [|raw rest IH]; intros st i.
  - by destruct st as [[] [] [] []].
  - cbn [scan_lines]. rewrite IH, scan_line_eq. cbn [sn_include sn_parsec sn_session sn_systemd].
    by rewrite !at_line_cons.
Qed.

Lemma has_errors_spec records :
  has_errors records = true ↔ ∃ r, r ∈ records ∧ sr_severity r = SevError.
Proof.
  unfold has_errors, report_count. rewrite bool_decide_eq_true.
  induction records as [|r rest IH]; simpl.
  - split; [unfold zlen; simpl; lia|]. by intros (r & Hr%not_elem_of_nil & _).
  - case_bool_decide as H.
    + split; [|rewrite zlen_cons; pose proof (zlen_nonneg (List.filter
        (λ r, bool_decide (sr_severity r = SevError)) rest)); lia].
      intros _. exists r. split; [by left|done].
    + rewrite IH. split; intros (r' & Hr & Hs); exists r'; split; try done; [by right|].
      by apply elem_of_cons in Hr as [->|].
Qed.

Lemma has_errors_app a b : has_errors (a ++ b) = has_errors a || has_errors b.
Proof.
  apply eq_true_iff_eq. rewrite orb_true_iff, !has_errors_spec. split.
  - intros (r & [Hr|Hr]%elem_of_app & Hs); eauto.
  - intros [(r & Hr & Hs)|(r & Hr & Hs)]; exists r; rewrite elem_of_app; auto.
Qed.

Lemma has_errors_concat rs : has_errors (concat rs) = existsb has_errors rs.
Proof. induction rs as [|r rs IH]; [done|]. simpl. by rewrite has_errors_app, IH. Qed.

(** ** Marker counting *)

Lemma contains_short needle bs : zlen bs < zlen needle → contains_bytes needle bs = false.
Proof.
  induction bs as [|b r IH]; intros Hl; simpl.
  - destruct needle; [done|]. done.
  - rewrite zlen_cons in Hl. rewrite IH, orb_false_r by lia.
    destruct (is_prefix_bytes needle (b :: r)) eqn:Hp; [|done].
    apply is_prefix_bytes_spec in Hp as [t Ht]. apply (f_equal zlen) in Ht.
    rewrite zlen_app, zlen_cons in Ht. pose proof (zlen_nonneg t). lia.
Qed.

Lemma count_from_nonneg fuel bs : 0 ≤ count_from fuel bs.
Proof.
  revert bs. induction fuel as [|f IH]; intros bs; cbn [count_from]; [lia|].
  repeat case_match; [lia| |apply IH]. pose proof (IH (drop (length BEGIN_CERTIFICATE) bs)). lia.
Qed.

Lemma count_from_pos fuel bs :
  (length bs < fuel)%nat → 0 < count_from fuel bs ↔ contains_bytes BEGIN_CERTIFICATE bs = true.
Proof.
  revert bs. induction fuel as [|f IH]; intros bs Hl; [lia|]. cbn [count_from].
  case_decide as Hs; [rewrite contains_short by done; split; [lia|done]|].
  destruct (is_prefix_bytes BEGIN_CERTIFICATE bs) eqn:Hp.
  - pose proof (count_from_nonneg f (drop (length BEGIN_CERTIFICATE) bs)).
    split; [intros _|lia]. destruct bs; [done|]. cbn [contains_bytes]. by rewrite Hp.
  - destruct bs as [|b r]; [done|]. cbn [contains_bytes]. rewrite Hp. cbn [orb drop].
    apply IH. simpl in Hl. lia.
Qed.

(** ** What a clean report means *)

Section sound.
Context {W : Type} {FS : Fs W} {CLK : Clock W} {PR : Processes W} {PDP : Libpdp W}.
Context {UT : UnicodeTables} {SHA : Sha256}.

(** The file was there and was not empty. *)
Definition pem_present (path : string) : Prop :=
  ∃ w w' bs, fs_read path w = (w', inr bs) ∧ bs ≠ [].

(** The service's file was absent, unreadable, or ordered. *)
Definition service_ordered (root svc : string) : Prop :=
  let path := path_join root svc in
  (∃ w w' e, fs_metadata path w = (w', inl e)) ∨
  (∃ w w' e, read_to_string path w = (w', Err e)) ∨
  ∃ w w' text, read_to_string path w = (w', Ok text) ∧
    ¬ misordered is_certauth_include is_auth_parsec_mac text ∧
    ¬ misordered is_session_pam_certauth is_systemd_anchor text.

Lemma misordered_iff P Q text :
  misordered P Q text ↔
    match first_line P (str_lines text), first_line Q (str_lines text) with
    | Some i, Some j => (i < j)%nat
    | _, _ => False
    end.
Proof.
  unfold misordered. split; [by intros (i & j & -> & -> & ?)|].
  destruct (first_line P _) as [i|], (first_line Q _) as [j|]; [|done..]. by exists i, j.
Qed.

Lemma evaluate_service_errors path text :
  has_errors (evaluate_service path text) = true ↔
    misordered is_certauth_include is_auth_parsec_mac text ∨
    misordered is_session_pam_certauth is_systemd_anchor text.
Proof.
  rewrite !misordered_iff. unfold evaluate_service. rewrite scan_lines_eq, has_errors_app, orb_true_iff.
  cbn [sn_include sn_parsec sn_session sn_systemd].
  f_equiv.
  - destruct (first_line is_certauth_include _), (first_line is_auth_parsec_mac _); simpl; try done.
    case_decide; split; done || lia.
  - destruct (first_line is_session_pam_certauth _), (first_line is_systemd_anchor _); simpl; try done.
    case_decide; split; done || lia.
Qed.

Lemma check_service_clean {E} root svc w w' rs :
  check_service (E := E) root svc w = (w', Ok rs) → has_errors rs = false → service_ordered root svc.
Proof.
  unfold check_service, service_ordered. intros H Hc. peel H w1 there Ht. unfold path_exists in Ht.
  destruct (fs_metadata (path_join root svc) w) as [w2 [e|md]] eqn:Hm; simplify_eq/=; [left; eauto|].
  right. peel H w3 text Hr. unfold io_try in Hr.
  destruct (read_to_string _ w1) as [w4 [t|e|]] eqn:He; simplify_eq/=; [right|left; eauto].
  exists w1, w3, t. split; [done|]. injection H as <- <-. apply not_true_iff_false in Hc.
  rewrite evaluate_service_errors in Hc. tauto.
Qed.

Lemma check_pem_file_clean {E} prefix path w w' rs :
  check_pem_file (E := E) prefix path w = (w', Ok rs) → has_errors rs = false → pem_present path.
Proof.
  unfold check_pem_file. intros H Hc. peel H w1 there Ht.
  destruct there; cbn [negb] in H; [|by injection H as <- <-].
  peel H w2 got Hg. unfold ask in Hg. destruct (fs_read path w1) as [w3 r] eqn:Hr. injection Hg as -> ->.
  destruct got as [e|bs]; [by injection H as <- <-|].
  case_decide; [by injection H as <- <-|]. by exists w1, w2, bs.
Qed.

(** A loop over files whose records are put together. *)
Lemma checks_clean {E} (f : string → io W E (list StartupCheckRecord)) (Q : string → Prop) l w w' rs :
  (∀ a w w' rs, f a w = (w', Ok rs) → has_errors rs = false → Q a) →
  (let! rs := io_map f l in fret (concat rs)) w = (w', Ok rs) → has_errors rs = false → Forall Q l.
Proof.
  intros Hf H Hc. peel H w1 parts Hp. injection H as <- <-. apply io_map_Ok in Hp.
  rewrite has_errors_concat in Hc. induction Hp as [|a b l parts (s1 & s2 & Ha) _ IH]; [done|].
  simpl in Hc. apply orb_false_iff in Hc as [Hb Hc]. constructor; eauto.
Qed.

End sound.

(** ** A sample host *)

Module StartupSample.

Definition world : Type := ConfigSample.files.

Definition clk : Clock world := {| instant_now w := (w, 0); sleep _ w := w |}.

Definition no_processes : Processes world := {|
  Child := unit;
  spawn _ w := (w, inl (MkIoError KindNotFound ""));
  try_wait _ w := (w, inr None);
  kill_and_wait _ w := w;
  join_stdout _ w := (w, []);
  join_stderr _ w := (w, []);
|}.

Definition pdp : Libpdp world := {|
  PdplPtr := unit;
  TextPtr := unit;
  pdpl_get_from_text _ w := (w, None);
  pdpl_get_text _ _ w := (w, None);
  text_bytes _ _ := [];
  libc_free _ w := w;
  pdpl_put _ w := w;
  pdp_set_pid _ _ w := (w, 1);
  pdp_set_path _ _ w := (w, 1);
  pdp_set_fd _ _ w := (w, 1);
  pdp_get_lpath _ w := (w, None);
  parsec_strict_mode w := (w, 1);
  parsec_capget _ w := (w, (0, 8));
  getmicnam _ w := (w, None);
|}.

Definition stack (lines : list string) : string := String.concat (text_of [zb 0x0A]) lines.

(** A service with the include after the integrity module. *)
Definition login : string :=
  stack ["# login"; "auth required pam_parsec_mac.so"; "  @include certauth-only";
         "@include common-session"; "session required pam_certauth.so"].

Definition disk : world := ("/etc/pam.d/login", bytes_of login) :: ConfigSample.disk.

Abbreviation sweep cfg :=
  (run_startup_checks (FS := ConfigSample.fs) (CLK := clk) (PR := no_processes) (PDP := pdp)
     (UT := HostSample.unicode) (SHA := Sample.digest) true cfg startup_options_default disk).

Definition config : ValidatedConfig :=
  ConfigSample.config ModePkcs12 (MkMacPolicy Required None true RuntimeRequiredMode).

End StartupSample.

(** ** Theorems *)

(** The stack check reports an error exactly when the first include of the
    module comes before the first [auth] line of the integrity module, or its
    first [session] line before the first line that brings in [pam_systemd];
    blank lines and comments do not count. *)
Theorem stack_errors_iff path text :
  has_errors (evaluate_service path text) = true ↔
    misordered is_certauth_include is_auth_parsec_mac text ∨
    misordered is_session_pam_certauth is_systemd_anchor text.
Proof. apply evaluate_service_errors. Qed.

(** The certificate markers are counted at least once exactly when the file
    contains one. *)
Theorem marker_counted_iff bs :
  0 < count_pem_blocks bs ↔ contains_bytes BEGIN_CERTIFICATE bs = true.
Proof. apply count_from_pos. lia. Qed.

(** What a sweep without errors has seen. *)
Lemma sweep_clean {W} {FS : Fs W} {CLK : Clock W} {PR : Processes W} {PDP : Libpdp W}
    {UT : UnicodeTables} {SHA : Sha256} astra cfg opts w w' report
    (Hrun : run_startup_checks astra cfg opts w = (w', Ok report))
    (Hclean : has_errors report = false) :
  Forall pem_present (ts_anchors (cfg_trust cfg) ++ ts_intermediates (cfg_trust cfg)) ∧
  Forall (service_ordered (so_pam_d_root opts)) STANDARD_SERVICES ∧
  (mac_runtime (cfg_mac cfg) = RuntimeRequiredMode →
   ∃ w1 w2, default (real_kernel_parsec_probe astra) (so_kernel_parsec_probe opts) w1 = (w2, KernelActive)).
Proof.
  unfold run_startup_checks in Hrun. peel Hrun w1 stack Hstack. peel Hrun w2 kernel Hk.
  peel Hrun w3 anch Ha. peel Hrun w4 ca Hca. peel Hrun w5 caps Hcaps. peel Hrun w6 host Hhost.
  injection Hrun as <- <-. rewrite !has_errors_app, !orb_false_iff in Hclean.
  destruct Hclean as (Hcs & Hcm & Hcan & _).
  unfold check_anchors in Ha. peel Ha w7 anc H1. peel Ha w8 int H2. injection Ha as <- <-.
  rewrite has_errors_app, orb_false_iff in Hcan. destruct Hcan as [Hc1 Hc2]. split_and!.
  - apply Forall_app; split; (eapply checks_clean; [apply check_pem_file_clean|done..]).
  - eapply checks_clean; [apply check_service_clean|done..].
  - intros Hm. unfold check_mac_runtime in Hcm. rewrite Hm in Hcm. unfold ask in Hk.
    destruct (default _ _ w1) as [w9 k] eqn:Hd. injection Hk as -> ->.
    destruct kernel; [by exists w1, w2|done..].
Qed.

(** A sweep without errors, which the daemon needs to start: every anchor and
    intermediate was there and not empty, every PAM service that could be read
    is in order, and with a required runtime the kernel enforces integrity. *)
Theorem startup_sound {W} {FS : Fs W} {CLK : Clock W} {PR : Processes W} {PDP : Libpdp W}
    {UT : UnicodeTables} {SHA : Sha256} astra cfg opts w w' report
    (Hrun : run_startup_checks astra cfg opts w = (w', Ok report))
    (Hclean : has_errors report = false) :
  Forall pem_present (ts_anchors (cfg_trust cfg) ++ ts_intermediates (cfg_trust cfg)) ∧
  Forall (service_ordered (so_pam_d_root opts)) STANDARD_SERVICES ∧
  (mac_runtime (cfg_mac cfg) = RuntimeRequiredMode →
   ∃ w1 w2, default (real_kernel_parsec_probe astra) (so_kernel_parsec_probe opts) w1 = (w2, KernelActive)).
Proof. by apply (sweep_clean astra cfg opts w w' report). Qed.

Lemma startup_sound_witness :
  Forall (pem_present (FS := ConfigSample.fs)) ["/ca.pem"] ∧
  Forall (service_ordered (FS := ConfigSample.fs) "/etc/pam.d") STANDARD_SERVICES ∧
  ∃ w1 w2, real_kernel_parsec_probe (PDP := StartupSample.pdp) true w1 = (w2, KernelActive).
Proof.
  destruct (StartupSample.sweep StartupSample.config) as [w' r] eqn:Hr.
  assert (match r with Ok report => has_errors report = false | _ => False end) as Hc.
  { apply (f_equal snd) in Hr. cbn [snd] in Hr. rewrite <-Hr. vm_compute. reflexivity. }
  destruct r as [report|e|]; [|done..].
  destruct (startup_sound true StartupSample.config startup_options_default _ w' report Hr Hc)
    as (H1 & H2 & H3). split_and!; [exact H1|exact H2|exact (H3 eq_refl)].
Defined.

(** A [-session] line, the form Debian ships for [pam_systemd], is not seen:
    a stack that runs the module before it passes without an error. *)
Theorem dash_session_not_seen path :
  let text := StartupSample.stack ["session required pam_certauth.so"; "-session optional pam_systemd.so"] in
  evaluate_service path text = [info "pam_stack_session_no_systemd" (AtPath path)].
Proof. vm_compute. reflexivity. Qed.
