(* ===== verification/DumpHostId.v ===== *)
(** * The host identity report ([dump_host_id.rs])

    The [dump-host-id] subcommand: every source is probed, the report is
    rendered as tab-separated text with a UTC time stamp, and written to
    standard output, to a file, or to a stick mounted for the purpose.  The
    date conversion is compared with the calendar, the report with its
    columns, and the mark of the active source with the identity the module
    uses. *)

From S2P Require Import Prelude Text Sys Errors Openssl Der Sample X509Ext Certificate HostBinding.
From S2P Require Import Proto Registry State Hooks RawConfig Config Exec Client Usb HostIdentity.
Local Open Scope Z_scope.

(** ** Time stamps *)

(** [{n:0w}]. *)
Definition fmt_pad (width : nat) (n : Z) : string :=
  let body := fmt_nat 10 (Z.abs n) in
  if decide (n < 0) then "-" +:+ text_of (replicate (width - 1 - length body) (zb 0x30) ++ body)
  else text_of (replicate (width - length body) (zb 0x30) ++ body).

(** [as i32]. *)
Definition as_i32 (n : Z) : Z := (n + 2 ^ 31) mod 2 ^ 32 - 2 ^ 31.

Record Utc := MkUtc {
  u_year : Z;
  u_month : Z;
  u_day : Z;
  u_hour : Z;
  u_minute : Z;
  u_second : Z;
}.

(** The civil date of a day, counted from 1 March of the year 0. *)
Definition civil_of_z (z : Z) : Z * Z * Z :=
  let era := Z.quot (if decide (0 ≤ z) then z else z - 146096) 146097 in
  let doe := z - era * 146097 in
  let yoe := Z.quot (doe - Z.quot doe 1460 + Z.quot doe 36524 - Z.quot doe 146096) 365 in
  let y := yoe + era * 400 in
  let doy := doe - (365 * yoe + Z.quot yoe 4 - Z.quot yoe 100) in
  let mp := Z.quot (5 * doy + 2) 153 in
  let d := doy - Z.quot (153 * mp + 2) 5 + 1 in
  let m := if decide (mp < 10) then mp + 3 else mp - 9 in
  ((if decide (m ≤ 2) then y + 1 else y), m, d).

Definition epoch_to_utc (secs : Z) : Utc :=
  let days := secs / 86400 in
  let seconds_of_day := secs mod 86400 in
  let '(y, m, d) := civil_of_z (days + 719468) in
  MkUtc (as_i32 y) m d (seconds_of_day / 3600) (seconds_of_day mod 3600 / 60) (seconds_of_day mod 60).

(** [duration_since(UNIX_EPOCH)]: a time before the epoch counts as the epoch. *)
Definition epoch_secs (now : Z) : Z := if decide (0 ≤ now) then now / NANOS_PER_SEC else 0.

Definition utc_stamp_compact (now : Z) : string :=
  let u := epoch_to_utc (epoch_secs now) in
  fmt_pad 4 (u_year u) +:+ fmt_pad 2 (u_month u) +:+ fmt_pad 2 (u_day u) +:+ "T" +:+
  fmt_pad 2 (u_hour u) +:+ fmt_pad 2 (u_minute u) +:+ fmt_pad 2 (u_second u) +:+ "Z".

Definition utc_iso8601 (now : Z) : string :=
  let u := epoch_to_utc (epoch_secs now) in
  fmt_pad 4 (u_year u) +:+ "-" +:+ fmt_pad 2 (u_month u) +:+ "-" +:+ fmt_pad 2 (u_day u) +:+ "T" +:+
  fmt_pad 2 (u_hour u) +:+ ":" +:+ fmt_pad 2 (u_minute u) +:+ ":" +:+ fmt_pad 2 (u_second u) +:+ "Z".

(** ** Errors and destinations *)

(** The texts inside [DumpError::Usb], as values. *)
Inductive UsbDumpFailure : Type :=
| EnumerateFailed (e : UsbError)
| NoWritablePartition
| PartitionHasNoFsType
| DumpMkdirFailed (path : string) (e : IoError)
| DumpMountFailed (dev fs target : string) (errno : Z)
| DumpOpenFailed (path : string) (e : IoError)
| DumpWriteFailed (path : string) (e : IoError)
| DumpSyncFailed (path : string) (e : IoError)
| DumpUmountFailed (target : string) (errno : Z).

Inductive DumpError : Type :=
| DumpConfig (path : string) (e : Error)
| NoActiveHostId
| DumpOutput (path : string) (e : IoError)
| DumpUsb (why : UsbDumpFailure).

Inductive DumpDestination : Type :=
| ToStdout
| ToFile (path : string)
| ToUsb (partition_devnode written_path : string).

Record DumpHostIdOptions := MkDumpOptions {
  do_config : string;
  do_output : option string;
  do_usb : bool;
  do_fs_root : option string;
}.

(** The arguments are the options without a root of their own. *)
Definition options_of_args (config : string) (output : option string) (usb : bool) : DumpHostIdOptions :=
  MkDumpOptions config output usb None.

(** ** The report *)

(** [{:?}] of one character that is not ASCII. *)
Class UnicodeDebug := debug_char : list byte → list byte.

(** [{:?}] of an ASCII character inside a string. *)
Definition debug_ascii (b : byte) : list byte :=
  let z := bz b in
  if decide (z = 0) then bytes_of "\0"
  else if decide (z = 9) then bytes_of "\t"
  else if decide (z = 10) then bytes_of "\n"
  else if decide (z = 13) then bytes_of "\r"
  else if decide (z = 0x22) then [zb 0x5C; zb 0x22]
  else if decide (z = 0x5C) then [zb 0x5C; zb 0x5C]
  else if decide (z < 0x20 ∨ z = 0x7F) then bytes_of ("\u{" +:+ fmt_hex z +:+ "}")
  else [b].

Fixpoint debug_fuel `{UnicodeDebug} (fuel : nat) (bs : list byte) : list byte :=
  match fuel, bs with
  | S f, b :: r =>
      if in_range 0x00 0x7F b then debug_ascii b ++ debug_fuel f r
      else let n := (utf8_chunk bs).1 in debug_char (take n bs) ++ debug_fuel f (drop n bs)
  | _, _ => []
  end.

Definition str_debug `{UnicodeDebug} (s : string) : string :=
  text_of ([zb 0x22] ++ debug_fuel (length (bytes_of s)) (bytes_of s) ++ [zb 0x22]).

(** [Display] of the errors a source answers with. *)
Definition fetch_text `{UnicodeDebug} (e : FetchError) : string :=
  match e with
  | FetchRead path source => "failed to read " +:+ str_debug path +:+ ": " +:+ io_text source
  | FetchEmpty kind => "host identity source " +:+ source_kind_debug kind +:+ " yielded empty value"
  | CommandFailed stderr code =>
      "host identity command failed with code " +:+
      match code with Some c => "Some(" +:+ fmt_dec c +:+ ")" | None => "None" end +:+ ": " +:+ stderr
  | CommandTimeout => "host identity command timed out"
  end.

(** A probe with the reason as the text it is reported with. *)
Definition Probed : Type := HostIdSourceKind * (string + ResolvedHostId).

Definition probed `{UnicodeDebug} (p : ProbeResult) : Probed :=
  (pr_source p,
   match pr_outcome p with
   | inr r => inr r
   | inl (Some e) => inl (fetch_text e)
   | inl None => inl "empty after normalization"
   end).

Definition TAB : byte := zb 9.
Definition LF : byte := zb 10.
Definition CR : byte := zb 13.

Definition sanitize_field (s : string) : string :=
  text_of ((λ b, if decide (b = TAB ∨ b = LF ∨ b = CR) then zb 0x20 else b) <$> bytes_of s).

(** One line: the columns with tabs between them, and a line feed. *)
Definition tsv_line (cols : list string) : string :=
  String.concat (text_of [TAB]) cols +:+ text_of [LF].

Definition tsv_columns {E} (active_kind : option HostIdSourceKind) (p : Probed) : res E (list string) :=
  let active := if bool_decide (active_kind = Some p.1) then "yes" else "no" in
  match p.2 with
  | inr r =>
      let? prefix := hash_prefix r in
      Ok [source_kind_to_string p.1; "ok"; ri_hash_hex r; prefix; sanitize_field (ri_raw r);
          sanitize_field (ri_normalized r); active; "-"]
  | inl reason =>
      Ok [source_kind_to_string p.1; "err"; "-"; "-"; "-"; "-"; active; sanitize_field reason]
  end.

Definition tsv_header : list string :=
  ["source"; "status"; "hash_hex"; "hash_prefix"; "raw"; "normalized";
   "active_under_current_config"; "reason"].

Definition render_tsv {E} (probes : list Probed) (hostname ts : string)
    (active_kind : option HostIdSourceKind) : res E string :=
  let? rows := res_map (tsv_columns active_kind) probes in
  Ok (("# pam-certauth host identity probe — " +:+ hostname +:+ " — " +:+ ts) +:+ text_of [LF] +:+
      "# probes EVERY known source kind (not just [host_identity].sources)." +:+ text_of [LF] +:+
      "# active_under_current_config=yes marks the source the daemon currently picks." +:+
      text_of [LF] +:+
      tsv_line tsv_header +:+ String.concat "" (tsv_line <$> rows)).

Definition fanout_cfg (validated : HostIdentitySection) : HostIdentitySection :=
  MkHostIdentitySection
    ([MachineId; DmiBoardSerial; DmiSystemUuid; DmiSystemSerial; Hostname] ++
     match hi_custom_command validated with Some _ => [CustomCommand] | None => [] end)
    (hi_fallback validated) (hi_override_value validated) (hi_custom_command validated)
    (hi_custom_command_timeout validated).

Definition override_probe `{UnicodeTables, Sha256} (override_value : option string) : Probed :=
  (Override,
   match override_value with
   | None => inl "no [host_identity].override configured"
   | Some raw =>
       let normalized := normalize_host_id raw in
       if decide (normalized = "") then inl "empty after normalization"
       else inr (resolved Override raw normalized)
   end).

(** ** Writing it *)

(** The system calls of the subcommand that no other component makes. *)
Class DumpSys (W : Type) := {
  DumpFile : Type;
  (** [OpenOptions::new().write(true).create(true).truncate(true).open(_)]. *)
  open_truncated : string → W → W * (IoError + DumpFile);
  dump_write_all : DumpFile → list byte → W → W * (IoError + unit);
  dump_sync_all : DumpFile → W → W * (IoError + unit);
  dump_close : DumpFile → W → W;
  set_permissions : string → Z → W → W * (IoError + unit);
  fs_rename : string → string → W → W * (IoError + unit);
  fs_remove_dir_all : string → W → W * (IoError + unit);
  (** [umount(2)]; [getpid(2)]; [std::env::var("HOSTNAME")]. *)
  sys_umount : string → W → W * (Z + unit);
  process_id : W → W * Z;
  env_hostname : W → W * option string;
  (** The standard output. *)
  stdout_write : string → W → W * (IoError + unit);
}.

Section dump.
Context {W : Type} {FS : Fs W} {CLK : Clock W} {PR : Processes W} {UD : Udev W} {MS : MountSys W}.
Context {WC : WallClock W} {DS : DumpSys W} {TM : Toml} {RX : RegexCrate}.
Context {UT : UnicodeTables} {UDB : UnicodeDebug} {SHA : Sha256}.

Definition hostname_of_file {E} (path : string) : io W E (option string) :=
  let! s := io_ok (read_to_string path) in
  fret (match s with
        | Some s => if decide (str_trim s = "") then None else Some (str_trim s)
        | None => None
        end).

Definition local_hostname {E} : io W E string :=
  let! a := hostname_of_file "/proc/sys/kernel/hostname" in
  match a with
  | Some name => fret name
  | None =>
      let! b := hostname_of_file "/etc/hostname" in
      match b with
      | Some name => fret name
      | None => let! env := ask env_hostname in fret (default "unknown" env)
      end
  end.

(** The file is closed where its scope ends, also on the way out of an error. *)
Definition write_file {E} (on_open on_write on_sync : IoError → E) (path content : string)
    : io W E unit :=
  let! f := io_map_err on_open (call (open_truncated path)) in
  let! r := io_try (do! io_map_err on_write (call (dump_write_all f (bytes_of content)));
                    io_map_err on_sync (call (dump_sync_all f))) in
  let! _ := ask (λ w, (dump_close f w, tt)) in
  lift (of_sum r).

Definition write_atomic (path content : string) : io W IoError unit :=
  let parent := default "." (path_parent path) in
  let! file_name := lift (ok_or (path_file_name path) (MkIoError KindInvalidInput "no file name")) in
  let tmp := path_join parent ("." +:+ file_name +:+ ".tmp") in
  do! write_file id id id tmp content;
  let! _ := ask (set_permissions tmp 0x1A4) in
  call (fs_rename tmp path).

Definition pick_usb_partition : io W DumpError UsbDevice :=
  let! devs := io_map_err (λ e, DumpUsb (EnumerateFailed e)) (enumerate_once None) in
  lift (ok_or (List.find (λ d, fs_allowed (dev_fs_type d)) devs) (DumpUsb NoWritablePartition)).

Definition DUMP_BASE : string := "/run/pam_certauth/host-id-dump".

Definition dump_mountpoint (pid : Z) : string := path_join DUMP_BASE ("mnt-" +:+ fmt_dec pid).

Definition dump_mkdir (path : string) : io W DumpError unit :=
  io_map_err (λ e, DumpUsb (DumpMkdirFailed path e)) (call (fs_create_dir_all path)).

Definition dump_flags : Z := Z.lor (Z.lor MS_NOSUID MS_NODEV) MS_NOEXEC.

Definition dump_mount (dev fs mp : string) : io W DumpError unit := λ w,
  match sys_mount dev mp fs dump_flags w with
  | (w1, inr tt) => (w1, Ok tt)
  | (w1, inl errno) => ((fs_remove_dir mp w1).1, Err (DumpUsb (DumpMountFailed dev fs mp errno)))
  end.

Definition write_target (target content : string) : io W DumpError unit :=
  write_file (λ e, DumpUsb (DumpOpenFailed target e)) (λ e, DumpUsb (DumpWriteFailed target e))
    (λ e, DumpUsb (DumpSyncFailed target e)) target content.

Definition write_to_usb (dev : UsbDevice) (filename content : string) : io W DumpError string :=
  let! fs := lift (ok_or (dev_fs_type dev) (DumpUsb PartitionHasNoFsType)) in
  do! dump_mkdir DUMP_BASE;
  let! pid := ask process_id in
  let mp := dump_mountpoint pid in
  let! there := path_exists mp in
  let! _ := ask (λ w, if there : bool then ((fs_remove_dir_all mp w).1, tt) else (w, tt)) in
  do! dump_mkdir mp;
  do! dump_mount (devnode dev) fs mp;
  let target := path_join mp filename in
  let! write_res := io_try (write_target target content) in
  let! umount_res := ask (sys_umount mp) in
  let! _ := ask (fs_remove_dir mp) in
  do! lift (of_sum write_res);
  do! lift (map_err (λ errno, DumpUsb (DumpUmountFailed mp errno)) (of_sum umount_res));
  fret target.

(** The probes of the report: every source, then the override.  Probing answers no
    error ([probe_all_no_err]). *)
Definition report_probes (cfg : HostIdentitySection) (fs_root : string) : io W DumpError (list Probed) :=
  let! probes := io_map_err (λ _, NoActiveHostId) (probe_all (from_validated (fanout_cfg cfg) fs_root)) in
  fret ((probed <$> probes) ++ [override_probe (hi_override_value cfg)]).

Definition active_source (cfg : HostIdentitySection) (fs_root : string)
    : io W DumpError (option HostIdSourceKind) :=
  let! r := io_ok (resolve (from_validated cfg fs_root)) in fret (ri_source_kind <$> r).

Definition has_ok (probes : list Probed) : bool :=
  existsb (λ p, match p.2 with inr _ => true | inl _ => false end) probes.

Definition dump_run (astra : bool) (opts : DumpHostIdOptions) : io W DumpError DumpDestination :=
  let! validated := io_map_err (DumpConfig (do_config opts)) (load_validated_config astra (do_config opts)) in
  let fs_root := default "/" (do_fs_root opts) in
  let! probes := report_probes (cfg_host_identity validated) fs_root in
  let! active_kind := active_source (cfg_host_identity validated) fs_root in
  if negb (has_ok probes) then lift (Err NoActiveHostId) else
  let! hostname := local_hostname in
  let! now := ask system_time_now in
  let! tsv := lift (render_tsv probes hostname (utc_iso8601 now) active_kind) in
  match do_output opts with
  | Some path =>
      do! io_map_err (DumpOutput path) (write_atomic path tsv);
      fret (ToFile path)
  | None =>
      if do_usb opts then
        let! dev := pick_usb_partition in
        let filename := "host-ids-" +:+ hostname +:+ "-" +:+ utc_stamp_compact now +:+ ".tsv" in
        let! written := write_to_usb dev filename tsv in
        fret (ToUsb (devnode dev) written)
      else
        let! r := ask (stdout_write tsv) in
        match r with
        | inr _ => fret ToStdout
        | inl _ => lift Panic
        end
  end.

(** [run_cli]: the line on standard error, and the exit code. *)
Inductive CliLine : Type :=
| NoLine
| WroteLine (path : string)
| WroteOnLine (path dev : string)
| ErrorLine (e : DumpError).

Definition run_cli (astra : bool) (config : string) (output : option string) (usb : bool)
    : io W DumpError (CliLine * Z) := λ w,
  match dump_run astra (options_of_args config output usb) w with
  | (w', Ok ToStdout) => (w', Ok (NoLine, 0))
  | (w', Ok (ToFile p)) => (w', Ok (WroteLine p, 0))
  | (w', Ok (ToUsb dev p)) => (w', Ok (WroteOnLine p dev, 0))
  | (w', Err e) => (w', Ok (ErrorLine e, 1))
  | (w', Panic) => (w', Panic)
  end.

End dump.

(** ** The calendar *)

Definition leap (y : Z) : bool :=
  bool_decide (y mod 4 = 0) && (negb (bool_decide (y mod 100 = 0)) || bool_decide (y mod 400 = 0)).

Definition days_in_month (y m : Z) : Z :=
  if decide (m = 2) then if leap y then 29 else 28
  else if decide (m = 4 ∨ m = 6 ∨ m = 9 ∨ m = 11) then 30 else 31.

Definition next_day (date : Z * Z * Z) : Z * Z * Z :=
  let '(y, m, d) := date in
  if decide (d < days_in_month y m) then (y, m, d + 1)
  else if decide (m < 12) then (y, m + 1, 1)
  else (y + 1, 1, 1).

(** The date [n] days after 1 January 1970. *)
Definition calendar (n : nat) : Z * Z * Z := Nat.iter n next_day (1970, 1, 1).

(** Dates one cycle of the calendar apart. *)
Definition shift_years (k : Z) (date : Z * Z * Z) : Z * Z * Z :=
  let '(y, m, d) := date in (y + 400 * k, m, d).

Lemma leap_shift y k : leap (y + 400 * k) = leap y.
Proof.
  unfold leap.
  replace ((y + 400 * k) mod 4) with (y mod 4)
    by (replace (y + 400 * k) with (y + (100 * k) * 4) by lia; by rewrite Z_mod_plus_full).
  replace ((y + 400 * k) mod 100) with (y mod 100)
    by (replace (y + 400 * k) with (y + (4 * k) * 100) by lia; by rewrite Z_mod_plus_full).
  replace ((y + 400 * k) mod 400) with (y mod 400)
    by (replace (y + 400 * k) with (y + k * 400) by lia; by rewrite Z_mod_plus_full).
  done.
Qed.

Lemma next_day_shift k date : next_day (shift_years k date) = shift_years k (next_day date).
Proof.
  destruct date as [[y m] d]. unfold next_day, shift_years, days_in_month. rewrite leap_shift.
  destruct (decide (d < _)); [done|]. destruct (decide (m < 12)); [done|].
  by replace (y + 400 * k + 1) with (y + 1 + 400 * k) by lia.
Qed.

Lemma civil_shift z : 0 ≤ z → civil_of_z z = shift_years (z / 146097) (civil_of_z (z mod 146097)).
Proof.
  intros Hz. pose proof (Z.mod_pos_bound z 146097 ltac:(lia)) as Hm.
  unfold civil_of_z. rewrite (decide_True (P := 0 ≤ z)), (decide_True (P := 0 ≤ z mod 146097)) by lia.
  rewrite (Z.quot_div_nonneg z), (Z.quot_small (z mod 146097)) by lia.
  replace (z - z / 146097 * 146097) with (z mod 146097)
    by (pose proof (Z_div_mod_eq_full z 146097); lia).
  replace (z mod 146097 - 0 * 146097) with (z mod 146097) by lia.
  generalize (z mod 146097). intros doe. cbv zeta.
  generalize (Z.quot (doe - Z.quot doe 1460 + Z.quot doe 36524 - Z.quot doe 146096) 365). intros yoe.
  generalize (doe - (365 * yoe + Z.quot yoe 4 - Z.quot yoe 100)). intros doy.
  generalize (Z.quot (5 * doy + 2) 153). intros mp. generalize (z / 146097). intros k. clear.
  set (m := if decide (mp < 10) then mp + 3 else mp - 9). unfold shift_years.
  destruct (decide (m ≤ 2)); do 2 f_equal; lia.
Qed.

(** Years of a cycle begin in March: the first and the last day of one. *)
Definition year_start (y : Z) : Z := 365 * y + Z.quot y 4 - Z.quot y 100.
Definition year_end (y : Z) : Z := if decide (y = 399) then 146096 else year_start (y + 1) - 1.

Definition scaled (doe : Z) : Z := doe - Z.quot doe 1460 + Z.quot doe 36524 - Z.quot doe 146096.
Definition year_of (doe : Z) : Z := Z.quot (scaled doe) 365.

Definition month_day (doy : Z) : Z * Z :=
  let mp := Z.quot (5 * doy + 2) 153 in
  (if decide (mp < 10) then mp + 3 else mp - 9, doy - Z.quot (153 * mp + 2) 5 + 1).

Definition date_of (y doy : Z) : Z * Z * Z :=
  let '(m, d) := month_day doy in ((if decide (m ≤ 2) then y + 1 else y), m, d).

Lemma civil_date_of doe :
  0 ≤ doe < 146097 → civil_of_z doe = date_of (year_of doe) (doe - year_start (year_of doe)).
Proof.
  intros Hd. unfold civil_of_z. rewrite (decide_True (P := 0 ≤ doe)), (Z.quot_small doe 146097) by lia.
  replace (doe - 0 * 146097) with doe by lia. fold (scaled doe). fold (year_of doe).
  replace (year_of doe + 0 * 400) with (year_of doe) by lia. by fold (year_start (year_of doe)).
Qed.

Lemma scaled_step a : 0 ≤ a < 146096 → scaled a ≤ scaled (a + 1).
Proof.
  intros Ha. unfold scaled. rewrite !Z.quot_div_nonneg by lia.
  pose proof (Z.div_le_mono a (a + 1) 36524 ltac:(lia) ltac:(lia)).
  assert ((a + 1) / 1460 ≤ a / 1460 + 1).
  { rewrite <-(Z.div_add a 1 1460) by lia. apply Z.div_le_mono; lia. }
  destruct (decide (a = 146095)) as [->|Hn]; [done|].
  rewrite (Z.div_small a 146096), (Z.div_small (a + 1) 146096) by lia. lia.
Qed.

Lemma year_of_mono a b : 0 ≤ a ≤ b → b < 146097 → year_of a ≤ year_of b.
Proof.
  intros Ha Hb. assert (scaled a ≤ scaled b) as Hs.
  { destruct Ha as [Ha Hab]. revert b Hab Hb. refine (Zlt_lower_bound_ind (λ b, b < 146097 → scaled a ≤ scaled b) a _). intros b IH Hab Hb.
    destruct (decide (a = b)) as [->|Hn]; [lia|]. pose proof (IH (b - 1) ltac:(lia) ltac:(lia)).
    pose proof (scaled_step (b - 1) ltac:(lia)) as Hst. replace (b - 1 + 1) with b in Hst by lia. lia. }
  unfold year_of. apply Z.quot_le_mono; lia.
Qed.

(** The years of a cycle, and the days of a year, checked one by one. *)
Definition year_ok (y : Z) : bool :=
  (year_of (year_start y) =? y) && (year_of (year_end y) =? y) &&
  (year_end y - year_start y =? if leap (y + 1) then 365 else 364) && (0 <=? year_start y) && (year_end y <=? 146096).

Definition day_ok (doy : Z) : bool :=
  let '(m, d) := month_day doy in
  let '(m', d') := month_day (doy + 1) in
  (1 <=? m) && (m <=? 12) && (1 <=? d) &&
  if decide (m = 2) then (m' =? 2) && (d' =? d + 1) && (d =? doy - 336)
  else if decide (d < days_in_month 0 m) then (m' =? m) && (d' =? d + 1)
  else if decide (m < 12) then (m' =? m + 1) && (d' =? 1) else (m' =? 1) && (d' =? 1).

Lemma upto_forallb (f : Z → bool) (n : nat) k :
  forallb f (Z.of_nat <$> seq 0 n) = true → 0 ≤ k < Z.of_nat n → f k = true.
Proof.
  intros H Hk. apply (proj1 (forallb_forall _ _) H). apply list_elem_of_In, list_elem_of_fmap.
  exists (Z.to_nat k). rewrite elem_of_seq. lia.
Qed.

Lemma years_ok y : 0 ≤ y < 400 →
  year_of (year_start y) = y ∧ year_of (year_end y) = y ∧
  year_end y - year_start y = (if leap (y + 1) then 365 else 364) ∧ 0 ≤ year_start y ∧ year_end y ≤ 146096.
Proof.
  intros Hy. assert (year_ok y = true) as H.
  { apply (upto_forallb _ 400); [vm_compute; reflexivity|done]. }
  unfold year_ok in H. rewrite !andb_true_iff, !Z.eqb_eq, !Z.leb_le in H. tauto.
Qed.

Lemma days_ok doy m d m' d' :
  0 ≤ doy ≤ 364 → month_day doy = (m, d) → month_day (doy + 1) = (m', d') →
  1 ≤ m ≤ 12 ∧
  if decide (m = 2) then m' = 2 ∧ d' = d + 1 ∧ d = doy - 336
  else if decide (d < days_in_month 0 m) then m' = m ∧ d' = d + 1
  else if decide (m < 12) then m' = m + 1 ∧ d' = 1 else m' = 1 ∧ d' = 1.
Proof.
  intros Hd Hm Hm'. assert (day_ok doy = true) as H.
  { apply (upto_forallb _ 365); [vm_compute; reflexivity|lia]. }
  unfold day_ok in H. rewrite Hm, Hm' in H.
  rewrite !andb_true_iff, !Z.leb_le in H. destruct H as [[[H1 H2] _] H]. split; [lia|].
  repeat case_match; rewrite !andb_true_iff, !Z.eqb_eq in H; lia.
Qed.

Lemma year_of_spec doe : 0 ≤ doe < 146097 →
  0 ≤ year_of doe < 400 ∧ year_start (year_of doe) ≤ doe ≤ year_end (year_of doe).
Proof.
  intros Hd. set (y := year_of doe).
  assert (0 ≤ y < 400) as Hy.
  { pose proof (year_of_mono 0 doe ltac:(lia) ltac:(lia)) as H1.
    pose proof (year_of_mono doe 146096 ltac:(lia) ltac:(lia)) as H2.
    change (year_of 0) with 0 in H1. change (year_of 146096) with 399 in H2. lia. }
  split; [done|]. split; apply Z.nlt_ge; intros Hlt.
  - destruct (decide (y = 0)) as [He|Hn]; [rewrite He in Hlt; change (year_start 0) with 0 in Hlt; lia|].
    pose proof (years_ok (y - 1) ltac:(lia)) as (_ & H & _).
    unfold year_end in H. rewrite decide_False in H by lia. replace (y - 1 + 1) with y in H by lia.
    pose proof (years_ok y Hy) as (_ & _ & Hlen & ? & ?).
    pose proof (year_of_mono doe (year_start y - 1) ltac:(lia) ltac:(destruct (leap (y + 1)); lia)). lia.
  - unfold year_end in Hlt. destruct (decide (y = 399)) as [He|Hn]; [lia|].
    pose proof (years_ok (y + 1) ltac:(lia)) as (H & _ & _ & ? & ?).
    pose proof (year_of_mono (year_start (y + 1)) doe ltac:(lia) ltac:(lia)). lia.
Qed.

Lemma next_day_in_year y doy :
  0 ≤ doy → doy + 1 ≤ (if leap (y + 1) then 365 else 364) → next_day (date_of y doy) = date_of y (doy + 1).
Proof.
  intros H0 H1. unfold date_of.
  destruct (month_day doy) as [m d] eqn:Hm, (month_day (doy + 1)) as [m' d'] eqn:Hm'.
  assert (doy ≤ 364) as Hle by (destruct (leap (y + 1)); lia).
  pose proof (days_ok doy m d m' d' ltac:(lia) Hm Hm') as [Hr H]. unfold next_day.
  destruct (decide (m = 2)) as [->|Hn].
  - destruct H as (-> & -> & ->). rewrite (decide_True (P := 2 ≤ 2)) by lia.
    unfold days_in_month. rewrite (decide_True (P := 2 = 2)) by done.
    rewrite decide_True; [done|]. destruct (leap (y + 1)); lia.
  - assert (∀ x, days_in_month x m = days_in_month 0 m) as Hx
      by (intros x; unfold days_in_month; by rewrite !(decide_False (P := m = 2))).
    rewrite Hx. destruct (decide (d < days_in_month 0 m)) as [Hlt|Hge]; [by destruct H as [-> ->]|].
    destruct (decide (m < 12)) as [Hm12|Hm12]; destruct H as [-> ->].
    + destruct (decide (m ≤ 2)); [rewrite (decide_True (P := m + 1 ≤ 2))|rewrite (decide_False (P := m + 1 ≤ 2))]; first [lia|done].
    + rewrite (decide_False (P := m ≤ 2)), (decide_True (P := 1 ≤ 2)) by lia. done.
Qed.

Lemma date_of_end y :
  0 ≤ y < 400 → next_day (date_of y (year_end y - year_start y)) = (y + 1, 3, 1).
Proof.
  intros Hy. pose proof (years_ok y Hy) as (_ & _ & -> & _). unfold date_of.
  destruct (leap (y + 1)) eqn:Hl.
  - change (month_day 365) with (2, 29). cbn [fst snd]. rewrite (decide_True (P := 2 ≤ 2)) by lia.
    unfold next_day, days_in_month. by rewrite Hl.
  - change (month_day 364) with (2, 28). cbn [fst snd]. rewrite (decide_True (P := 2 ≤ 2)) by lia.
    unfold next_day, days_in_month. by rewrite Hl.
Qed.

Lemma civil_step_in_cycle doe :
  0 ≤ doe < 146096 → civil_of_z (doe + 1) = next_day (civil_of_z doe).
Proof.
  intros Hd. rewrite !civil_date_of by lia.
  destruct (year_of_spec doe ltac:(lia)) as [Hy Hb]. set (y := year_of doe) in *.
  pose proof (years_ok y Hy) as (_ & _ & Hlen & H0 & _).
  destruct (decide (doe = year_end y)) as [He|Hn].
  - assert (y ≠ 399) by (intros E; unfold year_end in He; rewrite decide_True in He by done; lia).
    assert (doe + 1 = year_start (y + 1)) as Hs by (unfold year_end in He; rewrite decide_False in He by done; lia).
    pose proof (years_ok (y + 1) ltac:(lia)) as (Hy1 & _).
    rewrite Hs, Hy1, He, date_of_end by done. by rewrite Z.sub_diag.
  - assert (year_of (doe + 1) = y) as ->.
    { pose proof (years_ok y Hy) as (_ & Hye & _ & _ & ?).
      pose proof (year_of_mono doe (doe + 1) ltac:(lia) ltac:(lia)) as Hl. fold y in Hl.
      pose proof (year_of_mono (doe + 1) (year_end y) ltac:(lia) ltac:(lia)). lia. }
    replace (doe + 1 - year_start y) with (doe - year_start y + 1) by lia.
    symmetry. apply next_day_in_year; lia.
Qed.

(** The conversion follows the calendar from any day on. *)
Lemma civil_step z : 0 ≤ z → civil_of_z (z + 1) = next_day (civil_of_z z).
Proof.
  intros Hz. rewrite (civil_shift z), (civil_shift (z + 1)), next_day_shift by lia.
  pose proof (Z.mod_pos_bound z 146097 ltac:(lia)) as Hm.
  destruct (decide (z mod 146097 = 146096)) as [He|Hn].
  - assert (z + 1 = (z / 146097 + 1) * 146097 + 0) as Hs by (pose proof (Z_div_mod_eq_full z 146097); lia).
    rewrite Hs at 1 2. rewrite (Z.add_comm (_ * _)), Z_div_plus_full, Z_mod_plus_full, He by lia.
    change (0 / 146097) with 0. change (civil_of_z (0 mod 146097)) with (0, 3, 1).
    change (next_day (civil_of_z 146096)) with (400, 3, 1). unfold shift_years. do 2 f_equal. lia.
  - assert (z + 1 = (z mod 146097 + 1) + z / 146097 * 146097) as Hs
      by (pose proof (Z_div_mod_eq_full z 146097); lia).
    rewrite Hs at 1 2. rewrite Z_div_plus_full, Z_mod_plus_full by lia.
    rewrite Z.div_small, Z.mod_small, civil_step_in_cycle by lia. by rewrite Z.add_0_l.
Qed.

Lemma civil_calendar n : civil_of_z (Z.of_nat n + 719468) = calendar n.
Proof.
  induction n as [|n IH]; [reflexivity|].
  change (calendar (S n)) with (next_day (calendar n)). rewrite <-IH, <-civil_step by lia. f_equal. lia.
Qed.

Lemma civil_year_bound z y m d :
  0 ≤ z → civil_of_z z = (y, m, d) → 0 ≤ y ≤ 400 * (z / 146097) + 400.
Proof.
  intros Hz. pose proof (Z.mod_pos_bound z 146097 ltac:(lia)) as Hm.
  pose proof (Z.div_pos z 146097 ltac:(lia) ltac:(lia)).
  rewrite civil_shift, civil_date_of by lia. unfold date_of.
  destruct (year_of_spec _ Hm) as [Hy _]. destruct (month_day _) as [m' d']. unfold shift_years.
  intros [= <- <- <-]. destruct (decide (m' ≤ 2)); lia.
Qed.

(** C33: The time stamp of the report is the calendar's: the date is the one
    reached by counting days from 1 January 1970 through months of 28 to 31
    days and leap years, and the time of day adds up to the second, for every
    instant whose year fits the signed 32-bit year of the result. *)
Theorem epoch_to_utc_calendar (secs : Z) (Hs : 0 ≤ secs ≤ 780000000000 * 86400) :
  let u := epoch_to_utc secs in
  (u_year u, u_month u, u_day u) = calendar (Z.to_nat (secs / 86400)) ∧
  secs = secs / 86400 * 86400 + u_hour u * 3600 + u_minute u * 60 + u_second u ∧
  0 ≤ u_hour u < 24 ∧ 0 ≤ u_minute u < 60 ∧ 0 ≤ u_second u < 60.
Proof.
  pose proof (Z.div_pos secs 86400 ltac:(lia) ltac:(lia)).
  assert (secs / 86400 ≤ 780000000000) by (apply Z.div_le_upper_bound; lia).
  pose proof (civil_calendar (Z.to_nat (secs / 86400))) as Hc. rewrite Z2Nat.id in Hc by lia.
  unfold epoch_to_utc. destruct (civil_of_z _) as [[y m] d] eqn:He. cbn.
  apply civil_year_bound in He; [|lia].
  assert ((secs / 86400 + 719468) / 146097 ≤ 5338924) by (apply Z.div_le_upper_bound; lia).
  split; [|Z.to_euclidean_division_equations; lia].
  rewrite <-Hc. unfold as_i32. rewrite Z.mod_small by lia. do 2 f_equal. lia.
Qed.

Lemma epoch_to_utc_calendar_witness :
  epoch_to_utc 951782399 = MkUtc 2000 2 28 23 59 59 ∧
  (2000, 2, 28) = calendar (Z.to_nat (951782399 / 86400)).
Proof.
  split; [reflexivity|]. exact (proj1 (epoch_to_utc_calendar 951782399 ltac:(lia))).
Defined.

(** ** The report and the module *)

Section report_proofs.
Context {W : Type} {FS : Fs W} {CLK : Clock W} {PR : Processes W}.
Context {UT : UnicodeTables} {UDB : UnicodeDebug} {SHA : Sha256}.

(** Where looking changes nothing, each probe says what the source says. *)
Lemma probe_all_stable fs_root sources w :
  Forall (source_stable fs_root w) sources →
  ∃ probes,
    io_map (λ s, let! o := probe_source fs_root s in fret (MkProbe (source_kind s) o)) sources w
      = (w, Ok probes) ∧
    Forall2 (λ s p, pr_source p = source_kind s ∧ probe_source fs_root s w = (w, Ok (pr_outcome p)))
      sources probes.
Proof.
  induction 1 as [|s rest [Hw Hs] _ (probes & IH & Hall)]; [by exists []|].
  assert (∃ o, probe_source fs_root s w = (w, Ok o)) as [o Ho].
  { unfold probe_source. destruct (fetch s fs_root w) as [w1 [raw|e|]]; simpl in *; [| |done]; subst; eauto. }
  exists (MkProbe (source_kind s) o :: probes). split; [|by constructor].
  cbn [io_map]. unfold fbind, fret in IH |- *. by rewrite Ho, IH.
Qed.

Lemma fanout_sources cfg s kind :
  s ∈ source_of cfg kind → s ∈ hr_sources (from_validated (fanout_cfg cfg) "/").
Proof.
  intros Hs. cbn [from_validated hr_sources]. apply list_elem_of_In, in_flat_map. exists kind.
  split; [|by apply list_elem_of_In; destruct kind]. apply list_elem_of_In.
  cbn [fanout_cfg hi_sources]. destruct kind; try (by repeat constructor).
  - simpl in Hs. apply elem_of_app. right. destruct (hi_custom_command cfg); [by left|by apply not_elem_of_nil in Hs].
  - by apply not_elem_of_nil in Hs.
Qed.

Lemma resolve_by_chain_first cfg s rest w o :
  flat_map (source_of cfg) (hi_sources cfg) = s :: rest →
  Forall (source_stable "/" w) (s :: rest) →
  probe_source "/" s w = (w, Ok (inr o)) →
  resolve_by_chain cfg w = (w, Ok (ri_source_kind o, ri_raw o, ri_hash_hex o)).
Proof.
  intros Hs Hstable Ho. unfold resolve_by_chain, probe_all, resolve, from_validated.
  cbn [hr_sources hr_fallback hr_fs_root]. rewrite Hs.
  destruct (probe_all_stable "/" (s :: rest) w Hstable) as (probes & Hp & _).
  unfold fbind at 1. rewrite Hp. apply probes_shape in Hp. unfold fbind at 1. rewrite (prefixes_ok probes Hp w).
  destruct (probe_source_shape _ _ _ _ _ Ho) as (kind & raw & n & ->).
  cbn [resolve_loop]. unfold fbind, fret, lift. rewrite Ho.
  by destruct (hash_prefix_resolved (E := HostIdentityError) kind raw n) as [pre ->].
Qed.

Lemma source_of_listed cfg s :
  s ∈ hr_sources (from_validated (fanout_cfg cfg) "/") → source_of cfg (source_kind s) = [s].
Proof.
  intros (k & _ & Hs)%list_elem_of_In%in_flat_map.
  destruct k; simpl in Hs; try (by destruct Hs as [<-|[]]); [|done].
  destruct (hi_custom_command cfg) eqn:Hc; [|done]. destruct Hs as [<-|[]]. simpl. by rewrite Hc.
Qed.

Lemma resolve_listed_first cfg cfg' s rest w r :
  Forall (source_stable "/" w) (hr_sources (from_validated (fanout_cfg cfg) "/")) →
  s ∈ hr_sources (from_validated (fanout_cfg cfg) "/") →
  hi_sources cfg' = source_kind s :: rest → Override ∉ rest →
  (∀ k, source_of cfg' k = source_of cfg k) →
  probe_source "/" s w = (w, Ok (inr r)) →
  resolve_host_identity cfg' w = (w, Ok (source_kind s, ri_raw r, ri_hash_hex r)).
Proof.
  intros Hstable Hs Hsources Hrest Hsrc Ho. unfold resolve_host_identity. rewrite Hsources.
  rewrite decide_False by (rewrite elem_of_cons; intros [He|He]; [by destruct s|done]).
  destruct (probe_source_inr _ _ _ _ _ Ho) as (wa & wb & raw & _ & _ & Hr).
  rewrite (resolve_by_chain_first cfg' s (flat_map (source_of cfg') rest) w r).
  - by rewrite Hr.
  - rewrite Hsources. simpl. by rewrite Hsrc, (source_of_listed cfg).
  - apply Forall_forall. intros x Hx. apply (proj1 (Forall_forall _ _) Hstable).
    apply elem_of_cons in Hx as [->|Hx]; [done|].
    apply list_elem_of_In, in_flat_map in Hx as (k & _ & Hx). rewrite Hsrc in Hx.
    by apply list_elem_of_In, fanout_sources in Hx.
  - done.
Qed.

Lemma report_probes_stable cfg w w' probes :
  Forall (source_stable "/" w) (hr_sources (from_validated (fanout_cfg cfg) "/")) →
  report_probes cfg "/" w = (w', Ok probes) →
  w' = w ∧ ∀ kind r, (kind, inr r) ∈ probes →
    (∃ s, s ∈ hr_sources (from_validated (fanout_cfg cfg) "/") ∧ kind = source_kind s ∧
       probe_source "/" s w = (w, Ok (inr r))) ∨
    (kind, inr r) = override_probe (hi_override_value cfg).
Proof.
  intros Hstable Hrun. destruct (probe_all_stable "/" _ w Hstable) as (ps & Hps & Hall).
  unfold report_probes in Hrun. apply fbind_Ok_inv in Hrun as (w1 & ps' & Hp & Hrun).
  unfold io_map_err, probe_all in Hp. cbn [hr_fs_root from_validated] in Hp. cbn [from_validated] in Hps.
  rewrite Hps in Hp. injection Hp as <- <-. injection Hrun as <- <-. split; [done|].
  intros kind r [Hrow|Hrow%list_elem_of_singleton]%elem_of_app; [left|by right].
  apply list_elem_of_fmap in Hrow as (p & Hp & [i Hi]%list_elem_of_lookup).
  destruct (Forall2_lookup_r _ _ _ _ _ Hall Hi) as (s & Hs & Hk & Ho).
  unfold probed in Hp. destruct (pr_outcome p) as [[e|]|r'] eqn:Hr; try done. injection Hp as -> <-.
  exists s. split_and!; [by eapply list_elem_of_lookup_2|done..].
Qed.

End report_proofs.

(** The operator's report predicts the identity of the host: where looking at
    the sources changes nothing, the hash in an [ok] row is the one the module
    computes once the configuration names that source first, whatever sources
    follow it (an [override] further down the list, which always comes first,
    apart). *)
Theorem report_predicts {W} {FS : Fs W} {CLK : Clock W} {PR : Processes W} {UT : UnicodeTables}
    {UDB : UnicodeDebug} {SHA : Sha256} (cfg cfg' : HostIdentitySection) (w w' : W)
    (probes : list Probed) (kind : HostIdSourceKind) (rest : list HostIdSourceKind) (r : ResolvedHostId)
    (Hstable : Forall (source_stable "/" w) (hr_sources (from_validated (fanout_cfg cfg) "/")))
    (Hrun : report_probes cfg "/" w = (w', Ok probes)) (Hrow : (kind, inr r) ∈ probes)
    (Hsources : hi_sources cfg' = kind :: rest) (Hfirst : kind = Override ∨ Override ∉ rest)
    (Hsame : hi_override_value cfg' = hi_override_value cfg ∧
             hi_custom_command cfg' = hi_custom_command cfg ∧
             hi_custom_command_timeout cfg' = hi_custom_command_timeout cfg) :
  w' = w ∧ resolve_host_identity cfg' w' = (w', Ok (kind, ri_raw r, ri_hash_hex r)).
Proof.
  destruct Hsame as (Hov & Hcmd & Htime).
  destruct (report_probes_stable cfg w w' probes Hstable Hrun) as [-> Hrows]. split; [done|].
  destruct (Hrows kind r Hrow) as [(s & Hs & -> & Ho)|Ho].
  - destruct Hfirst as [Hf|Hf]; [by destruct s|].
    eapply (resolve_listed_first cfg); [done..| |done]. intros []; simpl; by rewrite ?Hcmd, ?Htime.
  - injection Ho as -> Hr. unfold resolve_host_identity. rewrite Hsources, decide_True by left.
    rewrite Hov. destruct (hi_override_value cfg) as [raw|]; [|done].
    case_decide; [done|]. by injection Hr as ->.
Qed.

Lemma report_predicts_witness :
  let cfg := MkHostIdentitySection [Override] FallbackDeny (Some "bootstrap") None 0 in
  let cfg' := MkHostIdentitySection [MachineId; Hostname] FallbackDeny (Some "bootstrap") None 0 in
  ∃ r, resolve_host_identity (FS := HostSample.host_fs) (CLK := HostSample.host_clock)
         (PR := HostSample.processes) (UT := HostSample.unicode) (SHA := Sample.digest) cfg'
         (ConfigSample.disk, 0) = ((ConfigSample.disk, 0), Ok (MachineId, ri_raw r, ri_hash_hex r)).
Proof.
  intros cfg cfg'.
  destruct (report_probes (FS := HostSample.host_fs) (CLK := HostSample.host_clock)
    (PR := HostSample.processes) (UT := HostSample.unicode) (UDB := λ c, c) (SHA := Sample.digest) cfg "/"
    (ConfigSample.disk, 0)) as [w' [probes|e|]] eqn:Hrun; [|vm_compute in Hrun; discriminate Hrun..].
  pose proof Hrun as Hp. vm_compute in Hp. injection Hp as Hw Hp.
  destruct probes as [|[k [why|r]] probes]; [discriminate Hp..|]. injection Hp as Hk _ _.
  exists r.
  destruct (report_predicts (FS := HostSample.host_fs) (CLK := HostSample.host_clock)
    (PR := HostSample.processes) (UT := HostSample.unicode) (UDB := λ c, c) (SHA := Sample.digest)
    cfg cfg' (ConfigSample.disk, 0) w' ((k, inr r) :: probes) MachineId [Hostname] r) as [Hw' Hr].
  - repeat constructor; by vm_compute.
  - exact Hrun.
  - rewrite <-Hk. left.
  - reflexivity.
  - right. apply (bool_decide_unpack _). vm_compute. exact I.
  - split_and!; reflexivity.
  - by rewrite Hw' in Hr.
Defined.

(** ** The table *)

(** Text without a separator of the table. *)
Definition plain (s : string) : Prop := (TAB ∉ bytes_of s) ∧ LF ∉ bytes_of s.

#[export] Instance plain_dec s : Decision (plain s).
Proof. unfold plain. apply _. Defined.

Lemma sanitize_plain s : plain (sanitize_field s).
Proof.
  unfold plain, sanitize_field. rewrite bytes_of_text_of.
  split; intros (b & Hb & _)%list_elem_of_fmap; case_decide as Hd; try done; apply Hd; auto.
Qed.

Lemma hex_plain `{Sha256} input : plain (sha256_hex input).
Proof.
  pose proof (hex_encode_range (sha256 (bytes_of input))) as Hr. rewrite Forall_forall in Hr.
  split; intros Hc%Hr; [change (bz TAB) with 9 in Hc|change (bz LF) with 10 in Hc]; lia.
Qed.

(** The rows of the report come from resolved identifiers. *)
Definition honest `{Sha256} (p : Probed) : Prop :=
  ∀ r, snd p = inr r → ∃ kind raw normalized, r = resolved kind raw normalized.

Lemma hash_prefix_plain {E} r pre : @hash_prefix E r = Ok pre → plain (ri_hash_hex r) → plain pre.
Proof.
  unfold hash_prefix, str_to, slice_to, slice. destruct (is_char_boundary _ _); [|done].
  case_decide; [|done]. cbn. intros [= <-] [Ht Hl]. unfold plain. rewrite bytes_of_text_of.
  split; intros (i & Hi%list_elem_of_lookup_2 & _)%elem_of_take; auto.
Qed.

Lemma tsv_columns_plain {E} `{Sha256} active p :
  honest p → ∃ cols, @tsv_columns E active p = Ok cols ∧ length cols = 8%nat ∧ Forall plain cols.
Proof.
  assert (∀ s, bool_decide (plain s) → plain s) as Hc by (intros s; apply bool_decide_unpack).
  intros Hp. unfold tsv_columns. destruct p as [kind [why|r]]; cbn [fst snd].
  - eexists. split_and!; [done..|]. pose proof (sanitize_plain why).
    repeat apply Forall_cons_2; try apply Forall_nil_2; try assumption;
      destruct kind, active as [[]|]; apply Hc; vm_compute; exact I.
  - destruct (Hp r eq_refl) as (k & raw & n & ->).
    destruct (hash_prefix_resolved (E := E) k raw n) as [pre Hpre]. rewrite Hpre. cbn [rbind].
    apply hash_prefix_plain in Hpre; [|apply hex_plain]. pose proof (hex_plain n).
    pose proof (sanitize_plain raw). pose proof (sanitize_plain n).
    eexists. split_and!; [done..|].
    repeat apply Forall_cons_2; try apply Forall_nil_2; try assumption;
      destruct kind, active as [[]|]; apply Hc; vm_compute; exact I.
Qed.

Lemma rows_plain {E} `{Sha256} active probes :
  Forall honest probes →
  ∃ rows, res_map (@tsv_columns E active) probes = Ok rows ∧ length rows = length probes ∧
    Forall (λ cols, length cols = 8%nat ∧ Forall plain cols) rows.
Proof.
  induction 1 as [|p probes Hp _ (rows & Hr & Hn & Hl)]; [by exists []|].
  destruct (tsv_columns_plain (E := E) active p Hp) as (cols & Hc & Hlen & Hpl).
  exists (cols :: rows). cbn [res_map]. rewrite Hc. cbn [rbind]. rewrite Hr. cbn [rbind length].
  split_and!; [done|lia|by constructor].
Qed.

Lemma concat_no_lf cols : Forall plain cols → LF ∉ bytes_of (String.concat (text_of [TAB]) cols).
Proof.
  induction 1 as [|s cols [Hs Hl] _ IH]; [by apply not_elem_of_nil|]. destruct cols as [|t cols]; [done|].
  change (String.concat (text_of [TAB]) (s :: t :: cols))
    with (s +:+ text_of [TAB] +:+ String.concat (text_of [TAB]) (t :: cols)).
  rewrite !bytes_of_app, bytes_of_text_of, !not_elem_of_app. split_and!; [done| |done].
  by apply not_elem_of_cons; split; [|apply not_elem_of_nil].
Qed.

Lemma concat_cons s l : String.concat "" (s :: l) = s +:+ String.concat "" l.
Proof. destruct l; [|done]. cbn. by rewrite string_app_nil. Qed.

Lemma split_lines rows :
  Forall (λ cols, Forall plain cols) rows →
  str_split LF (String.concat "" (tsv_line <$> rows)) = (String.concat (text_of [TAB]) <$> rows) ++ [""].
Proof.
  induction 1 as [|cols rows Hc _ IH]; [done|]. rewrite !fmap_cons, concat_cons. unfold tsv_line at 1. rewrite string_app_assoc.
  rewrite str_split_line by (by apply concat_no_lf). by rewrite IH.
Qed.

Lemma cut_rows rows :
  Forall (λ cols, cols ≠ [] ∧ Forall plain cols) rows →
  str_split TAB <$> (String.concat (text_of [TAB]) <$> rows) = rows.
Proof.
  induction 1 as [|cols rows [Hn Hc] _ IH]; [done|]. rewrite !fmap_cons, IH, str_split_concat; [done..|].
  eapply Forall_impl; [exact Hc|]. by intros s [? _].
Qed.

Lemma split_table rows c1 c2 c3 :
  Forall (λ cols, cols ≠ [] ∧ Forall plain cols) rows →
  Forall (λ c, LF ∉ bytes_of c) [c1; c2; c3] →
  str_split TAB <$> drop 3 (str_split LF
    (c1 +:+ text_of [LF] +:+ c2 +:+ text_of [LF] +:+ c3 +:+ text_of [LF] +:+
     tsv_line tsv_header +:+ String.concat "" (tsv_line <$> rows)))
  = tsv_header :: rows ++ [[""]].
Proof.
  intros Hr [H1 [H2 [H3 _]%Forall_cons]%Forall_cons]%Forall_cons.
  rewrite !str_split_line by done. cbn [drop]. rewrite <-concat_cons, <-fmap_cons.
  assert (Forall (λ cols, cols ≠ [] ∧ Forall plain cols) (tsv_header :: rows)) as Hall.
  { constructor; [|done]. split; [done|]. apply (bool_decide_unpack _). by vm_compute. }
  rewrite split_lines by (eapply Forall_impl; [exact Hall|]; by intros cols [_ ?]).
  rewrite drop_0, fmap_app. by rewrite cut_rows.
Qed.

(** The report is a table: after three lines of comment, read back line by line
    and cut at the tabs, it has the header and one row per source, all of
    eight columns, whatever the firmware strings and the error texts hold. *)
Theorem report_is_table {E} {SHA : Sha256} (probes : list Probed) (hostname ts : string)
    (active : option HostIdSourceKind) (Hprobes : Forall honest probes)
    (Hname : LF ∉ bytes_of hostname) (Hts : LF ∉ bytes_of ts) :
  ∃ text rows, @render_tsv E probes hostname ts active = Ok text ∧
    res_map (@tsv_columns E active) probes = Ok rows ∧ length rows = length probes ∧
    Forall (λ cols, length cols = 8%nat) rows ∧
    str_split TAB <$> drop 3 (str_split LF text) = tsv_header :: rows ++ [[""]].
Proof.
  destruct (rows_plain (E := E) active probes Hprobes) as (rows & Hr & Hn & Hl).
  unfold render_tsv. rewrite Hr. cbn [rbind]. eexists _, rows. split_and!; [done|done|done| |].
  { eapply Forall_impl; [exact Hl|]. by intros cols [? _]. }
  apply split_table.
  - eapply Forall_impl; [exact Hl|]. intros cols [Hc ?]. split; [|done]. by destruct cols.
  - repeat apply Forall_cons_2; try apply Forall_nil_2; try (apply (bool_decide_unpack _); by vm_compute).
    rewrite !bytes_of_app, !not_elem_of_app. split_and!; try done; apply (bool_decide_unpack _); by vm_compute.
Qed.

Lemma report_is_table_witness :
  let p : Probed := (DmiBoardSerial, inl ("cannot" +:+ text_of [TAB; LF] +:+ "read")) in
  ∃ text rows, @render_tsv unit [p] "atm-7" "2026-04-27T10:15:30Z" None = Ok text ∧
    res_map (@tsv_columns unit None) [p] = Ok rows ∧
    str_split TAB <$> drop 3 (str_split LF text) = tsv_header :: rows ++ [[""]].
Proof.
  intros p. destruct (report_is_table (E := unit) (SHA := Sample.digest) [p] "atm-7"
    "2026-04-27T10:15:30Z" None) as (text & rows & Ht & Hr & _ & _ & Hs).
  - constructor; [done|constructor].
  - apply (bool_decide_unpack _). vm_compute. exact I.
  - apply (bool_decide_unpack _). vm_compute. exact I.
  - by exists text, rows.
Defined.

(** With [sources = ["override"]] and the fallback that refuses, the module's
    identity is the override, and the report marks no source as the active
    one: the resolver behind the mark leaves the override out. *)
Theorem override_not_marked {W} {FS : Fs W} {CLK : Clock W} {PR : Processes W} {UT : UnicodeTables}
    {SHA : Sha256} (raw : string) (cmd : option string) (timeout : Z) (w : W) :
  let cfg := MkHostIdentitySection [Override] FallbackDeny (Some raw) cmd timeout in
  resolve_host_identity cfg w = (w, Ok (Override, raw, sha256_hex (normalize_host_id raw))) ∧
  active_source cfg "/" w = (w, Ok None).
Proof. done. Qed.

(** ** The stick *)

(** What is mounted, with the last mount first: [mount] and [umount] change it,
    and nothing else the subcommand does. *)
Record mounts_tracked {W} `{Fs W, MountSys W, DumpSys W} (mounts : W → list string) : Prop := {
  mt_mount : ∀ dev mp fs flags w w' r, sys_mount dev mp fs flags w = (w', r) →
    mounts w' = match r with inr _ => mp :: mounts w | inl _ => mounts w end;
  mt_umount : ∀ mp w w' r rest, sys_umount mp w = (w', r) → mounts w = mp :: rest →
    mounts w' = match r with inr _ => rest | inl _ => mounts w end;
  mt_metadata : ∀ p w, mounts (fs_metadata p w).1 = mounts w;
  mt_mkdir : ∀ p w, mounts (fs_create_dir_all p w).1 = mounts w;
  mt_rmdir : ∀ p w, mounts (fs_remove_dir p w).1 = mounts w;
  mt_rmall : ∀ p w, mounts (fs_remove_dir_all p w).1 = mounts w;
  mt_pid : ∀ w, mounts (process_id w).1 = mounts w;
  mt_open : ∀ p w, mounts (open_truncated p w).1 = mounts w;
  mt_write : ∀ f bs w, mounts (dump_write_all f bs w).1 = mounts w;
  mt_sync : ∀ f w, mounts (dump_sync_all f w).1 = mounts w;
  mt_close : ∀ f w, mounts (dump_close f w) = mounts w;
}.

Module DumpSample.

(** Mount points only; the stick is full. *)
Definition table : Type := list string.

#[export] Instance table_fs : Fs table := {|
  fs_read _ w := (w, inl (MkIoError KindNotFound "not found"));
  fs_metadata _ w := (w, inl (MkIoError KindNotFound "not found"));
|}.

#[export] Instance table_mounts : MountSys table := {|
  sys_mount _ mp _ _ w := (mp :: w, inr tt);
  sys_umount_detach _ w := (w, inr tt);
  fs_create_dir_all _ w := (w, inr tt);
  fs_remove_dir _ w := (w, inr tt);
|}.

#[export] Instance table_sys : DumpSys table := {|
  DumpFile := string;
  open_truncated p w := (w, inr p);
  dump_write_all _ _ w := (w, inl (MkIoError KindOther "no space left on device"));
  dump_sync_all _ w := (w, inr tt);
  dump_close _ w := w;
  set_permissions _ _ w := (w, inr tt);
  fs_rename _ _ w := (w, inr tt);
  fs_remove_dir_all _ w := (w, inr tt);
  sys_umount mp w :=
    match w with
    | m :: rest => if decide (m = mp) then (rest, inr tt) else (w, inl 22)
    | [] => (w, inl 22)
    end;
  process_id w := (w, 4711);
  env_hostname w := (w, None);
  stdout_write _ w := (w, inr tt);
|}.

Lemma table_tracked : mounts_tracked (W := table) id.
Proof.
  constructor; try done.
  - by intros dev mp fs flags w w' r [= <- <-].
  - intros mp w w' r rest. unfold id. intros H ->. cbn in H.
    rewrite decide_True in H by done. by injection H as <- <-.
Qed.

End DumpSample.

Section stick.
Context {W : Type} {FS : Fs W} {MS : MountSys W} {DS : DumpSys W}.
Context (mounts : W → list string) (Ht : mounts_tracked mounts).

Definition keeps {E A} (c : io W E A) : Prop := ∀ w, mounts (c w).1 = mounts w.

Lemma keeps_bind {E A B} (c : io W E A) (k : A → io W E B) :
  keeps c → (∀ a, keeps (k a)) → keeps (fbind c k).
Proof.
  intros Hc Hk w. rewrite fbind_eq. specialize (Hc w).
  destruct (c w) as [w1 [a|e|]]; cbn [fst] in *; [|done..]. by rewrite Hk.
Qed.

Lemma keeps_lift {E A} (r : res E A) : keeps (lift r).
Proof. done. Qed.

Lemma keeps_call {E A} (f : W → W * (E + A)) : (∀ w, mounts (f w).1 = mounts w) → keeps (call f).
Proof. intros Hf w. specialize (Hf w). unfold call. by destruct (f w) as [w1 [e|a]]. Qed.

Lemma keeps_ask {E A} (f : W → W * A) : (∀ w, mounts (f w).1 = mounts w) → keeps (E := E) (ask f).
Proof. intros Hf w. specialize (Hf w). unfold ask. by destruct (f w). Qed.

Lemma keeps_map_err {E F A} (g : E → F) (c : io W E A) : keeps c → keeps (io_map_err g c).
Proof. intros Hc w. specialize (Hc w). unfold io_map_err. by destruct (c w) as [w1 [a|e|]]. Qed.

Lemma keeps_try {E F A} (c : io W E A) : keeps c → keeps (E := F) (io_try c).
Proof. intros Hc w. specialize (Hc w). unfold io_try. by destruct (c w) as [w1 [a|e|]]. Qed.

Lemma keeps_exists {E} p : keeps (E := E) (path_exists p).
Proof.
  intros w. pose proof (mt_metadata _ Ht p w) as Hm. unfold path_exists.
  by destruct (fs_metadata p w) as [w1 [e|m]].
Qed.

Lemma keeps_write_target target content : keeps (write_target target content).
Proof.
  unfold write_target, write_file. apply keeps_bind; [apply keeps_map_err, keeps_call, Ht|]. intros f.
  apply keeps_bind; [|intros r; apply keeps_bind; [apply keeps_ask; cbn; apply Ht|intros _; apply keeps_lift]].
  apply keeps_try, keeps_bind; [apply keeps_map_err, keeps_call, Ht|].
  intros _. apply keeps_map_err, keeps_call, Ht.
Qed.

Lemma keeps_mkdir p : keeps (dump_mkdir p).
Proof. apply keeps_map_err, keeps_call, Ht. Qed.

(** After the mount: the partition is released, or [umount] refused. *)
Lemma after_mount mp target content w w' r rest :
  mounts w = mp :: rest →
  (let! write_res := io_try (write_target target content) in
   let! umount_res := ask (sys_umount mp) in
   let! _ := ask (fs_remove_dir mp) in
   do! lift (of_sum write_res);
   do! lift (map_err (λ errno, DumpUsb (DumpUmountFailed mp errno)) (of_sum umount_res));
   fret target) w = (w', r) →
  mounts w' = rest ∨ (∀ p, r ≠ Ok p) ∧ mounts w' = mp :: rest.
Proof.
  intros Hm H. pose proof (keeps_try (F := DumpError) _ (keeps_write_target target content) w) as Hk.
  rewrite fbind_eq in H. destruct (io_try _ w) as [w1 [wr|e|]]; cbn [fst] in Hk;
    [|injection H as <- <-; right; split; [done|by rewrite Hk]..].
  rewrite fbind_eq in H. unfold ask at 1 in H. destruct (sys_umount mp w1) as [w2 ur] eqn:Hu.
  pose proof (mt_umount _ Ht mp w1 w2 ur rest Hu ltac:(by rewrite Hk)) as Hu'.
  rewrite fbind_eq in H. unfold ask at 1 in H. destruct (fs_remove_dir mp w2) as [w3 rr] eqn:Hr.
  pose proof (mt_rmdir _ Ht mp w2) as Hr'. rewrite Hr in Hr'. cbn [fst] in Hr'.
  assert (w' = w3) as -> by (destruct wr, ur; by injection H as <- _).
  rewrite Hr', Hu'. destruct ur as [errno|[]]; [right|by left]. rewrite Hk. split; [|done].
  intros p ->. destruct wr; discriminate H.
Qed.

Lemma at_mountpoint dev fs mp filename content w w' r :
  (let! there := path_exists mp in
   let! _ := ask (λ w, if there : bool then ((fs_remove_dir_all mp w).1, tt) else (w, tt)) in
   do! dump_mkdir mp;
   do! dump_mount (devnode dev) fs mp;
   let target := path_join mp filename in
   let! write_res := io_try (write_target target content) in
   let! umount_res := ask (sys_umount mp) in
   let! _ := ask (fs_remove_dir mp) in
   do! lift (of_sum write_res);
   do! lift (map_err (λ errno, DumpUsb (DumpUmountFailed mp errno)) (of_sum umount_res));
   fret target) w = (w', r) →
  mounts w' = mounts w ∨ (∀ p, r ≠ Ok p) ∧ mounts w' = mp :: mounts w.
Proof.
  rewrite fbind_eq. pose proof (keeps_exists (E := DumpError) mp w) as He.
  destruct (path_exists _ w) as [w3 [there|e|]]; cbn [fst] in He; [|intros [= <- <-]; by left..].
  rewrite fbind_eq. unfold ask at 1.
  set (w4 := (if there then ((fs_remove_dir_all mp w3).1, tt) else (w3, tt)).1).
  assert (mounts w4 = mounts w) as H4 by (unfold w4; destruct there; cbn; [by rewrite (mt_rmall _ Ht)|done]).
  replace (if there then ((fs_remove_dir_all mp w3).1, tt) else (w3, tt)) with (w4, tt)
    by (unfold w4; by destruct there). clearbody w4. rewrite <-H4. clear He H4.
  rewrite fbind_eq. pose proof (keeps_mkdir mp w4) as Hk.
  destruct (dump_mkdir _ w4) as [w5 [[]|e|]]; cbn [fst] in Hk; [|intros [= <- <-]; by left..].
  rewrite fbind_eq. unfold dump_mount at 1. destruct (sys_mount _ _ _ _ w5) as [w6 [errno|[]]] eqn:Hm.
  - intros [= <- <-]. left. rewrite (mt_rmdir _ Ht), (mt_mount _ Ht _ _ _ _ _ _ _ Hm). done.
  - intros H. rewrite <-Hk. eapply after_mount; [|exact H]. exact (mt_mount _ Ht _ _ _ _ _ _ _ Hm).
Qed.

End stick.

(** The stick is not left mounted: whatever fails on the way (the directory,
    the mount, opening, writing or syncing the file), what is mounted after the
    dump is what was mounted before; a dump that leaves its mount point behind
    does not succeed. *)
Theorem usb_dump_unmounts {W} {FS : Fs W} {MS : MountSys W} {DS : DumpSys W} (mounts : W → list string)
    (Ht : mounts_tracked mounts) (dev : UsbDevice) (filename content : string) (w w' : W)
    (r : res DumpError string) (Hrun : write_to_usb dev filename content w = (w', r)) :
  mounts w' = mounts w ∨ (∀ p, r ≠ Ok p) ∧ ∃ pid, mounts w' = dump_mountpoint pid :: mounts w.
Proof.
  revert Hrun. unfold write_to_usb. rewrite fbind_eq. unfold lift at 1.
  destruct (ok_or _ _) as [fs|e|]; [|intros [= <- <-]; by left..].
  rewrite fbind_eq. pose proof (keeps_mkdir mounts Ht DUMP_BASE w) as Hk.
  destruct (dump_mkdir _ w) as [w1 [[]|e|]]; cbn [fst] in Hk; [|intros [= <- <-]; by left..].
  rewrite fbind_eq. unfold ask at 1. pose proof (mt_pid _ Ht w1) as Hp.
  destruct (process_id w1) as [w2 pid]. cbn [fst] in Hp. rewrite <-Hk, <-Hp.
  intros H. destruct (at_mountpoint mounts Ht dev fs (dump_mountpoint pid) filename content w2 w' r H) as [|[Hr Hm]]; [by left|].
  right. split; [done|]. by exists pid.
Qed.

Lemma usb_dump_unmounts_witness :
  let dev := MkUsbDevice "/dev/sdb1" None 0 0 (Some "vfat") in
  let '(w', r) := write_to_usb (FS := DumpSample.table_fs) (MS := DumpSample.table_mounts)
    (DS := DumpSample.table_sys) dev "host-ids.tsv" "report" ["/"] in
  (∃ e, r = Err e) ∧ w' = ["/"].
Proof.
  intros dev. destruct (write_to_usb _ _ _ _) as [w' r] eqn:Hrun.
  pose proof (usb_dump_unmounts (FS := DumpSample.table_fs) (MS := DumpSample.table_mounts)
    (DS := DumpSample.table_sys) id DumpSample.table_tracked dev "host-ids.tsv" "report" ["/"] w' r Hrun)
    as [Hm|[_ [pid Hm]]].
  - split; [|exact Hm]. vm_compute in Hrun. injection Hrun as _ <-. eexists; reflexivity.
  - exfalso. vm_compute in Hrun. injection Hrun as <- _. discriminate Hm.
Defined.
