(* ===== verification/Wallpaper.v ===== *)
(** * The greeter's wallpaper ([fly_dm_wallpaper_writer.rs])

    The daemon draws the host identity over the background image of the login
    screen.  The drawing is modelled down to the pixels: 32-bit floats are
    binary floating point with 24 bits of precision, the blending is on bytes.
    Fonts and image files are those of their crates. *)

From Stdlib Require Import SpecFloat.
From S2P Require Import Prelude Text Sys Errors Openssl Der Sample X509Ext Certificate HostBinding.
From S2P Require Import Hooks RawConfig Config Usb HostIdentity DumpHostId.
Local Open Scope Z_scope.

(** ** [f32] *)

Abbreviation f32 := spec_float.
Definition f32_prec : Z := 24.
Definition f32_emax : Z := 128.

Definition f32_add : f32 → f32 → f32 := SFadd f32_prec f32_emax.
Definition f32_sub : f32 → f32 → f32 := SFsub f32_prec f32_emax.
Definition f32_mul : f32 → f32 → f32 := SFmul f32_prec f32_emax.
Definition f32_div : f32 → f32 → f32 := SFdiv f32_prec f32_emax.

(** An integer [as f32], rounded to nearest. *)
Definition f32_of (n : Z) : f32 := binary_normalize f32_prec f32_emax n 0 false.

(** Towards zero. *)
Definition f32_trunc (x : f32) : option Z :=
  match x with
  | S754_zero _ => Some 0
  | S754_finite s m e =>
      let a := if decide (0 ≤ e) then Z.pos m * 2 ^ e else Z.pos m / 2 ^ (- e) in
      Some (if s then - a else a)
  | S754_infinity _ | S754_nan => None
  end.

(** [x as iN]: saturating, and zero for what is not a number. *)
Definition f32_as (lo hi : Z) (x : f32) : Z :=
  match x with
  | S754_nan => 0
  | S754_infinity s => if s then lo else hi
  | _ => match f32_trunc x with Some n => Z.max lo (Z.min hi n) | None => 0 end
  end.

Definition f32_as_i32 : f32 → Z := f32_as (- 2 ^ 31) (2 ^ 31 - 1).
Definition f32_as_u8 : f32 → Z := f32_as 0 255.

(** [clamp(0.0, 1.0)]. *)
Definition f32_clamp01 (x : f32) : f32 :=
  if SFltb x (f32_of 0) then f32_of 0 else if SFltb (f32_of 1) x then f32_of 1 else x.

(** ** Errors and outcomes *)

Inductive WriterError : Type :=
| WriterIo (path : string) (source : IoError)
| ImageDecode (path : string) (source : string)
| ImageEncode (path : string) (source : string)
| FontLoad (path reason : string).

Inductive UpdateOutcome : Type :=
| UpdateDisabled
| NoBackupSourceNoTarget
| Wrote (backed_up : bool).

(** ** Images and fonts *)

(** [ImageBuffer<Rgba<u8>>], row by row; a pixel has four channels. *)
Record Rgba := MkRgba { px_r : Z; px_g : Z; px_b : Z; px_a : Z }.

Record RgbaImage := MkImage {
  im_width : Z;
  im_height : Z;
  im_pixels : list Rgba;
}.

(** The [ab_glyph] crate: a font at a size, glyphs by character, and what
    drawing an outlined glyph calls back with: column, row and coverage, from
    the corner of its bounds. *)
Class FontLib := {
  Font : Type;
  font_from_vec : list byte → string + Font;
  GlyphId : Type;
  glyph_id : Font → list byte → GlyphId;
  kern : Font → f32 → GlyphId → GlyphId → f32;
  h_advance : Font → f32 → GlyphId → f32;
  ascent : Font → f32 → f32;
  descent : Font → f32 → f32;
  outline_glyph : Font → f32 → GlyphId → f32 * f32 → option ((f32 * f32) * list (Z * Z * f32));
}.

(** [i32] addition in a release build. *)
Definition wrap_i32 (n : Z) : Z := (n + 2 ^ 31) mod 2 ^ 32 - 2 ^ 31.

(** One channel: [(color * a + pixel * inv) / 255] in [u16], then [as u8]. *)
Definition blend (color pixel alpha : Z) : Z :=
  ((color * alpha + pixel * (255 - alpha)) mod 2 ^ 16 / 255) mod 2 ^ 8.

(** [get_pixel_mut] panics outside the image. *)
Definition pixel_index {E} (img : RgbaImage) (x y : Z) : res E nat :=
  if decide (0 ≤ x < im_width img ∧ 0 ≤ y < im_height img) then Ok (Z.to_nat (y * im_width img + x))
  else Panic.

Definition put_pixel {E} (img : RgbaImage) (color : Z * Z * Z) (alpha x y : Z) : res E RgbaImage :=
  let? i := pixel_index img x y in
  match im_pixels img !! i with
  | Some p =>
      let '(r, g, b) := color in
      Ok (MkImage (im_width img) (im_height img)
            (<[i := MkRgba (blend r (px_r p) alpha) (blend g (px_g p) alpha) (blend b (px_b p) alpha) 255]>
               (im_pixels img)))
  | None => Panic
  end.

(** The callback of [OutlinedGlyph::draw]. *)
Definition draw_point {E} (img : RgbaImage) (color : Z * Z * Z) (color_a : Z) (corner : f32 * f32)
    (pt : Z * Z * f32) : res E RgbaImage :=
  let '(x, y, v) := pt in
  let px := wrap_i32 (f32_as_i32 corner.1 + wrap_i32 x) in
  let py := wrap_i32 (f32_as_i32 corner.2 + wrap_i32 y) in
  if decide (0 ≤ px ∧ 0 ≤ py ∧ px < im_width img ∧ py < im_height img) then
    let alpha_f := f32_mul v (f32_div (f32_of color_a) (f32_of 255)) in
    let alpha := f32_as_u8 (f32_mul (f32_clamp01 alpha_f) (f32_of 255)) in
    if decide (0 < alpha) then put_pixel img color alpha px py else Ok img
  else Ok img.

Fixpoint draw_points {E} (img : RgbaImage) (color : Z * Z * Z) (color_a : Z) (corner : f32 * f32)
    (pts : list (Z * Z * f32)) : res E RgbaImage :=
  match pts with
  | [] => Ok img
  | pt :: r => let? img' := draw_point img color color_a corner pt in draw_points img' color color_a corner r
  end.

(** The characters of a text, each as its UTF-8 bytes. *)
Fixpoint chars_fuel (fuel : nat) (bs : list byte) : list (list byte) :=
  match fuel, bs with
  | S f, _ :: _ => let n := Nat.max 1 (utf8_chunk bs).1 in take n bs :: chars_fuel f (drop n bs)
  | _, _ => []
  end.

Definition chars (s : string) : list (list byte) := chars_fuel (length (bytes_of s)) (bytes_of s).

Section drawing.
Context {FL : FontLib}.

Fixpoint text_width_from (font : Font) (size : f32) (last : option GlyphId) (w : f32)
    (glyphs : list GlyphId) : f32 :=
  match glyphs with
  | [] => w
  | g :: r =>
      let w := match last with Some prev => f32_add w (kern font size prev g) | None => w end in
      text_width_from font size (Some g) (f32_add w (h_advance font size g)) r
  end.

Definition anchor (gravity : Gravity) (img_w img_h : Z) (text_width asc desc : f32) : f32 * f32 :=
  let text_height := f32_sub asc desc in
  let mid_x := f32_div (f32_sub (f32_of img_w) text_width) (f32_of 2) in
  let mid_y := f32_div (f32_add (f32_of img_h) text_height) (f32_of 2) in
  match gravity with
  | North => (mid_x, asc)
  | South => (mid_x, f32_sub (f32_of img_h) (SFabs desc))
  | East => (f32_sub (f32_of img_w) text_width, mid_y)
  | West => (f32_of 0, mid_y)
  | Center => (mid_x, mid_y)
  end.

Fixpoint draw_glyphs {E} (font : Font) (size : f32) (color : Z * Z * Z) (color_a : Z) (y : f32)
    (last : option GlyphId) (cursor : f32) (glyphs : list GlyphId) (img : RgbaImage) : res E RgbaImage :=
  match glyphs with
  | [] => Ok img
  | g :: r =>
      let cursor := match last with Some prev => f32_add cursor (kern font size prev g) | None => cursor end in
      let? img' :=
        match outline_glyph font size g (cursor, y) with
        | Some (corner, pts) => draw_points img color color_a corner pts
        | None => Ok img
        end in
      draw_glyphs font size color color_a y (Some g) (f32_add cursor (h_advance font size g)) r img'
  end.

Definition draw_text {E} (img : RgbaImage) (font : Font) (size : f32) (text : string) (gravity : Gravity)
    (offset_x offset_y : Z) (color : Z * Z * Z) (color_a : Z) : res E RgbaImage :=
  let glyphs := glyph_id font <$> chars text in
  let width := text_width_from font size None (f32_of 0) glyphs in
  let (anchor_x, anchor_y) :=
    anchor gravity (im_width img) (im_height img) width (ascent font size) (descent font size) in
  let start_x := f32_add anchor_x (f32_of offset_x) in
  let start_y :=
    match gravity with
    | North => f32_add anchor_y (f32_of offset_y)
    | _ => f32_sub anchor_y (f32_of offset_y)
    end in
  draw_glyphs font size color color_a start_y None start_x glyphs img.

End drawing.

(** ** The update *)

(** What the update does beyond the calls of the other components: environment
    variables, copying a file, and the [image] crate's reader and writer. *)
Class WallSys (W : Type) := {
  env_var : string → W → W * option string;
  fs_copy : string → string → W → W * (IoError + unit);
  DynImage : Type;
  image_open : string → W → W * (string + DynImage);
  to_rgba8 : DynImage → RgbaImage;
  image_save : RgbaImage → string → W → W * (string + unit);
}.

Section writer.
Context {W : Type} {FS : Fs W} {MS : MountSys W} {DS : DumpSys W} {WS : WallSys W} {FL : FontLib}.
Context {UT : UnicodeTables}.

Definition is_russian_locale {E} : io W E bool :=
  let! lc := ask (env_var "LC_MESSAGES") in
  let! lang := match lc with Some l => fret (Some l) | None => ask (env_var "LANG") end in
  let bs := bytes_of (default "" lang) in
  fret (is_prefix_bytes (bytes_of "ru") (lower_fuel (length bs) bs)).

(** The writer's own copy of [local_hostname]. *)
Definition wall_hostname {E} : io W E string := local_hostname.

Definition substitute {E} (template : string) (resolved : ResolvedHostId) (hostname : string)
    : res E string :=
  let? host_id_short := hash_prefix resolved in
  Ok (str_replace (str_replace (str_replace template "{host_id_short}" host_id_short)
        "{source}" (source_kind_to_string (ri_source_kind resolved))) "%n" hostname).

(** [if !parent.as_os_str().is_empty() && !parent.exists() { create_dir_all }]. *)
Definition ensure_dir (parent : string) : io W WriterError unit :=
  if decide (parent = "") then fret tt else
  let! there := path_exists parent in
  if there : bool then fret tt else io_map_err (WriterIo parent) (call (fs_create_dir_all parent)).

Definition make_backup (cfg : FlyDmGreeterSection) : io W WriterError unit :=
  do! match path_parent (fg_wallpaper_backup cfg) with
      | Some parent => ensure_dir parent
      | None => fret tt
      end;
  io_map_err (WriterIo (fg_wallpaper_backup cfg))
    (call (fs_copy (fg_wallpaper_target cfg) (fg_wallpaper_backup cfg))).

(** The image over the pristine one. *)
Definition render (cfg : FlyDmGreeterSection) (resolved : ResolvedHostId) : io W WriterError RgbaImage :=
  let! img := io_map_err (ImageDecode (fg_wallpaper_backup cfg)) (call (image_open (fg_wallpaper_backup cfg))) in
  let! font_bytes := io_map_err (WriterIo (fg_wallpaper_font cfg)) (call (fs_read (fg_wallpaper_font cfg))) in
  let! font := lift (map_err (FontLoad (fg_wallpaper_font cfg)) (of_sum (font_from_vec font_bytes))) in
  let! ru := is_russian_locale in
  let template := if ru : bool then fg_template_ru cfg else fg_template_en cfg in
  let! hostname := wall_hostname in
  let! text := lift (substitute template resolved hostname) in
  match bz <$> fg_wallpaper_text_color cfg with
  | [r; g; b; a] =>
      lift (draw_text (to_rgba8 img) font (f32_of (fg_wallpaper_font_size cfg)) text
              (fg_wallpaper_gravity cfg) (fg_wallpaper_offset_x cfg) (fg_wallpaper_offset_y cfg) (r, g, b) a)
  | _ => lift Panic
  end.

(** Through a temporary file beside the target. *)
Definition publish (cfg : FlyDmGreeterSection) (img : RgbaImage) : io W WriterError unit :=
  let target := fg_wallpaper_target cfg in
  let! parent := lift (ok_or (path_parent target)
                         (WriterIo target (MkIoError KindInvalidInput "no parent dir"))) in
  do! ensure_dir parent;
  let! pid := ask process_id in
  let tmp := path_join parent (".pam_certauth_wallpaper." +:+ fmt_dec pid +:+ ".tmp.jpg") in
  do! io_map_err (ImageEncode tmp) (call (image_save img tmp));
  io_map_err (WriterIo target) (call (fs_rename tmp target)).

Definition wallpaper_update (cfg : FlyDmGreeterSection) (resolved : ResolvedHostId)
    : io W WriterError UpdateOutcome :=
  if negb (fg_update_wallpaper cfg) then fret UpdateDisabled else
  let! backup_exists := path_exists (fg_wallpaper_backup cfg) in
  let! target_exists := path_exists (fg_wallpaper_target cfg) in
  if negb backup_exists && negb target_exists then fret NoBackupSourceNoTarget else
  do! (if backup_exists then fret tt else make_backup cfg);
  let! img := render cfg resolved in
  do! publish cfg img;
  fret (Wrote (negb backup_exists)).

End writer.

(** ** Pixels *)

(** An image has a byte per channel and a pixel per position. *)
Definition byte_range (c : Z) : Prop := 0 ≤ c < 256.

Definition pixel_wf (p : Rgba) : Prop :=
  byte_range (px_r p) ∧ byte_range (px_g p) ∧ byte_range (px_b p) ∧ byte_range (px_a p).

Record image_wf (img : RgbaImage) : Prop := {
  iw_size : 0 ≤ im_width img ∧ 0 ≤ im_height img ∧
            Z.of_nat (length (im_pixels img)) = im_width img * im_height img;
  iw_pixels : Forall pixel_wf (im_pixels img);
}.

(** Blending stays between the two colours, without a wrap. *)
Lemma blend_between c p a :
  byte_range c → byte_range p → byte_range a → Z.min c p ≤ blend c p a ≤ Z.max c p.
Proof.
  unfold byte_range, blend. intros Hc Hp Ha.
  assert (0 ≤ c * a + p * (255 - a) ≤ 65025) as Hs by nia.
  rewrite (Z.mod_small _ (2 ^ 16)) by lia.
  assert (Z.min c p ≤ (c * a + p * (255 - a)) / 255 ≤ Z.max c p) as Hb.
  { split; [apply Z.div_le_lower_bound; nia|apply Z.div_le_upper_bound; nia]. }
  rewrite Z.mod_small by lia. exact Hb.
Qed.

Lemma blend_range c p a : byte_range c → byte_range p → byte_range a → byte_range (blend c p a).
Proof. intros Hc Hp Ha. pose proof (blend_between c p a Hc Hp Ha). unfold byte_range in *. lia. Qed.

Lemma f32_as_range lo hi x : lo ≤ 0 ≤ hi → lo ≤ f32_as lo hi x ≤ hi.
Proof. intros H. unfold f32_as. destruct x as [s|s| |s m e]; [|by destruct s; lia|lia|]; cbn [f32_trunc]; lia. Qed.

Definition color_wf (c : Z * Z * Z) : Prop := byte_range c.1.1 ∧ byte_range c.1.2 ∧ byte_range c.2.

(** A well-formed image of the same size. *)
Definition painted (old new : RgbaImage) : Prop :=
  image_wf new ∧ im_width new = im_width old ∧ im_height new = im_height old.

Lemma painted_trans a b d : painted a b → painted b d → painted a d.
Proof. intros (_ & H1 & H2) (H3 & H4 & H5). split_and!; congruence. Qed.

Lemma draw_point_painted {E} img c ca corner pt :
  image_wf img → color_wf c → ∃ img', @draw_point E img c ca corner pt = Ok img' ∧ painted img img'.
Proof.
  intros Hw (Hr & Hg & Hb). destruct pt as [[x y] v]. unfold draw_point.
  set (px := wrap_i32 _). set (py := wrap_i32 _). case_decide as Hin; [|by exists img].
  set (alpha := f32_as_u8 _). case_decide as Ha; [|by exists img].
  assert (byte_range alpha) as Hal
    by (pose proof (f32_as_range 0 255 (f32_mul (f32_clamp01 (f32_mul v (f32_div (f32_of ca) (f32_of 255)))) (f32_of 255)) ltac:(lia)); unfold byte_range, alpha, f32_as_u8; lia).
  destruct Hw as [(Hw & Hh & Hl) Hp]. unfold put_pixel, pixel_index.
  rewrite decide_True by lia. cbn [rbind].
  set (i := Z.to_nat (py * im_width img + px)).
  assert (i < length (im_pixels img))%nat as Hi by (unfold i; nia).
  apply lookup_lt_is_Some in Hi as [p Hi]. rewrite Hi. destruct c as [[r g] b].
  eexists. split; [done|]. split_and!; [|done..]. split; cbn; [by rewrite length_insert|].
  apply Forall_insert; [done|]. pose proof (proj1 (Forall_lookup _ _) Hp i p Hi) as (? & ? & ? & ?).
  split_and!; [by apply blend_range..|]. unfold byte_range. cbn. lia.
Qed.

Lemma draw_points_painted {E} pts img c ca corner :
  image_wf img → color_wf c → ∃ img', @draw_points E img c ca corner pts = Ok img' ∧ painted img img'.
Proof.
  revert img. induction pts as [|pt pts IH]; intros img Hw Hc; [by exists img|].
  destruct (@draw_point_painted E img c ca corner pt Hw Hc) as (i1 & H1 & P1).
  destruct (IH i1 (proj1 P1) Hc) as (i2 & H2 & P2). exists i2. cbn [draw_points]. rewrite H1.
  split; [exact H2|by eapply painted_trans].
Qed.

Lemma draw_glyphs_painted {E} {FL : FontLib} font size c ca y last cursor glyphs img :
  image_wf img → color_wf c →
  ∃ img', @draw_glyphs FL E font size c ca y last cursor glyphs img = Ok img' ∧ painted img img'.
Proof.
  revert last cursor img. induction glyphs as [|g glyphs IH]; intros last cursor img Hw Hc; [by exists img|].
  cbn [draw_glyphs]. set (cur := match last with Some _ => _ | None => _ end).
  destruct (outline_glyph font size g (cur, y)) as [[corner pts]|]; [|by apply IH].
  destruct (@draw_points_painted E pts img c ca corner Hw Hc) as (i1 & -> & P1). cbn [rbind].
  destruct (IH (Some g) (f32_add cur (h_advance font size g)) i1 (proj1 P1) Hc) as (i2 & -> & P2).
  exists i2. split; [done|by eapply painted_trans].
Qed.

(** C36: Drawing never leaves the image: whatever the font answers (infinite or
    undefined metrics, outlines far outside), at every gravity, offset and
    colour the drawing ends without a panic, with an image of the same size
    whose channels are bytes. *)
Theorem draw_text_in_bounds {E} {FL : FontLib} img font size text gravity offset_x offset_y c ca
    (Hw : image_wf img) (Hc : color_wf c) :
  ∃ img', @draw_text FL E img font size text gravity offset_x offset_y c ca = Ok img' ∧
    image_wf img' ∧ im_width img' = im_width img ∧ im_height img' = im_height img.
Proof.
  unfold draw_text. destruct (anchor _ _ _ _ _ _) as [ax ay]. by apply draw_glyphs_painted.
Qed.

(** ** Files *)

(** What is in the files: [decode] and [encode] are what the [image] crate makes
    of them.  A failed copy or save may leave anything at its destination. *)
Record files_tracked {W} `{Fs W, MountSys W, DumpSys W, WallSys W} (File : Type)
    (content : W → string → option File) (decode : File → option DynImage) (encode : RgbaImage → File)
    : Prop := {
  ft_copy : ∀ a b w w' r, fs_copy a b w = (w', r) →
    (∀ q, q ≠ b → content w' q = content w q) ∧ (r = inr tt → content w' b = content w a);
  ft_save : ∀ img p w w' r, image_save img p w = (w', r) →
    (∀ q, q ≠ p → content w' q = content w q) ∧ (r = inr tt → content w' p = Some (encode img));
  ft_rename : ∀ a b w w' r, fs_rename a b w = (w', r) →
    (∀ q, q ≠ a → q ≠ b → content w' q = content w q) ∧
    match r with
    | inr _ => content w' b = content w a
    | inl _ => content w' b = content w b
    end;
  ft_open : ∀ p w w' r, image_open p w = (w', r) →
    content w' = content w ∧ ∀ img, r = inr img → content w p ≫= decode = Some img;
  ft_exists : ∀ p w w' r, fs_metadata p w = (w', r) →
    content w' = content w ∧ (is_Some (content w p) ↔ ∃ m, r = inr m);
  ft_mkdir : ∀ p w, content (fs_create_dir_all p w).1 = content w;
  ft_read : ∀ p w, content (fs_read p w).1 = content w;
  ft_env : ∀ v w, content (env_var v w).1 = content w;
  ft_host : ∀ w, content (env_hostname w).1 = content w;
  ft_pid : ∀ w, content (process_id w).1 = content w;
}.

(** The names of the temporary files of a target. *)
Definition is_temp_of (target p : string) : Prop :=
  ∃ parent pid, path_parent target = Some parent ∧
    p = path_join parent (".pam_certauth_wallpaper." +:+ fmt_dec pid +:+ ".tmp.jpg").

Section kept.
Context {W : Type} {FS : Fs W} {MS : MountSys W} {DS : DumpSys W} {WS : WallSys W} {FL : FontLib}.
Context {UT : UnicodeTables}.
Context {File : Type} (content : W → string → option File) (decode : File → option DynImage).
Context (encode : RgbaImage → File) (Ht : files_tracked File content decode encode).

(** A computation that leaves every file as it is. *)
Definition still {E A} (c : io W E A) : Prop := ∀ w, content (c w).1 = content w.

Lemma still_bind {E A B} (c : io W E A) (k : A → io W E B) :
  still c → (∀ a, still (k a)) → still (fbind c k).
Proof.
  intros Hc Hk w. rewrite fbind_eq. specialize (Hc w).
  destruct (c w) as [w1 [a|e|]]; cbn [fst] in *; [|done..]. by rewrite Hk.
Qed.

Lemma still_lift {E A} (r : res E A) : still (lift r).
Proof. done. Qed.

Lemma still_ret {E A} (a : A) : still (E := E) (fret a).
Proof. done. Qed.

Lemma still_call {E A} (f : W → W * (E + A)) : (∀ w, content (f w).1 = content w) → still (call f).
Proof. intros Hf w. specialize (Hf w). unfold call. by destruct (f w) as [w1 [e|a]]. Qed.

Lemma still_ask {E A} (f : W → W * A) : (∀ w, content (f w).1 = content w) → still (E := E) (ask f).
Proof. intros Hf w. specialize (Hf w). unfold ask. by destruct (f w). Qed.

Lemma still_map_err {E F A} (g : E → F) (c : io W E A) : still c → still (io_map_err g c).
Proof. intros Hc w. specialize (Hc w). unfold io_map_err. by destruct (c w) as [w1 [a|e|]]. Qed.

Lemma still_ok {E F A} (c : io W E A) : still c → still (E := F) (io_ok c).
Proof. intros Hc w. specialize (Hc w). unfold io_ok. by destruct (c w) as [w1 [a|e|]]. Qed.

Lemma still_exists {E} p : still (E := E) (path_exists p).
Proof.
  intros w. unfold path_exists. destruct (fs_metadata p w) as [w1 r] eqn:Hm.
  apply (ft_exists _ _ _ _ Ht) in Hm as [Hm _]. by destruct r.
Qed.

Lemma still_ensure_dir p : still (ensure_dir p).
Proof.
  unfold ensure_dir. case_decide; [apply still_ret|]. apply still_bind; [apply still_exists|].
  intros []; [apply still_ret|]. apply still_map_err, still_call, Ht.
Qed.

Lemma still_read_to_string p : still (read_to_string p).
Proof. apply still_bind; [apply still_call, Ht|intros; apply still_lift]. Qed.

Lemma still_hostname {E} : still (E := E) wall_hostname.
Proof.
  assert (∀ p, still (E := E) (hostname_of_file p)) as Hf.
  { intros p. apply still_bind; [apply still_ok, still_read_to_string|intros; apply still_ret]. }
  apply still_bind; [apply Hf|]. intros [n|]; [apply still_ret|].
  apply still_bind; [apply Hf|]. intros [n|]; [apply still_ret|].
  apply still_bind; [apply still_ask, Ht|intros; apply still_ret].
Qed.

Lemma still_locale {E} : still (E := E) is_russian_locale.
Proof.
  apply still_bind; [apply still_ask, Ht|]. intros lc. apply still_bind; [|intros; apply still_ret].
  destruct lc; [apply still_ret|apply still_ask, Ht].
Qed.

Lemma still_open p : still (call (image_open p)).
Proof.
  intros w. unfold call. destruct (image_open p w) as [w1 r] eqn:Ho.
  apply (ft_open _ _ _ _ Ht) in Ho as [Ho _]. by destruct r.
Qed.

Lemma still_render cfg id : still (render cfg id).
Proof.
  apply still_bind; [apply still_map_err, still_open|]. intros img.
  apply still_bind; [apply still_map_err, still_call, Ht|]. intros bytes.
  apply still_bind; [apply still_lift|]. intros font. apply still_bind; [apply still_locale|]. intros ru.
  apply still_bind; [apply still_hostname|]. intros host. apply still_bind; [apply still_lift|].
  intros text. by repeat case_match.
Qed.

Lemma exists_spec {E} p w w' (r : res E bool) :
  path_exists p w = (w', r) →
  ∃ b, r = Ok b ∧ content w' = content w ∧ (b = true ↔ is_Some (content w p)).
Proof.
  unfold path_exists. destruct (fs_metadata p w) as [w1 m] eqn:Hm.
  apply (ft_exists _ _ _ _ Ht) in Hm as [Hc Hm].
  destruct m as [e|m]; intros [= <- <-]; eexists; (split_and!; [done|done|]); rewrite Hm; naive_solver.
Qed.

(** The text over the image in the backup. *)
Definition drawn_over (orig : option File) (img : RgbaImage) : Prop :=
  ∃ dyn font size text gravity ox oy c ca, orig ≫= decode = Some dyn ∧
    draw_text (E := WriterError) (to_rgba8 dyn) font size text gravity ox oy c ca = Ok img.

Lemma render_drawn cfg id w w' img :
  render cfg id w = (w', Ok img) → drawn_over (content w (fg_wallpaper_backup cfg)) img.
Proof.
  unfold render. intros H. peel H w1 dyn Hd. peel H w2 fb Hf. peel H w3 font Hft. peel H w4 ru Hru.
  peel H w5 host Hh. peel H w6 text Htx. unfold io_map_err, call in Hd.
  destruct (image_open _ w) as [w1' [e|d]] eqn:Ho; [done|]. injection Hd as <- <-.
  apply (ft_open _ _ _ _ Ht) in Ho as [_ Ho].
  destruct (bz <$> fg_wallpaper_text_color cfg) as [|r [|g [|b [|a []]]]]; try done.
  apply lift_Ok_inv in H as [_ H]. do 9 eexists. split; [by apply Ho|exact H].
Qed.

Lemma make_backup_effect cfg w w' r :
  make_backup cfg w = (w', r) →
  (∀ q, q ≠ fg_wallpaper_backup cfg → content w' q = content w q) ∧
  (r = Ok tt → content w' (fg_wallpaper_backup cfg) = content w (fg_wallpaper_target cfg)).
Proof.
  unfold make_backup. rewrite fbind_eq. set (c := match path_parent _ with Some _ => _ | None => _ end).
  assert (still c) as Hc by (unfold c; case_match; [apply still_ensure_dir|apply still_ret]).
  specialize (Hc w). destruct (c w) as [w1 [[]|e|]]; cbn [fst] in Hc;
    [|intros [= <- <-]; split; [by intros q _; rewrite Hc|done]..].
  unfold io_map_err, call. destruct (fs_copy _ _ w1) as [w2 r2] eqn:Hcp.
  apply (ft_copy _ _ _ _ Ht) in Hcp as [Ho Hcp]. rewrite Hc in Ho, Hcp.
  destruct r2 as [e|[]]; intros [= <- <-]; (split; [exact Ho|]); [done|]. intros _. by apply Hcp.
Qed.

Lemma publish_effect cfg img w w' r :
  ¬ is_temp_of (fg_wallpaper_target cfg) (fg_wallpaper_target cfg) →
  publish cfg img w = (w', r) →
  (∀ q, q ≠ fg_wallpaper_target cfg → ¬ is_temp_of (fg_wallpaper_target cfg) q → content w' q = content w q) ∧
  match r with
  | Ok _ => content w' (fg_wallpaper_target cfg) = Some (encode img)
  | _ => content w' (fg_wallpaper_target cfg) = content w (fg_wallpaper_target cfg)
  end.
Proof.
  intros Htt. unfold publish. rewrite fbind_eq. unfold lift at 1.
  destruct (path_parent (fg_wallpaper_target cfg)) as [parent|] eqn:Hp; cbn [ok_or]; [|by intros [= <- <-]].
  rewrite fbind_eq. pose proof (still_ensure_dir parent w) as Hc.
  destruct (ensure_dir parent w) as [w1 [[]|e|]]; cbn [fst] in Hc;
    [|intros [= <- <-]; by rewrite Hc..].
  rewrite fbind_eq. unfold ask. pose proof (ft_pid _ _ _ _ Ht w1) as Hpid.
  destruct (process_id w1) as [w2 pid]. cbn [fst] in Hpid. cbv zeta.
  set (tmp := path_join parent _).
  assert (is_temp_of (fg_wallpaper_target cfg) tmp) as Htmp by (by exists parent, pid).
  assert (tmp ≠ fg_wallpaper_target cfg) as Hne by (intros E; by rewrite E in Htmp).
  rewrite fbind_eq. unfold io_map_err at 1, call at 1. destruct (image_save img tmp w2) as [w3 r3] eqn:Hsv.
  apply (ft_save _ _ _ _ Ht) in Hsv as [Ho Hsv]. rewrite Hpid, Hc in Ho.
  destruct r3 as [e|[]]; cbn [of_sum].
  { intros [= <- <-]. split; [|by apply Ho]. intros q _ Hq. apply Ho. by intros ->. }
  unfold io_map_err, call. destruct (fs_rename tmp _ w3) as [w4 r4] eqn:Hrn.
  apply (ft_rename _ _ _ _ Ht) in Hrn as [Hr1 Hr2].
  assert (∀ q, q ≠ fg_wallpaper_target cfg → ¬ is_temp_of (fg_wallpaper_target cfg) q →
    content w4 q = content w q) as Hrest.
  { intros q Hq Hnt. rewrite Hr1, Ho; [done|by intros ->..|done]. }
  destruct r4 as [e|[]]; intros [= <- <-]; (split; [exact Hrest|]).
  - rewrite Hr2. by apply Ho.
  - rewrite Hr2. by apply Hsv.
Qed.

(** From the backup on. *)
Lemma write_effect cfg id (bk : bool) w w3 w' (r3 : res WriterError unit) r :
  fg_wallpaper_backup cfg ≠ fg_wallpaper_target cfg →
  ¬ is_temp_of (fg_wallpaper_target cfg) (fg_wallpaper_backup cfg) ∧
  ¬ is_temp_of (fg_wallpaper_target cfg) (fg_wallpaper_target cfg) →
  (bk = true ↔ is_Some (content w (fg_wallpaper_backup cfg))) →
  (∀ q, q ≠ fg_wallpaper_backup cfg → content w3 q = content w q) →
  (bk = true → content w3 = content w) →
  (r3 = Ok tt → bk = false → content w3 (fg_wallpaper_backup cfg) = content w (fg_wallpaper_target cfg)) →
  match r3 with
  | Ok _ => (let! img := render cfg id in do! publish cfg img; fret (Wrote (negb bk))) w3
  | Err e => (w3, Err e)
  | Panic => (w3, Panic)
  end = (w', r) →
  (is_Some (content w (fg_wallpaper_backup cfg)) →
     content w' (fg_wallpaper_backup cfg) = content w (fg_wallpaper_backup cfg)) ∧
  match r with
  | Ok (Wrote first) =>
      (first = true ↔ content w (fg_wallpaper_backup cfg) = None) ∧
      (first = true → content w' (fg_wallpaper_backup cfg) = content w (fg_wallpaper_target cfg)) ∧
      ∃ img, drawn_over (content w' (fg_wallpaper_backup cfg)) img ∧
        content w' (fg_wallpaper_target cfg) = Some (encode img)
  | _ => content w' (fg_wallpaper_target cfg) = content w (fg_wallpaper_target cfg)
  end.
Proof.
  intros Hne [Htb Htt] Hbk Ho Hs Hf.
  assert (is_Some (content w (fg_wallpaper_backup cfg)) →
    content w3 (fg_wallpaper_backup cfg) = content w (fg_wallpaper_backup cfg)) as Hb
    by (intros Hx%Hbk; by rewrite (Hs Hx)).
  destruct r3 as [[]|e|]; [|intros [= <- <-]; by split; [|apply Ho]..].
  rewrite fbind_eq. pose proof (still_render cfg id w3) as Hr. destruct (render cfg id w3) as [w4 [img|e|]] eqn:Hrd;
    cbn [fst] in Hr; [|intros [= <- <-]; rewrite Hr; by split; [|apply Ho]..].
  apply render_drawn in Hrd. rewrite fbind_eq. destruct (publish cfg img w4) as [w5 r5] eqn:Hp.
  apply publish_effect in Hp as [Hp1 Hp2]; [|done]. rewrite Hr in Hp1, Hp2.
  assert (content w5 (fg_wallpaper_backup cfg) = content w3 (fg_wallpaper_backup cfg)) as H5 by (by apply Hp1).
  destruct r5 as [[]|e|]; intros [= <- <-]; rewrite H5; (split; [done|]); [|by rewrite Hp2; apply Ho..].
  split_and!.
  - destruct bk; cbn; split; try done.
    + intros E. destruct (proj1 Hbk eq_refl) as [x Hx]. congruence.
    + intros _. apply eq_None_not_Some. intros Hx%Hbk. done.
  - destruct bk; [done|]. intros _. by apply Hf.
  - exists img. split; [exact Hrd|exact Hp2].
Qed.

End kept.

(** The original image survives: a backup that is there is never touched, the
    first run puts the target there, and every run draws over the backup, never
    over an earlier result.  The target changes only when the run reports that
    it wrote, and then holds the new image in full. *)
Theorem wallpaper_original_kept {W} {FS : Fs W} {MS : MountSys W} {DS : DumpSys W} {WS : WallSys W}
    {FL : FontLib} {UT : UnicodeTables} {File : Type} (content : W → string → option File)
    (decode : File → option DynImage) (encode : RgbaImage → File)
    (Ht : files_tracked File content decode encode) (cfg : FlyDmGreeterSection) (id : ResolvedHostId)
    (w w' : W) (r : res WriterError UpdateOutcome)
    (Hdiff : fg_wallpaper_backup cfg ≠ fg_wallpaper_target cfg)
    (Htmp : ¬ is_temp_of (fg_wallpaper_target cfg) (fg_wallpaper_backup cfg) ∧
            ¬ is_temp_of (fg_wallpaper_target cfg) (fg_wallpaper_target cfg))
    (Hrun : wallpaper_update cfg id w = (w', r)) :
  let backup := fg_wallpaper_backup cfg in
  let target := fg_wallpaper_target cfg in
  (is_Some (content w backup) → content w' backup = content w backup) ∧
  match r with
  | Ok (Wrote first) =>
      (first = true ↔ content w backup = None) ∧
      (first = true → content w' backup = content w target) ∧
      ∃ img, drawn_over decode (content w' backup) img ∧ content w' target = Some (encode img)
  | _ => content w' target = content w target
  end.
Proof.
  revert Hrun. unfold wallpaper_update. destruct (fg_update_wallpaper cfg); [|by intros [= <- <-]]. cbn [negb].
  rewrite fbind_eq. destruct (path_exists _ w) as [w1 r1] eqn:He1.
  apply (exists_spec _ _ _ Ht) in He1 as (bk & -> & H1 & Hbk).
  rewrite fbind_eq. destruct (path_exists _ w1) as [w2 r2] eqn:He2.
  apply (exists_spec _ _ _ Ht) in He2 as (tg & -> & H2 & Htg). rewrite H1 in H2, Htg.
  destruct (negb bk && negb tg) eqn:Hnone; [intros [= <- <-]; by rewrite H2|]. clear Hnone Htg.
  rewrite fbind_eq. destruct ((if bk then fret tt else make_backup cfg) w2) as [w3 r3] eqn:Hb.
  assert ((∀ q, q ≠ fg_wallpaper_backup cfg → content w3 q = content w q) ∧
          (bk = true → content w3 = content w) ∧
          (r3 = Ok tt → bk = false → content w3 (fg_wallpaper_backup cfg) = content w (fg_wallpaper_target cfg)))
    as (Ho3 & Hs3 & Hf3).
  { destruct bk; [injection Hb as <- <-; by rewrite H2|].
    apply (make_backup_effect _ _ _ Ht) in Hb as [Hb1 Hb2]. rewrite H2 in Hb1, Hb2. split_and!; auto; done. }
  eapply (write_effect content decode encode Ht); eauto.
Qed.

(** ** An example: two pixels *)

Module WallSample.

#[export] Instance font : FontLib := {|
  Font := unit;
  font_from_vec _ := inr tt;
  GlyphId := list byte;
  glyph_id _ c := c;
  kern _ _ _ _ := f32_of 0;
  h_advance _ _ _ := f32_of 1;
  ascent _ _ := f32_of 1;
  descent _ _ := f32_of 0;
  outline_glyph _ _ _ at_ := Some (at_, [(0, 0, f32_of 1)]);
|}.

Definition white : Rgba := MkRgba 255 255 255 255.
Definition blank : RgbaImage := MkImage 2 1 [white; white].

(** Image files by path. *)
Abbreviation disk := (gmap string RgbaImage).

Definition not_found : IoError := MkIoError KindNotFound "not found".

#[export] Instance disk_fs : Fs disk := {|
  fs_read _ w := (w, inr []);
  fs_metadata p w := (w, match w !! p with Some _ => inr (MkMetadata true false 0 420) | None => inl not_found end);
|}.

#[export] Instance disk_mounts : MountSys disk := {|
  sys_mount _ _ _ _ w := (w, inl 1);
  sys_umount_detach _ w := (w, inl 1);
  fs_create_dir_all _ w := (w, inr tt);
  fs_remove_dir _ w := (w, inr tt);
|}.

#[export] Instance disk_sys : DumpSys disk := {|
  DumpFile := unit;
  open_truncated _ w := (w, inl not_found);
  dump_write_all _ _ w := (w, inr tt);
  dump_sync_all _ w := (w, inr tt);
  dump_close _ w := w;
  set_permissions _ _ w := (w, inr tt);
  fs_rename a b w :=
    match w !! a with Some f => (<[b := f]> (delete a w), inr tt) | None => (w, inl not_found) end;
  fs_remove_dir_all _ w := (w, inr tt);
  sys_umount _ w := (w, inl 22);
  process_id w := (w, 4711);
  env_hostname w := (w, Some "kiosk");
  stdout_write _ w := (w, inr tt);
|}.

#[export] Instance disk_wall : WallSys disk := {|
  env_var _ w := (w, None);
  fs_copy a b w := match w !! a with Some f => (<[b := f]> w, inr tt) | None => (w, inl not_found) end;
  DynImage := RgbaImage;
  image_open p w := (w, match w !! p with Some f => inr f | None => inl "no such file" end);
  to_rgba8 f := f;
  image_save img p w := (<[p := img]> w, inr tt);
|}.

Lemma disk_tracked :
  files_tracked (W := disk) RgbaImage (λ w p, w !! p) (λ f : RgbaImage, Some f) (λ img, img).
Proof.
  constructor; try done.
  - intros a b w w' r. cbn. destruct (w !! a) as [f|] eqn:Ha; intros [= <- <-]; [|done]. split.
    + intros q Hq. by apply lookup_insert_ne.
    + intros _. by rewrite lookup_insert_eq.
  - intros img q w w' r [= <- <-]. split; [intros x Hx; by apply lookup_insert_ne|].
    intros _. by rewrite lookup_insert_eq.
  - intros a b w w' r. cbn. destruct (w !! a) as [f|] eqn:Ha; intros [= <- <-]; [|done]. split.
    + intros q Hqa Hqb. by rewrite lookup_insert_ne, lookup_delete_ne.
    + by rewrite lookup_insert_eq.
  - intros q w w' r [= <- <-]. split; [done|]. intros img. by destruct (w !! q); intros [= ->].
  - intros q w w' r [= <- <-]. split; [done|]. destruct (w !! q); naive_solver.
Qed.

Definition cfg : FlyDmGreeterSection :=
  {| fg_update_wallpaper := true;
     fg_wallpaper_target := fg_wallpaper_target fly_dm_greeter_default;
     fg_wallpaper_backup := fg_wallpaper_backup fly_dm_greeter_default;
     fg_wallpaper_font := fg_wallpaper_font fly_dm_greeter_default;
     fg_wallpaper_font_size := 64;
     fg_wallpaper_text_color := fg_wallpaper_text_color fly_dm_greeter_default;
     fg_wallpaper_gravity := West;
     fg_wallpaper_offset_x := 0;
     fg_wallpaper_offset_y := 1;
     fg_template_ru := "{host_id_short}";
     fg_template_en := "{host_id_short}" |}.

Definition id : ResolvedHostId := MkResolved MachineId "raw" "norm" "0123456789abcdef".

Definition installed : disk := {[ fg_wallpaper_target cfg := blank ]}.

Lemma temp_is_hidden p : is_temp_of (fg_wallpaper_target cfg) p →
  ∃ rest, p = "/usr/share/wallpapers/.pam_certauth_wallpaper." +:+ rest.
Proof.
  intros (parent & pid & Hp & ->). vm_compute in Hp. injection Hp as <-.
  exists (fmt_dec pid +:+ ".tmp.jpg"). by unfold path_join.
Qed.

Definition run : disk * res WriterError UpdateOutcome :=
  wallpaper_update (UT := HostSample.unicode) cfg id installed.

End WallSample.

Lemma draw_text_in_bounds_witness :
  image_wf WallSample.blank ∧
  ∃ img', draw_text (FL := WallSample.font) (E := WriterError) WallSample.blank tt (f32_of 64) "abc" West 0 1
    (0, 0, 0) 255 = Ok img' ∧ image_wf img' ∧ im_pixels img' ≠ im_pixels WallSample.blank.
Proof.
  assert (image_wf WallSample.blank) as Hw.
  { split; [cbn; lia|]. repeat apply Forall_cons_2; try apply Forall_nil_2;
      repeat split; cbn; lia. }
  split; [exact Hw|].
  destruct (draw_text_in_bounds (E := WriterError) (FL := WallSample.font) WallSample.blank tt (f32_of 64) "abc"
    West 0 1 (0, 0, 0) 255 Hw) as (img' & Hd & Hwf & _).
  { repeat split; cbn; lia. }
  exists img'. split_and!; [exact Hd|exact Hwf|]. vm_compute in Hd. injection Hd as <-. by vm_compute.
Defined.

Lemma wallpaper_original_kept_witness :
  WallSample.run.2 = Ok (Wrote true) ∧
  WallSample.run.1 !! fg_wallpaper_backup WallSample.cfg = Some WallSample.blank.
Proof.
  assert (WallSample.run.2 = Ok (Wrote true)) as Hr by (vm_compute; reflexivity).
  split; [exact Hr|].
  destruct (wallpaper_original_kept (FS := WallSample.disk_fs) (MS := WallSample.disk_mounts)
    (DS := WallSample.disk_sys) (WS := WallSample.disk_wall) (FL := WallSample.font) (UT := HostSample.unicode)
    (λ w p, w !! p) (λ f : RgbaImage, Some f) (λ img, img) WallSample.disk_tracked
    WallSample.cfg WallSample.id WallSample.installed WallSample.run.1 WallSample.run.2) as [_ H].
  - done.
  - split; intros [rest E]%WallSample.temp_is_hidden; discriminate E.
  - exact (surjective_pairing WallSample.run).
  - rewrite Hr in H. destruct H as (_ & H & _). exact (H eq_refl).
Defined.
