(* ===== verification/Daemon.v ===== *)
(** * The daemon's life cycle ([daemon/mod.rs], [server.rs] binding,
    [notify.rs], [shutdown.rs], [main.rs])

    Start-up composes the components: the configuration, the startup checks, the
    greeter's wallpaper, the stored sessions, the tasks of the state manager,
    the action runner, the udev and logind sources, the socket, and the note to
    systemd.  Tasks are handed to the runtime as data; what they do is the
    subject of [State.v], [Events.v] and [Server.v].  Log lines are left out,
    audit records are not. *)

From S2P Require Import Prelude Text Sys Logging Errors Openssl Der Sample X509Ext Certificate HostBinding.
From S2P Require Import MacLabel MacOrchestrator MacAudit PdpFfi Proto Registry State Store Server.
From S2P Require Import Hooks RawConfig Config Client Usb Events HostIdentity Startup DumpHostId Wallpaper.
Local Open Scope Z_scope.

(** ** The socket *)

(** The calls around a Unix-domain socket, and the audit log. *)
Class SocketFs (W : Type) := {
  sk_create_dir_all : string → W → W * (IoError + unit);
  sk_remove_file : string → W → W * (IoError + unit);
  Listener : Type;
  unix_bind : string → W → W * (IoError + Listener);
  listener_fd : Listener → Z;
  listener_drop : Listener → W → W;
  sk_set_permissions : string → Z → W → W * (IoError + unit);
  sk_rename : string → string → W → W * (IoError + unit);
  sk_process_id : W → W * Z;
  set_nonblocking : Listener → W → W * (IoError + unit);
  (** [tokio::net::UnixListener::from_std]. *)
  from_std : Listener → W → W * (IoError + unit);
  audit_emit : AuditRecord → W → W;
}.

Definition SOCKET_MODE : Z := 0x1B0. (* 0o660 *)

Definition build_tmp_socket_path (path : string) (pid : Z) : string :=
  let name := default "monitord.sock" (path_file_name path) +:+ ".tmp." +:+ fmt_dec pid in
  match path_parent path with
  | Some parent => path_join parent name
  | None => name
  end.

(** [emit_sessions_file_warn] with the error of the label; its text also says
    that the file was the socket. *)
Definition socket_label_warning (path : string) (e : MacError) : AuditRecord :=
  MkAudit AuWarn EVENT_MAC_SESSIONS_FILE_WARN [str_field "F_path" path; ("F_error", FieldErr e)].

Section socket.
Context {W : Type} {SK : SocketFs W}.

(** An early return closes the listener; the file stays. *)
Definition or_close {A} (l : Listener) (c : io W IoError A) : io W IoError A := λ w,
  match c w with
  | (w', Ok a) => (w', Ok a)
  | (w', r) => (listener_drop l w', r)
  end.

Definition set_socket_permissions (path : string) : io W IoError unit :=
  call (sk_set_permissions path SOCKET_MODE).

Definition bind_with_label (set_fd_label : FdLabel W) (final_path : string) : io W IoError Listener :=
  let! pid := ask sk_process_id in
  let tmp_path := build_tmp_socket_path final_path pid in
  let! _ := ask (sk_remove_file tmp_path) in
  let! listener := call (unix_bind tmp_path) in
  or_close listener (
    do! call (sk_set_permissions tmp_path SOCKET_MODE);
    let! labelled := io_try (set_fd_label (listener_fd listener) (MkLabel 0 0) true) in
    let! _ := ask (λ w, (audit_emit (match labelled with
                                     | inr _ => emit_socket_label tmp_path
                                     | inl e => socket_label_warning tmp_path e
                                     end) w, tt)) in
    do! call (sk_rename tmp_path final_path);
    fret listener).

(** [if let Some(parent) = path.parent() { create_dir_all(parent)? }]. *)
Definition make_parent (path : string) : io W IoError unit :=
  match path_parent path with
  | Some parent => call (sk_create_dir_all parent)
  | None => fret tt
  end.

(** The backend is [StubBackend] or [ParsecBackend], as for the store. *)
Definition bind_listener (set_fd_label : FdLabel W) (path : string) : io W IoError Listener :=
  do! make_parent path;
  let! listener := bind_with_label set_fd_label path in
  or_close listener (
    do! call (set_nonblocking listener);
    do! call (from_std listener);
    fret listener).

End socket.

(** ** Readiness and shutdown *)

Inductive NotifySender : Type := NotifySystem | NotifyTest.

Record NotifyHandle := MkNotify {
  nh_sent : bool;
  nh_sender : NotifySender;
  nh_calls : Z;
}.

Definition notify_system_default : NotifyHandle := MkNotify false NotifySystem 0.
Definition notify_test_recorder : NotifyHandle := MkNotify false NotifyTest 0.

(** The tasks [run_async] spawns. *)
Inductive Task (W L : Type) : Type :=
| StateTask (cfg : StateConfig) (store : string) (registry : SessionRegistry) (query : UdevQuery W)
| ActionTask (backend : LogindActionsTrait W)
| UdevTasks
| LogindTasks (bus : BusAddress)
| AcceptTask (listener : L) (cfg : AcceptConfig).
Arguments StateTask {W L}.
Arguments ActionTask {W L}.
Arguments UdevTasks {W L}.
Arguments LogindTasks {W L}.
Arguments AcceptTask {W L}.

Inductive SignalKind : Type := SigTerm | SigInt.

(** The runtime ([tokio], [sd_notify]): tasks, signal streams, the
    first signal to come, the shutdown token, and joining the tasks within a
    time budget. *)
Class Runtime (W L : Type) := {
  JoinHandle : Type;
  runtime_build : W → W * (string + unit);
  task_spawn : Task W L → W → W * JoinHandle;
  sd_notify_ready : W → W * (string + unit);
  signal_stream : SignalKind → W → W * (string + unit);
  first_signal : W → W * SignalKind;
  token_cancel : W → W;
  join_within : Z → list JoinHandle → W → W;
}.

Section lifecycle.
Context {W : Type} {SK : SocketFs W} {RT : Runtime W (@Listener W SK)}.

Definition notify_ready (h : NotifyHandle) (w : W) : W * NotifyHandle :=
  if nh_sent h then (w, h) else
  let w := match nh_sender h with NotifySystem => (sd_notify_ready w).1 | NotifyTest => w end in
  (w, MkNotify true (nh_sender h) (nh_calls h + 1)).

Definition install_signal_handlers : io W string unit :=
  do! call (signal_stream SigTerm);
  do! call (signal_stream SigInt);
  let! _ := ask first_signal in
  ask (λ w, (token_cancel w, tt)).

Definition graceful_finish (handles : list JoinHandle) (budget : Z) (socket_path : string) (w : W) : W :=
  (sk_remove_file socket_path (join_within budget handles w)).1.

End lifecycle.

(** ** Start-up *)

Record DaemonArgs := MkDaemonArgs {
  da_config : string;
  da_socket : option string;
  da_state_file : option string;
  da_grace_seconds : option Z;
  da_suspend_grace_seconds : option Z;
  da_no_udev : bool;
  da_no_dbus : bool;
}.

Inductive DaemonError : Type :=
| LoggingFailed (e : string)
| BadConfig (path : string) (e : Error)
| SweepFailed (e : HostIdentityError)
| StartupErrors (n : Z) (config : string)
| NoHookPath
| NoSystemBus (e : string)
| BindFailed (e : IoError).

(** The action of the configuration, with the path of the hook. *)
Definition removal_action (m : MonitorSection) : res DaemonError OnUsbRemoved :=
  match mon_on_usb_removed m with
  | DoLock => Ok Lock
  | DoLogout => Ok Logout
  | DoShutdown => Ok Shutdown
  | DoHook => let? path := ok_or (mon_on_usb_removed_hook_path m) NoHookPath in Ok (Hook path)
  end.

(** The running daemon: what its tasks were given. *)
Record Running (L H : Type) := MkRunning {
  rn_state : StateConfig;
  rn_store : string;
  rn_registry : SessionRegistry;
  rn_real_query : bool;
  rn_real_actions : bool;
  rn_socket : string;
  rn_listener : L;
  rn_accept : AcceptConfig;
  rn_handles : list H;
  rn_notify : NotifyHandle;
}.
Arguments MkRunning {L H}.
Arguments rn_state {L H}.
Arguments rn_store {L H}.
Arguments rn_registry {L H}.
Arguments rn_real_query {L H}.
Arguments rn_real_actions {L H}.
Arguments rn_socket {L H}.
Arguments rn_listener {L H}.
Arguments rn_accept {L H}.
Arguments rn_handles {L H}.
Arguments rn_notify {L H}.

Section start.
Context {W : Type} {FS : Fs W} {CLK : Clock W} {PR : Processes W} {PDP : Libpdp W} {UD : Udev W}.
Context {MS : MountSys W} {DS : DumpSys W} {WS : WallSys W} {FL : FontLib} {WC : WallClock W}.
Context {SK : SocketFs W} {RT : Runtime W (@Listener W SK)} {DB : Dbus W} {SL : StderrLog W}.
Context {RX : RegexCrate} {TM : Toml} {UT : UnicodeTables} {UDB : UnicodeDebug} {SHA : Sha256}.
Context {JS : Json (list ActiveSession)}.
(** The [astra-mac] feature. *)
Context (astra : bool).

(** The configuration, and the checks that must not report an error. *)
Definition startup_gate (config : string) : io W DaemonError ValidatedConfig :=
  let! validated := io_map_err (BadConfig config) (load_validated_config astra config) in
  let! report := io_map_err SweepFailed (run_startup_checks astra validated startup_options_default) in
  if has_errors report then lift (Err (StartupErrors (report_count report SevError) config))
  else fret validated.

(** Whatever happens here, the daemon goes on. *)
Definition update_greeter {E} (cfg : ValidatedConfig) : io W E unit :=
  let! resolved := io_try (resolve (from_validated (cfg_host_identity cfg) "/")) in
  match resolved with
  | inr id => let! _ := io_try (wallpaper_update (cfg_fly_dm_greeter cfg) id) in fret tt
  | inl _ => fret tt
  end.

Definition spawned {E} (t : Task W Listener) : io W E JoinHandle := ask (task_spawn t).

(** The connection is made once; without it the daemon does not start. *)
Definition actions_backend (no_dbus : bool) : io W DaemonError (LogindActionsTrait W) :=
  if no_dbus then fret NoopActions else
  let! conn := io_map_err NoSystemBus (call connect_system) in fret (LogindActions conn).

(** [tokio::spawn] of a source, unless it is switched off. *)
Definition spawned_unless {E} (off : bool) (t : Task W Listener) : io W E (list JoinHandle) :=
  if off then fret [] else let! h := spawned t in fret [h].

Definition start_daemon (args : DaemonArgs) : io W DaemonError (Running Listener JoinHandle) :=
  do! io_map_err LoggingFailed logging_init;
  let! validated := startup_gate (da_config args) in
  do! update_greeter validated;
  let m := cfg_monitor validated in
  let socket_path := default (mon_socket_path m) (da_socket args) in
  let state_file := default (mon_state_file_path m) (da_state_file args) in
  let grace := default (mon_usb_removed_grace m / NANOS_PER_SEC) (da_grace_seconds args) in
  let suspend := default (mon_suspend_grace m / NANOS_PER_SEC) (da_suspend_grace_seconds args) in
  let! initial := io_ok (store_load state_file) in
  let registry := from_snapshot (default [] initial) in
  let query := if da_no_udev args then AlwaysPresent else RealUdevQuery in
  let! action := lift (removal_action m) in
  let state_cfg := MkStateConfig grace suspend action in
  let! state_handle := spawned (StateTask state_cfg state_file registry query) in
  let! backend := actions_backend (da_no_dbus args) in
  let! action_handle := spawned (ActionTask backend) in
  let! udev_handle := spawned_unless (da_no_udev args) UdevTasks in
  let! logind_handle := spawned_unless (da_no_dbus args) (LogindTasks BusSystem) in
  let! listener := io_map_err BindFailed (bind_listener (store_backend astra) socket_path) in
  let! accept_handle := spawned (AcceptTask listener accept_config_default) in
  let! notify := ask (notify_ready notify_system_default) in
  fret (MkRunning state_cfg state_file registry (negb (da_no_udev args)) (negb (da_no_dbus args)) socket_path
          listener accept_config_default
          ([accept_handle; state_handle; action_handle] ++ udev_handle ++ logind_handle) notify).

(** [run_async]: start, wait for a signal, finish. *)
Definition run_async (args : DaemonArgs) : io W DaemonError unit :=
  let! run := start_daemon args in
  let! _ := io_try install_signal_handlers in
  ask (λ w, (graceful_finish (rn_handles run) (5 * NANOS_PER_SEC) (rn_socket run) w, tt)).

(** [daemon::run]: the exit code. *)
Definition daemon_run {E} (args : DaemonArgs) : io W E Z := λ w,
  match runtime_build w with
  | (w, inl _) => (w, Ok 1)
  | (w, inr _) =>
      match run_async args w with
      | (w, Ok _) => (w, Ok 0)
      | (w, Err _) => (w, Ok 1)
      | (w, Panic) => (w, Panic)
      end
  end.

(** [main]: the parsed command line, the exit code. *)
Inductive Cmd : Type :=
| CmdDaemon (args : DaemonArgs)
| CmdCheck (config : string)
| CmdDumpHostId (config : string) (output : option string) (usb : bool).

Definition main (cmd : Cmd) : io W unit Z :=
  match cmd with
  | CmdDaemon args => daemon_run args
  | CmdCheck config =>
      let! r := io_map_err (λ _, tt) (check_run astra config) in fret (if r.1 then 0 else 1)
  | CmdDumpHostId config output usb =>
      let! r := io_map_err (λ _, tt) (run_cli astra config output usb) in fret r.2
  end.

End start.

(** ** What start-up has established *)

(** A world in which the computation answered. *)
Definition happened {W E A} (c : io W E A) (a : A) : Prop := ∃ w w', c w = (w', Ok a).

Section started.
Context {W : Type} {FS : Fs W} {CLK : Clock W} {PR : Processes W} {PDP : Libpdp W}.
Context {RX : RegexCrate} {TM : Toml} {UT : UnicodeTables} {SHA : Sha256}.
Context (astra : bool).

Lemma removal_action_Ok m : monitor_wf m → ∃ a, removal_action m = Ok a.
Proof.
  intros [_ _ _ Hh _ _ _ _]. unfold removal_action. destruct (mon_on_usb_removed m); eauto.
  destruct (mon_on_usb_removed_hook_path m); [cbn; eauto|done].
Qed.

Lemma startup_gate_Ok config w w' cfg :
  startup_gate astra config w = (w', Ok cfg) →
  happened (load_validated_config astra config) cfg ∧
  ∃ w1 w2 report, run_startup_checks astra cfg startup_options_default w1 = (w2, Ok report) ∧
    has_errors report = false.
Proof.
  unfold startup_gate. intros H. peel H w1 c Hc. apply io_map_err_Ok_inv in Hc.
  peel H w2 report Hr. apply io_map_err_Ok_inv in Hr.
  destruct (has_errors report) eqn:He; [done|]. injection H as <- <-. split; [by exists w, w1|].
  by exists w1, w2, report.
Qed.

Lemma report_count_nonneg report sev : 0 ≤ report_count report sev.
Proof. unfold report_count, zlen. lia. Qed.

Lemma io_ok_happened {E F G A} (c : io W E A) w w' a :
  io_ok (F := F) c w = (w', Ok a) → happened (io_ok (F := G) c) a.
Proof. intros H. exists w, w'. unfold io_ok in *. destruct (c w) as [w1 [x|e|]]; by simplify_eq. Qed.

End started.

(** ** Theorems *)

(** C32: The preflight tells the truth: from the same state of the machine,
    [pam-certauth check] reports success exactly when the daemon gets past its
    configuration and startup checks. *)
Theorem check_predicts_start {W} {FS : Fs W} {CLK : Clock W} {PR : Processes W} {PDP : Libpdp W}
    {RX : RegexCrate} {TM : Toml} {UT : UnicodeTables} {SHA : Sha256} astra config w :
  (∃ cfg, (startup_gate astra config w).2 = Ok cfg) ↔
  (∃ report, (check_run astra config w).2 = Ok (true, report)).
Proof.
  unfold startup_gate, check_run. rewrite !fbind_eq. unfold io_map_err at 1, io_try at 1.
  destruct (load_validated_config astra config w) as [w1 [cfg|e|]]; cbn [map_err snd]; [|naive_solver..].
  rewrite !fbind_eq. unfold io_map_err at 1.
  destruct (run_startup_checks astra cfg startup_options_default w1) as [w2 [report|e|]];
    cbn [map_err snd]; [|naive_solver..].
  unfold has_errors. pose proof (report_count_nonneg report SevError) as Hn.
  destruct (decide (0 < report_count report SevError)) as [Hp|Hp].
  - rewrite (bool_decide_eq_true_2 (0 < _)) by done. rewrite (bool_decide_eq_false_2 (_ = 0)) by lia.
    cbn. naive_solver.
  - rewrite (bool_decide_eq_false_2 (0 < _)) by done. rewrite (bool_decide_eq_true_2 (_ = 0)) by lia.
    cbn. naive_solver.
Qed.


(** ** The socket is never exposed *)

#[export] Instance recorded_socket {W} {SK : SocketFs W} : SocketFs (W * list W) := {|
  sk_create_dir_all p := record (sk_create_dir_all p);
  sk_remove_file p := record (sk_remove_file p);
  Listener := @Listener W SK;
  unix_bind p := record (unix_bind p);
  listener_fd := listener_fd;
  listener_drop l s := (record (λ w, (listener_drop l w, tt)) s).1;
  sk_set_permissions p m := record (sk_set_permissions p m);
  sk_rename a b := record (sk_rename a b);
  sk_process_id := record sk_process_id;
  set_nonblocking l := record (set_nonblocking l);
  from_std l := record (from_std l);
  audit_emit r s := (record (λ w, (audit_emit r w, tt)) s).1;
|}.

(** [mode_at] is what a peer that connects at a path meets: nothing, or a socket
    with its permissions. *)
Record socket_laws {W} {SK : SocketFs W} (mode_at : W → string → option Z) : Prop := {
  sl_bind : ∀ p w w' r, unix_bind p w = (w', r) →
    (∀ q, q ≠ p → mode_at w' q = mode_at w q) ∧ (∀ l, r = inr l → is_Some (mode_at w' p));
  sl_mode : ∀ p m w w' r, sk_set_permissions p m w = (w', r) →
    (∀ q, q ≠ p → mode_at w' q = mode_at w q) ∧
    (r = inr tt → is_Some (mode_at w p) → mode_at w' p = Some m);
  sl_rename : ∀ a b w w' r, sk_rename a b w = (w', r) →
    mode_at w' b = match r with inr _ => mode_at w a | inl _ => mode_at w b end;
  sl_remove : ∀ p w q, q ≠ p → mode_at (sk_remove_file p w).1 q = mode_at w q;
  sl_mkdir : ∀ p w, mode_at (sk_create_dir_all p w).1 = mode_at w;
  sl_pid : ∀ w, mode_at (sk_process_id w).1 = mode_at w;
  sl_drop : ∀ l w, mode_at (listener_drop l w) = mode_at w;
  sl_nonblocking : ∀ l w, mode_at (set_nonblocking l w).1 = mode_at w;
  sl_from_std : ∀ l w, mode_at (from_std l w).1 = mode_at w;
  sl_audit : ∀ r w, mode_at (audit_emit r w) = mode_at w;
}.

Lemma call_record {W E A B} (f : W → W * (E + A)) (k : A → io (W * list W) E B) s :
  fbind (call (record f)) k s =
    match f s.1 with
    | (w', inr a) => k a (w', s.2 ++ [w'])
    | (w', inl e) => ((w', s.2 ++ [w']), Err e)
    end.
Proof. rewrite fbind_eq. unfold call, record. by destruct (f s.1) as [w' [e|a]]. Qed.

Lemma ask_record {W E A B} (f : W → W * A) (k : A → io (W * list W) E B) s :
  fbind (ask (record f)) k s = let (w', a) := f s.1 in k a (w', s.2 ++ [w']).
Proof. rewrite fbind_eq. unfold ask, record. by destruct (f s.1) as [w' a]. Qed.

Section exposure.
Context {W : Type} {SK : SocketFs W} (mode_at : W → string → option Z) (Hl : socket_laws mode_at).
Context (set_fd_label : FdLabel W) (path : string) (w0 : W).
Hypothesis Hlabel : ∀ fd l b w, mode_at (set_fd_label fd l b w).1 = mode_at w.
Hypothesis Hname : ∀ pid, path ≠ build_tmp_socket_path path pid.

Definition unexposed (w : W) : Prop :=
  mode_at w path = mode_at w0 path ∨ mode_at w path = Some SOCKET_MODE.

(** Now and in every state so far. *)
Definition covered (s : W * list W) : Prop := unexposed s.1 ∧ Forall unexposed s.2.

Lemma covered_step w w' log :
  covered (w, log) → mode_at w' path = mode_at w path → covered (w', log ++ [w']).
Proof.
  intros [Hw Hlog] E. assert (unexposed w') as Hw' by (unfold unexposed in *; by rewrite E).
  split; [done|]. apply Forall_app. split; [done|]. by constructor.
Qed.

Lemma covered_drop l s : covered s → covered (listener_drop (SocketFs := recorded_socket) l s).
Proof. destruct s as [w log]. intros H. eapply covered_step; [exact H|]. by rewrite (sl_drop _ Hl). Qed.

(** The part from the permissions to the rename. *)
Definition dress (tmp : string) (l : @Listener W SK) : io (W * list W) IoError (@Listener W SK) :=
  do! call (sk_set_permissions (SocketFs := recorded_socket) tmp SOCKET_MODE);
  let! labelled := io_try (recorded_label set_fd_label (listener_fd l) (MkLabel 0 0) true) in
  let! _ := ask (λ w, (audit_emit (SocketFs := recorded_socket) (match labelled with
                                   | inr _ => emit_socket_label tmp
                                   | inl e => socket_label_warning tmp e
                                   end) w, tt)) in
  do! call (sk_rename (SocketFs := recorded_socket) tmp path);
  fret l.

(** A run that keeps the socket covered and, when it succeeds, publishes it. *)
Definition publishes {A} (out : (W * list W) * res IoError A) : Prop :=
  covered out.1 ∧ match out.2 with Ok _ => mode_at out.1.1 path = Some SOCKET_MODE | _ => True end.

Lemma publish_covered tmp (l : @Listener W SK) rec w log :
  covered (w, log) → mode_at w tmp = Some SOCKET_MODE →
  publishes ((let! _ := ask (λ w, (audit_emit (SocketFs := recorded_socket) rec w, tt)) in
              do! call (sk_rename (SocketFs := recorded_socket) tmp path); fret l) (w, log)).
Proof.
  intros Hc Hm. rewrite fbind_eq. unfold ask. cbn [audit_emit recorded_socket]. unfold record at 1. cbn [fst snd].
  pose proof (sl_audit _ Hl rec w) as Ha. set (w1 := audit_emit rec w) in *.
  assert (covered (w1, log ++ [w1])) as Hc1 by (eapply covered_step; [exact Hc|by rewrite Ha]).
  cbn [sk_rename recorded_socket]. rewrite call_record. cbn [fst snd].
  destruct (sk_rename tmp path w1) as [w2 [e|[]]] eqn:Hr; apply (sl_rename _ Hl) in Hr.
  - split; [by eapply covered_step|done].
  - rewrite Ha, Hm in Hr. split; [|exact Hr]. destruct Hc1 as [_ Hlog].
    assert (unexposed w2) by (by right). split; [done|]. apply Forall_app. split; [done|]. by constructor.
Qed.

Lemma dress_covered pid l w log :
  covered (w, log) → is_Some (mode_at w (build_tmp_socket_path path pid)) →
  publishes (dress (build_tmp_socket_path path pid) l (w, log)).
Proof.
  set (tmp := build_tmp_socket_path path pid).
  intros Hc Hs. unfold dress. cbn [sk_set_permissions recorded_socket]. rewrite call_record. cbn [fst snd].
  destruct (sk_set_permissions tmp SOCKET_MODE w) as [w1 r1] eqn:E1. apply (sl_mode _ Hl) in E1 as [O1 M1].
  assert (covered (w1, log ++ [w1])) as Hc1 by (eapply covered_step; [exact Hc|by apply O1, Hname]).
  destruct r1 as [e|[]]; [by split|]. specialize (M1 eq_refl Hs).
  rewrite fbind_eq. unfold io_try, recorded_label, record at 1. cbn [fst snd listener_fd recorded_socket].
  pose proof (Hlabel (listener_fd l) (MkLabel 0 0) true w1) as H2.
  destruct (set_fd_label (listener_fd l) (MkLabel 0 0) true w1) as [w2 r2]. cbn [fst] in H2.
  assert (covered (w2, (log ++ [w1]) ++ [w2])) as Hc2 by (eapply covered_step; [exact Hc1|by rewrite H2]).
  assert (mode_at w2 tmp = Some SOCKET_MODE) as M2 by (by rewrite H2).
  destruct r2 as [u|e|]; [by apply publish_covered..|by split].
Qed.

Lemma or_close_publishes {A} l (c : io (W * list W) IoError A) s :
  publishes (c s) → publishes (or_close (SK := recorded_socket) l c s).
Proof.
  unfold or_close. destruct (c s) as [s1 [a|e|]] eqn:Hc; [done|..]; intros [H _]; (split; [by apply covered_drop|done]).
Qed.

Lemma bind_with_label_covered w log :
  covered (w, log) →
  publishes (bind_with_label (SK := recorded_socket) (recorded_label set_fd_label) path (w, log)).
Proof.
  intros C0. unfold bind_with_label. cbn [sk_process_id recorded_socket]. rewrite ask_record. cbn [fst snd].
  pose proof (sl_pid _ Hl w) as H1. destruct (sk_process_id w) as [w1 pid]. cbn [fst] in H1.
  assert (covered (w1, log ++ [w1])) as C1 by (eapply covered_step; [exact C0|by rewrite H1]).
  cbn [sk_remove_file recorded_socket]. rewrite ask_record. cbn [fst snd].
  pose proof (sl_remove _ Hl (build_tmp_socket_path path pid) w1 path (Hname pid)) as H2.
  destruct (sk_remove_file (build_tmp_socket_path path pid) w1) as [w2 r2]. cbn [fst] in H2.
  assert (covered (w2, (log ++ [w1]) ++ [w2])) as C2 by (by eapply covered_step).
  cbn [unix_bind recorded_socket]. rewrite call_record. cbn [fst snd].
  destruct (unix_bind (build_tmp_socket_path path pid) w2) as [w3 r3] eqn:E3.
  apply (sl_bind _ Hl) in E3 as [O3 M3].
  assert (covered (w3, ((log ++ [w1]) ++ [w2]) ++ [w3])) as C3
    by (eapply covered_step; [exact C2|by apply O3, Hname]).
  destruct r3 as [e|l]; [by split|]. apply or_close_publishes, dress_covered; [exact C3|by apply (M3 l)].
Qed.

Lemma adopt_covered (l : @Listener W SK) w log :
  covered (w, log) → mode_at w path = Some SOCKET_MODE →
  publishes ((do! call (set_nonblocking (SocketFs := recorded_socket) l);
              do! call (from_std (SocketFs := recorded_socket) l); fret l) (w, log)).
Proof.
  intros C0 M0. cbn [set_nonblocking recorded_socket]. rewrite call_record. cbn [fst snd].
  pose proof (sl_nonblocking _ Hl l w) as H1. destruct (set_nonblocking l w) as [w1 r1]. cbn [fst] in H1.
  assert (covered (w1, log ++ [w1])) as C1 by (eapply covered_step; [exact C0|by rewrite H1]).
  destruct r1 as [e|[]]; [by split|]. cbn [from_std recorded_socket]. rewrite call_record. cbn [fst snd].
  pose proof (sl_from_std _ Hl l w1) as H2. destruct (from_std l w1) as [w2 r2]. cbn [fst] in H2.
  assert (covered (w2, (log ++ [w1]) ++ [w2])) as C2 by (eapply covered_step; [exact C1|by rewrite H2]).
  destruct r2 as [e|[]]; (split; [exact C2|]); [done|]. cbn. by rewrite H2, H1.
Qed.

Lemma bind_listener_covered :
  publishes (bind_listener (SK := recorded_socket) (recorded_label set_fd_label) path (w0, [])).
Proof.
  assert (covered (w0, [])) as C0 by (split; [by left|done]).
  unfold bind_listener. rewrite fbind_eq.
  assert (covered (make_parent (SK := recorded_socket) path (w0, [])).1) as Hdir.
  { unfold make_parent. destruct (path_parent path) as [parent|]; [|done].
    unfold call. cbn [sk_create_dir_all recorded_socket]. unfold record. cbn [fst snd app].
    pose proof (sl_mkdir _ Hl parent w0) as H1. destruct (sk_create_dir_all parent w0) as [w1 r1].
    apply (covered_step w0 w1 []); [done|]. cbn [fst] in H1. by rewrite H1. }
  destruct (make_parent path (w0, [])) as [[w1 log1] [[]|e|]]; cbn [fst] in Hdir; [|by split..].
  rewrite fbind_eq. pose proof (bind_with_label_covered w1 log1 Hdir) as [C2 M2].
  destruct (bind_with_label _ path (w1, log1)) as [[w2 log2] [l|e|]]; cbn [fst snd] in *; [|by split..].
  by apply or_close_publishes, adopt_covered.
Qed.

End exposure.

(** C19: The socket is never exposed: while the daemon binds it, and after every
    single call of that, a peer that connects at the path meets what was there
    before, or a socket with mode 0660; when the daemon goes on, it is the
    latter. *)
Theorem socket_never_exposed {W} {SK : SocketFs W} (mode_at : W → string → option Z) set_fd_label path w s r
    (Hl : socket_laws mode_at)
    (Hlabel : ∀ fd l b w, mode_at (set_fd_label fd l b w).1 = mode_at w)
    (Hname : ∀ pid, path ≠ build_tmp_socket_path path pid)
    (Hbind : bind_listener (SK := recorded_socket) (recorded_label set_fd_label) path (w, []) = (s, r)) :
  Forall (λ v, mode_at v path = mode_at w path ∨ mode_at v path = Some SOCKET_MODE) s.2 ∧
  ∀ l, r = Ok l → mode_at s.1 path = Some SOCKET_MODE.
Proof.
  destruct (bind_listener_covered mode_at Hl set_fd_label path w Hlabel Hname) as [[_ C] M].
  rewrite Hbind in C, M. split; [exact C|]. by intros l ->.
Qed.

(** ** An example host *)

Module DaemonSample.

Definition world : Type := StartupSample.world.
Definition refused : IoError := MkIoError KindOther "refused".

#[export] Instance mounts : MountSys world := {|
  sys_mount _ _ _ _ w := (w, inl 1);
  sys_umount_detach _ w := (w, inl 1);
  fs_create_dir_all _ w := (w, inr tt);
  fs_remove_dir _ w := (w, inr tt);
|}.

#[export] Instance sys : DumpSys world := {|
  DumpFile := unit;
  open_truncated _ w := (w, inl refused);
  dump_write_all _ _ w := (w, inl refused);
  dump_sync_all _ w := (w, inl refused);
  dump_close _ w := w;
  set_permissions _ _ w := (w, inl refused);
  fs_rename _ _ w := (w, inl refused);
  fs_remove_dir_all _ w := (w, inl refused);
  sys_umount _ w := (w, inl 22);
  process_id w := (w, 1);
  env_hostname w := (w, None);
  stdout_write _ w := (w, inr tt);
|}.

#[export] Instance wall : WallSys world := {|
  env_var _ w := (w, None);
  fs_copy _ _ w := (w, inl refused);
  DynImage := unit;
  image_open _ w := (w, inl "no image");
  to_rgba8 _ := WallSample.blank;
  image_save _ _ w := (w, inl "no image");
|}.

#[export] Instance udev : Udev world := {|
  UDevice := unit;
  Monitor := unit;
  udev_devnode _ := None;
  udev_property _ _ := None;
  udev_sysname _ := [];
  udev_scan _ w := (w, inr []);
  monitor_listen _ w := (w, inr tt);
  monitor_drain _ w := (w, []);
  monitor_poll _ _ w := (w, inr 0);
|}.

#[export] Instance socket : SocketFs world := {|
  sk_create_dir_all _ w := (w, inr tt);
  sk_remove_file _ w := (w, inr tt);
  Listener := Z;
  unix_bind _ w := (w, inr 5);
  listener_fd l := l;
  listener_drop _ w := w;
  sk_set_permissions _ _ w := (w, inr tt);
  sk_rename _ _ w := (w, inr tt);
  sk_process_id w := (w, 1);
  set_nonblocking _ w := (w, inr tt);
  from_std _ w := (w, inr tt);
  audit_emit _ w := w;
|}.

#[export] Instance stderr_log : StderrLog world := {|
  EnvFilter := string;
  env_filter_try_from_env _ w := (w, inl "not set");
  env_filter_new f := f;
  registry_try_init _ w := (w, inr tt);
  daemon_log_installed _ := false;
  mark_daemon_log w := w;
|}.

#[export] Instance runtime : Runtime world Z := {|
  JoinHandle := nat;
  runtime_build w := (w, inr tt);
  task_spawn _ w := (w, O);
  sd_notify_ready w := (w, inr tt);
  signal_stream _ w := (w, inr tt);
  first_signal w := (w, SigTerm);
  token_cancel w := w;
  join_within _ _ w := w;
|}.

#[export] Instance bus : Dbus world := {|
  Connection := unit;
  Proxy := unit;
  SignalMsg := unit;
  connect_system w := (w, inr tt);
  connect_address _ w := (w, inr tt);
  proxy_new _ _ _ _ w := (w, inr tt);
  call_method _ _ _ w := (w, inr tt);
  receive_signal _ _ w := (w, inr tt);
  body_bool _ := None;
  body_session _ := None;
|}.

Definition args : DaemonArgs := MkDaemonArgs "/etc/pam_certauth/config.toml" None None (Some 7) None false false.

Definition ready : world * res DaemonError (Running Z nat) :=
  start_daemon (W := world) (FS := ConfigSample.fs) (CLK := StartupSample.clk) (PR := StartupSample.no_processes)
    (PDP := StartupSample.pdp) (UD := udev) (MS := mounts) (DS := sys) (WS := wall) (FL := WallSample.font)
    (SK := socket) (RT := runtime) (DB := bus) (SL := stderr_log) (RX := ConfigSample.regex) (TM := ConfigSample.toml)
    (UT := HostSample.unicode) (SHA := Sample.digest) (JS := StoreSample.json) false args StartupSample.disk.

(** Sockets by path. *)
Abbreviation sockets := (gmap string Z).

#[export] Instance socket_dir : SocketFs sockets := {|
  sk_create_dir_all _ w := (w, inr tt);
  sk_remove_file p w := (delete p w, inr tt);
  Listener := string;
  unix_bind p w := (<[p := 0x1FF]> w, inr p);
  listener_fd _ := 5;
  listener_drop _ w := w;
  sk_set_permissions p m w := (alter (λ _, m) p w, inr tt);
  sk_rename a b w := match w !! a with
                     | Some m => (<[b := m]> (delete a w), inr tt)
                     | None => (w, inl refused)
                     end;
  sk_process_id w := (w, 1);
  set_nonblocking _ w := (w, inr tt);
  from_std _ w := (w, inr tt);
  audit_emit _ w := w;
|}.

Lemma socket_dir_laws : socket_laws (W := sockets) (λ w p, w !! p).
Proof.
  split; try done.
  - intros p w w' r [= <- <-]. split; [by intros q Hq; apply lookup_insert_ne|].
    intros l _. by rewrite lookup_insert_eq.
  - intros p m w w' r [= <- <-]. split; [by intros q Hq; apply lookup_alter_ne|].
    intros _ [x Hx]. by rewrite lookup_alter_eq, Hx.
  - intros a b w w' r. cbn. destruct (w !! a) eqn:Ha; intros [= <- <-]; [|done]. by rewrite lookup_insert_eq.
  - intros p w q Hq. cbn. by apply lookup_delete_ne.
Qed.

Definition path : string := "/run/pam_certauth/monitord.sock".
Definition no_label : FdLabel sockets := λ _ _ _ w, (w, Err CapMissing).

(** The temporary name is longer. *)
Lemma path_not_temp pid : path ≠ build_tmp_socket_path path pid.
Proof.
  intros E%(f_equal (λ s, drop (length (bytes_of path)) (bytes_of s))).
  change (build_tmp_socket_path path pid) with (path +:+ ".tmp." +:+ fmt_dec pid) in E.
  rewrite bytes_of_app, drop_app_length in E. discriminate E.
Qed.

Definition bound : (sockets * list sockets) * res IoError string :=
  bind_listener (SK := recorded_socket) (recorded_label no_label) path ({[ path := 0x1FF ]}, []).

End DaemonSample.


Lemma socket_never_exposed_witness :
  DaemonSample.bound.2 = Ok "/run/pam_certauth/monitord.sock.tmp.1" ∧
  DaemonSample.bound.1.1 !! DaemonSample.path = Some SOCKET_MODE.
Proof.
  assert (DaemonSample.bound.2 = Ok "/run/pam_certauth/monitord.sock.tmp.1") as Hr by (vm_compute; reflexivity).
  split; [exact Hr|].
  destruct (socket_never_exposed (SK := DaemonSample.socket_dir) (λ w p, w !! p) DaemonSample.no_label
    DaemonSample.path {[ DaemonSample.path := 0x1FF ]} DaemonSample.bound.1 DaemonSample.bound.2
    DaemonSample.socket_dir_laws ltac:(done) DaemonSample.path_not_temp (surjective_pairing _)) as [_ H].
  exact (H _ Hr).
Defined.
