(* ===== verification/EndToEnd.v ===== *)
(** * From the login to the locked screen

    The components together: the module's monitor client opens a session over
    the socket, the daemon tracks it, and when the stick of the session is
    pulled the action runner does what is configured.  The runs are those of
    [Events.dreach], with the history of the state manager; all conditions are
    put on that history. *)

From S2P Require Import Prelude Text Sys Certificate Proto Registry State Enforce Server Config Client Events.
Local Open Scope Z_scope.

(** ** What may happen to a tracked session *)

(** Every session is filed under its own id; unlike [registry_wf] this also
    holds after the reload of an inconsistent file. *)
Definition filed (r : SessionRegistry) : Prop := map_Forall (λ id s, session_id s = id) (by_id r).

(** The history gives the session [id] the target [t]. *)
Definition renames (id : Uuid) (tr : list (Z * event)) (t : SessionTarget) : Prop :=
  ∃ now, (now, EvIpc (IpcUpdateSessionTarget id t)) ∈ tr.

(** Events that end the session [s], or replace it, when the history [tr] may
    have renamed it. *)
Definition ends (s : ActiveSession) (tr : list (Z * event)) (ev : event) : Prop :=
  match ev with
  | EvIpc (IpcSessionOpen s') => session_id s' = session_id s
  | EvIpc (IpcSessionClose id _) => id = session_id s
  | EvLogind (SessionRemoved lid _) =>
      logind_id (target s) = Some lid ∨ ∃ t, renames (session_id s) tr t ∧ logind_id t = Some lid
  | _ => False
  end.

Definition is_removal (serial : string) (ev : event) : Prop :=
  match ev with
  | EvUdev u => ue_action u = UdevRemove ∧ ue_serial u = Some serial
  | _ => False
  end.

(** Every removal of the device was followed by its return, or by a sleep. *)
Definition accounted (serial : string) (tr : list (Z * event)) : Prop :=
  ∀ after e before, tr = after ++ e :: before → is_removal serial e.2 →
    ∃ e', e' ∈ after ∧ cancels serial e'.2.

(** Nothing is left to do now: no timer is due, the runner has taken every
    request. *)
Definition settled (d : dstate) : Prop :=
  ds_taken d = length (ms_actions (ds_mgr d)) ∧
  ∀ tok t, ms_timers (ds_mgr d) !! tok = Some t → ¬ may_fire t (ms_now (ds_mgr d)).

(** The daemon once its manager has answered a request. *)
Definition answered (d : dstate) (mgr : mstate) : dstate :=
  MkDaemon mgr [] (ds_taken d) (ds_calls d) (ds_devices d) (ds_awaits d).

(** ** Lemmas *)

Lemma set_target_same s : set_target (target s) s = s.
Proof. by destruct s. Qed.

Lemma registry_remove_other r i id :
  i ≠ id → by_id (registry_remove r i).1 !! id = by_id r !! id.
Proof.
  intros Hne. unfold registry_remove. destruct (by_id r !! i); [|done]. cbn. by apply lookup_delete_ne.
Qed.

Lemma remove_all_other ids r id :
  id ∉ ids → by_id (foldl (λ r u, (registry_remove r u).1) r ids) !! id = by_id r !! id.
Proof.
  revert r. induction ids as [|i ids IH]; intros r Hn; [done|]. cbn.
  apply not_elem_of_cons in Hn as [Hi Hn]. rewrite IH by done. by apply registry_remove_other.
Qed.

Lemma filed_add r s : filed r → filed (registry_add r s).
Proof. intros Hf. by apply map_Forall_insert_2. Qed.

Lemma filed_remove r i : filed r → filed (registry_remove r i).1.
Proof. intros Hf. unfold registry_remove. destruct (by_id r !! i); [by apply map_Forall_delete|done]. Qed.

Lemma filed_remove_all ids r : filed r → filed (foldl (λ r u, (registry_remove r u).1) r ids).
Proof. revert r. induction ids as [|i ids IH]; intros r Hf; [done|]. by apply IH, filed_remove. Qed.

Lemma filed_update r i t : filed r → filed (update_target r i t).1.
Proof.
  intros Hf. unfold update_target. destruct (by_id r !! i) as [s|] eqn:Hs; [|done].
  apply map_Forall_insert_2; [|done]. by apply Hf in Hs.
Qed.

Lemma filed_snapshot l : filed (from_snapshot l).
Proof.
  unfold from_snapshot. assert (filed registry_new) as Hn by apply map_Forall_empty. revert Hn.
  generalize registry_new. induction l as [|s l IH]; intros r Hr; [done|]. cbn. apply IH.
  by apply map_Forall_insert_2.
Qed.

#[local] Hint Resolve filed_add filed_remove filed_remove_all filed_update filed_snapshot : core.

(** A logind session that is not the one of [s] leaves [s] alone. *)
Lemma session_removed_other r id lid s :
  filed r → by_id r !! id = Some s → logind_id (target s) ≠ Some lid →
  id ∉ (session_id <$> List.filter (λ s, bool_decide (logind_id (target s) = Some lid)) (snapshot r)).
Proof.
  intros Hf Hs Hne (s' & -> & Hin)%list_elem_of_fmap.
  apply list_elem_of_In, filter_In in Hin as [Hin%list_elem_of_In%elem_of_snapshot Hl%bool_decide_eq_true].
  destruct Hin as [j Hj]. rewrite (Hf j s' Hj) in Hs. congruence.
Qed.

Section tracked.
Context {UT : UuidText} {CP : CratePkg} (cfg : StateConfig).

Lemma step_filed st ev st' : step cfg st ev st' → filed (ms_registry st) → filed (ms_registry st').
Proof.
  intros H Hf. destruct H as [st req present ok|st u|st sig ok|st d Hd|st tok t Ht Hm|st tok t c Ht Hc]; try done.
  - destruct req as [|s|id at'| |u|id t]; cbn; try done.
    + destruct (usb_serial s) as [serial|]; [destruct (present serial)|]; cbn; auto.
    + auto.
    + pose proof (filed_update _ id t Hf) as Hu. by destruct (update_target (ms_registry st) id t) as [r' []].
  - unfold handle_udev. by repeat case_match.
  - unfold handle_logind. destruct sig as [[]|lid op]; [done..|]. case_decide; [done|]. cbn. auto.
Qed.

Lemma exec_filed st0 tr st : exec cfg st0 tr st → filed (ms_registry st0) → filed (ms_registry st).
Proof. induction 1; eauto using step_filed. Qed.

(** One step: the session stays as it is, or gets another target. *)
Lemma step_tracks st ev st' s T :
  step cfg st ev st' → filed (ms_registry st) → by_id (ms_registry st) !! session_id s = Some s →
  ¬ ends s T ev →
  by_id (ms_registry st') !! session_id s = Some s ∨
  ∃ t, ev = EvIpc (IpcUpdateSessionTarget (session_id s) t) ∧
       by_id (ms_registry st') !! session_id s = Some (set_target t s).
Proof.
  intros H Hf Hs Hn.
  destruct H as [st req present ok|st u|st sig ok|st d Hd|st tok t Ht Hm|st tok t c Ht Hc]; try (by left).
  - destruct req as [|s'|id at'| |u|id t]; cbn in *; try (by left).
    + left. destruct (usb_serial s') as [serial|]; [destruct (present serial)|]; cbn; try done;
        by rewrite lookup_insert_ne.
    + left. by rewrite registry_remove_other.
    + unfold update_target. destruct (by_id (ms_registry st) !! id) as [x|] eqn:Hx; cbn; [|by left].
      destruct (decide (id = session_id s)) as [->|Hne]; [right|left; by rewrite lookup_insert_ne].
      exists t. split; [done|]. rewrite lookup_insert_eq. congruence.
  - left. unfold handle_udev. by repeat case_match.
  - left. unfold handle_logind. destruct sig as [[]|lid op]; [done..|]. case_decide; [done|]. cbn.
    rewrite remove_all_other; [done|]. eapply session_removed_other; [done..|].
    intros Hl. apply Hn. by left.
Qed.

(** A session that nothing ends is tracked to the end of the run, under one of
    its targets. *)
Lemma exec_tracks st0 tr st s T :
  exec cfg st0 tr st → filed (ms_registry st0) → by_id (ms_registry st0) !! session_id s = Some s →
  tr ⊆ T → (∀ e, e ∈ tr → ¬ ends s T e.2) →
  filed (ms_registry st) ∧
  ∃ t, by_id (ms_registry st) !! session_id s = Some (set_target t s) ∧
       (t = target s ∨ renames (session_id s) T t).
Proof.
  intros H Hf Hs. induction H as [|tr st ev st' He IH Hst]; intros Hsub Hn.
  { split; [done|]. exists (target s). rewrite set_target_same. by split; [|left]. }
  destruct IH as (Hf' & t & Ht & Hor); [set_solver|intros e Hin; apply Hn; by right|].
  split; [by eapply step_filed|].
  destruct (step_tracks st ev st' (set_target t s) T Hst Hf' Ht) as [Hk|(t' & -> & Hk)].
  - intros Hend. apply (Hn (ms_now st, ev)); [by left|]. cbn.
    destruct ev as [[]| |[[]|lid op]| | |]; try done. cbn in *.
    destruct Hend as [Hl|Hl]; [|by right]. destruct Hor as [->|Hor]; [by left|right]. by exists t.
  - by exists t.
  - exists t'. split; [done|]. right. exists (ms_now st). apply Hsub. by left.
Qed.

(** A pending removal of the device is on record, unexcused. *)
Lemma exec_grace r disk now tr st serial tok :
  exec cfg (init_state r disk now) tr st → ms_grace st !! serial = Some tok →
  ∃ after e before, tr = after ++ e :: before ∧ is_removal serial e.2 ∧
    ∀ e', e' ∈ after → ¬ cancels serial e'.2.
Proof.
  intros H. revert tok. induction H as [|tr st ev st' He IH Hst]; intros tok Hg; [done|].
  assert (¬ cancels serial ev → ms_grace st !! serial = Some tok →
    ∃ after e before, (ms_now st, ev) :: tr = after ++ e :: before ∧ is_removal serial e.2 ∧
      ∀ e', e' ∈ after → ¬ cancels serial e'.2) as Hold.
  { intros Hc (after & e & before & -> & Hr & Hn)%IH. exists ((ms_now st, ev) :: after), e, before.
    split_and!; [done..|]. by intros e' [->|Hin]%elem_of_cons; [|apply Hn]. }
  destruct Hst as [st req present ok|st u|st sig ok|st d Hd|st k t Ht Hm|st k t c Ht Hc]; cbn in Hg.
  - apply Hold; [by intros []|]. destruct (handle_ipc_frame present ok st req) as (<- & _). done.
  - unfold handle_udev in Hg. cbn in Hold.
    destruct (ue_action u) eqn:Ha, (ue_serial u) as [x|] eqn:Hx; try (apply Hold; [intros [? ?]; congruence|done]).
    + destruct (ms_grace st !! x) as [k|] eqn:Hk; cbn in Hg.
      * apply lookup_delete_Some in Hg as [Hne Hg]. apply Hold; [intros [? ?]; congruence|done].
      * apply Hold; [|done]. intros [_ [= ->]]. congruence.
    + destruct (decide (x = serial)) as [->|Hne].
      * exists [], (ms_now st, EvUdev u), tr. split; [done|]. split; [done|]. by intros e ?%not_elem_of_nil.
      * apply Hold; [intros [? ?]; congruence|]. destruct (is_in_grace_window _ _ _); [done|]. case_decide; [done|].
        destruct (ms_grace st !! x); [done|]. cbn in Hg. by rewrite lookup_insert_ne in Hg.
  - destruct sig as [[]|lid op]; cbn in *; [done|apply Hold; [by intros []|done]|].
    apply Hold; [by intros []|]. by case_decide.
  - apply Hold; [by intros []|done].
  - apply Hold; [by intros []|done].
  - apply Hold; [by intros []|done].
Qed.

Lemma accounted_grace r disk now tr st serial :
  exec cfg (init_state r disk now) tr st → accounted serial tr → ms_grace st !! serial = None.
Proof.
  intros He Ha. destruct (ms_grace st !! serial) as [tok|] eqn:Hg; [|done].
  destruct (exec_grace _ _ _ _ _ _ _ He Hg) as (after & e & before & -> & Hr & Hn).
  destruct (Ha after e before) as (e' & Hin & Hc); [done..|]. by destruct (Hn e' Hin).
Qed.

(** A run through an event of its history. *)
Lemma exec_split st0 after e before st :
  exec cfg st0 (after ++ e :: before) st →
  ∃ m m', exec cfg st0 before m ∧ step cfg m e.2 m' ∧ e.1 = ms_now m ∧ exec cfg m' after st.
Proof.
  revert st. induction after as [|a after IH]; intros st H; cbn in H.
  - inversion H as [|tr m ev m' He Hs]; subst. exists m, st. split_and!; [done..|constructor].
  - inversion H as [|tr m ev m' He Hs]; subst. destruct (IH m He) as (x & x' & ? & ? & ? & Hx).
    exists x, x'. split_and!; [done..|]. by econstructor.
Qed.

Lemma exec_app st0 tr1 st1 tr2 st2 :
  exec cfg st0 tr1 st1 → exec cfg st1 tr2 st2 → exec cfg st0 (tr2 ++ tr1) st2.
Proof. intros H1. induction 1; [done|]. by econstructor. Qed.

(** Once the grace period is past and the timers that are due have fired, the
    action was requested for the session. *)
Lemma removal_requested r disk now tr st u serial s after st' :
  exec cfg (init_state r disk now) tr st → is_removal serial (EvUdev u) →
  is_in_grace_window (ms_suspend st) (ms_now st) (suspend_grace_seconds cfg) = false →
  ms_grace st !! serial = None → s ∈ find_by_serial (ms_registry st) serial →
  exec cfg (handle_udev cfg st u) after st' → (∀ e, e ∈ after → ¬ cancels serial e.2) →
  ms_now st + grace_ns cfg ≤ ms_now st' →
  (∀ tok t, ms_timers st' !! tok = Some t → ¬ may_fire t (ms_now st')) →
  HandleUsbRemoved s (on_usb_removed cfg) ∈ ms_actions st'.
Proof.
  intros Hrun [Ha Hser] Hwin Hfresh Hs Hafter Hnot Hlate Hset.
  destruct (removal_outcome cfg r disk now tr st u serial s after st') as (tok & t & Hd & Hin & [[Ht Hl _ _]|Hr]);
    [done..| |by apply Hr].
  destruct (Hset _ _ Ht). split; [lia|]. by rewrite Hl.
Qed.

End tracked.

Section daemon.
Context {UT : UuidText} {CP : CratePkg} (cfg : StateConfig).

(** What the runner has asked for, once it has taken every request. *)
Lemma taken_calls st0 tr d a c :
  dinv cfg st0 tr d → ds_taken d = length (ms_actions (ds_mgr d)) →
  a ∈ ms_actions (ds_mgr d) → handle_action a = Ok c → c ∈ ds_calls d.
Proof.
  intros [_ _ _ _ Hc] Ht Ha Hh. rewrite Hc, Ht, firstn_all. apply list_elem_of_omap.
  exists a. split; [done|]. unfold calls_of. by rewrite Hh.
Qed.

(** The run after a login, the session tracked, up to the removal of its
    device. *)
Lemma login_then_removal disk now0 tr0 d mgr s serial after t0 u before d2 t1 :
  dreach cfg (daemon_start (from_snapshot disk) disk now0) tr0 d →
  dreach cfg d [(t1, EvIpc (IpcSessionOpen s))] (answered d mgr) →
  by_id (ms_registry mgr) !! session_id s = Some s → usb_serial s = Some serial →
  dreach cfg (answered d mgr) (after ++ (t0, EvUdev u) :: before) d2 →
  is_removal serial (EvUdev u) → (∀ e, e ∈ before → ¬ ends s before e.2) →
  accounted serial (before ++ (t1, EvIpc (IpcSessionOpen s)) :: tr0) →
  is_in_grace_window (suspend_of (before ++ (t1, EvIpc (IpcSessionOpen s)) :: tr0)) t0
    (suspend_grace_seconds cfg) = false →
  (∀ e, e ∈ after → ¬ cancels serial e.2) → t0 + grace_ns cfg ≤ ms_now (ds_mgr d2) → settled d2 →
  ∃ t, (t = target s ∨ renames (session_id s) before t) ∧
    HandleUsbRemoved (set_target t s) (on_usb_removed cfg) ∈ ms_actions (ds_mgr d2).
Proof.
  intros H0 H1 Hs Hser Hrun Hu Hends Hacc Hwin Hnot Hlate [_ Hset].
  apply dreach_exec in H0, H1, Hrun. cbn [answered ds_mgr daemon_start] in *.
  destruct (exec_split cfg _ _ _ _ _ Hrun) as (m & m' & Hb & Hst & Htime & Ha). cbn [fst snd] in *.
  pose proof (exec_app cfg _ _ _ _ _ (exec_app cfg _ _ _ _ _ H0 H1) Hb) as Hm.
  pose proof (exec_inv cfg _ _ _ _ _ Hm) as Hinv. subst t0.
  destruct (exec_tracks cfg mgr before m s before) as (_ & t & Ht & Hor); [done| |done..|].
  { eapply exec_filed; [exact (exec_app cfg _ _ _ _ _ H0 H1)|apply filed_snapshot]. }
  exists t. split; [done|]. inversion Hst; subst.
  eapply (removal_requested cfg); [exact Hm|exact Hu| | | |exact Ha|done..].
  - by rewrite (inv_suspend _ _ _ Hinv).
  - eapply accounted_grace; [exact Hm|done].
  - apply elem_of_find_by_serial. split; [by eexists|done].
Qed.

End daemon.

(** The monitor client of the module, connected to the state manager. *)
Definition login_client {UT : UuidText} {CP : CratePkg} {UC : UuidCrate} {PKG : CorePkg}
    {JC : Json ClientMessage} {JS : Json ServerMessage} (present : string → bool) (persist_ok : bool)
    (path : string) (timeout : Z) (mode : MonitorFailMode) : MonitorClient (link mstate) :=
  FailModeWrapper
    (ConnectPerCall (SK := link_socket (ask_manager present persist_ok)) (WC := link_clock) path timeout)
    mode.

(** ** A login, and its stick pulled *)

Module StorySample.

Definition uuid_text : UuidText := ServerSample.uuid.
Definition pkg : CratePkg := ServerSample.pkg.
Definition cfg : StateConfig := StateSample.cfg.
Definition l0 : link mstate := MkLink ServerSample.st0 [] 0 0.
Definition session : ActiveSession := opened (UC := ClientSample.uuid) ClientSample.info 0.
Definition asked : mstate → IpcRequest → mstate * ask_result :=
  ask_manager (UT := uuid_text) (CP := pkg) (λ _, true) true.
Definition manage (st : mstate) (req : IpcRequest) : mstate :=
  (handle_ipc (UT := uuid_text) (CP := pkg) (λ _, true) true st req).1.

Definition opened_mgr : mstate := manage ServerSample.st0 (IpcSessionOpen session).
(** [pam_sm_open_session] names the logind session. *)
Definition naming : IpcRequest := IpcUpdateSessionTarget (session_id session) (LogindSession "c1").
Definition named_mgr : mstate := manage opened_mgr naming.
Definition pulled : mstate := handle_udev cfg named_mgr EventsSample.moved.
Definition late : mstate := StateSample.waited pulled.
Definition timer0 : timer :=
  MkTimer "usb1" [set_target (LogindSession "c1") session] (5 * NANOS_PER_SEC) None.
Definition fired : mstate := fire cfg late 0 timer0.

Definition before : list (Z * event) := [(0, EvIpc naming)].
Definition after : list (Z * event) := [(5 * NANOS_PER_SEC, EvFire 0); (0, EvTick (5 * NANOS_PER_SEC))].
Definition login_state : dstate := MkDaemon opened_mgr [] 0 [] [] None.
Definition locked : dstate := MkDaemon fired [] 1 [LockSession "c1"] [EventsSample.removed] (Some (LockSession "c1")).

Lemma locked_run :
  dreach (UT := uuid_text) (CP := pkg) cfg login_state (after ++ (0, EvUdev EventsSample.moved) :: before) locked.
Proof.
  eapply dreach_quiet.
  2:{ apply (DAct cfg fired [] 0 [] _ (HandleUsbRemoved (set_target (LogindSession "c1") session) Lock)).
      by vm_compute. }
  eapply dreach_event; [|apply (DTime cfg late (EvFire 0)); [done|]|reflexivity].
  2:{ apply (StepFire cfg late 0 timer0); [by vm_compute|]. split; [by vm_compute|done]. }
  eapply dreach_event; [|apply (DTime cfg pulled (EvTick (5 * NANOS_PER_SEC))); [done|]|reflexivity].
  2:{ by apply (StepTick cfg pulled). }
  eapply dreach_event; [|apply (DHandle cfg named_mgr (EvUdev EventsSample.moved)); apply StepUdev|reflexivity].
  eapply dreach_quiet; [|apply (DDevice cfg named_mgr [] 0 [] [] None EventsSample.removed)].
  eapply dreach_event; [eapply dreach_quiet; [constructor|apply (DRequest cfg opened_mgr [] 0 [] [] None naming)]|
    apply (DHandle cfg opened_mgr (EvIpc naming)), StepIpc|reflexivity].
Qed.

Lemma locked_settled : settled locked.
Proof. split; [by vm_compute|]. intros tok t Ht. vm_compute in Ht. done. Qed.

End StorySample.

(** ** Theorems *)


