(* ===== verification/Pkcs12.v ===== *)
(** * Key material and challenge-response ([pkcs12/], [challenge/], [gost/algorithms.rs])

    Opening a PKCS#12 bundle, the bounded PIN loop, and the proof of
    possession of the private key.  The parts of the [openssl] crate these
    use are the class [OpenSSLKeys]; setting a signer up and running it is one
    call, since each of its steps fails with the same error.  The prompter is
    a state and a function on it; the random source is an argument. *)

From S2P Require Import Prelude Text Errors Openssl Certificate Gost Trust Sample.
Local Open Scope Z_scope.

(** [MessageDigest] by its NID; [Padding::PKCS1_PSS] with the salt length and
    the MGF1 digest, or the default of the key. *)
Record SignParams := MkSignParams {
  sp_digest : Z;
  sp_pss : option (Z * Z);
}.

Class OpenSSLKeys `{OpenSSL} := {
  PrivateKey : Type;
  Pkcs12 : Type;
  Pkcs12_from_der : list byte → ErrorStack + Pkcs12;
  (** [parse2]: the key, the certificate and the chain. *)
  Pkcs12_parse2 : Pkcs12 → string →
    ErrorStack + (option PrivateKey * option X509 * option (list X509));
  private_key_to_pkcs8 : PrivateKey → ErrorStack + list byte;
  private_key_from_pkcs8 : list byte → ErrorStack + PrivateKey;
  (** The raw [Id] of a public key. *)
  PKey_id : PKey → Z;
  (** The curve of an EC key, if it is named. *)
  PKey_ec_curve : PKey → ErrorStack + option Z;
  (** [MessageDigest::from_nid]. *)
  digest_from_nid : Z → option Z;
  sign : SignParams → PrivateKey → list byte → ErrorStack + list byte;
  (** [Verifier::new] with its parameters, fed the message. *)
  Verifier : Type;
  verifier_new : SignParams → PKey → list byte → ErrorStack + Verifier;
  verifier_verify : Verifier → list byte → ErrorStack + bool;
  (** The DER of [EcdsaSig] from the bytes of [r] and [s]. *)
  ecdsa_sig_der : list byte → list byte → ErrorStack + list byte;
  (** [Hasher] on the message. *)
  hasher_digest : Z → list byte → ErrorStack + list byte;
}.

(** ** PKCS#12 *)

Inductive PamConvError : Type :=
| NoConv
| ConvFailed
| NonUtf8.

Inductive Pkcs12Error : Type :=
| WrongPin
| MissingKey
| MissingCert
| Corrupt (msg : ErrText).

Inductive AcquireError : Type :=
| MaxTries
| AcquireConv (e : PamConvError)
| AcquireCorrupt (msg : ErrText)
| Missing (what : string).

Inductive P12EnvelopeError : Type :=
| Asn1 (msg : string).

Definition corrupt (e : ErrorStack) : Pkcs12Error := Corrupt (PlainText e).

(** The needles are ASCII without [k], so [to_lowercase] may stop at ASCII:
    no other character lowers to one of theirs alone. *)
Definition classify_parse_error (raw : ErrorStack) : Pkcs12Error :=
  let lc := to_ascii_lowercase raw in
  if str_contains lc "mac verify" || str_contains lc "wrong password" ||
     str_contains lc "bad decrypt" || str_contains lc "invalid mac"
  then WrongPin else Corrupt (PlainText raw).

Section pkcs12.
Context {SSL : OpenSSL} {SK : OpenSSLKeys}.

Record LoadedKeyMaterial := MkLoaded {
  end_entity : Certificate;
  presented_chain : list Certificate;
  key_der : list byte;
}.

(** One certificate of the bundle, re-read from its DER. *)
Definition reparse (label : string) (x : X509) : res Pkcs12Error Certificate :=
  let? der := map_err corrupt (of_sum (X509_to_der x)) in
  map_err (λ e, Corrupt (LabelledTrust label e)) (from_der der).

Fixpoint reparse_all (xs : list X509) : res Pkcs12Error (list Certificate) :=
  match xs with
  | [] => Ok []
  | x :: r =>
      let? c := reparse "chain cert" x in
      let? cs := reparse_all r in Ok (c :: cs)
  end.

Definition from_p12 (bytes : list byte) (pin : string) : res Pkcs12Error LoadedKeyMaterial :=
  let? p12 := map_err corrupt (of_sum (Pkcs12_from_der bytes)) in
  let? parsed := map_err classify_parse_error (of_sum (Pkcs12_parse2 p12 pin)) in
  let '(pkey, cert, ca) := parsed in
  let? pkey := ok_or pkey MissingKey in
  let? cert := ok_or cert MissingCert in
  let? ee := reparse "end-entity" cert in
  let? chain := reparse_all (default [] ca) in
  let? der := map_err corrupt (of_sum (private_key_to_pkcs8 pkey)) in
  Ok (MkLoaded ee chain der).

Definition private_key (m : LoadedKeyMaterial) : res Pkcs12Error PrivateKey :=
  map_err corrupt (of_sum (private_key_from_pkcs8 (key_der m))).

Definition validate_p12_envelope (bytes : list byte) : res P12EnvelopeError unit :=
  let? _ := map_err Asn1 (of_sum (Pkcs12_from_der bytes)) in Ok tt.

(** [.ok()?] at each step. *)
Definition try_extract_cert_without_pin (bytes : list byte) : option Certificate :=
  match Pkcs12_from_der bytes with
  | inl _ => None
  | inr p12 =>
      match Pkcs12_parse2 p12 "" with
      | inr (_, Some cert, _) =>
          match X509_to_der cert with
          | inr der => match from_der der with Ok c => Some c | _ => None end
          | inl _ => None
          end
      | _ => None
      end
  end.

Context {W : Type} (prompter : W → string → W * (PamConvError + string)).

(** [for _ in 0..max_tries]. *)
Fixpoint acquire_p12_material_with_prompter (w : W) (bytes : list byte) (max_tries : nat)
    : W * res AcquireError LoadedKeyMaterial :=
  match max_tries with
  | O => (w, Err MaxTries)
  | S n =>
      match prompter w "Smart-card PIN: " with
      | (w, inl e) => (w, Err (AcquireConv e))
      | (w, inr pin) =>
          match from_p12 bytes pin with
          | Ok m => (w, Ok m)
          | Err WrongPin => acquire_p12_material_with_prompter w bytes n
          | Err MissingKey => (w, Err (Missing "key"))
          | Err MissingCert => (w, Err (Missing "cert"))
          | Err (Corrupt m) => (w, Err (AcquireCorrupt m))
          | Panic => (w, Panic)
          end
      end
  end.

End pkcs12.

(** ** Challenge-response *)

Inductive CryptoError : Type :=
| CryptoRng (e : ErrText)
| CryptoOpenssl (e : ErrorStack)
| CryptoBadSignature
| UnsupportedKey (what : string)
| CryptoEngineLoadFailed (source : GostEngineError).

(** Raw [Id]s and NIDs of the [openssl] crate. *)
Definition ID_RSA : Z := 6.
Definition ID_EC : Z := 408.
Definition ID_ED25519 : Z := 1087.
Definition NID_PRIME256V1 : Z := 415.
Definition NID_SECP384R1 : Z := 715.
Definition NID_SHA256 : Z := 672.
Definition NID_SHA384 : Z := 673.

Definition NID_ID_GOST_R3410_2012_256 : Z := 979.
Definition NID_ID_GOST_R3410_2012_512 : Z := 980.

Definition NONCE_SIZE : Z := 32.

Definition GOST_2012_256_NAME : string := "md_gost12_256".
Definition GOST_2012_512_NAME : string := "md_gost12_512".

Definition nid_from_name (name : string) : res GostEngineError Z :=
  if decide (name = GOST_2012_256_NAME) then Ok 1177
  else if decide (name = GOST_2012_512_NAME) then Ok 1178
  else Err (DigestUnavailable name).

Section challenge.
Context {SSL : OpenSSL} {SK : OpenSSLKeys} {GS : GostSys}.

(** What [SysRng.try_fill_bytes] answered for [NONCE_SIZE] bytes: the nonce or an
    error. *)
Context (rng : string + list byte).

Definition digest_by_name (cell : EngineCell) (name : string) : res GostEngineError Z :=
  if negb (is_available cell) then
    Err (NotAvailable ("engine not pinned; cannot resolve digest " +:+ name)) else
  let? nid := nid_from_name name in
  ok_or (digest_from_nid nid) (DigestUnavailable name).

Definition gost_2012_256_md (cell : EngineCell) : res GostEngineError Z :=
  digest_by_name cell GOST_2012_256_NAME.

Definition gost_2012_512_md (cell : EngineCell) : res GostEngineError Z :=
  digest_by_name cell GOST_2012_512_NAME.

(** [None]: the algorithm needs no digest of the engine. *)
Definition gost_signature_md_for (cell : EngineCell) (sig_alg : SignatureAlg)
    : res GostEngineError (option Z) :=
  match sig_alg with
  | IdTc26SignWithDigestGostR341012_256 => let? md := gost_2012_256_md cell in Ok (Some md)
  | IdTc26SignWithDigestGostR341012_512 => let? md := gost_2012_512_md cell in Ok (Some md)
  | _ => Ok None
  end.

(** Sign the nonce, verify the signature. *)
Definition round_trip (params : SignParams) (pub_key : PKey) (priv_key : PrivateKey)
    : res CryptoError unit :=
  let? nonce := map_err (λ e, CryptoRng (PlainText e)) (of_sum rng) in
  let? sig := map_err CryptoOpenssl (of_sum (sign params priv_key nonce)) in
  let? v := map_err CryptoOpenssl (of_sum (verifier_new params pub_key nonce)) in
  let? ok := map_err CryptoOpenssl (of_sum (verifier_verify v sig)) in
  if ok : bool then Ok tt else Err CryptoBadSignature.

Definition challenge_response_rsa_pss : PKey → PrivateKey → res CryptoError unit :=
  round_trip (MkSignParams NID_SHA256 (Some (NONCE_SIZE, NID_SHA256))).

Definition ec_digest (pk : PKey) : res CryptoError Z :=
  let? curve := map_err CryptoOpenssl (of_sum (PKey_ec_curve pk)) in
  let? nid := ok_or curve (UnsupportedKey "EC w/o named curve") in
  if decide (nid = NID_PRIME256V1) then Ok NID_SHA256
  else if decide (nid = NID_SECP384R1) then Ok NID_SHA384
  else Err (UnsupportedKey "EC curve not supported").

Definition challenge_response_ecdsa (pub_key : PKey) (priv_key : PrivateKey)
    : res CryptoError unit :=
  let? md := ec_digest pub_key in
  round_trip (MkSignParams md None) pub_key priv_key.

Definition challenge_response_gost (pub_key : PKey) (priv_key : PrivateKey) (md : Z)
    : res CryptoError unit :=
  round_trip (MkSignParams md None) pub_key priv_key.

(** The GOST branches of the dispatcher: pin the engine, find the digest. *)
Definition challenge_gost (cell : EngineCell) (path : option string) (name : string)
    (pub_key : PKey) (key : PrivateKey) : EngineCell * res CryptoError unit :=
  let (cell, loaded) := ensure_loaded_with_path cell path in
  (cell,
   check map_err CryptoEngineLoadFailed loaded;
   let? md := map_err CryptoEngineLoadFailed (digest_by_name cell name) in
   challenge_response_gost pub_key key md).

Definition challenge_response (cell : EngineCell) (ee : Certificate) (key : PrivateKey)
    (gost_engine_path : option string) : EngineCell * res CryptoError unit :=
  match public_key ee with
  | Err (Openssl s) => (cell, Err (CryptoOpenssl s))
  | Err _ => (cell, Err (UnsupportedKey "cannot extract pubkey"))
  | Panic => (cell, Panic)
  | Ok pub_key =>
      let id := PKey_id pub_key in
      if decide (id = ID_RSA) then (cell, challenge_response_rsa_pss pub_key key)
      else if decide (id = ID_EC) then (cell, challenge_response_ecdsa pub_key key)
      else if decide (id = ID_ED25519) then
        (cell, Err (UnsupportedKey "Ed25519 not in stage-2 scope"))
      else if decide (id = NID_ID_GOST_R3410_2012_256) then
        challenge_gost cell gost_engine_path GOST_2012_256_NAME pub_key key
      else if decide (id = NID_ID_GOST_R3410_2012_512) then
        challenge_gost cell gost_engine_path GOST_2012_512_NAME pub_key key
      else (cell, Err (UnsupportedKey "unknown"))
  end.

End challenge.

(** The signature verifies under the public key. *)
Definition verifies {SSL : OpenSSL} {SK : OpenSSLKeys} (params : SignParams) (pub : PKey)
    (msg sig : list byte) : Prop :=
  ∃ v, verifier_new params pub msg = inr v ∧ verifier_verify v sig = inr true.

(** A prompter that records the PINs it handed out. *)
Definition recording {W} (prompter : W → string → W * (PamConvError + string))
    (w : W * list string) (prompt : string) : (W * list string) * (PamConvError + string) :=
  match prompter w.1 prompt with
  | (w', inl e) => ((w', w.2), inl e)
  | (w', inr pin) => ((w', w.2 ++ [pin]), inr pin)
  end.

(** The parameters that fit a key, and the engine state they need. *)
Inductive params_fit {SSL : OpenSSL} {SK : OpenSSLKeys} {GS : GostSys}
    (cell : EngineCell) (pub : PKey) : SignParams → Prop :=
| FitRsa :
    PKey_id pub = ID_RSA → params_fit cell pub (MkSignParams NID_SHA256 (Some (32, NID_SHA256)))
| FitP256 :
    PKey_id pub = ID_EC → PKey_ec_curve pub = inr (Some NID_PRIME256V1) →
    params_fit cell pub (MkSignParams NID_SHA256 None)
| FitP384 :
    PKey_id pub = ID_EC → PKey_ec_curve pub = inr (Some NID_SECP384R1) →
    params_fit cell pub (MkSignParams NID_SHA384 None)
| FitGost256 md :
    PKey_id pub = NID_ID_GOST_R3410_2012_256 → is_available cell = true →
    digest_from_nid 1177 = Some md → params_fit cell pub (MkSignParams md None)
| FitGost512 md :
    PKey_id pub = NID_ID_GOST_R3410_2012_512 → is_available cell = true →
    digest_from_nid 1178 = Some md → params_fit cell pub (MkSignParams md None).

(** RSA keys named by strings; the bundle opens with one PIN. *)
Module KeySample.

Definition cert : @X509 Sample.openssl :=
  Sample.MkCert [] "alice" "ca" None "01" 0 100 "sha256WithRSAEncryption" "ka" "kc".

Definition parse (pin : string)
    : ErrorStack + (option string * option (@X509 Sample.openssl) * option (list (@X509 Sample.openssl))) :=
  if decide (pin = "1234") then inr (Some "ka", Some cert, None) else inl "PKCS12: mac verify failure".

Definition keys : @OpenSSLKeys Sample.openssl := {|
  PrivateKey := string;
  Pkcs12 := list byte;
  Pkcs12_from_der bs := inr bs;
  Pkcs12_parse2 _ pin := parse pin;
  private_key_to_pkcs8 k := inr (bytes_of k);
  private_key_from_pkcs8 bs := inr (text_of bs);
  PKey_id _ := ID_RSA;
  PKey_ec_curve _ := inr None;
  digest_from_nid _ := None;
  sign _ k msg := inr (bytes_of k ++ msg);
  Verifier := list byte;
  verifier_new _ k msg := inr (bytes_of k ++ msg);
  verifier_verify v sig := inr (bool_decide (sig = v));
  ecdsa_sig_der r s := inr (r ++ s);
  hasher_digest _ msg := inr msg;
|}.

(** The PINs typed, in order. *)
Definition prompter (w : list string) (_ : string) : list string * (PamConvError + string) :=
  match w with
  | [] => ([], inl ConvFailed)
  | p :: r => (r, inr p)
  end.

End KeySample.

(** ** Lemmas *)

Section lemmas.
Context {SSL : OpenSSL} {SK : OpenSSLKeys}.

Lemma reparse_no_panic label x : no_panic (reparse label x).
Proof.
  apply rbind_no_panic; [auto with rust|]. intros der _. apply map_err_no_panic.
  apply rbind_no_panic; [auto with rust|done].
Qed.

Lemma reparse_all_no_panic xs : no_panic (reparse_all xs).
Proof.
  induction xs as [|x xs IH]; [done|]. cbn [reparse_all].
  apply rbind_no_panic; [apply reparse_no_panic|]. intros c _.
  by apply rbind_no_panic.
Qed.

Lemma from_p12_no_panic bytes pin : no_panic (from_p12 bytes pin).
Proof.
  apply rbind_no_panic; [auto with rust|]. intros p12 _.
  apply rbind_no_panic; [auto with rust|]. intros [[[k|] [c|]] ca] _; try done. cbn [ok_or rbind].
  apply rbind_no_panic; [apply reparse_no_panic|]. intros ee _.
  apply rbind_no_panic; [apply reparse_all_no_panic|]. intros chain _.
  apply rbind_no_panic; [auto with rust|done].
Qed.

(** What the loop did, from its recorded PINs. *)
Lemma acquire_p12_recorded {W} (prompter : W → string → W * (PamConvError + string))
    w log bytes n w' log' r :
  acquire_p12_material_with_prompter (recording prompter) (w, log) bytes n = ((w', log'), r) →
  ∃ wrong last, log' = log ++ wrong ++ last ∧
    Forall (λ p, from_p12 bytes p = Err WrongPin) wrong ∧
    (length wrong + length last ≤ n)%nat ∧ r ≠ Panic ∧
    match r with
    | Ok m => ∃ pin, last = [pin] ∧ from_p12 bytes pin = Ok m
    | Err MaxTries => last = [] ∧ length wrong = n
    | Err (AcquireConv _) => last = []
    | Err _ => ∃ pin, last = [pin] ∧ from_p12 bytes pin ≠ Err WrongPin
    | Panic => False
    end.
Proof.
  revert w log. induction n as [|n IH]; intros w log; cbn [acquire_p12_material_with_prompter].
  { intros [= <- <- <-]. exists [], []. rewrite !app_nil_r. by split_and!. }
  unfold recording at 1. cbn [fst snd]. destruct (prompter w _) as [w1 [e|pin]].
  { intros [= <- <- <-]. exists [], []. rewrite !app_nil_r. split_and!; [done..|simpl; lia|done|done]. }
  pose proof (from_p12_no_panic bytes pin) as Hnp.
  destruct (from_p12 bytes pin) as [m|[]|] eqn:Hp; [| | | | |done].
  2: { intros (wrong & last & -> & HF & Hl & Hrp & Hr)%IH. exists (pin :: wrong), last.
       split_and!; [by rewrite <-app_assoc|by constructor|simpl; lia|done|].
       destruct r as [|[]|]; try done. destruct Hr as [-> <-]. by split. }
  all: intros [= <- <- <-]; exists [], [pin]; split_and!; [done..|simpl; lia|done|].
  all: by exists pin; rewrite Hp.
Qed.

Context {GS : GostSys} (rng : string + list byte).

Lemma round_trip_Ok params pub key :
  round_trip rng params pub key = Ok tt →
  ∃ nonce sig, rng = inr nonce ∧ sign params key nonce = inr sig ∧ verifies params pub nonce sig.
Proof.
  unfold round_trip. intros (nonce & Hn%of_sum_err_Ok & Ho)%rbind_Ok_inv.
  apply rbind_Ok_inv in Ho as (sig & Hs%of_sum_err_Ok & Ho).
  apply rbind_Ok_inv in Ho as (v & Hv%of_sum_err_Ok & Ho).
  apply rbind_Ok_inv in Ho as ([] & Hok%of_sum_err_Ok & Ho); [|done].
  exists nonce, sig. split_and!; [done..|]. by exists v.
Qed.

Lemma challenge_gost_Ok cell path name pub key :
  (challenge_gost rng cell path name pub key).2 = Ok tt →
  ∃ md, is_available (challenge_gost rng cell path name pub key).1 = true ∧
    (∀ nid, nid_from_name name = Ok nid → digest_from_nid nid = Some md) ∧
    round_trip rng (MkSignParams md None) pub key = Ok tt.
Proof.
  unfold challenge_gost. destruct (ensure_loaded_with_path cell path) as [cell' loaded] eqn:He.
  cbn [fst snd]. intros (u & _ & (md & Hmd%map_err_Ok_inv & Hr)%rbind_Ok_inv)%rbind_Ok_inv.
  exists md. unfold digest_by_name in Hmd. destruct (is_available cell'); [|done].
  apply rbind_Ok_inv in Hmd as (nid & Hnid & Hd). split_and!; [done| |done].
  intros nid' Hn. rewrite Hnid in Hn. injection Hn as <-. unfold ok_or in Hd.
  destruct (digest_from_nid nid); by simplify_eq.
Qed.

End lemmas.

(** ** Theorems *)

Lemma challenge_response_possession {SSL : OpenSSL} {SK : OpenSSLKeys} {GS : GostSys} rng cell ee key path
    (Hok : (challenge_response rng cell ee key path).2 = Ok tt) :
  ∃ pub params nonce sig, public_key ee = Ok pub ∧ rng = inr nonce ∧
    params_fit (challenge_response rng cell ee key path).1 pub params ∧
    sign params key nonce = inr sig ∧ verifies params pub nonce sig.
Proof.
  unfold challenge_response in *. destruct (public_key ee) as [pub|[]|]; try done.
  repeat case_decide; try done.
  - apply round_trip_Ok in Hok as (nonce & sig & ? & ? & ?).
    exists pub, (MkSignParams NID_SHA256 (Some (32, NID_SHA256))), nonce, sig.
    split_and!; try done. by constructor.
  - apply rbind_Ok_inv in Hok as (md & Hmd & (nonce & sig & ? & ? & ?)%round_trip_Ok).
    exists pub, (MkSignParams md None), nonce, sig. split_and!; try done.
    apply rbind_Ok_inv in Hmd as (curve & Hc%map_err_Ok_inv & (nid & Hnid & Hmd)%rbind_Ok_inv).
    destruct (PKey_ec_curve pub) as [|[c|]] eqn:Hcurve; simplify_eq/=.
    repeat case_decide; simplify_eq; by constructor.
  - apply challenge_gost_Ok in Hok as (md & Hav & Hmd & (nonce & sig & ? & ? & ?)%round_trip_Ok).
    exists pub, (MkSignParams md None), nonce, sig. split_and!; try done.
    apply FitGost256; [done..|by apply Hmd].
  - apply challenge_gost_Ok in Hok as (md & Hav & Hmd & (nonce & sig & ? & ? & ?)%round_trip_Ok).
    exists pub, (MkSignParams md None), nonce, sig. split_and!; try done.
    apply FitGost512; [done..|by apply Hmd].
Qed.

(** C25: The challenge proves possession: it succeeds only if the private key
    signed the fresh nonce and the signature verifies under the public key of
    the certificate, with the padding and digest that fit the key (RSA with
    PSS and SHA-256, the two supported curves, or GOST with the engine
    pinned). *)
Theorem challenge_possession {SSL : OpenSSL} {SK : OpenSSLKeys} {GS : GostSys} rng cell ee key path
    (Hok : (challenge_response rng cell ee key path).2 = Ok tt) :
  ∃ pub params nonce sig, public_key ee = Ok pub ∧ rng = inr nonce ∧
    params_fit (challenge_response rng cell ee key path).1 pub params ∧
    sign params key nonce = inr sig ∧ verifies params pub nonce sig.
Proof. by apply challenge_response_possession. Qed.

Lemma challenge_possession_witness :
  ∃ pub params nonce sig,
    public_key (H := Sample.openssl) (MkCertificate KeySample.cert []) = Ok pub ∧
    inr (bytes_of "nonce") = @inr string _ nonce ∧
    params_fit (SK := KeySample.keys) (GS := GostSample.gost) GostSample.cell0 pub params ∧
    sign (OpenSSLKeys := KeySample.keys) params "ka" nonce = inr sig ∧
    verifies (SK := KeySample.keys) params pub nonce sig.
Proof.
  apply (challenge_possession (SSL := Sample.openssl) (SK := KeySample.keys)
           (GS := GostSample.gost) (inr (bytes_of "nonce")) GostSample.cell0
           (MkCertificate KeySample.cert []) "ka" None).
  reflexivity.
Defined.

(** The PIN loop is bounded and exact: it asks for at most [max_tries] PINs,
    asks again only after a wrong one, succeeds with what the last PIN opens,
    and reports exhaustion exactly after [max_tries] wrong ones; it never
    panics. *)
Theorem p12_pin_loop {SSL : OpenSSL} {SK : OpenSSLKeys} {W}
    (prompter : W → string → W * (PamConvError + string)) w bytes max_tries :
  let '((_, pins), r) :=
    acquire_p12_material_with_prompter (recording prompter) (w, []) bytes max_tries in
  (length pins ≤ max_tries)%nat ∧ r ≠ Panic ∧
  (∀ m, r = Ok m → ∃ wrong pin, pins = wrong ++ [pin] ∧ from_p12 bytes pin = Ok m ∧
     Forall (λ p, from_p12 bytes p = Err WrongPin) wrong) ∧
  (r = Err MaxTries →
     length pins = max_tries ∧ Forall (λ p, from_p12 bytes p = Err WrongPin) pins).
Proof.
  destruct (acquire_p12_material_with_prompter _ _ _ _) as [[w' pins] r] eqn:Hr.
  apply acquire_p12_recorded in Hr as (wrong & last & -> & HF & Hl & Hp & Hr). cbn [app].
  split_and!; [by rewrite length_app|done| |].
  - intros m ->. destruct Hr as (pin & -> & Hpin). by exists wrong, pin.
  - intros ->. destruct Hr as [-> <-]. by rewrite app_nil_r.
Qed.
