(* ===== verification/Pkcs11.v ===== *)
(** * The PKCS#11 token ([token/pkcs11/])

    The bounded PIN loop, finding the certificate and its key, choosing the
    mechanism and the token-side challenge.  The [cryptoki] crate is the class
    [Cryptoki]; a session is live until it is dropped, so [raw()] is the
    session. *)

From S2P Require Import Prelude Text Errors Openssl Certificate Gost Trust Sample Pkcs12.
Local Open Scope Z_scope.

(** [RvError] values the code distinguishes, and the rendered error. *)
Inductive RvError : Type :=
| RvPinIncorrect
| RvPinLocked
| RvOther.

Record CkError := MkCkError {
  ck_rv : RvError;
  ck_text : string;
}.

(** [CK_KEY_TYPE] values. *)
Definition KEY_RSA : Z := 0.
Definition KEY_EC : Z := 3.
Definition KEY_GOSTR3410 : Z := 0x30.

Inductive ObjectClass : Type :=
| CERTIFICATE
| PRIVATE_KEY.

Inductive Attribute : Type :=
| AttrClass (c : ObjectClass)
| AttrCertificateTypeX509
| AttrLabel (bs : list byte)
| AttrId (bs : list byte)
| AttrValue (bs : list byte)
| AttrKeyType (kt : Z)
| AttrExtractable (b : bool)
| AttrOther.

Inductive AttributeType : Type :=
| TValue
| TId
| TLabel
| TKeyType
| TExtractable.

Inductive Mechanism : Type :=
| Sha256RsaPkcsPss (s_len : Z)
| EcdsaSha256
| EcdsaSha384.

Class Cryptoki := {
  Slot : Type;
  Session : Type;
  ObjectHandle : Type;
  find_objects : Session → list Attribute → CkError + list ObjectHandle;
  get_attributes : Session → ObjectHandle → list AttributeType → CkError + list Attribute;
  token_sign : Session → Mechanism → ObjectHandle → list byte → CkError + list byte;
}.

Inductive Pkcs11Error : Type :=
| ModulePathMissing (path : string)
| ModuleLoadFailed (path : string) (source : CkError)
| InitFailed (source : CkError)
| NoTokenAvailable
| TokenNotFound (label : string)
| TokenWaitTimeout (seconds : Z)
| SessionOpenFailed (source : CkError)
| PinIncorrect
| PinLocked
| LogoutFailed (source : CkError)
| CloseSessionFailed (source : CkError)
| CertificateNotFound (label_filter : option string)
| CertificateValueMissing
| CertificateParseFailed (e : TrustError)
| PrivateKeyNotFound (cka_id_hex : string)
| KeyTypeAttributeMissing
| TokenSerialMissing
| UnsupportedKeyType (key_type : string + Z)
| MechanismNotSupported (mechanism : string)
| Pkcs11Openssl (e : ErrorStack)
| Pkcs11Cryptoki (e : CkError).

#[export] Instance CkError_eq_dec : EqDecision CkError.
Proof. intros [r1 t1] [r2 t2]. unfold Decision. decide equality; [apply String.string_dec|decide equality]. Defined.

#[export] Instance Pkcs11Error_eq_dec : EqDecision Pkcs11Error.
Proof. solve_decision. Defined.

(** ** Sessions and the PIN loop *)

Inductive TokenAcquireError : Type :=
| AcquirePinLocked
| MaxAttemptsExceeded
| TokenConv (e : PamConvError)
| AcquirePkcs11 (e : Pkcs11Error).

Definition DEFAULT_PROMPT : string := "Введите PIN токена: ".

Section pin_loop.
Context `{Cryptoki} {W : Type}.
(** The prompter and [open_with_pin], both of which act on the world: a wrong
    PIN counts on the token. *)
Context (prompter : W → string → W * (PamConvError + string)).
Context (open_with_pin : W → string → W * (Pkcs11Error + Session)).

(** [for attempt in 1..=max_attempts]; zero attempts end at once. *)
Fixpoint acquire_pkcs11_session (w : W) (max_attempts : nat) : W * res TokenAcquireError Session :=
  match max_attempts with
  | O => (w, Err MaxAttemptsExceeded)
  | S n =>
      match prompter w DEFAULT_PROMPT with
      | (w, inl e) => (w, Err (TokenConv e))
      | (w, inr pin) =>
          match open_with_pin w pin with
          | (w, inr session) => (w, Ok session)
          | (w, inl PinIncorrect) => acquire_pkcs11_session w n
          | (w, inl PinLocked) => (w, Err AcquirePinLocked)
          | (w, inl other) => (w, Err (AcquirePkcs11 other))
          end
      end
  end.

End pin_loop.

(** [read_token_serial] on the result of [C_GetTokenInfo]. *)
Definition read_token_serial (info : CkError + string) : res Pkcs11Error string :=
  let? serial := map_err Pkcs11Cryptoki (of_sum info) in
  let raw := text_of (trim_end_bytes (bytes_of serial)) in
  if decide (raw = "") then Err TokenSerialMissing else Ok raw.

(** ** Objects on the token *)

(** The last attribute of each kind, as the loop leaves it. *)
Definition last_value (attrs : list Attribute) : option (list byte) :=
  foldl (λ acc a, match a with AttrValue v => Some v | _ => acc end) None attrs.
Definition last_id (attrs : list Attribute) : option (list byte) :=
  foldl (λ acc a, match a with AttrId v => Some v | _ => acc end) None attrs.
Definition last_label (attrs : list Attribute) : option (list byte) :=
  foldl (λ acc a, match a with AttrLabel v => Some v | _ => acc end) None attrs.

(** [write!(out, "{byte:02x}")] of the first four bytes. *)
Definition cka_id_log_prefix (id : list byte) : string :=
  hex_encode (take 4 id) +:+ (if decide (4 < zlen id) then "..." else "").

Section objects.
Context {SSL : OpenSSL} {CK : Cryptoki}.

Record ParsedCertificate := MkParsedCertificate {
  pc_cka_id : list byte;
  pc_cka_label : option string;
  pc_certificate : Certificate;
}.

Definition parse_certificate_object_attributes (value id label : option (list byte))
    : res Pkcs11Error ParsedCertificate :=
  let? value_bytes := ok_or value CertificateValueMissing in
  let? certificate := map_err CertificateParseFailed (from_der value_bytes) in
  Ok (MkParsedCertificate (default [] id) (label ≫= from_utf8) certificate).

Record FoundCertificate := MkFoundCertificate {
  fc_object : ObjectHandle;
  fc_cka_id : list byte;
  fc_cka_label : option string;
  fc_certificate : Certificate;
}.

Definition want_attrs : list AttributeType := [TValue; TId; TLabel].

(** The loop over the handles. *)
Fixpoint first_certificate (session : Session) (label_filter : option string)
    (handles : list ObjectHandle) : res Pkcs11Error FoundCertificate :=
  match handles with
  | [] => Err (CertificateNotFound label_filter)
  | handle :: r =>
      match get_attributes session handle want_attrs with
      | inl _ => first_certificate session label_filter r
      | inr attrs =>
          match parse_certificate_object_attributes (last_value attrs) (last_id attrs)
                  (last_label attrs) with
          | Ok parsed =>
              Ok (MkFoundCertificate handle (pc_cka_id parsed) (pc_cka_label parsed)
                    (pc_certificate parsed))
          | Err CertificateValueMissing => first_certificate session label_filter r
          | Err (CertificateParseFailed _) => first_certificate session label_filter r
          | Err other => Err other
          | Panic => Panic
          end
      end
  end.

Definition certificate_template (label_filter : option string) : list Attribute :=
  [AttrClass CERTIFICATE; AttrCertificateTypeX509] ++
  match label_filter with Some label => [AttrLabel (bytes_of label)] | None => [] end.

Definition find_certificate (session : Session) (label_filter : option string)
    : res Pkcs11Error FoundCertificate :=
  let? handles :=
    map_err Pkcs11Cryptoki (of_sum (find_objects session (certificate_template label_filter))) in
  first_certificate session label_filter handles.

Record ParsedPrivateKey := MkParsedPrivateKey {
  pk_key_type : Z;
  pk_extractable : bool;
}.

Definition parse_private_key_attributes (attrs : list Attribute)
    : res Pkcs11Error ParsedPrivateKey :=
  let key_type := foldl (λ acc a, match a with AttrKeyType k => Some k | _ => acc end) None attrs in
  let extractable := foldl (λ acc a, match a with AttrExtractable b => b | _ => acc end) false attrs in
  let? kt := ok_or key_type KeyTypeAttributeMissing in
  Ok (MkParsedPrivateKey kt extractable).

Record FoundPrivateKey := MkFoundPrivateKey {
  fk_object : ObjectHandle;
  fk_key_type : Z;
  fk_extractable : bool;
}.

Definition find_private_key_for_cert (session : Session) (cert : FoundCertificate)
    : res Pkcs11Error FoundPrivateKey :=
  let? handles :=
    map_err Pkcs11Cryptoki
      (of_sum (find_objects session [AttrClass PRIVATE_KEY; AttrId (fc_cka_id cert)])) in
  match handles with
  | [] => Err (PrivateKeyNotFound (cka_id_log_prefix (fc_cka_id cert)))
  | handle :: _ =>
      let? attrs :=
        map_err Pkcs11Cryptoki (of_sum (get_attributes session handle [TKeyType; TExtractable])) in
      let? parsed := parse_private_key_attributes attrs in
      Ok (MkFoundPrivateKey handle (pk_key_type parsed) (pk_extractable parsed))
  end.

(** ** The token-side challenge *)

Context {SK : OpenSSLKeys}.

(** The digests are NIDs. *)
Inductive TokenSignMechanism : Type :=
| RawSign (mechanism : Mechanism) (host_hash : Z)
| PreHashed (mechanism : Mechanism) (host_hash : Z).

Definition token_host_hash (m : TokenSignMechanism) : Z :=
  match m with RawSign _ h | PreHashed _ h => h end.

Definition RSA_PSS_SALT_LEN : Z := 32.

Definition select_mechanism (key_type : Z) (pubkey : PKey) : res Pkcs11Error TokenSignMechanism :=
  if decide (key_type = KEY_RSA) then
    Ok (RawSign (Sha256RsaPkcsPss RSA_PSS_SALT_LEN) NID_SHA256)
  else if decide (key_type = KEY_EC) then
    let? curve := map_err Pkcs11Openssl (of_sum (PKey_ec_curve pubkey)) in
    let? nid := ok_or curve (UnsupportedKeyType (inl "EC w/o named curve")) in
    if decide (nid = NID_PRIME256V1) then Ok (RawSign EcdsaSha256 NID_SHA256)
    else if decide (nid = NID_SECP384R1) then Ok (RawSign EcdsaSha384 NID_SHA384)
    else Err (UnsupportedKeyType (inl ("EC curve nid " +:+ fmt_dec nid)))
  else if decide (key_type = KEY_GOSTR3410) then
    Err (MechanismNotSupported "CKM_GOSTR3410 (cryptoki 0.7 has no enum variant)")
  else Err (UnsupportedKeyType (inr key_type)).

Definition ecdsa_raw_to_der (raw : list byte) : res CryptoError (list byte) :=
  if decide (raw = [] ∨ zlen raw mod 2 ≠ 0) then Err CryptoBadSignature else
  let half := zlen raw / 2 in
  let? r := slice_to raw half in
  let? s := slice_from raw half in
  map_err CryptoOpenssl (of_sum (ecdsa_sig_der r s)).

Definition verify_on_host (pubkey : PKey) (key_type host_hash : Z) (nonce signature : list byte)
    : res CryptoError unit :=
  let params :=
    MkSignParams host_hash
      (if decide (key_type = KEY_RSA) then Some (RSA_PSS_SALT_LEN, host_hash) else None) in
  let? v := map_err CryptoOpenssl (of_sum (verifier_new params pubkey nonce)) in
  let? sig := if decide (key_type = KEY_EC) then ecdsa_raw_to_der signature else Ok signature in
  let? ok := map_err CryptoOpenssl (of_sum (verifier_verify v sig)) in
  if ok : bool then Ok tt else Err CryptoBadSignature.

Definition host_hash_nonce (digest : Z) (nonce : list byte) : res CryptoError (list byte) :=
  map_err CryptoOpenssl (of_sum (hasher_digest digest nonce)).

(** [NONCE_SIZE] of [sign.rs]. *)
Definition TOKEN_NONCE_SIZE : Z := 32.

(** [rng] is what the random source answered for [TOKEN_NONCE_SIZE] bytes. *)
Definition pkcs11_challenge_response (rng : string + list byte)
    (session : Session) (key_handle : ObjectHandle) (key_type : Z)
    (mechanism : TokenSignMechanism) (ee : Certificate) : res CryptoError unit :=
  let? nonce := map_err (λ e, CryptoRng (PlainText e)) (of_sum rng) in
  let token_error e := CryptoRng (PlainText ("token sign failed: " +:+ ck_text e)) in
  let? signature :=
    match mechanism with
    | RawSign m _ => map_err token_error (of_sum (token_sign session m key_handle nonce))
    | PreHashed m host_hash =>
        let? digest := host_hash_nonce host_hash nonce in
        map_err token_error (of_sum (token_sign session m key_handle digest))
    end in
  let? pubkey :=
    map_err (λ e, match e with
                  | Openssl s => CryptoRng (PlainText ("pubkey extract: " +:+ s))
                  | other => CryptoRng (LabelledTrust "pubkey extract" other)
                  end) (public_key ee) in
  verify_on_host pubkey key_type (token_host_hash mechanism) nonce signature.

End objects.

(** A world that records the PINs tried and what the token said. *)
Definition lift_prompter {W L} (prompter : W → string → W * (PamConvError + string))
    (w : W * L) (prompt : string) : (W * L) * (PamConvError + string) :=
  let (w', r) := prompter w.1 prompt in ((w', w.2), r).

Definition recording_open `{Cryptoki} {W} (open : W → string → W * (Pkcs11Error + Session))
    (w : W * list (string * (Pkcs11Error + Session))) (pin : string)
    : (W * list (string * (Pkcs11Error + Session))) * (Pkcs11Error + Session) :=
  let (w', r) := open w.1 pin in ((w', w.2 ++ [(pin, r)]), r).

(** The signature as OpenSSL reads it. *)
Definition host_signature `{OpenSSLKeys} (key_type : Z) (signature sig : list byte) : Prop :=
  if decide (key_type = KEY_EC)
  then ∃ r s, signature = r ++ s ∧ length r = length s ∧ ecdsa_sig_der r s = inr sig
  else sig = signature.

Definition host_params (key_type host_hash : Z) : SignParams :=
  MkSignParams host_hash (if decide (key_type = KEY_RSA) then Some (32, host_hash) else None).

(** The certificate is the parsed value of one of the objects, and carries its
    identifier. *)
Definition found_in {SSL : OpenSSL} {CK : Cryptoki} (session : Session)
    (handles : list ObjectHandle) (fc : FoundCertificate) : Prop :=
  ∃ pre post attrs value, handles = pre ++ fc_object fc :: post ∧
    get_attributes session (fc_object fc) want_attrs = inr attrs ∧
    last_value attrs = Some value ∧ from_der value = Ok (fc_certificate fc) ∧
    fc_cka_id fc = default [] (last_id attrs).

(** ** Lemmas *)

Lemma found_in_cons {SSL : OpenSSL} {CK : Cryptoki} session h hs fc :
  found_in session hs fc → found_in session (h :: hs) fc.
Proof. intros (pre & post & attrs & value & -> & Hr). by exists (h :: pre), post, attrs, value. Qed.

Lemma acquire_pkcs11_recorded `{Cryptoki} {W} (prompter : W → string → W * (PamConvError + string))
    (open : W → string → W * (Pkcs11Error + Session)) w log n w' log' r :
  acquire_pkcs11_session (lift_prompter prompter) (recording_open open) (w, log) n =
    ((w', log'), r) →
  ∃ wrong last, log' = log ++ wrong ++ last ∧
    Forall (λ a, a.2 = inl PinIncorrect) wrong ∧ (length wrong + length last ≤ n)%nat ∧
    match r with
    | Ok s => ∃ pin, last = [(pin, inr s)]
    | Err AcquirePinLocked => ∃ pin, last = [(pin, inl PinLocked)]
    | Err MaxAttemptsExceeded => last = [] ∧ length wrong = n
    | Err (TokenConv _) => last = []
    | Err (AcquirePkcs11 e) => ∃ pin, last = [(pin, inl e)] ∧ e ≠ PinLocked
    | Panic => False
    end.
Proof.
  revert w log. induction n as [|n IH]; intros w log; cbn [acquire_pkcs11_session].
  { intros [= <- <- <-]. exists [], []. rewrite !app_nil_r. by split_and!. }
  unfold lift_prompter at 1. cbn [fst snd]. destruct (prompter w _) as [w1 [e|pin]].
  { intros [= <- <- <-]. exists [], []. rewrite !app_nil_r. split_and!; [done..|simpl; lia|done]. }
  unfold recording_open at 1. cbn [fst snd]. destruct (open w1 pin) as [w2 [e|s]].
  2: { intros [= <- <- <-]. exists [], [(pin, inr s)]. split_and!; [done..|simpl; lia|by exists pin]. }
  destruct (decide (e = PinIncorrect)) as [->|He].
  { intros (wrong & last & -> & HF & Hl & Hr)%IH. exists ((pin, inl PinIncorrect) :: wrong), last.
    split_and!; [by rewrite <-app_assoc|by constructor|simpl; lia|].
    destruct r as [|[]|]; try done. destruct Hr as [-> <-]. by split. }
  intros Hr. exists [], [(pin, inl e)].
  destruct e; simplify_eq; (split_and!; [done..|simpl; lia|by exists pin]).
Qed.

Lemma ecdsa_raw_to_der_Ok `{OpenSSLKeys} raw der :
  ecdsa_raw_to_der raw = Ok der →
  ∃ r s, raw = r ++ s ∧ length r = length s ∧ ecdsa_sig_der r s = inr der.
Proof.
  unfold ecdsa_raw_to_der. destruct (decide _) as [|Hd]; [done|]. intros Hraw.
  assert (zlen raw mod 2 = 0) as Hm by (destruct (decide (zlen raw mod 2 = 0)); tauto).
  set (n := Z.to_nat (zlen raw / 2)).
  assert (length raw = n + n)%nat as Hlen.
  { unfold n, zlen in *. pose proof (Z.div_mod (Z.of_nat (length raw)) 2). lia. }
  exists (take n raw), (drop n raw). rewrite take_drop, length_take, length_drop.
  split_and!; [done|lia|].
  unfold slice_to, slice_from in Hraw.
  assert (0 ≤ zlen raw / 2 ≤ zlen raw) as Hb.
  { pose proof (zlen_nonneg raw). split; [apply Z.div_pos; lia|]. apply Z.div_le_upper_bound; lia. }
  rewrite (slice_mid raw [] (take n raw) (drop n raw)) in Hraw.
  2: by rewrite app_nil_l, take_drop.
  2: done.
  2: { rewrite zlen_nil. unfold zlen. rewrite length_take. unfold n, zlen in *. lia. }
  cbn [rbind] in Hraw. rewrite (slice_mid raw (take n raw) (drop n raw) []) in Hraw.
  2: by rewrite app_nil_r, take_drop.
  2: { unfold zlen. rewrite length_take. unfold n, zlen in *. lia. }
  2: { unfold zlen. rewrite length_take, length_drop. unfold n, zlen in *. lia. }
  cbn [rbind] in Hraw. by apply of_sum_err_Ok in Hraw.
Qed.

Lemma verify_on_host_Ok `{OpenSSLKeys} pub key_type host_hash nonce signature :
  verify_on_host pub key_type host_hash nonce signature = Ok tt →
  ∃ sig, host_signature key_type signature sig ∧
    verifies (host_params key_type host_hash) pub nonce sig.
Proof.
  unfold verify_on_host, host_signature, host_params.
  intros (v & Hv%of_sum_err_Ok & (sig & Hs & ([] & Ho%of_sum_err_Ok & Hok)%rbind_Ok_inv)%rbind_Ok_inv)%rbind_Ok_inv;
    [|done].
  exists sig. split; [|by exists v].
  destruct (decide (key_type = KEY_EC)); [by apply ecdsa_raw_to_der_Ok|by simplify_eq].
Qed.

Lemma first_certificate_inv {SSL : OpenSSL} {CK : Cryptoki} session filter handles fc :
  first_certificate session filter handles = Ok fc → found_in session handles fc.
Proof.
  induction handles as [|h hs IH]; cbn [first_certificate]; [done|].
  destruct (get_attributes session h want_attrs) as [|attrs] eqn:Ha; [auto using found_in_cons|].
  unfold parse_certificate_object_attributes.
  destruct (last_value attrs) as [value|] eqn:Hv; cbn [ok_or rbind]; [|auto using found_in_cons].
  destruct (from_der value) as [c|e|] eqn:Hc; cbn [map_err rbind]; [|auto using found_in_cons|done].
  intros [= <-]. by exists [], hs, attrs, value.
Qed.

(** A token with one RSA key pair. *)
Module TokenSample.

Definition ck : Cryptoki := {|
  Slot := nat;
  Session := unit;
  ObjectHandle := nat;
  find_objects _ _ := inr [0%nat];
  get_attributes _ _ _ := inr [AttrValue []; AttrKeyType KEY_RSA];
  token_sign _ _ _ msg := inr (bytes_of "ka" ++ msg);
|}.

Definition ee : @Certificate Sample.openssl := MkCertificate KeySample.cert [].

End TokenSample.

(** ** Theorems *)

(** The token's PIN loop is bounded and exact: at most [max_attempts] PINs
    reach the token, another one only after the token called the last one
    incorrect; a locked token ends the loop at once, and exhaustion is
    reported exactly after [max_attempts] incorrect PINs. *)
Theorem pkcs11_pin_loop `{Cryptoki} {W} (prompter : W → string → W * (PamConvError + string))
    (open : W → string → W * (Pkcs11Error + Session)) w max_attempts :
  let '((_, tried), r) :=
    acquire_pkcs11_session (lift_prompter prompter) (recording_open open) (w, []) max_attempts in
  (length tried ≤ max_attempts)%nat ∧ r ≠ Panic ∧
  ∃ wrong last, tried = wrong ++ last ∧ Forall (λ a, a.2 = inl PinIncorrect) wrong ∧
    (∀ s, r = Ok s ↔ ∃ pin, last = [(pin, inr s)]) ∧
    (r = Err AcquirePinLocked ↔ ∃ pin, last = [(pin, inl PinLocked)]) ∧
    (r = Err MaxAttemptsExceeded → last = [] ∧ length tried = max_attempts).
Proof.
  destruct (acquire_pkcs11_session _ _ _ _) as [[w' tried] r] eqn:Hr.
  apply acquire_pkcs11_recorded in Hr as (wrong & last & -> & HF & Hl & Hr). cbn [app].
  split_and!; [by rewrite length_app|by destruct r|].
  exists wrong, last. split_and!; [done..| | |].
  - intros s. split; [intros ->; done|]. intros (pin & ->).
    destruct r as [s'|[]|]; destruct_and?; try destruct Hr as (? & Hr); destruct_and?; by simplify_eq.
  - split; [intros ->; done|]. intros (pin & ->).
    destruct r as [s'|[]|]; destruct_and?; try destruct Hr as (? & Hr); destruct_and?; by simplify_eq.
  - intros ->. destruct Hr as [-> <-]. by rewrite app_nil_r.
Qed.

Lemma token_challenge_proof {SSL : OpenSSL} {CK : Cryptoki} {SK : OpenSSLKeys}
    rng session handle key_type pub m ee
    (Hpub : public_key ee = Ok pub) (Hm : select_mechanism key_type pub = Ok m)
    (Hok : pkcs11_challenge_response rng session handle key_type m ee = Ok tt) :
  ∃ mech nonce signature sig, m = RawSign mech (token_host_hash m) ∧ rng = inr nonce ∧
    token_sign session mech handle nonce = inr signature ∧
    host_signature key_type signature sig ∧
    verifies (host_params key_type (token_host_hash m)) pub nonce sig.
Proof.
  assert (∃ mech hash, m = RawSign mech hash) as (mech & hash & ->).
  { unfold select_mechanism in Hm. repeat case_decide; simplify_eq; [eauto|].
    apply rbind_Ok_inv in Hm as (c & _ & (nid & _ & Hm)%rbind_Ok_inv).
    repeat case_decide; simplify_eq; eauto. }
  unfold pkcs11_challenge_response in Hok.
  apply rbind_Ok_inv in Hok as (nonce & Hn%of_sum_err_Ok & Hok).
  apply rbind_Ok_inv in Hok as (signature & Hs%of_sum_err_Ok & Hok).
  rewrite Hpub in Hok. cbn [map_err rbind] in Hok.
  apply verify_on_host_Ok in Hok as (sig & Hsig & Hv).
  by exists mech, nonce, signature, sig.
Qed.

(** C26: The token-side challenge proves possession: it succeeds only if the token
    signed the fresh nonce with the key object and the signature, re-encoded
    for an EC key from its two halves, verifies under the public key of the
    certificate, with PSS for RSA and the digest of the mechanism. *)
Theorem token_challenge_possession {SSL : OpenSSL} {CK : Cryptoki} {SK : OpenSSLKeys}
    rng session handle key_type pub m ee
    (Hpub : public_key ee = Ok pub) (Hm : select_mechanism key_type pub = Ok m)
    (Hok : pkcs11_challenge_response rng session handle key_type m ee = Ok tt) :
  ∃ mech nonce signature sig, m = RawSign mech (token_host_hash m) ∧ rng = inr nonce ∧
    token_sign session mech handle nonce = inr signature ∧
    host_signature key_type signature sig ∧
    verifies (host_params key_type (token_host_hash m)) pub nonce sig.
Proof. by apply (token_challenge_proof rng session handle key_type pub m ee). Qed.

Lemma token_challenge_possession_witness :
  ∃ mech nonce signature sig,
    RawSign (Sha256RsaPkcsPss 32) NID_SHA256 = RawSign mech NID_SHA256 ∧
    inr (bytes_of "nonce") = @inr string _ nonce ∧
    token_sign (Cryptoki := TokenSample.ck) tt mech 0%nat nonce = inr signature ∧
    host_signature (H0 := KeySample.keys) KEY_RSA signature sig ∧
    verifies (SK := KeySample.keys) (host_params KEY_RSA NID_SHA256) "ka" nonce sig.
Proof.
  apply (token_challenge_possession (SSL := Sample.openssl) (CK := TokenSample.ck)
           (SK := KeySample.keys) (inr (bytes_of "nonce")) tt 0%nat KEY_RSA "ka"
           (RawSign (Sha256RsaPkcsPss 32) NID_SHA256) TokenSample.ee); reflexivity.
Defined.

(** The certificate found on the token is the parsed value of one of the
    objects the search returned, with that object's identifier; the key found
    for it is one the token lists under the same identifier. *)
Theorem token_objects_match {SSL : OpenSSL} {CK : Cryptoki} session filter fc key
    (Hc : find_certificate session filter = Ok fc)
    (Hk : find_private_key_for_cert session fc = Ok key) :
  (∃ handles, find_objects session (certificate_template filter) = inr handles ∧
     found_in session handles fc) ∧
  (∃ handles, find_objects session [AttrClass PRIVATE_KEY; AttrId (fc_cka_id fc)] = inr handles ∧
     head handles = Some (fk_object key)).
Proof.
  split.
  - apply rbind_Ok_inv in Hc as (handles & Hh%of_sum_err_Ok & Hc%first_certificate_inv). eauto.
  - apply rbind_Ok_inv in Hk as (handles & Hh%of_sum_err_Ok & Hk). exists handles. split; [done|].
    destruct handles as [|h hs]; [done|].
    apply rbind_Ok_inv in Hk as (attrs & _ & (p & _ & [= <-])%rbind_Ok_inv). done.
Qed.

Lemma token_objects_match_witness :
  ∃ fc key, find_certificate (SSL := Sample.openssl) (CK := TokenSample.ck) tt None = Ok fc ∧
    ∃ handles, find_objects (Cryptoki := TokenSample.ck) tt
      [AttrClass PRIVATE_KEY; AttrId (fc_cka_id fc)] = inr handles ∧
      head handles = Some (fk_object key).
Proof.
  do 2 eexists. split; [reflexivity|].
  eapply (token_objects_match (SSL := Sample.openssl) (CK := TokenSample.ck) tt None);
    reflexivity.
Defined.
