(* ===== verification/Token.v ===== *)
(** * The PKCS#11 module ([token/pkcs11/{backend,session,waiter,info,locking}.rs])

    Loading the module, finding the slot of a token, waiting for one, opening
    and dropping a session, over the calls of the [cryptoki] crate (the class
    [Pkcs11Lib]), each under the process-global lock; and the threads of a process
    around that lock as a step relation. *)

From S2P Require Import Prelude Text Sys Errors Certificate Hooks RawConfig Config Pkcs12 Pkcs11.
Local Open Scope Z_scope.

(** ** The module *)

Record TokenInfo := MkTokenInfo {
  ti_label : string;
  ti_serial_number : string;
}.

(** [GLOBAL_LOCK] and [HELD_COUNT] of [locking.rs]: [lock] returns once the mutex
    is taken, the drop of its guard gives it back, [fetch_add] moves the counter. *)
Class GlobalLock (W : Type) := {
  lock_global : W → W;
  unlock_global : W → W;
  held_fetch : Z → W → W;
}.

(** The calls of the crate; [Pkcs11::new] may unwind on a file that is no
    module. *)
Class Pkcs11Lib (W : Type) `{Cryptoki} := {
  pl_lock :: GlobalLock W;
  Ctx : Type;
  Pkcs11_new : string → W → W * res CkError Ctx;
  ctx_initialize : Ctx → W → W * (CkError + unit);
  get_slots_with_token : Ctx → W → W * (CkError + list Slot);
  get_token_info : Ctx → Slot → W → W * (CkError + TokenInfo);
  open_rw_session : Ctx → Slot → W → W * (CkError + Session);
  session_login : Session → string → W → W * (CkError + unit);
  session_logout : Session → W → W * (CkError + unit);
  (** The drop of the crate's session: [C_CloseSession]. *)
  session_close : Session → W → W;
  (** The drop of the crate's context: [C_Finalize]. *)
  ctx_finalize : Ctx → W → W;
}.

Record Pkcs11Backend `{Pkcs11Lib} := MkBackend {
  be_ctx : Ctx;
  be_module_path : string;
  be_locking_mode : LockingMode;
}.

(** [Pkcs11Session]; [ps_inner] is [None] once it was dropped. *)
Record Pkcs11Session `{Cryptoki} := MkPkcs11Session {
  ps_inner : option Session;
  ps_logged_in : bool;
  ps_locking_mode : LockingMode;
}.

(** The guards are dropped in the reverse of their order; a call that unwinds
    answers [Panic], after which they are dropped too. *)
Definition with_global_lock {W A} {GL : GlobalLock W} (mode : LockingMode) (f : W → W * A) (w : W)
    : W * A :=
  match mode with
  | LockOs => f w
  | LockMutex =>
      let w := lock_global w in
      let w := held_fetch 1 w in
      let (w, a) := f w in
      let w := held_fetch (-1) w in
      (unlock_global w, a)
  end.

Definition POLL_INTERVAL : Z := 200 * NANOS_PER_MILLI.

Definition trim_end (s : string) : string := text_of (trim_end_bytes (bytes_of s)).

(** Polls that are enough for a clock that [sleep] moves. *)
Definition wait_turns (timeout : Z) : nat := Z.to_nat (timeout / POLL_INTERVAL) + 2.

Section token.
Context {W : Type} {CK : Cryptoki} {LIB : Pkcs11Lib W} {FS : Fs W} {CLK : Clock W}.

Definition backend_load (module_path : string) (mode : LockingMode)
    : io W Pkcs11Error Pkcs11Backend :=
  let! there := path_exists module_path in
  if negb there then lift (Err (ModulePathMissing module_path)) else
  let! ctx := io_map_err (ModuleLoadFailed module_path) (Pkcs11_new module_path) in
  λ w,
    match with_global_lock mode (ctx_initialize ctx) w with
    | (w', inr _) => (w', Ok (MkBackend W CK LIB ctx module_path mode))
    | (w', inl source) => (ctx_finalize ctx w', Err (InitFailed source))
    end.

Definition list_slots_with_token (b : Pkcs11Backend) : io W Pkcs11Error (list Slot) :=
  io_map_err Pkcs11Cryptoki
    (call (with_global_lock (be_locking_mode b) (get_slots_with_token (be_ctx b)))).

(** The slots in order, until a label matches. *)
Fixpoint scan_slots (b : Pkcs11Backend) (want : string) (slots : list Slot)
    : io W Pkcs11Error Slot :=
  match slots with
  | [] => lift (Err (TokenNotFound want))
  | slot :: r =>
      let! info := io_map_err Pkcs11Cryptoki
        (call (with_global_lock (be_locking_mode b) (get_token_info (be_ctx b) slot))) in
      if decide (trim_end (ti_label info) = want) then fret slot else scan_slots b want r
  end.

Definition find_slot (b : Pkcs11Backend) (token_label : option string)
    : io W Pkcs11Error Slot :=
  let! slots := list_slots_with_token b in
  match slots, token_label with
  | [], _ => lift (Err NoTokenAvailable)
  | slot :: _, None => fret slot
  | _, Some want => scan_slots b want slots
  end.

(** The loop of [wait_for_token_with_clock], over any locator. *)
Fixpoint wait_for_token_with_clock (fuel : nat) (try_find : io W Pkcs11Error Slot)
    (started timeout : Z) : io W Pkcs11Error Slot :=
  match fuel with
  | O => lift Panic
  | S f => λ w,
      match try_find w with
      | (w1, Ok slot) => (w1, Ok slot)
      | (w1, Err (NoTokenAvailable | TokenNotFound _)) =>
          let (w2, now) := instant_now w1 in
          if decide (timeout ≤ Z.max 0 (now - started))
          then (w2, Err (TokenWaitTimeout (timeout / NANOS_PER_SEC)))
          else wait_for_token_with_clock f try_find started timeout (sleep POLL_INTERVAL w2)
      | (w1, Err other) => (w1, Err other)
      | (w1, Panic) => (w1, Panic)
      end
  end.

Definition wait_for_token (b : Pkcs11Backend) (timeout : Z) (token_label : option string)
    : io W Pkcs11Error Slot :=
  let! started := ask instant_now in
  wait_for_token_with_clock (wait_turns timeout) (find_slot b token_label) started timeout.

(** [read_token_serial] of [info.rs]. *)
Definition read_serial (b : Pkcs11Backend) (slot : Slot) : io W Pkcs11Error string :=
  let! info := ask (with_global_lock (be_locking_mode b) (get_token_info (be_ctx b) slot)) in
  lift (read_token_serial (match info with inl e => inl e | inr i => inr (ti_serial_number i) end)).

(** [Pkcs11Session::open]: a session whose login failed is closed. *)
Definition session_open (b : Pkcs11Backend) (slot : Slot) (pin : string)
    : io W Pkcs11Error Pkcs11Session :=
  let mode := be_locking_mode b in
  let! session := io_map_err SessionOpenFailed
    (call (with_global_lock mode (open_rw_session (be_ctx b) slot))) in
  λ w,
    match with_global_lock mode (session_login session pin) w with
    | (w', inr _) => (w', Ok (MkPkcs11Session CK (Some session) true mode))
    | (w', inl e) =>
        (session_close session w',
         Err (match ck_rv e with
              | RvPinIncorrect => PinIncorrect
              | RvPinLocked => PinLocked
              | RvOther => Pkcs11Cryptoki e
              end))
    end.

(** [Drop for Pkcs11Session]: [C_Logout], whose failure is logged, then
    [C_CloseSession], each under the lock. *)
Definition session_drop (s : Pkcs11Session) (w : W) : W :=
  match ps_inner s with
  | None => w
  | Some session =>
      let w := if ps_logged_in s
               then (with_global_lock (ps_locking_mode s) (session_logout session) w).1 else w in
      (with_global_lock (ps_locking_mode s) (λ w, (session_close session w, tt)) w).1
  end.

End token.

(** ** A sample module *)

Module LibSample.

(** The world is the time; the token is there from the first second on. *)
(** A process without other threads. *)
Definition alone {W} : GlobalLock W := {|
  lock_global w := w;
  unlock_global w := w;
  held_fetch _ w := w;
|}.

#[export] Instance lib : Pkcs11Lib (H := TokenSample.ck) Z := {|
  pl_lock := alone;
  Ctx := unit;
  Pkcs11_new path w := (w, if decide (path = "/bin/sh") then Panic else Ok tt);
  ctx_initialize _ w := (w, inr tt);
  get_slots_with_token _ w := (w, inr (if decide (NANOS_PER_SEC ≤ w) then [7%nat : @Slot TokenSample.ck] else []));
  get_token_info _ _ w := (w, inr (MkTokenInfo "work  " "T1"));
  open_rw_session _ _ w := (w, inr tt);
  session_login _ pin w :=
    (w, if decide (pin = "1234") then inr tt else inl (MkCkError RvPinIncorrect ""));
  session_logout _ w := (w, inr tt);
  session_close _ w := w;
  ctx_finalize _ w := w;
|}.

#[export] Instance clk : Clock Z := {|
  instant_now w := (w, w);
  sleep d w := w + d;
|}.

Definition backend : @Pkcs11Backend Z TokenSample.ck lib :=
  MkBackend Z TokenSample.ck lib tt "/lib/p11.so" LockOs.

End LibSample.

(** ** Lemmas *)

Section token_proofs.
Context {W : Type} {CK : Cryptoki} {LIB : Pkcs11Lib W} {FS : Fs W} {CLK : Clock W}.

(** A slot that was found: the module listed it, and its label is the one asked for. *)
Definition slot_matches (b : Pkcs11Backend) (label : option string) (slot : Slot) : Prop :=
  (∃ w w' slots, get_slots_with_token (be_ctx b) w = (w', inr slots) ∧ slot ∈ slots) ∧
  (∀ want, label = Some want → ∃ w w' info,
     get_token_info (be_ctx b) slot w = (w', inr info) ∧ trim_end (ti_label info) = want).

Lemma with_global_lock_inv {A} mode (f : W → W * A) w w' a :
  with_global_lock mode f w = (w', a) → ∃ w1 w2, f w1 = (w2, a).
Proof.
  unfold with_global_lock. destruct mode; [by eauto|].
  destruct (f _) as [w2 b] eqn:Hf. intros [= _ <-]. by eauto.
Qed.

Lemma scan_slots_Ok b want slots w w' slot :
  scan_slots b want slots w = (w', Ok slot) →
  slot ∈ slots ∧ ∃ w1 w2 info, get_token_info (be_ctx b) slot w1 = (w2, inr info) ∧
    trim_end (ti_label info) = want.
Proof.
  revert w. induction slots as [|s r IH]; intros w H; [done|]. cbn [scan_slots] in H.
  peel H w1 info Hi. apply io_map_err_Ok_inv, call_Ok_inv, with_global_lock_inv in Hi as (v1 & v2 & Hi).
  case_decide as Hw.
  - injection H as _ <-. split; [by left|]. by exists v1, v2, info.
  - apply IH in H as [? ?]. split; [by right|done].
Qed.

Lemma find_slot_Ok b label w w' slot :
  find_slot b label w = (w', Ok slot) → slot_matches b label slot.
Proof.
  intros H. unfold find_slot in H. peel H w1 slots Hs.
  apply io_map_err_Ok_inv, call_Ok_inv, with_global_lock_inv in Hs as (v1 & v2 & Hs).
  destruct slots as [|s r]; [done|]. destruct label as [want|].
  - apply scan_slots_Ok in H as (Hin & w2 & w3 & info & Hi & Hl).
    split; [by exists v1, v2, (s :: r)|]. intros ? [= <-]. by exists w2, w3, info.
  - injection H as _ <-. split; [|done]. exists v1, v2, (s :: r). split; [done|by left].
Qed.

Lemma wait_loop_Ok fuel try_find started timeout w w' slot :
  wait_for_token_with_clock fuel try_find started timeout w = (w', Ok slot) →
  ∃ w1 w2, try_find w1 = (w2, Ok slot).
Proof.
  revert w. induction fuel as [|f IH]; intros w H; [done|]. cbn in H.
  destruct (try_find w) as [w1 [s|e|]] eqn:Hf; [|destruct e; try done|done].
  - injection H as <- <-. by exists w, w1.
  - destruct (instant_now w1) as [w2 now]. case_decide; [done|]. by eapply IH.
  - destruct (instant_now w1) as [w2 now]. case_decide; [done|]. by eapply IH.
Qed.

(** Time passes while a token is waited for. *)
Record token_clock (try_find : io W Pkcs11Error Slot) : Prop := {
  tc_now : ∀ w, clock w ≤ clock (instant_now w).1;
  tc_sleep : ∀ d w, clock w + d ≤ clock (sleep d w);
  tc_find : ∀ w, clock w ≤ clock (try_find w).1;
}.

Lemma wait_loop_total try_find n started timeout w :
  token_clock try_find → io_safe try_find →
  timeout - (clock w - started) ≤ Z.of_nat n * POLL_INTERVAL →
  no_panic (wait_for_token_with_clock (S n) try_find started timeout w).2.
Proof.
  intros [Hnow Hsleep Hfind] Hsafe. revert w. induction n as [|n IH]; intros w Ht;
    cbn [wait_for_token_with_clock]; specialize (Hfind w); specialize (Hsafe w) as Hs;
    destruct (try_find w) as [w1 [slot|e|]]; try done; cbn [fst snd] in Hfind;
    (destruct e; try done); specialize (Hnow w1) as Hn; unfold clock in Hn at 1, Hfind at 2;
    destruct (instant_now w1) as [w2 now]; cbn in Hn, Hfind; case_decide; try done; try lia.
  all: apply IH; specialize (Hsleep POLL_INTERVAL w2); unfold clock in *;
    rewrite Nat2Z.inj_succ, Z.mul_succ_l in Ht; lia.
Qed.

End token_proofs.

(** ** The lock *)

Module Lock.

(** What a thread does around a call of the module. *)
Inductive instr : Type :=
| ILock
| IUnlock
| IHeld (d : Z)
| ICall.

(** [with_global_lock] run on a world that records it. *)
Definition recorder : GlobalLock (list instr) := {|
  lock_global l := l ++ [ILock];
  unlock_global l := l ++ [IUnlock];
  held_fetch d l := l ++ [IHeld d];
|}.

Definition code (mode : LockingMode) : list instr :=
  (with_global_lock (GL := recorder) mode (λ l, (l ++ [ICall], tt)) []).1.

(** A thread: what is left of the call it makes, whether it is inside the
    module, and the modes of the calls it makes after that. *)
Record thread := MkThread {
  th_mode : LockingMode;
  th_code : list instr;
  th_inside : bool;
  th_todo : list LockingMode;
}.

(** The two statics, and the threads of the process. *)
Record state := MkState {
  locked : bool;
  held_count : Z;
  threads : gmap nat thread;
}.

Definition start (ts : gmap nat (list LockingMode)) : state :=
  MkState false 0 (MkThread LockOs [] false <$> ts).

Definition mutex_currently_held (s : state) : bool := bool_decide (0 < held_count s).

(** A step of a thread: the mutex is taken when it is free, a call of the module
    takes its time and may unwind, which drops the guards and ends the thread. *)
Inductive tstep : bool * Z * thread → bool * Z * thread → Prop :=
| TBegin l h m m' todo :
    tstep (l, h, MkThread m [] false (m' :: todo)) (l, h, MkThread m' (code m') false todo)
| TLock h m c todo :
    tstep (false, h, MkThread m (ILock :: c) false todo) (true, h, MkThread m c false todo)
| TUnlock l h m c todo :
    tstep (l, h, MkThread m (IUnlock :: c) false todo) (false, h, MkThread m c false todo)
| THeld l h m d c todo :
    tstep (l, h, MkThread m (IHeld d :: c) false todo) (l, h + d, MkThread m c false todo)
| TEnter l h m c todo :
    tstep (l, h, MkThread m (ICall :: c) false todo) (l, h, MkThread m (ICall :: c) true todo)
| TReturn l h m c todo :
    tstep (l, h, MkThread m (ICall :: c) true todo) (l, h, MkThread m c false todo)
| TUnwind l h m c todo :
    tstep (l, h, MkThread m (ICall :: c) true todo) (l, h, MkThread m c false []).

Inductive step : state → state → Prop :=
| Step l l' h h' ts t th th' :
    ts !! t = Some th → tstep (l, h, th) (l', h', th') →
    step (MkState l h ts) (MkState l' h' (<[t := th']> ts)).

Definition reachable (s : state) : Prop := ∃ ts, rtc step (start ts) s.

(** Where a thread can be, whether it owns the mutex there, and what it has
    added to the counter. *)
Inductive phase : thread → bool → Z → Prop :=
| PIdle m todo : phase (MkThread m [] false todo) false 0
| POs b todo : phase (MkThread LockOs [ICall] b todo) false 0
| PWait todo :
    phase (MkThread LockMutex [ILock; IHeld 1; ICall; IHeld (-1); IUnlock] false todo) false 0
| PGot todo : phase (MkThread LockMutex [IHeld 1; ICall; IHeld (-1); IUnlock] false todo) true 0
| PCall b todo : phase (MkThread LockMutex [ICall; IHeld (-1); IUnlock] b todo) true 1
| PDone todo : phase (MkThread LockMutex [IHeld (-1); IUnlock] false todo) true 1
| PLeave todo : phase (MkThread LockMutex [IUnlock] false todo) true 0.

(** What a step does to the ownership. *)
Lemma tstep_phase l h th l' h' th' own n :
  phase th own n → tstep (l, h, th) (l', h', th') →
  ∃ own' n', phase th' own' n' ∧
    (own' = own ∧ l' = l ∧ h' = h + n' - n ∧ (own = false → n' = n) ∨
     own = false ∧ own' = true ∧ l = false ∧ l' = true ∧ h' = h ∧ n' = 0 ∨
     own = true ∧ own' = false ∧ l' = false ∧ h' = h ∧ n = 0).
Proof.
  intros Hp Hs. inversion Hs; subst; inversion Hp; subst.
  - destruct m'; do 2 eexists; (split; [constructor|left; split_and!; (lia || done)]).
  - do 2 eexists. split; [constructor|]. right; left. by split_and!.
  - do 2 eexists. split; [constructor|]. right; right. by split_and!.
  - do 2 eexists. split; [constructor|]. left. split_and!; (lia || done).
  - do 2 eexists. split; [constructor|]. left. split_and!; (lia || done).
  - do 2 eexists. split; [constructor|]. left. split_and!; (lia || done).
  - do 2 eexists. split; [constructor|]. left. split_and!; (lia || done).
  - do 2 eexists. split; [constructor|]. left. split_and!; (lia || done).
  - do 2 eexists. split; [constructor|]. left. split_and!; (lia || done).
  - do 2 eexists. split; [constructor|]. left. split_and!; (lia || done).
  - do 2 eexists. split; [constructor|]. left. split_and!; (lia || done).
Qed.

(** One thread owns the mutex when it is taken, and the counter is its own. *)
Record owned (s : state) (owner : option nat) : Prop := {
  ow_locked : locked s = bool_decide (is_Some owner);
  ow_phase : ∀ t th, threads s !! t = Some th →
    ∃ n, phase th (bool_decide (owner = Some t)) n ∧ (owner = Some t → held_count s = n);
  ow_there : ∀ t, owner = Some t → is_Some (threads s !! t);
  ow_free : owner = None → held_count s = 0;
}.

Lemma owned_start ts : owned (start ts) None.
Proof.
  split; cbn; [done| |done|done]. intros t th Ht. apply lookup_fmap_Some in Ht as (todo & <- & _).
  exists 0. rewrite bool_decide_eq_false_2 by done. split; [constructor|done].
Qed.

Lemma owned_step s s' owner : owned s owner → step s s' → ∃ owner', owned s' owner'.
Proof.
  intros [Hl Hp Ht Hf] Hs. destruct Hs as [l l' h h' ts t th th' Hth Hts]. cbn in *.
  destruct (Hp t th Hth) as (n & Hph & Hn).
  destruct (tstep_phase _ _ _ _ _ _ _ _ Hph Hts) as (own' & n' & Hph' & Hcase).
  destruct Hcase as [(-> & -> & Hh & Hz)|[(Hown & -> & -> & -> & -> & ->)|(Hown & -> & -> & -> & ->)]].
  - exists owner. split; cbn; [done| | |].
    + intros t2 th2 H2. destruct (decide (t = t2)) as [<-|Hne].
      * rewrite lookup_insert_eq in H2. injection H2 as <-. exists n'. split; [done|].
        intros Ho. specialize (Hn Ho). lia.
      * rewrite lookup_insert_ne in H2 by done. destruct (Hp t2 th2 H2) as (k & ? & Hk).
        exists k. split; [done|]. intros Ho. specialize (Hk Ho).
        rewrite bool_decide_eq_false_2 in Hz by congruence. specialize (Hz eq_refl). lia.
    + intros t2 Ho. destruct (decide (t = t2)) as [<-|]; [by rewrite lookup_insert_eq|].
      rewrite lookup_insert_ne by done. auto.
    + intros Ho. rewrite bool_decide_eq_false_2 in Hz by congruence. specialize (Hz eq_refl).
      specialize (Hf Ho). lia.
  - apply bool_decide_eq_false in Hown. symmetry in Hl. apply bool_decide_eq_false in Hl.
    destruct owner as [o|]; [by destruct Hl|]. specialize (Hf eq_refl). subst.
    exists (Some t). split; cbn; [done| | |done].
    + intros t2 th2 H2. destruct (decide (t = t2)) as [<-|Hne].
      * rewrite lookup_insert_eq in H2. injection H2 as <-. exists 0.
        by rewrite bool_decide_eq_true_2.
      * rewrite lookup_insert_ne in H2 by done. destruct (Hp t2 th2 H2) as (k & Hk & _).
        exists k. rewrite bool_decide_eq_false_2 in Hk |- * by congruence. split; [done|congruence].
    + intros t2 [= <-]. by rewrite lookup_insert_eq.
  - apply bool_decide_eq_true in Hown. subst owner. specialize (Hn eq_refl). subst.
    exists None. split; cbn; [done| |done|done].
    intros t2 th2 H2. destruct (decide (t = t2)) as [<-|Hne].
    + rewrite lookup_insert_eq in H2. injection H2 as <-. exists n'.
      by rewrite bool_decide_eq_false_2.
    + rewrite lookup_insert_ne in H2 by done. destruct (Hp t2 th2 H2) as (k & Hk & _).
      exists k. rewrite bool_decide_eq_false_2 in Hk |- * by congruence. by split.
Qed.

Lemma owned_reachable s : reachable s → ∃ owner, owned s owner.
Proof.
  intros [ts H]. assert (∀ s1 s2, rtc step s1 s2 → (∃ o, owned s1 o) → ∃ o, owned s2 o) as Hrtc.
  { induction 1 as [|s1 s2 s3 Hs _ IH]; [done|]. intros [o Ho]. by eapply IH, owned_step. }
  eapply Hrtc; [exact H|]. exists None. apply owned_start.
Qed.

Definition in_mutex_call (s : state) (t : nat) : Prop :=
  ∃ th, threads s !! t = Some th ∧ th_inside th = true ∧ th_mode th = LockMutex.

(** A thread inside the module in the mutex mode is the owner. *)
Lemma in_mutex_call_owner s owner t :
  owned s owner → in_mutex_call s t → owner = Some t ∧ held_count s = 1.
Proof.
  intros [_ Hp _ _] (th & Ht & Hi & Hm). destruct (Hp t th Ht) as (n & Hph & Hn).
  destruct (bool_decide_reflect (owner = Some t)) as [Ho|Ho]; [|by inversion Hph; subst].
  split; [done|]. rewrite (Hn Ho). by inversion Hph; subst.
Qed.

(** A thread that is not at an end can go on unless it waits for the mutex. *)
Lemma phase_steps l h th own n :
  phase th own n → (own = false → l = false) → th_code th ≠ [] ∨ th_todo th ≠ [] →
  ∃ l' h' th', tstep (l, h, th) (l', h', th').
Proof.
  intros Hp Hl Hw. destruct Hp as [m [|m' todo]|[] todo|todo|todo|[] todo|todo|todo]; cbn in Hw.
  - by destruct Hw.
  - do 3 eexists. apply TBegin.
  - do 3 eexists. apply TReturn.
  - do 3 eexists. apply TEnter.
  - rewrite Hl by done. do 3 eexists. apply TLock.
  - do 3 eexists. apply THeld.
  - do 3 eexists. apply TReturn.
  - do 3 eexists. apply TEnter.
  - do 3 eexists. apply THeld.
  - do 3 eexists. apply TUnlock.
Qed.

Lemma owned_progress s owner t th :
  owned s owner → threads s !! t = Some th → th_code th ≠ [] ∨ th_todo th ≠ [] →
  ∃ s', step s s'.
Proof.
  intros Ho Ht Hw.
  assert (∃ t th, threads s !! t = Some th ∧ (th_code th ≠ [] ∨ th_todo th ≠ []) ∧
    (bool_decide (owner = Some t) = false → locked s = false)) as (t1 & th1 & H1 & Hw1 & Hl).
  { destruct owner as [o|].
    - destruct (ow_there _ _ Ho o eq_refl) as [tho Htho]. exists o, tho. split; [done|].
      rewrite bool_decide_eq_true_2 by done. split; [|done].
      destruct (ow_phase _ _ Ho o tho Htho) as (n & Hp & _). rewrite bool_decide_eq_true_2 in Hp by done.
      left. by inversion Hp.
    - exists t, th. split_and!; [done..|]. intros _. apply (ow_locked _ _ Ho). }
  destruct (ow_phase _ _ Ho t1 th1 H1) as (n & Hp & _). destruct s as [l h ts]. cbn in *.
  destruct (phase_steps l h th1 _ n Hp Hl Hw1) as (l' & h' & th' & Hs).
  eexists. by eapply Step.
Qed.

End Lock.

(** C21: [with_global_lock] among the threads of a process, each of which makes
    any calls of the module in any modes, and any of whose calls may take its
    time or unwind.  No two threads are inside the module in the mutex mode at
    the same time; the probe of the tests answers true while one is, and only
    while some thread is in [with_global_lock] in that mode; and there is no
    deadlock: while a thread has something left to do, some thread can go on. *)
Theorem lock_serialises (s : Lock.state) (Hs : Lock.reachable s) :
  (∀ t1 t2, Lock.in_mutex_call s t1 → Lock.in_mutex_call s t2 → t1 = t2) ∧
  ((∃ t, Lock.in_mutex_call s t) → Lock.mutex_currently_held s = true) ∧
  (Lock.mutex_currently_held s = true →
   ∃ t th, Lock.threads s !! t = Some th ∧ Lock.th_mode th = LockMutex ∧ Lock.th_code th ≠ []) ∧
  (∀ t th, Lock.threads s !! t = Some th → Lock.th_code th ≠ [] ∨ Lock.th_todo th ≠ [] →
   ∃ s', Lock.step s s').
Proof.
  apply Lock.owned_reachable in Hs as [owner Ho]. unfold Lock.mutex_currently_held. split_and!.
  - intros t1 t2 H1 H2. apply (Lock.in_mutex_call_owner _ owner) in H1 as [H1 _], H2 as [H2 _]; congruence.
  - intros [t Ht]. by apply (Lock.in_mutex_call_owner _ owner) in Ht as [_ ->].
  - intros Hh%bool_decide_eq_true. destruct owner as [o|]; [|rewrite (Lock.ow_free _ _ Ho eq_refl) in Hh; lia].
    destruct (Lock.ow_there _ _ Ho o eq_refl) as [th Hth]. exists o, th.
    destruct (Lock.ow_phase _ _ Ho o th Hth) as (n & Hp & _). rewrite bool_decide_eq_true_2 in Hp by done.
    inversion Hp; subst; by split_and!.
  - intros t th. by apply Lock.owned_progress with (owner := owner).
Qed.

(** One thread is in a call, another one waits for it. *)
Lemma lock_serialises_witness :
  let waits := Lock.MkThread LockMutex (Lock.code LockMutex) false [] in
  let calls := Lock.MkThread LockMutex [Lock.ICall; Lock.IHeld (-1); Lock.IUnlock] true [LockOs] in
  let s := Lock.MkState true 1 {[1%nat := calls; 2%nat := waits]} in
  Lock.mutex_currently_held s = true ∧ ¬ Lock.in_mutex_call s 2 ∧ ∃ s', Lock.step s s'.
Proof.
  intros waits calls s. assert (Lock.reachable s) as Hr.
  { exists {[1%nat := [LockMutex; LockOs]; 2%nat := [LockMutex]]}.
    eapply rtc_l; [by eapply (Lock.Step _ _ _ _ _ 1); [|apply Lock.TBegin]|].
    eapply rtc_l; [by eapply (Lock.Step _ _ _ _ _ 2); [|apply Lock.TBegin]|].
    eapply rtc_l; [by eapply (Lock.Step _ _ _ _ _ 1); [|apply Lock.TLock]|].
    eapply rtc_l; [by eapply (Lock.Step _ _ _ _ _ 1); [|apply Lock.THeld]|].
    eapply rtc_l; [by eapply (Lock.Step _ _ _ _ _ 1); [|apply Lock.TEnter]|].
    assert (∀ x y, x = y → rtc Lock.step x y) as He by by intros x y ->.
    apply He. vm_compute. reflexivity. }
  destruct (lock_serialises s Hr) as (Hx & Hin & _ & Hgo).
  assert (Lock.in_mutex_call s 1) as H1 by by exists calls.
  split_and!; [by apply Hin; exists 1%nat| |by apply (Hgo 1%nat calls); [|left]].
  intros H2. discriminate (Hx 1%nat 2%nat H1 H2).
Defined.

(** ** Theorems *)

(** Waiting for a token ends, with a slot that holds a token with the label
    that was asked for, or an error. *)
Theorem wait_for_token_total {W} {CK : Cryptoki} {LIB : Pkcs11Lib W} {CLK : Clock W}
    (b : Pkcs11Backend) timeout label w
    (Hclk : token_clock (find_slot b label)) (Ht : 0 ≤ timeout) :
  match wait_for_token b timeout label w with
  | (_, Ok slot) => slot_matches b label slot
  | (_, Err _) => True
  | (_, Panic) => False
  end.
Proof.
  assert (no_panic (wait_for_token b timeout label w).2) as Hsafe.
  { unfold wait_for_token, fbind, ask. destruct (instant_now w) as [w1 started] eqn:Hi.
    unfold wait_turns. rewrite Nat.add_succ_r. apply wait_loop_total; [done| |].
    - unfold find_slot, list_slots_with_token. apply io_safe_bind; [auto with rust|].
      intros [|s r]; [auto with rust|]. destruct label as [want|]; [|auto with rust].
      generalize (s :: r). intros l. induction l as [|x l IH]; cbn; auto 6 with rust.
    - pose proof (tc_now _ Hclk w) as Hn. unfold clock in *. rewrite Hi in Hn. cbn in Hn.
      pose proof (Z.div_mod timeout POLL_INTERVAL). pose proof (Z.mod_pos_bound timeout POLL_INTERVAL).
      unfold POLL_INTERVAL, NANOS_PER_MILLI in *. lia. }
  destruct (wait_for_token b timeout label w) as [w' [slot|e|]] eqn:Hw; [|done|done].
  unfold wait_for_token in Hw. peel Hw w1 started Hs.
  apply wait_loop_Ok in Hw as (w2 & w3 & Hf). by eapply find_slot_Ok.
Qed.

Lemma wait_for_token_total_witness :
  wait_for_token (LIB := LibSample.lib) (CLK := LibSample.clk) LibSample.backend
    (5 * NANOS_PER_SEC) (Some "work") 0 = (NANOS_PER_SEC, Ok 7%nat) ∧
  slot_matches (LIB := LibSample.lib) LibSample.backend (Some "work") 7%nat.
Proof.
  split; [vm_compute; reflexivity|].
  pose proof (wait_for_token_total (LIB := LibSample.lib) (CLK := LibSample.clk) LibSample.backend
    (5 * NANOS_PER_SEC) (Some "work") 0) as H.
  assert (wait_for_token (LIB := LibSample.lib) (CLK := LibSample.clk) LibSample.backend
    (5 * NANOS_PER_SEC) (Some "work") 0 = (NANOS_PER_SEC, Ok 7%nat)) as E by (vm_compute; reflexivity).
  rewrite E in H. apply H; [|done]. split.
  - done.
  - intros d w. cbn. lia.
  - intros w. unfold find_slot, list_slots_with_token, with_global_lock, fbind. cbn.
    case_decide; cbn; [|done]. case_decide; done.
Defined.
