(* ===== verification/PamHandle.v ===== *)
(** * The PAM handle ([pam_certauth/src/{pam_helpers,data_handle,pam_conv,pam_args}.rs], [pam_conv.rs])

    Strings off the handle, the context stored in it, and the conversation
    with the user, over the calls of libpam and the C heap (the class
    [PamSys]).  The laws of that heap are in [PamData] and [PamHeap]; with them
    the box of a stored context is owned by PAM and freed once, and the PIN
    does not outlive its prompt. *)

From S2P Require Import Prelude Text Sys Errors Certificate HostBinding Hooks Pkcs12.
Local Open Scope Z_scope.

(** [_pam_types.h]. *)
Definition PAM_SUCCESS : Z := 0.
Definition PAM_SERVICE : Z := 1.
Definition PAM_TTY : Z := 3.
Definition PAM_PROMPT_ECHO_OFF : Z := 1.
Definition PAM_TEXT_INFO : Z := 4.

(** A C string is its bytes up to the NUL; a null pointer is [None]. *)
Class PamSys (W : Type) := {
  pam_get_user : W → W * (Z * option (list byte));
  pam_get_item : Z → W → W * (Z * option (list byte));
  pam_getenv : string → W → W * option (list byte);
  (** Boxes: [Box::into_raw], [&*p] and the drop of [Box::from_raw]. *)
  Ptr : Type;
  box_into_raw : AuthContext → W → W * Ptr;
  box_read : Ptr → W → AuthContext;
  box_drop : Ptr → W → W;
  (** The third argument is the cleanup callback. *)
  pam_set_data : string → Ptr → (Ptr → W → W) → W → W * Z;
  pam_get_data : string → W → W * (Z * option Ptr);
  (** [pam_get_item(PAM_CONV)]: the structure's callback may be null. *)
  ConvFn : Type;
  pam_get_conv : W → W * (Z * option (option ConvFn));
  (** One message of a style; the response array is on the C heap. *)
  CPtr : Type;
  conv_call : ConvFn → Z → string → W → W * (Z * option CPtr);
  resp_field : CPtr → W → option CPtr;
  c_str : CPtr → W → list byte;
  c_write_zeros : CPtr → Z → W → W;
  c_free : CPtr → W → W;
}.

(** ** Strings *)

Inductive PamHelperError : Type :=
| PamRc (rc : Z)
| PamNull
| PamNonUtf8.

Definition has_nul (s : string) : bool := bool_decide (zb 0 ∈ bytes_of s).

Section helpers.
Context {W : Type} {PAM : PamSys W}.

Definition to_owned_str (bs : list byte) : res PamHelperError string :=
  ok_or (from_utf8 bs) PamNonUtf8.

(** A successful call with a string. *)
Definition required_string (f : W → W * (Z * option (list byte))) : io W PamHelperError string :=
  let! got := ask f in
  if decide (got.1 ≠ PAM_SUCCESS) then lift (Err (PamRc got.1)) else
  match got.2 with
  | None => lift (Err PamNull)
  | Some bs => lift (to_owned_str bs)
  end.

Definition pam_get_user_string : io W PamHelperError string := required_string pam_get_user.

Definition pam_get_service_string : io W PamHelperError string :=
  required_string (pam_get_item PAM_SERVICE).

(** An empty string counts as unset. *)
Definition optional_str (bs : option (list byte)) : res PamHelperError (option string) :=
  match bs with
  | None => Ok None
  | Some bs => let? s := to_owned_str bs in Ok (if decide (s = "") then None else Some s)
  end.

Definition pam_get_tty_string : io W PamHelperError (option string) :=
  let! got := ask (pam_get_item PAM_TTY) in
  if decide (got.1 ≠ PAM_SUCCESS) then lift (Err (PamRc got.1))
  else lift (optional_str got.2).

Definition pam_get_env_string (name : string) : io W PamHelperError (option string) :=
  if has_nul name then lift (Err (PamRc (-1))) else
  let! got := ask (pam_getenv name) in
  lift (optional_str got).

End helpers.

(** ** The stored context *)

Definition DATA_KEY : string := "pam_certauth.auth_context".

Inductive DataHandleError : Type :=
| DataPamRc (rc : Z)
| BadKey.

Section data.
Context {W : Type} {PAM : PamSys W}.

(** PAM never hands back a null pointer for data it holds. *)
Definition auth_context_cleanup (data : Ptr) (w : W) : W := box_drop data w.

Definition set_auth_context (ctx : AuthContext) : io W DataHandleError unit := λ w,
  if has_nul DATA_KEY then (w, Err BadKey) else
  let (w, raw) := box_into_raw ctx w in
  let (w, rc) := pam_set_data DATA_KEY raw auth_context_cleanup w in
  if decide (rc = PAM_SUCCESS) then (w, Ok tt)
  else (box_drop raw w, Err (DataPamRc rc)).

Definition get_auth_context (w : W) : W * option AuthContext :=
  if has_nul DATA_KEY then (w, None) else
  let '(w, (rc, data)) := pam_get_data DATA_KEY w in
  (w, if decide (rc ≠ PAM_SUCCESS) then None else
      match data with
      | None => None
      | Some p => Some (box_read p w)
      end).

End data.

Lemma pam_get_user_string_safe {W} {PAM : PamSys W} : io_safe (pam_get_user_string (W := W)).
Proof. unfold pam_get_user_string, required_string, to_owned_str. auto 10 with rust. Qed.

Lemma set_auth_context_safe {W} {PAM : PamSys W} ctx : io_safe (set_auth_context (W := W) ctx).
Proof.
  intros w. unfold set_auth_context. destruct (has_nul DATA_KEY); [done|].
  destruct (box_into_raw ctx w) as [w1 raw]. destruct (pam_set_data _ _ _ w1) as [w2 rc]. by case_decide.
Qed.

(** ** The conversation *)

Section conv.
Context {W : Type} {PAM : PamSys W}.

Definition conv_fn : io W PamConvError ConvFn :=
  let! got := ask pam_get_conv in
  match got with
  | (rc, Some (Some f)) => if decide (rc ≠ PAM_SUCCESS) then lift (Err NoConv) else fret f
  | (_, _) => lift (Err NoConv)
  end.

(** The response is wiped and freed before the result is looked at. *)
Definition prompt_pin (prompt : string) : io W PamConvError string :=
  let! f := conv_fn in
  if has_nul prompt then lift (Err ConvFailed) else
  let! answer := ask (conv_call f PAM_PROMPT_ECHO_OFF prompt) in
  match answer with
  | (rc, Some resp) =>
      if decide (rc ≠ PAM_SUCCESS) then lift (Err ConvFailed) else
      λ w,
        match resp_field resp w with
        | None => (c_free resp w, Err ConvFailed)
        | Some buf =>
            let pin := c_str buf w in
            let w := if decide (0 < zlen pin) then c_write_zeros buf (zlen pin) w else w in
            (c_free resp (c_free buf w), ok_or (from_utf8 pin) NonUtf8)
        end
  | (_, None) => lift (Err ConvFailed)
  end.

Definition show_info (msg : string) : io W PamConvError unit :=
  let! f := conv_fn in
  if has_nul msg then lift (Err ConvFailed) else
  let! answer := ask (conv_call f PAM_TEXT_INFO msg) in
  λ w,
    let w := match answer.2 with
             | None => w
             | Some resp =>
                 c_free resp (match resp_field resp w with Some buf => c_free buf w | None => w end)
             end in
    (w, if decide (answer.1 ≠ PAM_SUCCESS) then Err ConvFailed else Ok tt).

End conv.

(** [prompt_pin_via_callback] and [prompt_pkcs11_pin]: a [SecretString] is its
    text. *)
Definition prompt_pin_via_callback {W} (prompt : string)
    (conv : string → io W PamConvError string) : io W PamConvError string :=
  let! raw := conv prompt in fret raw.

Definition prompt_pkcs11_pin {W} (prompt : string) (conv : string → io W PamConvError string)
    : io W PamConvError string := prompt_pin_via_callback prompt conv.

(** ** Module arguments *)

Record ParsedPamArgs := MkPamArgs {
  pa_config_path : option string;
  pa_extra : gmap string string;
}.

Fixpoint parse_pam_args_from (out : ParsedPamArgs) (args : list string) : ParsedPamArgs :=
  match args with
  | [] => out
  | raw :: r =>
      parse_pam_args_from
        (match split_once_bytes (zb 0x3D) (bytes_of raw) with
         | (k, Some v) =>
             if decide (text_of k = "config") then MkPamArgs (Some (text_of v)) (pa_extra out)
             else MkPamArgs (pa_config_path out) (<[text_of k := text_of v]> (pa_extra out))
         | (_, None) => out
         end) r
  end.

Definition parse_pam_args : list string → ParsedPamArgs := parse_pam_args_from (MkPamArgs None ∅).

(** ** Laws *)

(** libpam's module data and the boxes: replacing data runs the cleanup of
    the old value, and a failed call changes nothing. *)
Class PamData (W : Type) `{PamSys W} := {
  ptr_eq_dec :: EqDecision Ptr;
  ptr_countable :: Countable Ptr;
  module_data : W → gmap string Ptr;
  boxes : W → gmap Ptr AuthContext;
  into_raw_law : ∀ ctx w w' p, box_into_raw ctx w = (w', p) →
    boxes w !! p = None ∧ boxes w' = <[p := ctx]> (boxes w) ∧ module_data w' = module_data w;
  box_drop_law : ∀ p w, boxes (box_drop p w) = delete p (boxes w) ∧
    module_data (box_drop p w) = module_data w;
  box_read_law : ∀ p w ctx, boxes w !! p = Some ctx → box_read p w = ctx;
  set_data_law : ∀ key p cleanup w w' rc, pam_set_data key p cleanup w = (w', rc) →
    if decide (rc = PAM_SUCCESS)
    then module_data w' = <[key := p]> (module_data w) ∧
         boxes w' = boxes (match module_data w !! key with Some old => cleanup old w | None => w end)
    else module_data w' = module_data w ∧ boxes w' = boxes w;
  get_data_law : ∀ key w w' rc data, pam_get_data key w = (w', (rc, data)) →
    module_data w' = module_data w ∧ boxes w' = boxes w ∧
    match module_data w !! key with
    | Some p => rc = PAM_SUCCESS ∧ data = Some p
    | None => rc ≠ PAM_SUCCESS ∨ data = None
    end;
}.

(** The C heap: freeing a block leaves its bytes where they are. *)
Class PamHeap (W : Type) `{PamSys W} := {
  cptr_eq_dec :: EqDecision CPtr;
  content : W → CPtr → list byte;
  live : W → CPtr → bool;
  c_str_law : ∀ p w, ∃ rest, content w p = c_str p w ++ rest;
  zeros_law : ∀ p n w q, 0 ≤ n → live (c_write_zeros p n w) q = live w q ∧
    content (c_write_zeros p n w) q =
      if decide (q = p) then replicate (Z.to_nat n) (zb 0) ++ drop (Z.to_nat n) (content w p)
      else content w q;
  free_law : ∀ p w q, content (c_free p w) q = content w q ∧
    live (c_free p w) q = if decide (q = p) then false else live w q;
}.

(** ** Lemmas *)

Section data_lemmas.
Context {W : Type} {PAM : PamSys W} {PD : PamData W}.

(** The live boxes are the one PAM holds for the module. *)
Definition owned (w : W) : Prop :=
  ∀ p, is_Some (boxes w !! p) ↔ module_data w !! DATA_KEY = Some p.

(** What a later entry finds. *)
Definition stored (w : W) : option AuthContext := module_data w !! DATA_KEY ≫= λ p, boxes w !! p.

Lemma get_auth_context_stored w : owned w → (get_auth_context w).2 = stored w.
Proof.
  intros Hw. unfold get_auth_context, stored. change (has_nul DATA_KEY) with false. cbn [negb].
  destruct (pam_get_data DATA_KEY w) as [w1 [rc data]] eqn:Hg. apply get_data_law in Hg as (Hd & Hb & Hg).
  cbn [snd]. destruct (module_data w !! DATA_KEY) as [p|] eqn:Hk; cbn.
  - destruct Hg as [-> ->]. cbn. destruct (proj2 (Hw p) Hk) as [ctx Hc]. rewrite Hc.
    f_equal. apply box_read_law. by rewrite Hb.
  - destruct Hg as [Hr| ->]; [by rewrite decide_True|by case_decide].
Qed.

Lemma set_auth_context_spec ctx w w' r :
  owned w → set_auth_context ctx w = (w', r) →
  owned w' ∧ stored w' = (if is_ok r then Some ctx else stored w).
Proof.
  intros Hw. unfold set_auth_context. change (has_nul DATA_KEY) with false. cbn iota.
  destruct (box_into_raw ctx w) as [w1 raw] eqn:Hn. apply into_raw_law in Hn as (Hfresh & Hb1 & Hd1).
  destruct (pam_set_data _ _ _ w1) as [w2 rc] eqn:Hs. apply set_data_law in Hs.
  rewrite Hd1 in Hs. case_decide; destruct Hs as [Hd2 Hb2]; intros [= <- <-]; cbn [is_ok].
  - assert (boxes w2 = {[raw := ctx]}) as Hboxes.
    { rewrite Hb2. apply map_eq. intros q. destruct (module_data w !! DATA_KEY) as [old|] eqn:Ho.
      - unfold auth_context_cleanup. rewrite (proj1 (box_drop_law _ _)), Hb1.
        assert (is_Some (boxes w !! old)) as Hold by by apply Hw.
        assert (old ≠ raw) by (intros ->; destruct Hold; congruence).
        destruct (decide (q = raw)) as [->|]; [by rewrite lookup_delete_ne, lookup_insert_eq, lookup_singleton_eq|].
        rewrite lookup_singleton_ne by done. destruct (decide (q = old)) as [->|]; [by rewrite lookup_delete_eq|].
        rewrite lookup_delete_ne, lookup_insert_ne by done. destruct (boxes w !! q) eqn:Hq; [|done].
        assert (Some old = Some q) as [= ->] by (rewrite <-Ho; by apply Hw; eauto). done.
      - rewrite Hb1. destruct (decide (q = raw)) as [->|]; [by rewrite lookup_insert_eq, lookup_singleton_eq|].
        rewrite lookup_insert_ne, lookup_singleton_ne by done. destruct (boxes w !! q) eqn:Hq; [|done].
        assert (module_data w !! DATA_KEY = Some q) by (apply Hw; eauto). congruence. }
    split.
    + intros p. rewrite Hboxes, Hd2, lookup_insert_eq. split.
      * intros [c [-> _]%lookup_singleton_Some]. done.
      * intros [= ->]. rewrite lookup_singleton_eq. eauto.
    + unfold stored. rewrite Hd2, lookup_insert_eq. cbn. by rewrite Hboxes, lookup_singleton_eq.
  - destruct (box_drop_law raw w2) as [Hb3 Hd3].
    assert (boxes (box_drop raw w2) = boxes w) as Hboxes.
    { rewrite Hb3, Hb2, Hb1. by apply delete_insert_id. }
    unfold owned, stored. rewrite Hd3, Hd2, Hboxes. done.
Qed.

End data_lemmas.

Section conv_lemmas.
Context {W : Type} {PAM : PamSys W} {PH : PamHeap W}.

(** A run that got as far as the response array [resp] in [w1]. *)
Definition asked (prompt : string) (w w1 : W) (rc : Z) (resp : option CPtr) : Prop :=
  ∃ f w0, conv_fn w = (w0, Ok f) ∧ conv_call f PAM_PROMPT_ECHO_OFF prompt w0 = (w1, (rc, resp)).

Lemma prompt_pin_asked prompt w w1 resp :
  has_nul prompt = false → asked prompt w w1 PAM_SUCCESS (Some resp) →
  prompt_pin prompt w =
    match resp_field resp w1 with
    | None => (c_free resp w1, Err ConvFailed)
    | Some buf =>
        let pin := c_str buf w1 in
        (c_free resp (c_free buf (if decide (0 < zlen pin) then c_write_zeros buf (zlen pin) w1 else w1)),
         ok_or (from_utf8 pin) NonUtf8)
    end.
Proof.
  intros Hn (f & w0 & Hf & Hc). unfold prompt_pin. rewrite fbind_eq, Hf, Hn, fbind_eq.
  unfold ask. rewrite Hc. rewrite decide_False by (intros H; by apply H). done.
Qed.

End conv_lemmas.

(** ** A sample handle *)

Module HandleSample.

(** Next address, module data, boxes, and the C heap: one response at 0 whose
    buffer is at 1. *)
Record handle := MkHandle {
  h_next : Z;
  h_data : gmap string Z;
  h_boxes : gmap Z AuthContext;
  h_mem : gmap Z (list byte);
  h_live : gmap Z bool;
}.

Definition with_boxes (f : gmap Z AuthContext → gmap Z AuthContext) (h : handle) : handle :=
  MkHandle (h_next h) (h_data h) (f (h_boxes h)) (h_mem h) (h_live h).

Definition context : AuthContext :=
  MkAuthContext "sid" None None None None "login" "h" MachineId 0 None None None None.

(** Boxes are numbered: an address that is in use is skipped. *)
#[export] Instance pam : PamSys handle := {|
  pam_get_user h := (h, (0, Some (bytes_of "alice")));
  pam_get_item item h := (h, (0, if decide (item = PAM_SERVICE) then Some (bytes_of "login") else None));
  pam_getenv _ h := (h, None);
  Ptr := Z;
  box_into_raw ctx h :=
    let p := fresh (dom (h_boxes h)) in (with_boxes <[p := ctx]> h, p);
  box_read p h := default context (h_boxes h !! p);
  box_drop p h := with_boxes (delete p) h;
  pam_set_data key p cleanup h :=
    let freed := match h_data h !! key with Some old => cleanup old h | None => h end in
    (MkHandle (h_next h) (<[key := p]> (h_data h)) (h_boxes freed) (h_mem h) (h_live h), 0);
  pam_get_data key h := (h, match h_data h !! key with Some p => (0, Some p) | None => (18, None) end);
  ConvFn := unit;
  pam_get_conv h := (h, (0, Some (Some tt)));
  CPtr := Z;
  conv_call _ _ _ h :=
    (MkHandle (h_next h) (h_data h) (h_boxes h) (<[1 := bytes_of "1234" ++ [zb 0]]> (h_mem h))
       (<[0 := true]> (<[1 := true]> (h_live h))), (0, Some 0));
  resp_field p h := if decide (p = 0) then Some 1 else None;
  c_str p h := take 4 (default [] (h_mem h !! p));
  c_write_zeros p n h :=
    MkHandle (h_next h) (h_data h) (h_boxes h)
      (<[p := replicate (Z.to_nat n) (zb 0) ++ drop (Z.to_nat n) (default [] (h_mem h !! p))]> (h_mem h))
      (h_live h);
  c_free p h := MkHandle (h_next h) (h_data h) (h_boxes h) (h_mem h) (<[p := false]> (h_live h));
|}.

#[export] Instance heap : PamHeap handle.
Proof.
  refine {| content h p := default [] (h_mem h !! p); live h p := default false (h_live h !! p) |}.
  - intros p h. exists (drop 4 (default [] (h_mem h !! p))). symmetry. apply take_drop.
  - intros p n h q _. cbn. split; [done|]. case_decide as Hq; [subst; by rewrite lookup_insert_eq|].
    by rewrite lookup_insert_ne.
  - intros p h q. cbn. split; [done|]. case_decide as Hq; [subst; by rewrite lookup_insert_eq|].
    by rewrite lookup_insert_ne.
Defined.

#[export] Instance data : PamData handle.
Proof.
  refine (@Build_PamData handle pam Z.eq_dec Z_countable h_data h_boxes _ _ _ _ _).
  - intros ctx h h' p [= <- <-]. split; [|done]. apply not_elem_of_dom, is_fresh.
  - done.
  - intros p h ctx Hp. change (box_read p h) with (default context (h_boxes h !! (p : Z))).
    change (h_boxes h !! (p : Z) = Some ctx) in Hp. by rewrite Hp.
  - intros key p cleanup h h' rc [= <- <-]. by rewrite decide_True.
  - intros key h h' rc p. cbn. destruct (h_data h !! key); intros [= <- <- <-]; auto.
Defined.

Definition start : handle := MkHandle 0 ∅ ∅ ∅ ∅.

End HandleSample.

(** ** Theorems *)

(** C34: The box of a context belongs to PAM and to nobody else: storing a context
    frees the one stored before, and on a failure the new one; at every
    point the only live box is the one PAM holds, so nothing leaks and
    nothing dangles.  A later entry reads exactly the last context stored. *)
Theorem context_owned {W} {PAM : PamSys W} {PD : PamData W} ctx (w w' : W) r
    (Hw : owned w) (Hrun : set_auth_context ctx w = (w', r)) :
  owned w' ∧
  (get_auth_context w').2 = (if is_ok r then Some ctx else (get_auth_context w).2) ∧
  (∀ p, module_data w' !! DATA_KEY = Some p → boxes (auth_context_cleanup p w') = ∅).
Proof.
  destruct (set_auth_context_spec ctx w w' r Hw Hrun) as [Hw' Hs]. split_and!; [done| |].
  - rewrite !get_auth_context_stored by done. done.
  - intros p Hp. unfold auth_context_cleanup. rewrite (proj1 (box_drop_law _ _)).
    apply map_eq. intros q. rewrite lookup_empty. destruct (decide (q = p)) as [->|]; [by rewrite lookup_delete_eq|].
    rewrite lookup_delete_ne by done. destruct (boxes w' !! q) eqn:Hq; [|done].
    assert (module_data w' !! DATA_KEY = Some q) by (apply Hw'; eauto). congruence.
Qed.

(** The PIN does not outlive its prompt: whatever the user typed, when
    [prompt_pin] returns the buffer that held the answer is zeroed over its
    whole length and freed, and so is the response array; no other block
    changed.  The PIN returned is the text that was in it. *)
Theorem prompt_pin_wipes {W} {PAM : PamSys W} {PH : PamHeap W} prompt (w w1 : W) resp buf
    (Hnul : has_nul prompt = false) (Hasked : asked prompt w w1 PAM_SUCCESS (Some resp))
    (Hbuf : resp_field resp w1 = Some buf) (Hne : buf ≠ resp) :
  let (w', r) := prompt_pin prompt w in
  let pin := c_str buf w1 in
  r = ok_or (from_utf8 pin) NonUtf8 ∧
  take (length pin) (content w' buf) = replicate (length pin) (zb 0) ∧
  live w' buf = false ∧ live w' resp = false ∧
  (∀ q, q ≠ buf → content w' q = content w1 q ∧ (q ≠ resp → live w' q = live w1 q)).
Proof.
  rewrite (prompt_pin_asked prompt w w1 resp), Hbuf by done. cbv zeta.
  set (pin := c_str buf w1). set (w2 := if decide (0 < zlen pin) then _ else w1).
  assert (∀ q, live w2 q = live w1 q ∧ (q ≠ buf → content w2 q = content w1 q)) as Hw2.
  { intros q. subst w2. case_decide; [|done].
    destruct (zeros_law buf (zlen pin) w1 q) as [-> ->]; [lia|]. split; [done|].
    intros Hq. by rewrite decide_False. }
  assert (take (length pin) (content w2 buf) = replicate (length pin) (zb 0)) as Hz.
  { subst w2. case_decide as Hl.
    - destruct (zeros_law buf (zlen pin) w1 buf) as [_ ->]; [lia|]. rewrite decide_True by done.
      unfold zlen. rewrite Nat2Z.id, take_app_length' by by rewrite length_replicate. done.
    - unfold zlen in Hl. destruct pin; [done|cbn in Hl; lia]. }
  split_and!; [done|..].
  - by rewrite (proj1 (free_law resp _ _)), (proj1 (free_law buf _ _)).
  - rewrite (proj2 (free_law resp _ _)), (proj2 (free_law buf _ _)). by rewrite decide_False, decide_True.
  - rewrite (proj2 (free_law resp _ _)). by rewrite decide_True.
  - intros q Hq. rewrite (proj1 (free_law resp _ _)), (proj1 (free_law buf _ _)).
    split; [by apply Hw2|]. intros Hq'.
    rewrite (proj2 (free_law resp _ _)), (proj2 (free_law buf _ _)), !decide_False by done. apply Hw2.
Qed.

Lemma prompt_pin_wipes_witness :
  let (w', r) := prompt_pin (PAM := HandleSample.pam) "PIN: " HandleSample.start in
  r = Ok "1234" ∧ take 4 (content (PamHeap := HandleSample.heap) w' 1) = replicate 4 (zb 0).
Proof.
  pose proof (prompt_pin_wipes (PH := HandleSample.heap) "PIN: " HandleSample.start
    (conv_call (PamSys := HandleSample.pam) tt 1 "PIN: " HandleSample.start).1 0 1
    ltac:(vm_compute; reflexivity)
    ltac:(exists tt, HandleSample.start; split; reflexivity)
    ltac:(reflexivity) ltac:(discriminate)) as H.
  destruct (prompt_pin "PIN: " HandleSample.start) as [w' r].
  destruct H as (Hr & Hz & _). split; [exact Hr|exact Hz].
Defined.


Lemma context_owned_witness :
  (get_auth_context (PAM := HandleSample.pam)
     (set_auth_context (PAM := HandleSample.pam) HandleSample.context HandleSample.start).1).2 =
    Some HandleSample.context.
Proof.
  apply (context_owned (PD := HandleSample.data) HandleSample.context HandleSample.start _ (Ok tt));
    [|reflexivity].
  intros p. cbn. rewrite !lookup_empty. split; [by intros [? ?]|done].
Defined.
