(* ===== verification/Wiring.v ===== *)
(** * Self-check and wiring ([self_check.rs], [pam_certauth/src/di.rs])

    What runs between loading the configuration and the flow: the checks that
    refuse a host that is not ready, and the construction of the verifier and
    of the monitor client from the configuration.  The self-check pins the
    process-wide GOST engine, so it runs on the world and the engine cell. *)

From S2P Require Import Prelude Text Sys Errors Openssl Der Sample X509Ext Certificate Gost Trust.
From S2P Require Import MacLabel MacOrchestrator Proto Hooks RawConfig Config Client Pkcs12 Pkcs11 Token.
Local Open Scope Z_scope.

(** ** Self-check *)

(** The text of [Pkcs11ModuleMissing], by its parts. *)
Inductive ModuleProblem : Type :=
| ModuleNotSet
| ModuleNoSuchPath (path : string)
| ModuleUnreadable (path : string) (source : IoError)
| ModuleNotRegular (path : string)
| ModuleLoadFails (path : string) (e : Pkcs11Error)
| ModulePanics (path : string).

Inductive SelfCheckError : Type :=
| AnchorUnreadable (path : string)
| AnchorNotPem (path : string)
| CrlUnreadable (path : string)
| CrlNotPem (path : string)
| GostEngineUnavailable (e : GostEngineError)
| HookCommandMissing (stage : HookStage) (path : string)
| Pkcs11ModuleMissing (problem : ModuleProblem)
| Pkcs11NoToken.

Definition CRL_MARKER : string := "-----BEGIN X509 CRL-----".

Section self_check.
Context {W : Type} {FS : Fs W} {CK : Cryptoki} {LIB : Pkcs11Lib W}.
Context {SSL : OpenSSL} {SK : OpenSSLKeys} {GS : GostSys}.

(** The world and the engine cell. *)
Definition host : Type := W * EngineCell.

Definition on_world {E A} (c : io W E A) : io host E A := λ s,
  let (w, r) := c s.1 in ((w, s.2), r).

Definition on_engine {E A} (f : EngineCell → EngineCell * res E A) : io host E A := λ s,
  let (cell, r) := f s.2 in ((s.1, cell), r).

(** A readable file with the marker. *)
Definition check_pem (marker : string) (unreadable not_pem : string → SelfCheckError) (path : string)
    : io W SelfCheckError unit :=
  let! text := io_map_err (λ _, unreadable path) (read_to_string path) in
  if str_contains text marker then fret tt else lift (Err (not_pem path)).

(** [hook.command[0]] panics on an empty command. *)
Definition check_hook (hook : HookConfig) : io W SelfCheckError unit :=
  match hk_command hook with
  | [] => lift Panic
  | path :: _ =>
      let! there := path_exists path in
      if there : bool then fret tt else lift (Err (HookCommandMissing (hk_stage hook) path))
  end.

(** The unwind of [Pkcs11Backend::load] is caught; the backend goes out of
    scope at the end, and its context is finalised. *)
Definition self_check_pkcs11 (cfg : ValidatedConfig) : io W SelfCheckError unit :=
  let missing p := lift (Err (Pkcs11ModuleMissing p)) in
  match cfg_pkcs11_module cfg with
  | None => missing ModuleNotSet
  | Some module_path =>
      let! there := path_exists module_path in
      if negb there then missing (ModuleNoSuchPath module_path) else
      let! md := io_map_err (λ e, Pkcs11ModuleMissing (ModuleUnreadable module_path e))
                   (call (fs_metadata module_path)) in
      if negb (md_is_file md) then missing (ModuleNotRegular module_path) else
      λ w,
        match backend_load module_path (cfg_pkcs11_locking_mode cfg) w with
        | (w', Ok b) => (ctx_finalize (be_ctx b) (list_slots_with_token b w').1, Ok tt)
        | (w', Err e) => (w', Err (Pkcs11ModuleMissing (ModuleLoadFails module_path e)))
        | (w', Panic) => (w', Err (Pkcs11ModuleMissing (ModulePanics module_path)))
        end
  end.

(** [gost_2012_256_md] and [gost_2012_512_md]. *)
Definition probe_digest (name : string) : io host SelfCheckError unit :=
  let! _ := on_engine (λ cell, (cell, map_err GostEngineUnavailable (digest_by_name cell name))) in
  fret tt.

Definition ensure_loaded (cell : EngineCell) (cfg : ValidatedConfig)
    : EngineCell * res GostEngineError unit :=
  ensure_loaded_with_path cell (Config.cfg_gost_engine_path cfg).

Definition check_gost (cfg : ValidatedConfig) : io host SelfCheckError unit :=
  if needs_gost cfg then
    do! on_engine (λ cell, let (cell, r) := ensure_loaded cell cfg in
                           (cell, map_err GostEngineUnavailable r));
    do! probe_digest GOST_2012_256_NAME;
    probe_digest GOST_2012_512_NAME
  else fret tt.

(** The part of [self_check] that does not use the engine. *)
Definition check_files (cfg : ValidatedConfig) : io W SelfCheckError unit :=
  do! io_each (check_pem PEM_MARKER AnchorUnreadable AnchorNotPem) (ts_anchors (cfg_trust cfg));
  do! (let rev := ts_revocation (cfg_trust cfg) in
       match rev_mode rev with
       | RevCrl => io_each (check_pem CRL_MARKER CrlUnreadable CrlNotPem) (rev_crl_paths rev)
       | _ => fret tt
       end);
  do! io_each check_hook (cfg_hooks cfg);
  match cfg_mode cfg with
  | ModePkcs11 => self_check_pkcs11 cfg
  | ModePkcs12 => fret tt
  end.

Definition self_check (cfg : ValidatedConfig) : io host SelfCheckError unit :=
  do! on_world (check_files cfg);
  check_gost cfg.

End self_check.

Arguments host W {GS}.

(** ** Wiring *)

(** [hex::decode]. *)
Class HexDecode := hex_decode : string → option (list byte).

Module Di.

Inductive WireError : Type :=
| WireIo (e : IoError)
| WireTrust (e : TrustError)
| PinDecode (entry : string).

Section di.
Context {W : Type} {FS : Fs W} {SSL : OpenSSL} {SHA : Sha256} {HX : HexDecode}.
Context {SKT : SocketSys W} {WC : WallClock W} {UC : UuidCrate} {PKG : CorePkg}.
Context {JC : Json ClientMessage} {JS : Json ServerMessage}.

Record Wired := MkWired {
  wi_cfg : ValidatedConfig;
  wi_trust : OpensslVerifier;
  wi_monitor : MonitorClient W;
}.

(** [SpkiPin] is an array of 32 bytes. *)
Definition decode_pin (entry : string) : res WireError SpkiPin :=
  let? bytes := ok_or (hex_decode entry) (PinDecode entry) in
  if decide (zlen bytes = 32) then Ok bytes else Err (PinDecode entry).

Definition decode_spki_pins : list string → res WireError (list SpkiPin) := res_map decode_pin.

Definition read_file (path : string) : io W WireError (list byte) :=
  io_map_err WireIo (call (fs_read path)).

Definition read_certificate (path : string) : io W WireError Certificate :=
  let! bytes := read_file path in
  lift (map_err WireTrust (from_pem bytes)).

Definition verifier_config (cfg : ValidatedConfig) (anchors intermediates : list Certificate)
    (crl_pems : list (list byte)) (spki_pins : list SpkiPin) : OpensslVerifierConfig :=
  let t := cfg_trust cfg in
  MkVerifierConfig anchors intermediates crl_pems
    (match rev_mode (ts_revocation t) with RevCrl | RevCrlThenOcsp => true | _ => false end)
    (ts_clock_skew_seconds t * NANOS_PER_SEC) (ts_allowed_signature_algorithms t) spki_pins
    (ts_max_chain_depth t) (Config.cfg_gost_engine_path cfg).

(** The production client: connect per call, under the fail mode. *)
Definition monitor_client (cfg : ValidatedConfig) : MonitorClient W :=
  let m := cfg_monitor cfg in
  FailModeWrapper (ConnectPerCall (mon_socket_path m) (mon_timeout m)) (mon_fail_mode m).

Definition wire (cfg : ValidatedConfig) : io W WireError Wired :=
  let t := cfg_trust cfg in
  let! anchors := io_map read_certificate (ts_anchors t) in
  let! intermediates := io_map read_certificate (ts_intermediates t) in
  let! crl_pems := io_map read_file (rev_crl_paths (ts_revocation t)) in
  let! spki_pins := lift (if pin_enabled (ts_pinning t)
                          then decode_spki_pins (pin_allowed_root_spki_sha256 (ts_pinning t))
                          else Ok []) in
  let! verifier := lift (map_err WireTrust
    (Trust.verifier_new (verifier_config cfg anchors intermediates crl_pems spki_pins))) in
  fret (MkWired cfg verifier (monitor_client cfg)).

End di.

Arguments Wired W {SSL}.

End Di.

(** ** What the self-check establishes *)

Section checks.
Context {W : Type} {FS : Fs W} {CK : Cryptoki} {LIB : Pkcs11Lib W}.
Context {SSL : OpenSSL} {SK : OpenSSLKeys} {GS : GostSys}.

(** The file was readable text with the marker. *)
Definition marked (marker path : string) : Prop :=
  ∃ w w' text, read_to_string path w = (w', Ok text) ∧ str_contains text marker = true.

Definition was_there (path : string) : Prop := ∃ w md, (fs_metadata path w).2 = inr md.

(** The module was a file that loads. *)
Definition module_loads (cfg : ValidatedConfig) : Prop :=
  ∃ path w w' b, cfg_pkcs11_module cfg = Some path ∧
    backend_load path (cfg_pkcs11_locking_mode cfg) w = (w', Ok b).

(** The engine is pinned in the cell, with its two digests. *)
Definition gost_ready (cell : EngineCell) : Prop :=
  is_available cell = true ∧ is_Some (digest_from_nid 1177) ∧ is_Some (digest_from_nid 1178).

Record host_ready (cfg : ValidatedConfig) (cell : EngineCell) : Prop := {
  hr_anchors : Forall (marked PEM_MARKER) (ts_anchors (cfg_trust cfg));
  hr_crls : rev_mode (ts_revocation (cfg_trust cfg)) = RevCrl →
    Forall (marked CRL_MARKER) (rev_crl_paths (ts_revocation (cfg_trust cfg)));
  hr_hooks : Forall (λ h, ∃ cmd args, hk_command h = cmd :: args ∧ was_there cmd) (cfg_hooks cfg);
  hr_module : cfg_mode cfg = ModePkcs11 → module_loads cfg;
  hr_gost : needs_gost cfg = true → gost_ready cell;
}.

Lemma check_pem_Ok marker u n path w w' :
  check_pem marker u n path w = (w', Ok tt) → marked marker path.
Proof.
  unfold check_pem. intros H. peel H w1 text Ht. apply io_map_err_Ok_inv in Ht.
  destruct (str_contains text marker) eqn:Hc; [|done]. by exists w, w1, text.
Qed.

Lemma path_exists_true {E} path w w' :
  path_exists (E := E) path w = (w', Ok true) → was_there path.
Proof.
  unfold path_exists, was_there. intros H. exists w. destruct (fs_metadata path w) as [w1 [e|md]]; [done|by exists md].
Qed.

Lemma check_hook_Ok h w w' :
  check_hook h w = (w', Ok tt) → ∃ cmd args, hk_command h = cmd :: args ∧ was_there cmd.
Proof.
  unfold check_hook. destruct (hk_command h) as [|cmd args]; [done|]. intros H. peel H w1 there Hp.
  destruct there; [|done]. exists cmd, args. split; [done|]. by eapply path_exists_true.
Qed.

Lemma self_check_pkcs11_Ok cfg w w' :
  self_check_pkcs11 cfg w = (w', Ok tt) → module_loads cfg.
Proof.
  unfold self_check_pkcs11. destruct (cfg_pkcs11_module cfg) as [path|] eqn:Hm; [|done].
  intros H. peel H w1 there Hp. destruct there; cbn [negb] in H; [|done].
  peel H w2 md Hmd. destruct (md_is_file md); cbn [negb] in H; [|done].
  destruct (backend_load _ _ w2) as [w3 [b|e|]] eqn:Hb; [|done..]. by exists path, w2, w3, b.
Qed.

Lemma check_files_Ok cfg w w' :
  check_files cfg w = (w', Ok tt) →
  Forall (marked PEM_MARKER) (ts_anchors (cfg_trust cfg)) ∧
  (rev_mode (ts_revocation (cfg_trust cfg)) = RevCrl →
   Forall (marked CRL_MARKER) (rev_crl_paths (ts_revocation (cfg_trust cfg)))) ∧
  Forall (λ h, ∃ cmd args, hk_command h = cmd :: args ∧ was_there cmd) (cfg_hooks cfg) ∧
  (cfg_mode cfg = ModePkcs11 → module_loads cfg).
Proof.
  intros H. unfold check_files in H. peel H w1 uH1 H1; destruct uH1. peel H w2 uH2 H2; destruct uH2. peel H w3 uH3 H3; destruct uH3. split_and!.
  - apply io_each_Ok in H1. eapply Forall_impl; [done|]. intros p (s1 & s2 & Hp). by eapply check_pem_Ok.
  - intros Hm. rewrite Hm in H2. apply io_each_Ok in H2. eapply Forall_impl; [done|].
    intros p (s1 & s2 & Hp). by eapply check_pem_Ok.
  - apply io_each_Ok in H3. eapply Forall_impl; [done|]. intros h (s1 & s2 & Hh). by eapply check_hook_Ok.
  - intros Hm. rewrite Hm in H. by eapply self_check_pkcs11_Ok.
Qed.

Lemma digest_by_name_Ok cell name d :
  digest_by_name cell name = Ok d →
  is_available cell = true ∧ ∃ nid, nid_from_name name = Ok nid ∧ digest_from_nid nid = Some d.
Proof.
  unfold digest_by_name. destruct (is_available cell); cbn [negb]; [|done].
  intros (nid & Hn & Hd)%rbind_Ok_inv. split; [done|]. exists nid. split; [done|].
  destruct (digest_from_nid nid); by simplify_eq/=.
Qed.

Lemma probe_digest_Ok name (s s' : host W) :
  probe_digest name s = (s', Ok tt) → s' = s ∧ ∃ d, digest_by_name s.2 name = Ok d.
Proof.
  unfold probe_digest. intros H. peel H s1 d Hd. unfold on_engine in Hd. injection H as <-.
  injection Hd as <- Hd%map_err_Ok_inv. destruct s. split; [done|by exists d].
Qed.

Lemma check_gost_Ok cfg (s s' : host W) :
  check_gost cfg s = (s', Ok tt) → needs_gost cfg = true → gost_ready s'.2.
Proof.
  unfold check_gost. intros H Hn. rewrite Hn in H. peel H s1 uH1 H1; destruct uH1. peel H s2 uH2 H2; destruct uH2.
  apply probe_digest_Ok in H2 as [-> (d & Hd)]. apply probe_digest_Ok in H as [-> (d' & Hd')].
  apply digest_by_name_Ok in Hd as (Hav & nid & [= <-] & Hd).
  apply digest_by_name_Ok in Hd' as (_ & nid & [= <-] & Hd').
  split; [done|]. rewrite Hd, Hd'. split; eauto.
Qed.

Lemma self_check_Ok cfg (s s' : host W) :
  self_check cfg s = (s', Ok tt) → host_ready cfg s'.2.
Proof.
  unfold self_check. intros H. peel H s1 uH1 H1; destruct uH1. unfold on_world in H1.
  destruct (check_files cfg s.1) as [w1 r] eqn:Hf. injection H1 as <- ->.
  apply check_files_Ok in Hf as (? & ? & ? & ?). split; try done. by eapply check_gost_Ok.
Qed.

Lemma on_world_safe {E A} (c : io W E A) : io_safe c → io_safe (on_world c).
Proof. intros Hc s. unfold on_world. specialize (Hc s.1). by destruct (c s.1). Qed.

Lemma probe_digest_safe name : io_safe (probe_digest (W := W) name).
Proof.
  unfold probe_digest. apply io_safe_bind; [|intros ?; apply io_safe_ret]. intros s. unfold on_engine.
  cbn [snd]. apply map_err_no_panic. unfold digest_by_name, nid_from_name. auto with rust.
Qed.

Lemma self_check_safe cfg :
  Forall (λ h, hk_command h ≠ []) (cfg_hooks cfg) → io_safe (self_check (W := W) cfg).
Proof.
  intros Hh. unfold self_check. apply io_safe_bind; [apply on_world_safe|intros _].
  - unfold check_files, check_pem. apply io_safe_bind; [auto 10 with rust|intros _].
    apply io_safe_bind; [auto 10 with rust|intros _]. apply io_safe_bind.
    + apply io_safe_each_Forall. eapply Forall_impl; [done|]. intros h Hc. cbn in Hc. unfold check_hook.
      destruct (hk_command h); [done|]. auto with rust.
    + intros _. destruct (cfg_mode cfg); [apply io_safe_ret|]. unfold self_check_pkcs11.
      destruct (cfg_pkcs11_module cfg); [|auto with rust].
      apply io_safe_bind; [auto with rust|intros []]; cbn [negb]; [|auto with rust].
      apply io_safe_bind; [auto with rust|intros md]. destruct (md_is_file md); cbn [negb]; [|auto with rust].
      intros w. by destruct (backend_load _ _ w) as [w1 []].
  - unfold check_gost. destruct (needs_gost cfg); [|apply io_safe_ret].
    apply io_safe_bind; [|intros _; apply io_safe_bind; [|intros _]; apply probe_digest_safe].
    intros s. unfold on_engine, ensure_loaded.
    pose proof (ensure_loaded_no_panic s.2 (Config.cfg_gost_engine_path cfg)) as Hp.
    destruct (ensure_loaded_with_path _ _) as [cell r]. by apply map_err_no_panic.
Qed.

End checks.

(** ** What wiring establishes *)

(** [hex::decode] on what the configuration accepts as a pin: two digits per
    byte. *)
Class HexLaws `{HexDecode} :=
  hex_decode_pin : ∀ s, forallb is_ascii_hexdigit (bytes_of s) = true → str_len s = 64 →
    ∃ bytes, hex_decode s = Some bytes ∧ zlen bytes = 32.

Section wired.
Import Di.
Context {W : Type} {FS : Fs W} {SSL : OpenSSL} {SHA : Sha256} {HX : HexDecode}.
Context {SKT : SocketSys W} {WC : WallClock W} {UC : UuidCrate} {PKG : CorePkg}.
Context {JC : Json ClientMessage} {JS : Json ServerMessage}.

(** The certificate a configured file held when it was read. *)
Definition file_holds (path : string) (c : Certificate) : Prop :=
  ∃ w w' bytes, fs_read path w = (w', inr bytes) ∧ from_pem bytes = Ok c.

Definition strict_mode (m : RevocationMode) : bool :=
  match m with RevCrl | RevCrlThenOcsp => true | _ => false end.

(** The verifier is the configuration's. *)
Record wired_from (cfg : ValidatedConfig) (v : OpensslVerifier) : Prop := {
  wf_anchors : Forall2 file_holds (ts_anchors (cfg_trust cfg)) (anchors v);
  wf_anchors_some : anchors v ≠ [];
  wf_intermediates : Forall2 file_holds (ts_intermediates (cfg_trust cfg)) (intermediates v);
  wf_strict : crl_strict (rev_cfg v) = strict_mode (rev_mode (ts_revocation (cfg_trust cfg)));
  wf_skew : clock_skew (pre_cfg v) = ts_clock_skew_seconds (cfg_trust cfg) * NANOS_PER_SEC;
  wf_algs : signature_alg_whitelist (pre_cfg v) = ts_allowed_signature_algorithms (cfg_trust cfg);
  wf_depth : max_depth v = ts_max_chain_depth (cfg_trust cfg);
  wf_pins : if pin_enabled (ts_pinning (cfg_trust cfg))
            then Forall2 (λ e p, hex_decode e = Some p ∧ zlen p = 32)
                   (pin_allowed_root_spki_sha256 (ts_pinning (cfg_trust cfg))) (pins v)
            else pins v = [];
}.

Lemma read_certificate_Ok path w w' c :
  read_certificate path w = (w', Ok c) → file_holds path c.
Proof.
  unfold read_certificate, read_file. intros H. peel H w1 bytes Hb.
  apply io_map_err_Ok_inv, call_Ok_inv in Hb. apply lift_Ok_inv in H as [_ H%map_err_Ok_inv].
  by exists w, w1, bytes.
Qed.

Lemma read_certificates_Ok paths w w' cs :
  io_map read_certificate paths w = (w', Ok cs) → Forall2 file_holds paths cs.
Proof.
  intros H%io_map_Ok. eapply Forall2_impl; [done|]. intros p c (? & ? & ?). by eapply read_certificate_Ok.
Qed.

Lemma decode_pin_Ok entry p : decode_pin entry = Ok p → hex_decode entry = Some p ∧ zlen p = 32.
Proof.
  unfold decode_pin. intros (bs & Hb & H)%rbind_Ok_inv. destruct (hex_decode entry); simplify_eq/=.
  case_decide; by simplify_eq.
Qed.

Lemma wire_Ok cfg w w' wi :
  wire cfg w = (w', Ok wi) → wi_cfg wi = cfg ∧ wired_from cfg (wi_trust wi).
Proof.
  unfold wire. intros H. peel H w1 ancs Ha. peel H w2 ints Hi. peel H w3 crls Hc. peel H w4 ps Hp.
  peel H w5 v Hv. injection H as _ <-. split; [done|]. cbn [wi_trust].
  apply read_certificates_Ok in Ha, Hi. apply lift_Ok_inv in Hp as [_ Hp].
  apply lift_Ok_inv in Hv as [_ Hv%map_err_Ok_inv]. unfold Trust.verifier_new in Hv.
  cbn [cfg_anchors cfg_max_depth verifier_config] in Hv.
  case_bool_decide as Hn; [done|]. case_decide; [done|].
  apply rbind_Ok_inv in Hv as (store & _ & [= <-]). split; try done; cbn [anchors pins].
  - intros ->. by apply Hn.
  - destruct (pin_enabled _); [|by injection Hp]. apply res_map_Ok in Hp.
    eapply Forall2_impl; [done|]. intros e p. apply decode_pin_Ok.
Qed.

Lemma verifier_new_no_panic cfg : no_panic (Trust.verifier_new cfg).
Proof.
  unfold Trust.verifier_new. case_bool_decide; [done|]. case_decide; [done|].
  apply rbind_no_panic; [|done]. induction (cfg_crl_pems cfg) as [|pem r IH]; [done|].
  cbn [crl_store_from_pems]. apply rbind_no_panic; [|intros ? ?; by apply rbind_no_panic].
  unfold crl_from_pem, crl_from_inner, crl_asn1_to_system. auto 20 with rust.
Qed.

Lemma wire_safe cfg : io_safe (wire (W := W) cfg).
Proof.
  assert (∀ path, io_safe (read_certificate (W := W) path)) as Hc.
  { intros path. unfold read_certificate, read_file. apply io_safe_bind; [auto with rust|].
    intros bytes. apply io_safe_lift, map_err_no_panic. unfold from_pem. auto 10 with rust. }
  unfold wire. apply io_safe_bind; [auto with rust|intros ancs].
  apply io_safe_bind; [auto with rust|intros ints].
  apply io_safe_bind; [apply io_safe_list; intros p; unfold read_file; auto with rust|intros crls].
  apply io_safe_bind; [|intros ps; apply io_safe_bind; [|intros v; apply io_safe_ret]].
  - apply io_safe_lift. destruct (pin_enabled _); [|done]. apply res_map_no_panic. intros e _.
    unfold decode_pin. apply rbind_no_panic; [auto with rust|]. intros bs _. by case_decide.
  - apply io_safe_lift, map_err_no_panic, verifier_new_no_panic.
Qed.

Lemma decode_pins_total `{!HexLaws} entries :
  Forall (λ e, pin_shape e = true) entries → ∃ ps, decode_spki_pins entries = Ok ps.
Proof.
  induction 1 as [|e es He Hes (ps & IH)]; [by eexists|].
  unfold pin_shape in He. apply andb_true_iff in He as [Hl%bool_decide_eq_true Hx].
  destruct (hex_decode_pin e Hx Hl) as (bs & Hb & Hn).
  exists (bs :: ps). unfold decode_spki_pins in *. cbn [res_map]. unfold decode_pin at 1.
  rewrite Hb. cbn [ok_or rbind]. rewrite decide_True by done. cbn [rbind]. by rewrite IH.
Qed.

Lemma io_map_errs_in {E A B} (P : E → Prop) (f : A → io W E B) l :
  (∀ a, errs_in P (f a)) → errs_in P (io_map f l).
Proof.
  intros Hf. induction l as [|a l IH]; cbn [io_map]; [by intros ? ?|].
  apply errs_in_bind; [done|intros b]. apply errs_in_bind; [done|intros bs]. by intros ? ?.
Qed.

End wired.

(** ** A sample host *)

Module WiringSample.

Definition root : Sample.cert :=
  Sample.MkCert [] "root" "root" None "01" 0 1000 "ecdsa-with-SHA256" "kr" "kr".

Definition openssl : OpenSSL := Sample.openssl_over [root].

Definition hex : HexDecode := λ s,
  if decide (str_len s = 64) then Some (replicate 32 Byte.x00) else None.

Lemma hex_laws : HexLaws (H := hex).
Proof. intros s _ Hl. unfold hex_decode, hex. rewrite decide_True by done. by eexists. Qed.

(** A monitord that is not running. *)
Definition no_socket {W} : SocketSys W := {|
  Sock := unit;
  sock_connect _ w := (w, inl (MkIoError KindNotFound ""));
  sock_set_read_timeout _ _ w := (w, inr tt);
  sock_set_write_timeout _ _ w := (w, inr tt);
  sock_try_clone _ w := (w, inr tt);
  sock_write_all _ _ w := (w, inr tt);
  sock_flush _ w := (w, inr tt);
  sock_read_until _ w := (w, inr []);
|}.

Definition wall {W} : WallClock W := λ w, (w, 0).

Definition config (pinning : PinningSection) : ValidatedConfig :=
  let c := ConfigSample.config ModePkcs12 (MkMacPolicy Optional None true RuntimeAuto) in
  {| cfg_crypto_backend := BackendOpenssl; cfg_mode := cfg_mode c;
     cfg_pkcs11_module := cfg_pkcs11_module c; cfg_pkcs11_token_label := None;
     cfg_pkcs11_object_label := None; cfg_pkcs11_max_pin_attempts := 3;
     cfg_pkcs11_locking_mode := LockOs; cfg_pkcs11_pin_prompt := None; cfg_pkcs11_slot_wait := 0;
     cfg_pkcs12_path_pattern := None; cfg_pkcs12_pin_prompt := None;
     Config.cfg_gost_engine_path := None; cfg_usb_wait := cfg_usb_wait c; cfg_max_usb_partitions := 8;
     cfg_on_usb_removed := DoLock; cfg_usb_removed_grace := 0; cfg_suspend_grace := 0;
     cfg_monitor_fail_mode := Strict; cfg_monitor := cfg_monitor c;
     cfg_trust := MkTrustSection ["/ca.pem"] [] (MkRevocationSection RevNone [])
                    ["1.2.643.7.1.1.3.2"] pinning 5 60;
     cfg_trust_overrides := []; cfg_host_identity := cfg_host_identity c; cfg_user_mappings := [];
     cfg_logging := cfg_logging c; cfg_hooks := []; cfg_mac := cfg_mac c;
     cfg_fly_dm_greeter := cfg_fly_dm_greeter c |}.

(** A file that is no PKCS#11 module: its loader unwinds. *)
Definition bad_lib {W} : Pkcs11Lib (H := TokenSample.ck) W := {|
  pl_lock := LibSample.alone;
  Ctx := unit;
  Pkcs11_new _ w := (w, Panic);
  ctx_initialize _ w := (w, inr tt);
  get_slots_with_token _ w := (w, inr []);
  get_token_info _ _ w := (w, inr (MkTokenInfo "" ""));
  open_rw_session _ _ w := (w, inr (tt : @Session TokenSample.ck));
  session_login _ _ w := (w, inr tt);
  session_logout _ w := (w, inr tt);
  session_close _ w := w;
  ctx_finalize _ w := w;
|}.

Definition disk : ConfigSample.files := ("/lib/p11.so", []) :: ConfigSample.disk.

Abbreviation checked cfg :=
  (self_check (FS := ConfigSample.fs) (CK := TokenSample.ck) (LIB := bad_lib) (SSL := Sample.openssl)
     (SK := KeySample.keys) (GS := GostSample.gost) cfg (disk, GostSample.cell0)).

Abbreviation wired cfg :=
  (Di.wire (FS := ConfigSample.fs) (SSL := openssl) (HX := hex) (SKT := no_socket) (WC := wall)
    (UC := ClientSample.uuid) (PKG := ClientSample.crate) (JC := ClientSample.client_json)
    (JS := ClientSample.server_json) cfg ConfigSample.disk).

End WiringSample.

(** ** Theorems *)

(** C13: What [wire] builds is the configuration: the anchors and intermediates
    are the certificates of the configured files, in order, and there is an
    anchor; depth, clock skew, algorithms and strictness are the configured
    ones; the pins are the configured ones exactly when pinning is on; and a
    configuration that passed validation is never refused for its pins. *)
Theorem wire_sound {W} {FS : Fs W} {SSL : OpenSSL} {HX : HexDecode} {HL : HexLaws}
    {SKT : SocketSys W} {WC : WallClock W} {UC : UuidCrate} {PKG : CorePkg}
    {JC : Json ClientMessage} {JS : Json ServerMessage} cfg (w w' : W) r
    (Hwf : trust_wf (cfg_trust cfg)) (Hrun : Di.wire cfg w = (w', r)) :
  match r with
  | Ok wi => Di.wi_cfg wi = cfg ∧ wired_from cfg (Di.wi_trust wi) ∧ 1 ≤ max_depth (Di.wi_trust wi) ≤ 16
  | Err e => ∀ entry, e ≠ Di.PinDecode entry
  | Panic => False
  end.
Proof.
  destruct r as [wi|e|]; [|intros entry|].
  - apply wire_Ok in Hrun as [? Hw]. pose proof (wf_depth _ _ Hw) as ->. pose proof (tw_depth _ Hwf).
    done.
  - revert e Hrun. assert (errs_in (λ e, e ≠ Di.PinDecode entry) (Di.wire (W := W) cfg)) as He.
    { unfold Di.wire. apply errs_in_bind; [|intros ancs]; [|apply errs_in_bind; [|intros ints]];
        [apply io_map_errs_in; intros p; unfold Di.read_certificate, Di.read_file; repeat errs_step;
         destruct (from_pem _); simpl; congruence..|].
      apply errs_in_bind; [apply io_map_errs_in; intros p; unfold Di.read_file; errs_step|intros crls].
      apply errs_in_bind; [apply errs_in_lift; intros e|intros ps].
      - destruct (pin_enabled _) eqn:Hp; [|done].
        destruct (decode_pins_total _ (tw_pins _ Hwf Hp)) as (ps & ->). done.
      - repeat errs_step. destruct (Trust.verifier_new _); simpl; congruence. }
    intros e Hrun. apply (He w). by rewrite Hrun.
  - pose proof (wire_safe cfg w) as Hs. rewrite Hrun in Hs. by apply Hs.
Qed.

Lemma wire_sound_witness :
  ∃ wi, (WiringSample.wired (WiringSample.config (MkPinningSection false []))).2 = Ok wi ∧
    wired_from (FS := ConfigSample.fs) (SSL := WiringSample.openssl) (HX := WiringSample.hex)
      (WiringSample.config (MkPinningSection false [])) (Di.wi_trust wi).
Proof.
  assert (is_ok (WiringSample.wired (WiringSample.config (MkPinningSection false []))).2 = true) as Hok
    by (vm_compute; reflexivity).
  destruct (WiringSample.wired (WiringSample.config (MkPinningSection false []))) as [w' r] eqn:H.
  pose proof (wire_sound (FS := ConfigSample.fs) (SSL := WiringSample.openssl) (SKT := WiringSample.no_socket)
    (WC := WiringSample.wall) (UC := ClientSample.uuid) (PKG := ClientSample.crate)
    (JC := ClientSample.client_json) (JS := ClientSample.server_json) (HL := WiringSample.hex_laws)
    (WiringSample.config (MkPinningSection false [])) _ w' r (ltac:(split; [simpl; lia..|done])) H) as Hs.
  destruct r as [wi|e|]; [|done..]. exists wi. split; [done|]. by destruct Hs as (_ & ? & _).
Defined.

(** A host that passes the self-check is ready, and the self-check itself
    never unwinds, not even over a module whose loader does: the anchors (and
    with CRL checking the CRLs) were readable PEM, every hook's command was
    there, the PKCS#11 module loads, and when GOST algorithms are allowed the
    engine is pinned and both digests resolve. *)
Theorem self_check_sound {W} {FS : Fs W} {CK : Cryptoki} {LIB : Pkcs11Lib W}
    {SSL : OpenSSL} {SK : OpenSSLKeys} {GS : GostSys} cfg (s s' : host W) r
    (Hhooks : Forall hook_wf (cfg_hooks cfg)) (Hrun : self_check cfg s = (s', r)) :
  r ≠ Panic ∧ (r = Ok tt → host_ready cfg s'.2).
Proof.
  split; [|intros ->; by eapply self_check_Ok].
  assert (Forall (λ h, hk_command h ≠ []) (cfg_hooks cfg)) as Hh.
  { eapply Forall_impl; [done|]. intros h ((cmd & args & -> & _) & _) [=]. }
  pose proof (self_check_safe cfg Hh s) as Hs. by rewrite Hrun in Hs.
Qed.

(** The configured module is not a PKCS#11 library: its loader unwinds. *)
Lemma self_check_sound_witness :
  (WiringSample.checked
     (ConfigSample.config ModePkcs11 (MkMacPolicy Optional None true RuntimeAuto))).2 ≠ Panic.
Proof.
  destruct (WiringSample.checked
    (ConfigSample.config ModePkcs11 (MkMacPolicy Optional None true RuntimeAuto))) as [s' r] eqn:H.
  apply (self_check_sound (FS := ConfigSample.fs) (LIB := WiringSample.bad_lib) (SK := KeySample.keys)
    (ConfigSample.config ModePkcs11 (MkMacPolicy Optional None true RuntimeAuto))
    (WiringSample.disk, GostSample.cell0) s' r); [constructor|].
  exact H.
Defined.

(** With pinning on and no pins listed, no root is refused for its key: the
    verifier that [wire] builds has no pins, and an empty list of pins is not
    checked. *)
Theorem empty_pinning_accepts_any_root {W} {FS : Fs W} {SSL : OpenSSL} {SHA : Sha256}
    {HX : HexDecode} {SKT : SocketSys W} {WC : WallClock W} {UC : UuidCrate} {PKG : CorePkg}
    {JC : Json ClientMessage} {JS : Json ServerMessage} cfg (w w' : W) wi anchor
    (Hpin : ts_pinning (cfg_trust cfg) = MkPinningSection true [])
    (Hrun : Di.wire cfg w = (w', Ok wi)) :
  verify_pinning anchor (pins (Di.wi_trust wi)) = Ok tt.
Proof.
  apply wire_Ok in Hrun as [_ Hw]. pose proof (wf_pins _ _ Hw) as Hp. rewrite Hpin in Hp.
  cbn in Hp. inversion Hp as [Hn|]. done.
Qed.

Lemma empty_pinning_accepts_any_root_witness :
  ∃ wi, (WiringSample.wired (WiringSample.config (MkPinningSection true []))).2 = Ok wi ∧
    verify_pinning (SSL := WiringSample.openssl) (SHA := Sample.digest)
      (MkCertificate (H := WiringSample.openssl) WiringSample.root []) (pins (Di.wi_trust wi)) = Ok tt.
Proof.
  assert (is_ok (WiringSample.wired (WiringSample.config (MkPinningSection true []))).2 = true) as Hok
    by (vm_compute; reflexivity).
  destruct (WiringSample.wired (WiringSample.config (MkPinningSection true []))) as [w' [wi|e|]] eqn:H;
    [|done..].
  exists wi. split; [done|].
  exact (empty_pinning_accepts_any_root (HX := WiringSample.hex) (FS := ConfigSample.fs) (SSL := WiringSample.openssl) (SKT := WiringSample.no_socket)
    (WC := WiringSample.wall) (UC := ClientSample.uuid) (PKG := ClientSample.crate)
    (JC := ClientSample.client_json) (JS := ClientSample.server_json)
           (SHA := Sample.digest) (WiringSample.config (MkPinningSection true [])) _ w' wi
           (MkCertificate (H := WiringSample.openssl) WiringSample.root []) eq_refl H).
Defined.

(** A configuration that allows a GOST algorithm never passes the self-check
    where 1177 is not the number of a digest: in libcrypto's table it names a
    cipher, and the Streebog digests are 982 and 983. *)
Theorem gost_never_ready {W} {FS : Fs W} {CK : Cryptoki} {LIB : Pkcs11Lib W}
    {SSL : OpenSSL} {SK : OpenSSLKeys} {GS : GostSys} cfg (s : host W)
    (Hnid : digest_from_nid 1177 = None) (Hgost : needs_gost cfg = true) :
  (self_check cfg s).2 ≠ Ok tt.
Proof.
  intros Hok. destruct (self_check cfg s) as [s' r] eqn:H. cbn in Hok. subst r.
  apply self_check_Ok in H. destruct (hr_gost _ _ H Hgost) as (_ & [d Hd] & _). congruence.
Qed.

Lemma gost_never_ready_witness :
  (WiringSample.checked (WiringSample.config (MkPinningSection false []))).2 ≠ Ok tt.
Proof. apply gost_never_ready; reflexivity. Defined.
