(* ===== verification/Flow.v ===== *)
(** * The authentication flow ([pam_certauth/src/flow.rs])

    [authenticate] and its two paths: a PKCS#12 bundle on a USB stick and a
    PKCS#11 token.  The traits [FlowIo] and [Pkcs11Io] with the other
    collaborators ([MonitorClient], [HookExecutor], the PIN prompter, the
    random source, the clock, the passwd database) are the operations of the
    classes [FlowIo] and [Pkcs11Io] over an abstract world.  A flow is a state
    transformer that may fail or unwind; its state also carries the GOST
    engine cell and the trace of what it did, so that the order of its effects
    can be stated.  A [MountGuard] unmounts when it is dropped, a
    [Pkcs11Session] logs out. *)

From S2P Require Import Prelude Text Sys Errors Openssl Der Sample X509Ext Certificate HostBinding.
From S2P Require Import Gost Trust MacLabel MacOrchestrator Proto Hooks RawConfig Config Client Usb Pkcs12 Pkcs11.
Local Open Scope Z_scope.

(** ** Errors *)

Inductive FlowError : Type :=
| FlowUsb (e : UsbError)
| FlowMount (e : MountError)
| FlowDiscovery (e : DiscoveryError)
| FlowConv (e : PamConvError)
| FlowP12Envelope (e : P12EnvelopeError)
| FlowMaxTries
| FlowPkcs12 (msg : ErrText)
| FlowCrypto (e : CryptoError)
| FlowTrust (e : TrustError)
| FlowMapping (e : MappingError)
| FlowCertScope (e : HostBindingError)
| FlowInternal (msg : string)
| FlowPkcs11 (e : Pkcs11Error)
| FlowPkcs11Acquire (e : TokenAcquireError)
| Pkcs11OpensslEngineNotImplemented
| Pkcs11ModulePathMissingInConfig
| PreAuthHook (e : HookError)
| PostAuthHook (e : HookError).

Definition from_acquire (e : AcquireError) : FlowError :=
  match e with
  | MaxTries => FlowMaxTries
  | AcquireConv c => FlowConv c
  | AcquireCorrupt m => FlowPkcs12 m
  | Missing s => FlowPkcs12 (PlainText ("missing: " +:+ s))
  end.

Definition from_pkcs12 (e : Pkcs12Error) : FlowError :=
  match e with
  | WrongPin => FlowMaxTries
  | MissingKey => FlowPkcs12 (PlainText "missing key")
  | MissingCert => FlowPkcs12 (PlainText "missing cert")
  | Corrupt m => FlowPkcs12 m
  end.

Definition pam_code (e : FlowError) : Z :=
  match e with
  | FlowUsb _ | FlowMount _ | FlowDiscovery _ | FlowP12Envelope _
  | Pkcs11OpensslEngineNotImplemented | Pkcs11ModulePathMissingInConfig
  | FlowPkcs11 (ModuleLoadFailed _ _ | InitFailed _ | ModulePathMissing _ | TokenWaitTimeout _
               | NoTokenAvailable | TokenNotFound _ | TokenSerialMissing) => 9
  | FlowMaxTries | FlowPkcs11Acquire (AcquirePinLocked | MaxAttemptsExceeded) => 8
  | FlowPkcs12 _ | FlowCrypto _ | FlowTrust _ | FlowMapping _ => 6
  | FlowInternal _ => 4
  | FlowConv _ | FlowPkcs11Acquire _ | FlowPkcs11 _ | FlowCertScope _ | PreAuthHook _
  | PostAuthHook _ => 7
  end.

(** ** The collaborators *)

Class FlowIo (W : Type) := {
  wait_for_usb : W → W * res UsbError (list UsbDevice);
  (** The mountpoint under the guard. *)
  mount : W → UsbDevice → W * res MountError string;
  (** The drop of a mount guard. *)
  drop_mount : W → string → W;
  discover : W → string → string → string → W * res DiscoveryError DiscoveredCreds;
  show_info : W → string → W;
  prompt_pin : W → string → W * (PamConvError + string);
  execute_hook : W → HookConfig → HookVars → W * res HookError HookOutcome;
  (** [MonitorClient::open_session]: an error is only logged. *)
  monitor_open_session : W → OpenSessionInfo → W * bool;
  (** [SysRng.try_fill_bytes] on a buffer of that many bytes. *)
  sys_rng : W → Z → W * (string + list byte);
  system_now : W → W * Z;
  (** [User::from_name]: uid and home directory, [None] on [Ok(None)] and [Err]. *)
  user_from_name : W → string → W * option (Z * string);
}.

Class Pkcs11Io (W : Type) `{Cryptoki} := {
  (** [Pkcs11Backend::load]; the loader of a file that is no module may unwind. *)
  backend_load : W → string → LockingMode → W * res Pkcs11Error unit;
  wait_for_token : W → Z → option string → W * res Pkcs11Error Slot;
  get_token_serial : W → Slot → W * (CkError + string);
  open_with_pin : W → Slot → string → W * (Pkcs11Error + Session);
  (** The drop of a session: [C_Logout], then the session closes. *)
  drop_session : W → Session → W;
}.

(** [stack_from_pem] of the [openssl] crate. *)
Class PemStack `{OpenSSL} := X509_stack_from_pem : list byte → ErrorStack + list X509.

(** What a flow does, in order. *)
Inductive FlowEvent : Type :=
| EvInfo (msg : string)
| EvHook (h : HookConfig) (vars : HookVars)
| EvMount (mountpoint : string)
| EvUnmount (mountpoint : string)
| EvPrompt (prompt : string)
| EvLogin
| EvLogout
| EvCategories (n : LabelNotice)
| EvExtParseFailed (pam_user : string) (ident : CertIdent) (e : MaxIntegrityExtError)
| EvNotify (info : OpenSessionInfo)
| EvClose (session_id reason : string)
| EvUpdateTarget (session_id : Uuid) (target : SessionTarget)
| EvMac (e : MacEvent)
| EvRuntime (event reason : string)
| EvStore (ctx : AuthContext).

Section flow.
Context {W : Type} {IO : FlowIo W}.
Context {SSL : OpenSSL} {SHA : Sha256} {BP : BuildProfile} {GS : GostSys}.
Context {SK : OpenSSLKeys} {PS : PemStack}.

Record FlowState := MkFlow {
  fs_world : W;
  fs_cell : EngineCell;
  fs_trace : list FlowEvent;
}.

(** A computation with errors of type [E]; the flow's are [FlowError]s. *)
Definition eflow (E A : Type) : Type := io FlowState E A.

Definition emit {E} (e : FlowEvent) : eflow E unit := λ s,
  (MkFlow (fs_world s) (fs_cell s) (fs_trace s ++ [e]), Ok tt).

(** A call of a collaborator. *)
Definition act {E A} (f : W → W * A) : eflow E A := λ s,
  let (w, a) := f (fs_world s) in (MkFlow w (fs_cell s) (fs_trace s), Ok a).

(** A call that uses the engine cell. *)
Definition on_cell {E A} (f : EngineCell → EngineCell * res E A) : eflow E A := λ s,
  let (cell, r) := f (fs_cell s) in (MkFlow (fs_world s) cell (fs_trace s), r).

(** A call that runs on the whole state. *)
Definition on_state {E F A} (g : E → F) (f : FlowState → FlowState * res E A) : eflow F A := λ s,
  let (s', r) := f s in (s', map_err g r).

End flow.

Arguments FlowState W {GS}.
Arguments eflow W {GS} E A.

Abbreviation flow W := (eflow W FlowError).

(** ** Texts *)

(** [{:04x}] of a [u16]. *)
Definition fmt_04x (n : Z) : string := hex_encode [zb (n / 256); zb n].

(** [&host_id_hash[..host_id_hash.len().min(8)]]. *)
Definition host_prefix {E} (host_id_hash : string) : res E string :=
  str_to host_id_hash (Z.min (str_len host_id_hash) 8).

Definition banner (prefix : string) (source : HostIdSourceKind) : string :=
  "Этот банкомат: host_id=" +:+ prefix +:+ " (source=" +:+ source_kind_debug source +:+ ")".

Definition host_binding_diagnostic (prefix : string) (source : HostIdSourceKind) : string :=
  "Сертификат выпущен для другого банкомата.
host_id этой машины: " +:+ prefix +:+ " (source=" +:+ source_kind_debug source +:+ ")
Передайте администратору для перевыпуска.".

Definition host_descriptor_text (d : HostDescriptor) : string :=
  match d with
  | HostWildcard => "*"
  | Sha256Hex h => "sha256:" +:+ h
  | Raw r => r
  end.

Definition user_descriptor_text (d : UserDescriptor) : string :=
  match d with
  | UserWildcard => "*"
  | Exact u => u
  end.

Section steps.
Context {W : Type} {IO : FlowIo W}.
Context {SSL : OpenSSL} {SHA : Sha256} {BP : BuildProfile} {GS : GostSys}.
Context {SK : OpenSSLKeys} {PS : PemStack}.

(** The texts of the entries, or the placeholder. *)
Definition binding_text {E D} (f : D → string) (parsed : res E (list D)) : res FlowError string :=
  match parsed with
  | Ok entries => Ok (String.concat ", " (f <$> entries))
  | Err _ => Ok "<не указан>"
  | Panic => Panic
  end.

Definition p12_wrong_pin_diagnostic (bytes : list byte) : res FlowError string :=
  match try_extract_cert_without_pin bytes with
  | None => Ok "Пароль .p12 неверный. Проверьте флешку и попробуйте ещё раз."
  | Some cert =>
      let? host := binding_text host_descriptor_text (host_binding_parse (inner cert)) in
      let? user := binding_text user_descriptor_text (user_binding_parse (inner cert)) in
      Ok ("Пароль .p12 неверный.
Этот сертификат выпущен для:
host_id_hash: " +:+ host +:+ "
пользователь: " +:+ user +:+ "
Проверьте, что вставлена нужная флешка.")
  end.

(** ** Steps of the flow *)

Record Deps := MkDeps {
  d_cfg : ValidatedConfig;
  d_trust : OpensslVerifier;
  d_host_id_hash : string;
  d_host_id_source : HostIdSourceKind;
  d_user_mappings : list UserMapping;
  d_pam_target : SessionTarget;
}.

Definition tell_user (msg : string) : flow W unit :=
  do! act (λ w, (show_info w msg, tt)); emit (EvInfo msg).

Definition logged_hook (s : FlowState W) (h : HookConfig) (vars : HookVars)
    : FlowState W * res HookError HookOutcome :=
  let (w, o) := execute_hook (fs_world s) h vars in
  (MkFlow w (fs_cell s) (fs_trace s ++ [EvHook h vars]), o).

Definition logged_prompt (s : FlowState W) (prompt : string)
    : FlowState W * (PamConvError + string) :=
  let (w, r) := prompt_pin (fs_world s) prompt in
  (MkFlow w (fs_cell s) (fs_trace s ++ [EvPrompt prompt]), r).

Definition hooks_step (d : Deps) (stage : HookStage) (vars : HookVars) (g : HookError → FlowError)
    : flow W unit :=
  on_state g (λ s, run_hooks_for_stage logged_hook s (cfg_hooks (d_cfg d)) stage vars).

Definition pre_auth_step (d : Deps) (pam_user pam_service : string) : flow W unit :=
  hooks_step d PreAuth
    (for_pre_auth pam_user pam_service (d_host_id_hash d) (d_host_id_hash d)
       (source_kind_to_string (d_host_id_source d)))
    PreAuthHook.

(** The drop of the guard. *)
Definition unmount {E} (mp : string) : eflow W E unit :=
  do! act (λ w, (drop_mount w mp, tt)); emit (EvUnmount mp).

(** A scope that owns the guard and hands it on when it succeeds: leaving it
    by an error or a panic drops the guard. *)
Definition owning_mount {A} (mp : string) (c : flow W A) : flow W A := λ s,
  match c s with
  | (s', Ok a) => (s', Ok a)
  | (s', r) => ((unmount (E := FlowError) mp s').1, r)
  end.

(** Steps 3 and 4: mount each candidate and look for a bundle. *)
Fixpoint probe_partitions (pattern pam_user : string) (devices : list UsbDevice)
    (last_envelope_err : option P12EnvelopeError) (last_discovery_err : option DiscoveryError)
    : flow W (UsbDevice * string * DiscoveredCreds) :=
  match devices with
  | [] =>
      lift (Err
        match last_envelope_err with
        | Some e => FlowP12Envelope e
        | None => FlowDiscovery (default (P12NotFound pattern) last_discovery_err)
        end)
  | candidate :: rest =>
      let! mounted := act (λ w, mount w candidate) in
      let! mp := lift (map_err FlowMount mounted) in
      do! emit (EvMount mp);
      let! found := act (λ w, discover w mp pattern pam_user) in
      match found with
      | Ok creds =>
          match validate_p12_envelope (p12_bytes creds) with
          | Ok _ => fret (candidate, mp, creds)
          | Err e =>
              do! unmount mp;
              probe_partitions pattern pam_user rest (Some e) last_discovery_err
          | Panic => do! unmount mp; lift Panic
          end
      | Err (P12NotFound path) =>
          do! unmount mp;
          probe_partitions pattern pam_user rest last_envelope_err (Some (P12NotFound path))
      | Err other => do! unmount mp; lift (Err (FlowDiscovery other))
      | Panic => do! unmount mp; lift Panic
      end
  end.

(** Step 5: the PIN loop, with the diagnostic once it is exhausted. *)
Definition unlock_p12 (creds : DiscoveredCreds) : flow W LoadedKeyMaterial := λ s,
  match acquire_p12_material_with_prompter logged_prompt s (p12_bytes creds) 3 with
  | (s', Ok m) => (s', Ok m)
  | (s', Err MaxTries) =>
      (let! msg := lift (p12_wrong_pin_diagnostic (p12_bytes creds)) in
       do! tell_user msg;
       lift (Err FlowMaxTries)) s'
  | (s', Err e) => (s', Err (from_acquire e))
  | (s', Panic) => (s', Panic)
  end.

(** Step 6.  The bytes are drawn up front; the source draws them once it knows
    the kind of the key, so none for a key it refuses. *)
Definition prove_possession (d : Deps) (loaded : LoadedKeyMaterial) : flow W unit :=
  let! key := lift (map_err from_pkcs12 (private_key loaded)) in
  let! rng := act (λ w, sys_rng w NONCE_SIZE) in
  on_cell (λ cell,
    let (cell, r) := challenge_response rng cell (Pkcs12.end_entity loaded) key
                       (cfg_gost_engine_path (d_cfg d)) in
    (cell, map_err FlowCrypto r)).

Fixpoint chain_of_stack (stack : list X509) : res TrustError (list Certificate) :=
  match stack with
  | [] => Ok []
  | x :: r =>
      let? der := map_err CertParse (of_sum (X509_to_der x)) in
      let? c := from_der der in
      let? cs := chain_of_stack r in
      Ok (c :: cs)
  end.

Definition parse_chain_pem (pem : list byte) : res TrustError (list Certificate) :=
  let? stack := map_err CertParse (of_sum (X509_stack_from_pem pem)) in
  chain_of_stack stack.

(** Step 7. *)
Definition presented_of (loaded : LoadedKeyMaterial) (creds : DiscoveredCreds)
    : res FlowError (list Certificate) :=
  match chain_pem creds with
  | Some pem =>
      let? extra := map_err FlowTrust (parse_chain_pem pem) in
      Ok (presented_chain loaded ++ extra)
  | None => Ok (presented_chain loaded)
  end.

(** Step 8: [verify] reads the clock. *)
Definition trust_step (d : Deps) (leaf : Certificate) (presented : list Certificate)
    : flow W Stage2VerifiedChain :=
  let! now := act system_now in
  on_cell (λ cell,
    let (cell, r) := verify_at cell (d_trust d) leaf presented now in
    (cell, map_err FlowTrust r)).

(** Step 9 of the PKCS#12 path: a rejection is explained on the screen. *)
Definition host_step (d : Deps) (leaf : Certificate) : flow W unit :=
  match verify_host_binding (inner leaf) (d_host_id_hash d) with
  | Ok _ => fret tt
  | Err e =>
      let! prefix := lift (host_prefix (d_host_id_hash d)) in
      do! tell_user (host_binding_diagnostic prefix (d_host_id_source d));
      lift (Err (FlowCertScope e))
  | Panic => lift Panic
  end.

(** Step 10. *)
Definition authorise_user (d : Deps) (leaf : Certificate) (pam_user : string)
    : res FlowError unit :=
  match user_binding_parse (inner leaf) with
  | Ok _ => map_err FlowCertScope (verify_user_binding (inner leaf) pam_user)
  | Err _ =>
      let? _ := map_err FlowMapping (match_user leaf pam_user (d_user_mappings d)) in Ok tt
  | Panic => Panic
  end.

Fixpoint emit_notices (ns : list LabelNotice) : flow W unit :=
  match ns with
  | [] => fret tt
  | n :: r => do! emit (EvCategories n); emit_notices r
  end.

(** The integrity bound of the verified leaf; an unreadable one is audited and
    dropped. *)
Definition capture_integrity (pam_user : string) (verified_leaf : X509)
    : flow W (option IntegrityLabel) :=
  let (notices, r) := extract_max_integrity verified_leaf in
  do! emit_notices notices;
  match r with
  | Ok label => fret label
  | Err e => do! emit (EvExtParseFailed pam_user (cert_ident verified_leaf) e); fret None
  | Panic => lift Panic
  end.

Definition resolve_home_dir (pam_user : string) : flow W (option string) :=
  let! u := act (λ w, user_from_name w pam_user) in fret (snd <$> u).

(** Zero when the lookup fails. *)
Definition resolve_uid (pam_user : string) : flow W Z :=
  let! u := act (λ w, user_from_name w pam_user) in fret (default 0 (fst <$> u)).

(** Step 11. *)
Definition assemble_context (d : Deps) (pam_user pam_service session_id : string)
    (leaf : Certificate) (verified : Stage2VerifiedChain) (usb_serial usb_vid_pid : option string)
    : flow W AuthContext :=
  let verified_leaf := inner (Trust.end_entity verified) in
  let! label := capture_integrity pam_user verified_leaf in
  let! home := resolve_home_dir pam_user in
  let! now := act system_now in
  fret (MkAuthContext session_id
    (match subject_cn leaf with Ok cn => Some cn | _ => None end)
    (Some (to_ascii_lowercase (serial_hex leaf))) usb_serial usb_vid_pid pam_service
    (d_host_id_hash d) (d_host_id_source d) now (Some (not_after leaf)) label
    (Some (cert_ident verified_leaf)) home).

Record SessionOpenExtras := MkExtras {
  engineer_ski : string;
  engineer_cert_sha256 : string;
  extras_uid : Z;
}.

Definition session_open_extras (cert : Certificate) (pam_user : string) : flow W SessionOpenExtras :=
  let! uid := resolve_uid pam_user in
  fret (MkExtras
    (match X509_subject_key_id (inner cert) with Some ski => hex_encode ski | None => "" end)
    (match X509_to_der (inner cert) with inr der => hex_encode (sha256 der) | inl _ => "" end)
    uid).

(** Step 11c: tell the monitor; its failure is not fatal. *)
Definition notify_step (d : Deps) (pam_user pam_service : string) (leaf : Certificate)
    (ctx : AuthContext) (usb_serial : option string) : flow W unit :=
  let! extras := session_open_extras leaf pam_user in
  let info := MkOpenInfo (ac_session_id ctx) pam_user pam_service (d_host_id_hash d)
    (d_pam_target d) usb_serial (default "" (ac_cert_cn ctx)) (default "" (ac_cert_serial ctx))
    (engineer_ski extras) (engineer_cert_sha256 extras) (extras_uid extras) in
  let! _ := act (λ w, monitor_open_session w info) in
  emit (EvNotify info).

(** Step 11b. *)
Definition post_auth_step (d : Deps) (pam_user : string) (ctx : AuthContext) : flow W unit :=
  hooks_step d PostAuthSuccess (for_post_auth_success pam_user ctx) PostAuthHook.

Record FlowOutcome := MkOutcome {
  fo_auth_ctx : AuthContext;
  fo_mount : option string;
}.

(** ** The PKCS#12 path *)

Definition authenticate_pkcs12 (d : Deps) (pam_user pam_service session_id : string)
    : flow W FlowOutcome :=
  do! pre_auth_step d pam_user pam_service;
  let! devices := act wait_for_usb in
  let! devices := lift (map_err FlowUsb devices) in
  let pattern := default DEFAULT_PKCS12_PATH_PATTERN (cfg_pkcs12_path_pattern (d_cfg d)) in
  let! bound := probe_partitions pattern pam_user devices None None in
  let '(dev, mp, creds) := bound in
  owning_mount mp
    (let! loaded := unlock_p12 creds in
     let leaf := Pkcs12.end_entity loaded in
     do! prove_possession d loaded;
     let! presented := lift (presented_of loaded creds) in
     let! verified := trust_step d leaf presented in
     do! host_step d leaf;
     do! lift (authorise_user d leaf pam_user);
     let! ctx := assemble_context d pam_user pam_service session_id leaf verified (dev_serial dev)
                   (Some (fmt_04x (dev_vid dev) +:+ ":" +:+ fmt_04x (dev_pid dev))) in
     do! post_auth_step d pam_user ctx;
     do! notify_step d pam_user pam_service leaf ctx (dev_serial dev);
     fret (MkOutcome ctx (Some mp))).

(** ** The PKCS#11 path *)

Context {CK : Cryptoki} {TIO : Pkcs11Io W}.

(** [acquire_session] with the configured prompt in place of the default. *)
Definition token_prompt (d : Deps) (s : FlowState W) (default_prompt : string)
    : FlowState W * (PamConvError + string) :=
  logged_prompt s (default default_prompt (cfg_pkcs11_pin_prompt (d_cfg d))).

Definition logged_open (slot : Slot) (s : FlowState W) (pin : string)
    : FlowState W * (Pkcs11Error + Session) :=
  match open_with_pin (fs_world s) slot pin with
  | (w, inr session) => (MkFlow w (fs_cell s) (fs_trace s ++ [EvLogin]), inr session)
  | (w, inl e) => (MkFlow w (fs_cell s) (fs_trace s), inl e)
  end.

(** The drop of the session. *)
Definition logout (session : Session) : flow W unit :=
  do! act (λ w, (drop_session w session, tt)); emit EvLogout.

(** A scope that owns the session: it is dropped however the scope is left. *)
Definition owning_session {A} (session : Session) (c : flow W A) : flow W A := λ s,
  let (s', r) := c s in
  ((logout session s').1, r).

(** Steps 5 to 11, the part that holds the session: the certificate and its key
    are found on the token, the key signs the challenge, the certificate is
    verified with no chain of its own and bound to host and user, and the
    context takes the token's serial for the stick's. *)
Definition token_checks (d : Deps) (pam_user pam_service session_id serial : string)
    (session : Session) : flow W (Certificate * AuthContext) :=
  let! cert := lift (map_err FlowPkcs11
      (find_certificate session (cfg_pkcs11_object_label (d_cfg d)))) in
  let! key := lift (map_err FlowPkcs11 (find_private_key_for_cert session cert)) in
  let leaf := fc_certificate cert in
  let! pubkey := lift (map_err FlowTrust (public_key leaf)) in
  let! mechanism := lift (map_err FlowPkcs11 (select_mechanism (fk_key_type key) pubkey)) in
  let! rng := act (λ w, sys_rng w TOKEN_NONCE_SIZE) in
  do! lift (map_err FlowCrypto
    (pkcs11_challenge_response rng session (fk_object key) (fk_key_type key) mechanism leaf));
  let! verified := trust_step d leaf [] in
  do! lift (map_err FlowCertScope (verify_host_binding (inner leaf) (d_host_id_hash d)));
  do! lift (authorise_user d leaf pam_user);
  let! ctx := assemble_context d pam_user pam_service session_id leaf verified (Some serial)
                None in
  fret (leaf, ctx).

Definition authenticate_pkcs11 (d : Deps) (pam_user pam_service session_id : string)
    : flow W FlowOutcome :=
  do! pre_auth_step d pam_user pam_service;
  let! slot := act (λ w, wait_for_token w (cfg_pkcs11_slot_wait (d_cfg d))
                           (cfg_pkcs11_token_label (d_cfg d))) in
  let! slot := lift (map_err FlowPkcs11 slot) in
  let! serial := act (λ w, get_token_serial w slot) in
  let! serial := lift (map_err FlowPkcs11 (read_token_serial serial)) in
  let! session := on_state FlowPkcs11Acquire (λ s,
    acquire_pkcs11_session (token_prompt d) (logged_open slot) s
      (Z.to_nat (cfg_pkcs11_max_pin_attempts (d_cfg d)))) in
  let! checked := owning_session session
    (token_checks d pam_user pam_service session_id serial session) in
  let (leaf, ctx) := checked in
  do! post_auth_step d pam_user ctx;
  do! notify_step d pam_user pam_service leaf ctx (ac_usb_serial ctx);
  fret (MkOutcome ctx None).

(** [real_pkcs11_io]: the module is loaded before anything else. *)
Definition real_pkcs11_io (d : Deps) : flow W unit :=
  let! path := lift (ok_or (cfg_pkcs11_module (d_cfg d)) Pkcs11ModulePathMissingInConfig) in
  let! loaded := act (λ w, backend_load w path (cfg_pkcs11_locking_mode (d_cfg d))) in
  lift (map_err FlowPkcs11 loaded).

Definition authenticate (d : Deps) (pam_user pam_service session_id : string)
    : flow W FlowOutcome :=
  let! prefix := lift (host_prefix (d_host_id_hash d)) in
  do! tell_user (banner prefix (d_host_id_source d));
  match cfg_mode (d_cfg d) with
  | ModePkcs12 => authenticate_pkcs12 d pam_user pam_service session_id
  | ModePkcs11 =>
      match cfg_crypto_backend (d_cfg d) with
      | Pkcs11Native =>
          do! real_pkcs11_io d;
          authenticate_pkcs11 d pam_user pam_service session_id
      | BackendOpenssl => lift (Err Pkcs11OpensslEngineNotImplemented)
      end
  end.

End steps.
