(* ===== verification/FlowRun.v ===== *)
(** * The worlds of a run of the flow

    The flow acts on the world only by asking its collaborators.  [asks] is one
    such call, and the worlds of a run from [s] to [s'] are those between the
    two, along calls.  A statement about "the nonce drawn in this login" or "the
    partition mounted in this login" speaks of a call in such a world.  Every
    computation of [Flow] moves along calls: the hint database [within]. *)

From S2P Require Import Prelude Text Sys Errors Openssl Der Sample X509Ext Certificate HostBinding.
From S2P Require Import Gost Trust MacLabel MacOrchestrator Proto Hooks RawConfig Config Client Usb Pkcs12 Pkcs11 Flow.
Local Open Scope Z_scope.

(** A call of a collaborator. *)
Inductive asks {W} {IO : FlowIo W} {CK : Cryptoki} {TIO : Pkcs11Io W} : W → W → Prop :=
| AskUsb w : asks w (wait_for_usb w).1
| AskMount w dev : asks w (mount w dev).1
| AskUnmount w mp : asks w (drop_mount w mp)
| AskDiscover w mp pattern u : asks w (discover w mp pattern u).1
| AskInfo w msg : asks w (show_info w msg)
| AskPin w prompt : asks w (prompt_pin w prompt).1
| AskHook w h vars : asks w (execute_hook w h vars).1
| AskMonitor w info : asks w (monitor_open_session w info).1
| AskRng w n : asks w (sys_rng w n).1
| AskNow w : asks w (system_now w).1
| AskUser w u : asks w (user_from_name w u).1
| AskLoad w path mode : asks w (backend_load w path mode).1
| AskToken w timeout label : asks w (wait_for_token w timeout label).1
| AskSerial w slot : asks w (get_token_serial w slot).1
| AskOpen w slot pin : asks w (open_with_pin w slot pin).1
| AskClose w session : asks w (drop_session w session).

(** [w] is a world of the run from [s] to [s']. *)
Definition during {W} {IO : FlowIo W} {CK : Cryptoki} {TIO : Pkcs11Io W} {GS : GostSys}
    (s s' : FlowState W) (w : W) : Prop :=
  rtc asks (fs_world s) w ∧ rtc asks w (fs_world s').

(** [c] acts on the world by calls only. *)
Definition within {W} {IO : FlowIo W} {CK : Cryptoki} {TIO : Pkcs11Io W} {GS : GostSys} {E A}
    (c : eflow W E A) : Prop :=
  ∀ s s' r, c s = (s', r) → rtc asks (fs_world s) (fs_world s').

Create HintDb within.
#[export] Hint Extern 1 (asks _ _) => cbn; constructor : within.

Section within.
Context {W : Type} {IO : FlowIo W} {CK : Cryptoki} {TIO : Pkcs11Io W}.
Context {SSL : OpenSSL} {SHA : Sha256} {BP : BuildProfile} {GS : GostSys}.
Context {SK : OpenSSLKeys} {PS : PemStack}.
Implicit Types (s : FlowState W) (d : Deps).

Lemma during_start s s' : rtc asks (fs_world s) (fs_world s') → during s s' (fs_world s).
Proof. by split. Qed.

Lemma during_mono s0 s1 s2 s3 w :
  rtc asks (fs_world s0) (fs_world s1) → rtc asks (fs_world s2) (fs_world s3) →
  during s1 s2 w → during s0 s3 w.
Proof. intros H1 H2 [H3 H4]. split; by etrans. Qed.

Lemma within_bind {E A B} (c : eflow W E A) (k : A → eflow W E B) :
  within c → (∀ a, within (k a)) → within (fbind c k).
Proof.
  intros Hc Hk s s' r H. unfold fbind in H. destruct (c s) as [s1 [a|e|]] eqn:Hs.
  - etrans; [by eapply Hc|by eapply Hk].
  - injection H as <- _. by eapply Hc.
  - injection H as <- _. by eapply Hc.
Qed.

Lemma within_lift {E A} (r : res E A) : within (lift (S := FlowState W) r).
Proof. intros s s' r' [= <- _]. done. Qed.

Lemma within_fret {E A} (a : A) : within (fret (S := FlowState W) (E := E) a).
Proof. intros s s' r' [= <- _]. done. Qed.

Lemma within_emit {E} e : within (emit (W := W) (E := E) e).
Proof. intros s s' r' [= <- _]. done. Qed.

Lemma within_act {E A} (f : W → W * A) :
  (∀ w, asks w (f w).1) → within (act (E := E) f).
Proof.
  intros Hf s s' r H. unfold act in H. specialize (Hf (fs_world s)).
  destruct (f (fs_world s)) as [w a]. injection H as <- _. by apply rtc_once.
Qed.

Lemma within_on_cell {E A} (f : EngineCell → EngineCell * res E A) : within (on_cell (W := W) f).
Proof. intros s s' r H. unfold on_cell in H. destruct (f _). by injection H as <- _. Qed.

Lemma within_if {E A} (b : bool) (c1 c2 : eflow W E A) :
  within c1 → within c2 → within (if b then c1 else c2).
Proof. by destruct b. Qed.

End within.

#[export] Hint Resolve within_bind within_lift within_fret within_emit within_act within_on_cell
  within_if : within.

Section steps.
Context {W : Type} {IO : FlowIo W} {CK : Cryptoki} {TIO : Pkcs11Io W}.
Context {SSL : OpenSSL} {SHA : Sha256} {BP : BuildProfile} {GS : GostSys}.
Context {SK : OpenSSLKeys} {PS : PemStack}.
Implicit Types (s : FlowState W) (d : Deps).

Lemma logged_prompt_within s prompt :
  rtc asks (fs_world s) (fs_world (logged_prompt s prompt).1).
Proof.
  unfold logged_prompt. pose proof (AskPin (fs_world s) prompt) as H.
  destruct (prompt_pin _ _). by apply rtc_once.
Qed.

Lemma logged_open_within slot s pin :
  rtc asks (fs_world s) (fs_world (logged_open slot s pin).1).
Proof.
  unfold logged_open. pose proof (AskOpen (fs_world s) slot pin) as H.
  destruct (open_with_pin _ _ _) as [w [|]]; by apply rtc_once.
Qed.

Lemma hooks_step_within d stage vars g : within (W := W) (hooks_step d stage vars g).
Proof.
  intros s s' r H. unfold hooks_step, on_state, run_hooks_for_stage in H.
  destruct (run_hooks _ _ _ _) as [s1 r1] eqn:Hr. injection H as <- _. revert s Hr.
  induction (hooks_at _ _) as [|h hs IH]; intros s Hr; simpl in Hr; [by injection Hr as <- _|].
  pose proof (AskHook (fs_world s) h vars) as Ha. unfold logged_hook in Hr at 1.
  destruct (execute_hook _ _ _) as [w o]. cbn in Ha. eapply rtc_l; [exact Ha|].
  destruct (apply_on_failure _ _) as [[]|e|]; [by apply (IH _ Hr)|by injection Hr as <- _..].
Qed.

Lemma tell_user_within msg : within (W := W) (tell_user msg).
Proof. unfold tell_user. auto with within. Qed.

Lemma unmount_within {E} mp : within (W := W) (E := E) (unmount mp).
Proof. unfold unmount. auto with within. Qed.

Lemma owning_mount_within {A} mp (c : flow W A) : within c → within (owning_mount mp c).
Proof.
  intros Hc s s' r H. unfold owning_mount in H. destruct (c s) as [s1 r1] eqn:Hs. apply Hc in Hs.
  assert (rtc asks (fs_world s1) (fs_world (unmount (E := FlowError) mp s1).1)) as Hu.
  { destruct (unmount mp s1) eqn:E. by eapply unmount_within. }
  destruct r1 as [a|e|]; injection H as <- _; [done|by etrans..].
Qed.

Lemma owning_session_within {A} session (c : flow W A) : within c → within (owning_session session c).
Proof.
  intros Hc s s' r H. unfold owning_session in H. destruct (c s) as [s1 r1] eqn:Hs. apply Hc in Hs.
  injection H as <- _. etrans; [exact Hs|].
  apply rtc_once. apply (AskClose (fs_world s1) session).
Qed.

Lemma probe_partitions_within pattern u devices le ld :
  within (W := W) (probe_partitions pattern u devices le ld).
Proof.
  revert le ld. induction devices as [|c rest IH]; intros le ld; cbn [probe_partitions]; [auto with within|].
  apply within_bind; [auto with within|]. intros mounted.
  apply within_bind; [auto with within|]. intros mp.
  apply within_bind; [auto with within|]. intros _.
  apply within_bind; [auto with within|]. intros [creds|[]|]; [destruct (validate_p12_envelope _)|..];
    auto using unmount_within with within.
Qed.

Lemma acquire_p12_within s bytes n s' r :
  acquire_p12_material_with_prompter (W := FlowState W) logged_prompt s bytes n = (s', r) →
  rtc asks (fs_world s) (fs_world s').
Proof.
  revert s. induction n as [|n IH]; intros s; cbn [acquire_p12_material_with_prompter];
    [by intros [= <- _]|]. pose proof (logged_prompt_within s "Smart-card PIN: ") as Hp.
  destruct (logged_prompt s _) as [s1 [e|pin]]; cbn [fst] in Hp; [by intros [= <- _]|].
  destruct (from_p12 bytes pin) as [m|[]|]; [by intros [= <- _]| |by intros [= <- _]..].
  intros Ha. etrans; [exact Hp|]. by apply IH.
Qed.

Lemma unlock_p12_within creds : within (W := W) (unlock_p12 creds).
Proof.
  intros s s' r H. unfold unlock_p12 in H.
  destruct (acquire_p12_material_with_prompter _ _ _ _) as [s1 r1] eqn:Ha.
  apply acquire_p12_within in Ha.
  assert (∀ c : flow W LoadedKeyMaterial, within c → c s1 = (s', r) → rtc asks (fs_world s) (fs_world s'))
    as Hc by (intros c Hc Hs; etrans; [exact Ha|by eapply Hc]).
  destruct r1 as [m|[]|]; try by injection H as <- _.
  eapply Hc; [|exact H]. auto using tell_user_within with within.
Qed.

Lemma acquire_token_within d slot s n s' r :
  acquire_pkcs11_session (token_prompt d) (logged_open slot) s n = (s', r) →
  rtc asks (fs_world s) (fs_world s').
Proof.
  revert s. induction n as [|n IH]; intros s; cbn [acquire_pkcs11_session]; [by intros [= <- _]|].
  unfold token_prompt at 1. pose proof (logged_prompt_within s (default DEFAULT_PROMPT (cfg_pkcs11_pin_prompt (d_cfg d)))) as Hp.
  destruct (logged_prompt s _) as [s1 [e|pin]]; cbn [fst] in Hp; [by intros [= <- _]|].
  pose proof (logged_open_within slot s1 pin) as Ho.
  destruct (logged_open slot s1 pin) as [s2 [e|ses]]; cbn [fst] in Ho; [|by intros [= <- _]; etrans].
  destruct e; try (by intros [= <- _]; etrans).
  intros Ha. etrans; [exact Hp|]. etrans; [exact Ho|]. by apply IH.
Qed.

Lemma token_session_within d slot n :
  within (on_state FlowPkcs11Acquire (λ s, acquire_pkcs11_session (token_prompt d) (logged_open slot) s n)).
Proof.
  intros s s' r H. unfold on_state in H. destruct (acquire_pkcs11_session _ _ _ _) as [s1 r1] eqn:Ha.
  injection H as <- _. by eapply acquire_token_within.
Qed.

Lemma prove_possession_within d loaded : within (W := W) (prove_possession d loaded).
Proof. unfold prove_possession. auto with within. Qed.

Lemma trust_step_within d leaf presented : within (W := W) (trust_step d leaf presented).
Proof. unfold trust_step. auto with within. Qed.

Lemma host_step_within d leaf : within (W := W) (host_step d leaf).
Proof.
  unfold host_step. destruct (verify_host_binding _ _); auto using tell_user_within with within.
Qed.

Lemma emit_notices_within ns : within (W := W) (emit_notices ns).
Proof. induction ns; cbn [emit_notices]; auto with within. Qed.

Lemma assemble_context_within d u svc sid leaf vc usb vidpid :
  within (W := W) (assemble_context d u svc sid leaf vc usb vidpid).
Proof.
  unfold assemble_context, capture_integrity, resolve_home_dir.
  destruct (extract_max_integrity _) as [ns [l|e|]];
    repeat (apply within_bind; [auto using emit_notices_within with within|intros ?]);
    auto using emit_notices_within with within.
Qed.

Lemma notify_step_within d u svc leaf ctx usb : within (W := W) (notify_step d u svc leaf ctx usb).
Proof. unfold notify_step, session_open_extras, resolve_uid. auto 8 with within. Qed.

Lemma real_pkcs11_io_within d : within (W := W) (real_pkcs11_io d).
Proof. unfold real_pkcs11_io. auto with within. Qed.

End steps.

#[export] Hint Resolve hooks_step_within tell_user_within unmount_within owning_mount_within
  owning_session_within probe_partitions_within unlock_p12_within token_session_within
  prove_possession_within trust_step_within host_step_within assemble_context_within
  notify_step_within real_pkcs11_io_within : within.

(** The run of a step that was peeled off. *)
Ltac runs H :=
  let R := fresh "R" in
  pose proof (λ Hw : within _, Hw _ _ _ H) as R;
  specialize (R ltac:(first [assumption | unfold pre_auth_step, post_auth_step; auto 20 with within])).

(** A world between the first and the last state of a chain of runs. *)
Ltac chain_runs := first [assumption | reflexivity | etrans; [eassumption|]; chain_runs].
