(* ===== verification/FlowSpec.v ===== *)
(** * What the authentication flow promises

    Soundness of the two paths of [flow.rs] (a success passed every gate, all
    of them with one and the same certificate) and the protocol of their
    effects: the trace of a run is a word of a small automaton, from which the
    order of hooks, mounts, PIN prompts and the notification of the monitor,
    the bound on PINs and the release of the mount or the token session can be
    read off. *)

From S2P Require Import Prelude Text Sys Errors Openssl Der Sample X509Ext Certificate HostBinding.
From S2P Require Import Gost Trust MacLabel MacOrchestrator Proto Hooks RawConfig Config Client Usb Pkcs12 Pkcs11 Flow FlowRun.
Local Open Scope Z_scope.

(** ** Gates *)

Section gates.
Context {SSL : OpenSSL} {SHA : Sha256} {BP : BuildProfile} {GS : GostSys}.
Context {SK : OpenSSLKeys} {PS : PemStack}.

(** The certificate names this host. *)
Definition host_authorised (leaf : Certificate) (host_id_hash : string) : Prop :=
  ∃ hosts, ext_strings (inner leaf) HOST_BINDING_OID hosts ∧ Forall entry_wf hosts ∧
    Exists (host_authorises host_id_hash) hosts.

(** The certificate names the user, or has no readable list of users and meets
    a configured mapping for the user. *)
Definition user_authorised (mappings : list UserMapping) (leaf : Certificate) (pam_user : string)
    : Prop :=
  (∃ users, ext_strings (inner leaf) USER_BINDING_OID users ∧
     Exists (user_authorises pam_user) users) ∨
  ((∃ e, user_binding_parse (inner leaf) = Err e) ∧
   Exists (λ k, um_pam_user k = pam_user ∧ criterion_holds leaf (criteria k)) mappings).

(** The key signed the nonce, and the signature verifies under the certificate's
    key. *)
Definition possession (leaf : Certificate) (key : PrivateKey) (nonce : list byte) : Prop :=
  ∃ cell pub params sig, public_key leaf = Ok pub ∧ params_fit cell pub params ∧
    sign params key nonce = inr sig ∧ verifies params pub nonce sig.

(** The token did, with the object [handle]. *)
Definition token_possession {CK : Cryptoki} (session : Session) (leaf : Certificate)
    (key : FoundPrivateKey) (nonce : list byte) : Prop :=
  ∃ pub m mech signature sig, public_key leaf = Ok pub ∧
    select_mechanism (fk_key_type key) pub = Ok m ∧
    token_sign session mech (fk_object key) nonce = inr signature ∧
    host_signature (fk_key_type key) signature sig ∧
    verifies (host_params (fk_key_type key) (token_host_hash m)) pub nonce sig.

(** The context describes the certificate and this host. *)
Definition context_of (d : Deps) (session_id pam_service : string) (leaf : Certificate)
    (usb_serial : option string) (ctx : AuthContext) : Prop :=
  ac_session_id ctx = session_id ∧ ac_pam_service ctx = pam_service ∧
  ac_host_id ctx = d_host_id_hash d ∧ ac_usb_serial ctx = usb_serial ∧
  ac_cert_serial ctx = Some (to_ascii_lowercase (serial_hex leaf)) ∧
  ac_cert_not_after ctx = Some (not_after leaf) ∧
  ac_cert_ident ctx = Some (cert_ident (inner leaf)) ∧
  ac_cert_max_integrity ctx =
    match (extract_max_integrity (inner leaf)).2 with Ok l => l | _ => None end.

End gates.

Section answers.
Context {W : Type} {IO : FlowIo W} {CK : Cryptoki} {TIO : Pkcs11Io W} {GS : GostSys}.
Context {SSL : OpenSSL} {SK : OpenSSLKeys}.
Implicit Types s : FlowState W.

(** In the run from [s] to [s'] the call [f] has the answer [a]. *)
Definition answered {A} s s' (f : W → W * A) (a : A) : Prop :=
  ∃ w, during s s' w ∧ (f w).2 = a.

(** A partition without a usable bundle. *)
Definition no_bundle s s' (pattern pam_user : string) (dev : UsbDevice) : Prop :=
  ∃ mp, answered s s' (λ w, mount w dev) (Ok mp) ∧
    ((∃ path, answered s s' (λ w, discover w mp pattern pam_user) (Err (P12NotFound path))) ∨
     (∃ creds e, answered s s' (λ w, discover w mp pattern pam_user) (Ok creds) ∧
        validate_p12_envelope (p12_bytes creds) = Err e)).

(** The bundle of the first partition that has one. *)
Definition first_bundle s s' (pattern pam_user : string) (devices : list UsbDevice)
    (dev : UsbDevice) (mp : string) (creds : DiscoveredCreds) : Prop :=
  (∃ pre post, devices = pre ++ dev :: post ∧ Forall (no_bundle s s' pattern pam_user) pre) ∧
  answered s s' (λ w, mount w dev) (Ok mp) ∧
  answered s s' (λ w, discover w mp pattern pam_user) (Ok creds) ∧
  validate_p12_envelope (p12_bytes creds) = Ok tt.

End answers.

(** ** Automata over traces *)

(** A word of the automaton: where it leads. *)
Fixpoint run {P} (step : P → FlowEvent → option P) (p : P) (t : list FlowEvent) : option P :=
  match t with
  | [] => Some p
  | e :: r => match step p e with Some q => run step q r | None => None end
  end.

(** Events that say nothing about the protocol. *)
Definition is_message (e : FlowEvent) : bool :=
  match e with
  | EvInfo _ | EvCategories _ | EvExtParseFailed _ _ _ => true
  | _ => false
  end.

(** The PKCS#12 path: [pre_auth] hooks; partitions mounted one at a time; on
    the one kept, up to three PINs; [post_auth_success] hooks; the monitor. *)
Inductive usb_phase : Type :=
| Fresh
| Probing
| Holding (mp : string)
| Asking (mp : string) (pins : nat)
| Passed (mp : string)
| Told (mp : string)
| Released.

Definition usb_step (p : usb_phase) (e : FlowEvent) : option usb_phase :=
  if is_message e then Some p else
  match p, e with
  | Fresh, EvHook h _ => if decide (hk_stage h = PreAuth) then Some Fresh else None
  | Fresh, EvMount mp | Probing, EvMount mp => Some (Holding mp)
  | Holding mp, EvUnmount mp' => if decide (mp' = mp) then Some Probing else None
  | Holding mp, EvPrompt _ => Some (Asking mp 1)
  | Asking mp n, EvPrompt _ => if decide (n < 3)%nat then Some (Asking mp (S n)) else None
  | Asking mp _, EvHook h _ | Passed mp, EvHook h _ =>
      if decide (hk_stage h = PostAuthSuccess) then Some (Passed mp) else None
  | Asking mp _, EvNotify _ | Passed mp, EvNotify _ => Some (Told mp)
  | Asking mp _, EvUnmount mp' | Passed mp, EvUnmount mp' =>
      if decide (mp' = mp) then Some Released else None
  | _, _ => None
  end.

(** Nothing is mounted and the monitor was not told. *)
Definition usb_idle (p : usb_phase) : Prop :=
  match p with Fresh | Probing | Released => True | _ => False end.

(** The PKCS#11 path: hooks, up to [max] PINs, one session that is closed
    before the later hooks and the monitor. *)
Inductive token_phase : Type :=
| TFresh
| TAsking (pins : nat)
| TOpen
| TClosed
| TPassed
| TTold.

Definition token_step (max : nat) (p : token_phase) (e : FlowEvent) : option token_phase :=
  if is_message e then Some p else
  match p, e with
  | TFresh, EvHook h _ => if decide (hk_stage h = PreAuth) then Some TFresh else None
  | TFresh, EvPrompt _ => if decide (0 < max)%nat then Some (TAsking 1) else None
  | TAsking n, EvPrompt _ => if decide (n < max)%nat then Some (TAsking (S n)) else None
  | TAsking _, EvLogin => Some TOpen
  | TOpen, EvLogout => Some TClosed
  | TClosed, EvHook h _ | TPassed, EvHook h _ =>
      if decide (hk_stage h = PostAuthSuccess) then Some TPassed else None
  | TClosed, EvNotify _ | TPassed, EvNotify _ => Some TTold
  | _, _ => None
  end.

(** No session is open and the monitor was not told. *)
Definition token_idle (p : token_phase) : Prop :=
  match p with TOpen | TTold => False | _ => True end.

(** [c] started at [p] emits a word of the automaton, and ends with a result
    and a phase that satisfy [Q]. *)
Definition moves {P W A} {GS : GostSys} (step : P → FlowEvent → option P) (c : flow W A) (p : P)
    (Q : res FlowError A → P → Prop) : Prop :=
  ∀ s s' r, c s = (s', r) →
  ∃ t p', fs_trace s' = fs_trace s ++ t ∧ run step p t = Some p' ∧ Q r p'.

(** ** Inversion of flows *)

Section inversion.
Context {W : Type} {IO : FlowIo W} {GS : GostSys}.

Lemma act_Ok_inv {E A} (f : W → W * A) s s' a :
  act (E := E) f s = (s', Ok a) → (f (fs_world s)).2 = a ∧ fs_cell s' = fs_cell s.
Proof. unfold act. destruct (f _). by intros [= <- ->]. Qed.

Lemma act_answered {CK : Cryptoki} {TIO : Pkcs11Io W} {E A} (f : W → W * A) s s' a :
  (∀ w, asks w (f w).1) → act (E := E) f s = (s', Ok a) → answered s s' f a.
Proof.
  intros Hf H. assert (rtc asks (fs_world s) (fs_world s')) as R by by eapply within_act.
  apply act_Ok_inv in H as [Ha _]. exists (fs_world s). by split; [apply during_start|].
Qed.

Lemma answered_mono {CK : Cryptoki} {TIO : Pkcs11Io W} {A} (f : W → W * A) s0 s1 s2 s3 a :
  answered s1 s2 f a →
  rtc asks (fs_world s0) (fs_world s1) → rtc asks (fs_world s2) (fs_world s3) →
  answered s0 s3 f a.
Proof. intros (w & Hw & Ha) H1 H2. exists w. split; [by eapply during_mono|done]. Qed.

Lemma on_cell_Ok_inv {E A} (f : EngineCell → EngineCell * res E A) s s' a :
  on_cell (W := W) f s = (s', Ok a) → (f (fs_cell s)).2 = Ok a.
Proof. unfold on_cell. destruct (f _). by intros [= <- ->]. Qed.

End inversion.

(** Peel a step off and keep its run; an answer of a part of the run is one of
    the whole. *)
Ltac peel_run H s a Ha := peel H s a Ha; runs Ha.
Ltac widen H := eapply answered_mono; [exact H|chain_runs|chain_runs].

(** ** The gates are passed *)

Section passed.
Context {W : Type} {IO : FlowIo W} {CK : Cryptoki} {TIO : Pkcs11Io W}.
Context {SSL : OpenSSL} {SHA : Sha256} {BP : BuildProfile} {GS : GostSys}.
Context {SK : OpenSSLKeys} {PS : PemStack}.
Implicit Types (d : Deps) (s : FlowState W).

Lemma verify_host_binding_Ok leaf h :
  is_ok (verify_host_binding (inner leaf) h) = true → host_authorised leaf h.
Proof.
  destruct (verify_host_binding _ _) as [[]| |] eqn:Hv; [|done..]. intros _.
  apply verify_host_binding_iff in Hv as (hosts & ? & [_ ?]%Forall_and & ?). by exists hosts.
Qed.

Lemma authorise_user_Ok d leaf u :
  authorise_user d leaf u = Ok tt → user_authorised (d_user_mappings d) leaf u.
Proof.
  unfold authorise_user. destruct (user_binding_parse (inner leaf)) as [|e|] eqn:Hp; [| |done].
  - intros Hv%map_err_Ok_inv. left. by apply verify_user_binding_iff.
  - intros (m & Hm%map_err_Ok_inv & _)%rbind_Ok_inv. right. split; [eauto|].
    apply match_user_exists. exists m. split; [done|]. by eapply match_user_Ok.
Qed.

Lemma trust_step_Ok d leaf presented s s' vc :
  0 ≤ max_depth (d_trust d) → trust_step d leaf presented s = (s', Ok vc) →
  ∃ now, answered s s' system_now now ∧ trusted (d_trust d) leaf presented now vc.
Proof.
  intros Hd H. unfold trust_step in H. peel_run H s1 now Hn. runs H.
  apply act_answered in Hn; [|constructor]. exists now. split; [widen Hn|].
  apply on_cell_Ok_inv in H. destruct (verify_at _ _ _ _ _) as [cell' r] eqn:Hv.
  apply map_err_Ok_inv in H. simpl in H. subst r. by eapply verify_at_trusted.
Qed.

Lemma host_step_Ok d leaf s s' :
  host_step d leaf s = (s', Ok tt) → host_authorised leaf (d_host_id_hash d).
Proof.
  unfold host_step. intros H. apply verify_host_binding_Ok.
  destruct (verify_host_binding _ _) as [|e|]; [done| |done].
  peel H s1 px Hp. by peel H s2 u Hu.
Qed.

Lemma prove_possession_Ok d loaded s s' :
  prove_possession d loaded s = (s', Ok tt) →
  ∃ key nonce, private_key loaded = Ok key ∧
    answered s s' (λ w, sys_rng w NONCE_SIZE) (inr nonce) ∧
    possession (Pkcs12.end_entity loaded) key nonce.
Proof.
  unfold prove_possession. intros H. peel H s1 key Hk. apply lift_Ok_inv in Hk as [-> Hk].
  apply map_err_Ok_inv in Hk. peel_run H s2 rng Hr. runs H.
  apply act_answered in Hr; [|by intros; constructor]. apply on_cell_Ok_inv in H.
  destruct (challenge_response _ _ _ _ _) as [cell' r] eqn:Hc.
  apply map_err_Ok_inv in H. simpl in H. subst r. exists key.
  pose proof (challenge_response_possession rng (fs_cell s2) (Pkcs12.end_entity loaded) key
    (cfg_gost_engine_path (d_cfg d))) as Hp. rewrite Hc in Hp.
  destruct (Hp eq_refl) as (pub & params & nonce & sig & ? & -> & ? & ? & ?).
  exists nonce. split_and!; [done|widen Hr|]. by exists cell', pub, params, sig.
Qed.

Lemma logged_prompt_answered s prompt s' pin :
  logged_prompt s prompt = (s', inr pin) → answered s s' (λ w, prompt_pin w prompt) (inr pin).
Proof.
  intros H. pose proof (logged_prompt_within s prompt) as R. rewrite H in R. cbn [fst] in R.
  exists (fs_world s). split; [by apply during_start|].
  unfold logged_prompt in H. by destruct (prompt_pin _ _); simplify_eq.
Qed.

Lemma acquire_p12_Ok s bytes n s' m :
  acquire_p12_material_with_prompter logged_prompt s bytes n = (s', Ok m) →
  ∃ pin, answered s s' (λ w, prompt_pin w "Smart-card PIN: ") (inr pin) ∧ from_p12 bytes pin = Ok m.
Proof.
  revert s. induction n as [|n IH]; intros s; [done|]. cbn [acquire_p12_material_with_prompter].
  pose proof (logged_prompt_within s "Smart-card PIN: ") as R.
  destruct (logged_prompt _ _) as [s1 [e|pin]] eqn:Hl; [done|]. cbn [fst] in R.
  apply logged_prompt_answered in Hl.
  destruct (from_p12 bytes pin) as [m'|[]|] eqn:Hp; [| |done..].
  - intros [= <- ->]. eauto.
  - intros (pin' & Ha & Hp')%IH. exists pin'. split; [widen Ha|done].
Qed.

Lemma unlock_p12_Ok creds s s' m :
  unlock_p12 creds s = (s', Ok m) →
  ∃ pin, answered s s' (λ w, prompt_pin w "Smart-card PIN: ") (inr pin) ∧
    from_p12 (p12_bytes creds) pin = Ok m.
Proof.
  unfold unlock_p12. destruct (acquire_p12_material_with_prompter _ _ _ _) as [s1 r] eqn:Ha.
  destruct r as [m'|[]|]; [|intros H|done..].
  - intros [= <- ->]. by eapply acquire_p12_Ok.
  - peel H s2 msg Hm. by peel H s3 u Hu.
Qed.

Lemma capture_integrity_Ok u x s s' l :
  capture_integrity u x s = (s', Ok l) →
  l = match (extract_max_integrity x).2 with Ok l => l | _ => None end.
Proof.
  unfold capture_integrity. destruct (extract_max_integrity x) as [ns r]. intros H.
  peel H s1 v Hv. destruct r as [l'|e|]; [|peel H s2 v2 Hv2|done]; by injection H.
Qed.

Lemma assemble_context_Ok d u svc sid leaf vc usb vidpid s s' ctx :
  Trust.end_entity vc = leaf →
  assemble_context d u svc sid leaf vc usb vidpid s = (s', Ok ctx) →
  context_of d sid svc leaf usb ctx.
Proof.
  intros <- H. unfold assemble_context in H. peel H s1 l Hl. peel H s2 h Hh. peel H s3 t Ht.
  injection H as _ <-. apply capture_integrity_Ok in Hl as ->. by split_and!.
Qed.

Lemma no_bundle_mono s0 s1 s2 s3 pattern u dev :
  rtc asks (fs_world s0) (fs_world s1) → rtc asks (fs_world s2) (fs_world s3) →
  no_bundle s1 s2 pattern u dev → no_bundle s0 s3 pattern u dev.
Proof.
  intros R1 R2 (mp & Hm & Hd). exists mp. split; [widen Hm|].
  destruct Hd as [(path & Hd)|(creds & e & Hd & He)].
  - left. exists path. widen Hd.
  - right. exists creds, e. split; [widen Hd|done].
Qed.

Lemma first_bundle_mono s0 s1 s2 s3 pattern u devices dev mp creds :
  rtc asks (fs_world s0) (fs_world s1) → rtc asks (fs_world s2) (fs_world s3) →
  first_bundle s1 s2 pattern u devices dev mp creds →
  first_bundle s0 s3 pattern u devices dev mp creds.
Proof.
  intros R1 R2 ((pre & post & -> & Hpre) & Hm & Hd & Hv). split_and!; [|widen Hm|widen Hd|done].
  exists pre, post. split; [done|]. eapply Forall_impl; [exact Hpre|]. intros x.
  by apply no_bundle_mono.
Qed.

Lemma first_bundle_cons s s1 s' pattern u c rest dev mp creds :
  rtc asks (fs_world s) (fs_world s1) → no_bundle s s' pattern u c →
  first_bundle s1 s' pattern u rest dev mp creds →
  first_bundle s s' pattern u (c :: rest) dev mp creds.
Proof.
  intros R Hno Hf. eapply first_bundle_mono in Hf as [(pre & post & -> & Hpre) Hrest];
    [|exact R|reflexivity].
  split; [|done]. exists (c :: pre), post. split; [done|by constructor].
Qed.

Lemma probe_partitions_Ok pattern u devices le ld s s' dev mp creds :
  probe_partitions pattern u devices le ld s = (s', Ok (dev, mp, creds)) →
  first_bundle s s' pattern u devices dev mp creds.
Proof.
  revert le ld s. induction devices as [|c rest IH]; intros le ld s H; [done|].
  cbn [probe_partitions] in H. peel_run H s1 mounted Hm. apply act_answered in Hm; [|by intros; constructor].
  peel H s2 mp' Hmp. apply lift_Ok_inv in Hmp as [-> Hmp%map_err_Ok_inv]. subst mounted.
  peel_run H s3 u3 He. peel_run H s4 found Hf. apply act_answered in Hf; [|by intros; constructor].
  assert (∀ le' ld' s5, unmount (E := FlowError) mp' s4 = (s5, Ok tt) →
    probe_partitions pattern u rest le' ld' s5 = (s', Ok (dev, mp, creds)) →
    (no_bundle s s4 pattern u c) → first_bundle s s' pattern u (c :: rest) dev mp creds) as Hskip.
  { intros le' ld' s5 H5 Hp Hno. runs H5. runs Hp. apply IH in Hp.
    eapply first_bundle_cons; [|by eapply no_bundle_mono; [reflexivity| |exact Hno]; chain_runs|exact Hp].
    chain_runs. }
  destruct found as [creds'|[e|path|n|n]|]; try (by peel H s5 u5 Hu5).
  - destruct (validate_p12_envelope _) as [[]|e|] eqn:Hv; [| |by peel H s5 u5 Hu5].
    + injection H as <- -> -> ->. split_and!; [|widen Hm|widen Hf|done]. exists [], rest. by split.
    + peel H s5 u5 Hu5. destruct u5. eapply Hskip; [done..|].
      exists mp'. split; [widen Hm|]. right. exists creds', e. split; [widen Hf|done].
  - peel H s5 u5 Hu5. destruct u5. eapply Hskip; [done..|].
    exists mp'. split; [widen Hm|]. left. exists path. widen Hf.
Qed.

Lemma owning_mount_Ok {A} mp (c : flow W A) s s' a :
  owning_mount mp c s = (s', Ok a) → c s = (s', Ok a).
Proof. unfold owning_mount. by destruct (c s) as [s1 [a'|e|]]. Qed.

End passed.

(** The run from [s] to [s'] of the PKCS#12 path passed every gate with one
    certificate: the one in the bundle of the first partition that has a bundle.
    PIN, nonce and time are answers of calls made in this run. *)
Definition p12_authenticated {W} {IO : FlowIo W} {SSL : OpenSSL} {SHA : Sha256}
    {BP : BuildProfile} {GS : GostSys} {SK : OpenSSLKeys} {PS : PemStack} {CK : Cryptoki}
    {TIO : Pkcs11Io W} (s s' : FlowState W)
    (d : Deps) (pam_user pam_service session_id : string) (out : FlowOutcome) : Prop :=
  ∃ devices dev mp creds pin loaded key nonce presented now vc,
    let leaf := Pkcs12.end_entity loaded in
    answered s s' wait_for_usb (Ok devices) ∧
    first_bundle s s' (default DEFAULT_PKCS12_PATH_PATTERN (cfg_pkcs12_path_pattern (d_cfg d)))
      pam_user devices dev mp creds ∧
    answered s s' (λ w, prompt_pin w "Smart-card PIN: ") (inr pin) ∧
    from_p12 (p12_bytes creds) pin = Ok loaded ∧
    private_key loaded = Ok key ∧
    answered s s' (λ w, sys_rng w NONCE_SIZE) (inr nonce) ∧ possession leaf key nonce ∧
    presented_of loaded creds = Ok presented ∧
    answered s s' system_now now ∧ trusted (d_trust d) leaf presented now vc ∧
    host_authorised leaf (d_host_id_hash d) ∧
    user_authorised (d_user_mappings d) leaf pam_user ∧
    context_of d session_id pam_service leaf (dev_serial dev) (fo_auth_ctx out) ∧
    fo_mount out = Some mp.

(** Likewise for the token: certificate and key are objects of one session,
    opened in this run with the PIN typed in it, and the key object has the
    certificate's identifier. *)
Definition token_authenticated {W} {IO : FlowIo W} {SSL : OpenSSL} {SHA : Sha256}
    {BP : BuildProfile} {GS : GostSys} {SK : OpenSSLKeys} {PS : PemStack} {CK : Cryptoki}
    {TIO : Pkcs11Io W} (s s' : FlowState W)
    (d : Deps) (pam_user pam_service session_id : string) (out : FlowOutcome) : Prop :=
  ∃ slot pin session info serial cert key nonce now vc,
    let leaf := fc_certificate cert in
    answered s s' (λ w, wait_for_token w (cfg_pkcs11_slot_wait (d_cfg d))
                          (cfg_pkcs11_token_label (d_cfg d))) (Ok slot) ∧
    answered s s' (λ w, prompt_pin w (default DEFAULT_PROMPT (cfg_pkcs11_pin_prompt (d_cfg d))))
      (inr pin) ∧
    answered s s' (λ w, open_with_pin w slot pin) (inr session) ∧
    answered s s' (λ w, get_token_serial w slot) info ∧ read_token_serial info = Ok serial ∧
    find_certificate session (cfg_pkcs11_object_label (d_cfg d)) = Ok cert ∧
    find_private_key_for_cert session cert = Ok key ∧
    answered s s' (λ w, sys_rng w TOKEN_NONCE_SIZE) (inr nonce) ∧
    token_possession session leaf key nonce ∧
    answered s s' system_now now ∧ trusted (d_trust d) leaf [] now vc ∧
    host_authorised leaf (d_host_id_hash d) ∧
    user_authorised (d_user_mappings d) leaf pam_user ∧
    context_of d session_id pam_service leaf (Some serial) (fo_auth_ctx out) ∧
    fo_mount out = None.

Section sound.
Context {W : Type} {IO : FlowIo W}.
Context {SSL : OpenSSL} {SHA : Sha256} {BP : BuildProfile} {GS : GostSys}.
Context {SK : OpenSSLKeys} {PS : PemStack} {CK : Cryptoki} {TIO : Pkcs11Io W}.

Lemma logged_open_answered slot (s s' : FlowState W) pin session :
  logged_open slot s pin = (s', inr session) →
  answered s s' (λ w, open_with_pin w slot pin) (inr session).
Proof.
  intros H. pose proof (logged_open_within slot s pin) as R. rewrite H in R. cbn [fst] in R.
  exists (fs_world s). split; [by apply during_start|].
  unfold logged_open in H. by destruct (open_with_pin _ _ _) as [w [e|ses]]; simplify_eq.
Qed.

Lemma acquire_token_Ok (d : Deps) slot n (s s' : FlowState W) session :
  acquire_pkcs11_session (token_prompt d) (logged_open slot) s n = (s', Ok session) →
  ∃ pin,
    answered s s' (λ w, prompt_pin w (default DEFAULT_PROMPT (cfg_pkcs11_pin_prompt (d_cfg d))))
      (inr pin) ∧
    answered s s' (λ w, open_with_pin w slot pin) (inr session).
Proof.
  revert s. induction n as [|n IH]; intros s; [done|]. cbn [acquire_pkcs11_session].
  unfold token_prompt at 1. set (prompt := default DEFAULT_PROMPT _) in *.
  pose proof (logged_prompt_within s prompt) as R.
  destruct (logged_prompt s prompt) as [s2 [e|pin]] eqn:Hl; [done|].
  apply logged_prompt_answered in Hl. cbn [fst] in R.
  pose proof (logged_open_within slot s2 pin) as R2.
  destruct (logged_open slot s2 pin) as [s3 [e|ses]] eqn:Ho; cbn [fst] in R2.
  - destruct e; try done. intros (pin' & Hp & Hs)%IH. exists pin'.
    split; [widen Hp|widen Hs].
  - intros [= <- ->]. apply logged_open_answered in Ho. exists pin. split; [widen Hl|widen Ho].
Qed.

Lemma authenticate_pkcs12_Ok (d : Deps) u svc sid (s0 s s' : FlowState W) out :
  0 ≤ max_depth (d_trust d) → rtc asks (fs_world s0) (fs_world s) →
  authenticate_pkcs12 d u svc sid s = (s', Ok out) → p12_authenticated s0 s' d u svc sid out.
Proof.
  intros Hd R0 H. unfold authenticate_pkcs12 in H. peel_run H s1 v1 _H1. peel_run H s2 found H2.
  peel_run H s3 devices H3. peel_run H s4 bound Hb. destruct bound as [[dev mp] creds].
  apply owning_mount_Ok in H. peel_run H s5 loaded Hl. peel_run H s6 v6 Hk. destruct v6.
  peel_run H s7 presented Hp. peel_run H s8 vc Ht. peel_run H s9 v9 Hh. destruct v9.
  peel_run H s10 v10 Hu. destruct v10. peel_run H s11 ctx Hc. peel_run H s12 v12 _H12.
  peel_run H s13 v13 _H13. injection H as <- <-.
  apply act_answered in H2; [|constructor]. apply lift_Ok_inv in H3 as [_ H3%map_err_Ok_inv].
  subst found. apply probe_partitions_Ok in Hb. apply unlock_p12_Ok in Hl as (pin & Hpin & Hl).
  apply prove_possession_Ok in Hk as (key & nonce & Hkey & Hnonce & Hpos).
  apply lift_Ok_inv in Hp as [_ Hp]. apply trust_step_Ok in Ht as (now & Hnow & Ht); [|done].
  apply host_step_Ok in Hh. apply lift_Ok_inv in Hu as [_ Hu%authorise_user_Ok].
  apply assemble_context_Ok in Hc; [|by apply Ht].
  exists devices, dev, mp, creds, pin, loaded, key, nonce, presented, now, vc.
  split_and!; try done; [widen H2| |widen Hpin|widen Hnonce|widen Hnow].
  eapply first_bundle_mono; [..|exact Hb]; chain_runs.
Qed.

(** What the scope that holds the session established. *)
Lemma token_checks_Ok (d : Deps) u svc sid serial session (s s' : FlowState W) leaf ctx :
  0 ≤ max_depth (d_trust d) →
  token_checks d u svc sid serial session s = (s', Ok (leaf, ctx)) →
  ∃ cert key nonce now vc, leaf = fc_certificate cert ∧
    find_certificate session (cfg_pkcs11_object_label (d_cfg d)) = Ok cert ∧
    find_private_key_for_cert session cert = Ok key ∧
    answered s s' (λ w, sys_rng w TOKEN_NONCE_SIZE) (inr nonce) ∧
    token_possession session leaf key nonce ∧
    answered s s' system_now now ∧ trusted (d_trust d) leaf [] now vc ∧
    host_authorised leaf (d_host_id_hash d) ∧ user_authorised (d_user_mappings d) leaf u ∧
    context_of d sid svc leaf (Some serial) ctx.
Proof.
  intros Hd H. unfold token_checks in H.
  peel H t1 cert Hcert. apply lift_Ok_inv in Hcert as [-> Hcert%map_err_Ok_inv].
  peel H t2 key Hkey. apply lift_Ok_inv in Hkey as [-> Hkey%map_err_Ok_inv].
  peel H t3 pub Hpub. apply lift_Ok_inv in Hpub as [-> Hpub%map_err_Ok_inv].
  peel H t4 m Hm. apply lift_Ok_inv in Hm as [-> Hm%map_err_Ok_inv].
  peel_run H t5 rng Hr. apply act_answered in Hr; [|by intros; constructor].
  peel H t6 v6 Hch. destruct v6. apply lift_Ok_inv in Hch as [-> Hch%map_err_Ok_inv].
  peel_run H t7 vc Ht. apply trust_step_Ok in Ht as (now & Hnow & Ht); [|done].
  peel H t8 v8' Hh. apply lift_Ok_inv in Hh as [-> Hh%map_err_Ok_inv].
  peel H t9 v9' Hu. destruct v9'. apply lift_Ok_inv in Hu as [-> Hu%authorise_user_Ok].
  peel_run H t10 ctx' Hc. apply assemble_context_Ok in Hc; [|by apply Ht]. injection H as <- <- <-.
  destruct (token_challenge_proof rng session (fk_object key) _ pub m _ Hpub Hm Hch)
    as (mech & nonce & signature & sig & _ & -> & ? & ? & ?).
  exists cert, key, nonce, now, vc. split_and!; try done; [widen Hr| |widen Hnow|].
  - by exists pub, m, mech, signature, sig.
  - apply verify_host_binding_Ok. by rewrite Hh.
Qed.

Lemma token_checks_within (d : Deps) u svc sid serial session :
  within (W := W) (token_checks d u svc sid serial session).
Proof. unfold token_checks. auto 20 with within. Qed.

Lemma owning_session_Ok {A} session (c : flow W A) s s' a :
  owning_session session c s = (s', Ok a) →
  ∃ s1, c s = (s1, Ok a) ∧ rtc asks (fs_world s1) (fs_world s').
Proof.
  unfold owning_session. destruct (c s) as [s1 r]. intros [= <- ->]. exists s1. split; [done|].
  apply rtc_once. apply (AskClose (fs_world s1) session).
Qed.

Lemma authenticate_pkcs11_Ok (d : Deps) u svc sid (s0 s s' : FlowState W) out :
  0 ≤ max_depth (d_trust d) → rtc asks (fs_world s0) (fs_world s) →
  authenticate_pkcs11 d u svc sid s = (s', Ok out) → token_authenticated s0 s' d u svc sid out.
Proof.
  intros Hd R0 H. unfold authenticate_pkcs11 in H.
  peel_run H s1 v1 _H1. peel_run H s2 found H2.
  peel_run H s3 slot H3. peel_run H s4 info H4. peel_run H s5 serial H5. peel_run H s6 session H6.
  peel H s7 checked Hs. destruct checked as [leaf ctx].
  peel_run H s8 v8 _H8. peel_run H s9 v9 _H9. injection H as <- <-.
  apply owning_session_Ok in Hs as (t & Hc & Rclose). pose proof (token_checks_within _ _ _ _ _ _ _ _ _ Hc) as Rchecks.
  apply token_checks_Ok in Hc as (cert & key & nonce & now & vc & -> & ? & ? & Hn & ? & Hnow & ? & ? & ? & ?);
    [|done].
  apply act_answered in H2; [|by intros; constructor]. apply lift_Ok_inv in H3 as [_ H3%map_err_Ok_inv].
  subst found. apply act_answered in H4; [|by intros; constructor].
  apply lift_Ok_inv in H5 as [_ H5%map_err_Ok_inv].
  unfold on_state in H6. destruct (acquire_pkcs11_session _ _ _ _) as [s6' r6] eqn:Ha.
  injection H6 as -> H6. apply map_err_Ok_inv in H6 as ->.
  apply acquire_token_Ok in Ha as (pin & Hpin & Hopen).
  exists slot, pin, session, info, serial, cert, key, nonce, now, vc.
  split_and!; try done; [widen H2|widen Hpin|widen Hopen|widen H4|widen Hn|widen Hnow].
Qed.

End sound.

(** ** Rules for [moves] *)

(** A success ends in [K], anything else in [F]. *)
Definition ends {P A} (K : A → P → Prop) (F : P → Prop) (r : res FlowError A) (q : P) : Prop :=
  match r with Ok a => K a q | _ => F q end.

(** [c] emits only messages. *)
Definition quiet {W A} {GS : GostSys} (c : flow W A) : Prop :=
  ∀ s s' r, c s = (s', r) →
  ∃ t, fs_trace s' = fs_trace s ++ t ∧ Forall (λ e, is_message e = true) t.

Section rules.
Context {P W : Type} {GS : GostSys} (step : P → FlowEvent → option P).

Lemma run_app p t1 t2 q :
  run step p t1 = Some q → run step p (t1 ++ t2) = run step q t2.
Proof.
  revert p. induction t1 as [|e t1 IH]; simpl; intros p; [by intros [= ->]|].
  destruct (step p e); [apply IH|done].
Qed.

Lemma moves_bind {A B} (c : flow W A) (k : A → flow W B) p K K' (F : P → Prop) :
  moves step c p (ends K F) → (∀ a q, K a q → moves step (k a) q (ends K' F)) →
  moves step (fbind c k) p (ends K' F).
Proof.
  intros Hc Hk s s' r H. unfold fbind in H. destruct (c s) as [s1 r1] eqn:Hs.
  apply Hc in Hs as (t1 & q & Ht1 & Hq & HQ).
  destruct r1 as [a|e|]; [|by simplify_eq; exists t1, q..].
  apply (Hk a q HQ) in H as (t2 & q' & Ht2 & Hq' & HR). exists (t1 ++ t2), q'.
  rewrite Ht2, Ht1, app_assoc. split_and!; [done| |done]. by rewrite (run_app _ _ _ _ Hq).
Qed.

Lemma moves_weaken {A} (c : flow W A) p (Q R : res FlowError A → P → Prop) :
  moves step c p Q → (∀ r q, Q r q → R r q) → moves step c p R.
Proof. intros Hc HQ s s' r (t & q & ? & ? & ?)%Hc. exists t, q. auto. Qed.

Lemma moves_quiet {A} (c : flow W A) p K (F : P → Prop) :
  (∀ e, is_message e = true → step p e = Some p) → quiet c → (∀ a, K a p) → F p →
  moves step c p (ends K F).
Proof.
  intros Hm Hc HK HF s s' r (t & Ht & Hmsg)%Hc. exists t, p.
  split_and!; [done| |by destruct r; simpl; auto].
  clear Ht. induction Hmsg as [|e t He _ IH]; simpl; [done|]. by rewrite Hm.
Qed.

Lemma moves_emit e p q K (F : P → Prop) :
  step p e = Some q → K tt q → moves step (emit (W := W) e) p (ends K F).
Proof. intros He HK s s' r [= <- <-]. exists [e], q. simpl. by rewrite He. Qed.

Lemma moves_lift {A} (r : res FlowError A) p K (F : P → Prop) :
  (∀ a, K a p) → F p → moves step (lift (S := FlowState W) r) p (ends K F).
Proof. intros HK HF s s' r' [= <- <-]. exists [], p. rewrite app_nil_r. destruct r; simpl; auto. Qed.

Lemma moves_fail {A} e p (K : A → P → Prop) (F : P → Prop) :
  F p → moves step (lift (S := FlowState W) (Err e)) p (ends K F).
Proof. intros HF s s' r' [= <- <-]. exists [], p. by rewrite app_nil_r. Qed.

Lemma moves_panic {A} p (K : A → P → Prop) (F : P → Prop) :
  F p → moves step (lift (S := FlowState W) Panic) p (ends K F).
Proof. intros HF s s' r' [= <- <-]. exists [], p. by rewrite app_nil_r. Qed.

Lemma moves_fret {A} (a : A) p K (F : P → Prop) :
  K a p → moves step (fret (S := FlowState W) a) p (ends K F).
Proof. intros HK s s' r' [= <- <-]. exists [], p. rewrite app_nil_r. auto. Qed.

Lemma moves_act {A} (f : W → W * A) p K (F : P → Prop) :
  (∀ a, K a p) → moves step (act f) p (ends K F).
Proof.
  intros HK s s' r' H. unfold act in H. destruct (f _). injection H as <- <-.
  exists [], p. rewrite app_nil_r. split_and!; [done..|apply HK].
Qed.

End rules.

(** ** Quiet steps *)

Section quiet.
Context {W : Type} {IO : FlowIo W}.
Context {SSL : OpenSSL} {SHA : Sha256} {BP : BuildProfile} {GS : GostSys}.
Context {SK : OpenSSLKeys} {PS : PemStack}.

Lemma quiet_bind {A B} (c : flow W A) (k : A → flow W B) :
  quiet c → (∀ a, quiet (k a)) → quiet (fbind c k).
Proof.
  intros Hc Hk s s' r H. unfold fbind in H. destruct (c s) as [s1 r1] eqn:Hs.
  apply Hc in Hs as (t1 & Ht1 & Hm1). destruct r1 as [a|e|]; [|by simplify_eq; exists t1..].
  apply Hk in H as (t2 & Ht2 & Hm2). exists (t1 ++ t2). rewrite Ht2, Ht1, app_assoc.
  split; [done|by apply Forall_app].
Qed.

Lemma quiet_lift {A} (r : res FlowError A) : quiet (lift (S := FlowState W) r).
Proof. intros s s' r' [= <- <-]. exists []. by rewrite app_nil_r. Qed.

Lemma quiet_fret {A} (a : A) : quiet (fret (S := FlowState W) a).
Proof. intros s s' r' [= <- <-]. exists []. by rewrite app_nil_r. Qed.

Lemma quiet_act {A} (f : W → W * A) : quiet (act f).
Proof.
  intros s s' r' H. unfold act in H. destruct (f _). injection H as <- <-.
  exists []. by rewrite app_nil_r.
Qed.

Lemma quiet_on_cell {A} (f : EngineCell → EngineCell * res FlowError A) :
  quiet (on_cell (W := W) f).
Proof.
  intros s s' r' H. unfold on_cell in H. destruct (f _). injection H as <- <-.
  exists []. by rewrite app_nil_r.
Qed.

Lemma quiet_emit e : is_message e = true → quiet (emit (W := W) e).
Proof. intros He s s' r' [= <- <-]. exists [e]. split; [done|by constructor]. Qed.

End quiet.

Create HintDb flow.
#[export] Hint Resolve quiet_lift quiet_fret quiet_act quiet_on_cell quiet_emit : flow.
#[export] Hint Extern 2 (quiet (fbind _ _)) => (apply quiet_bind; [|intros ?]) : flow.

Section protocol.
Context {W : Type} {IO : FlowIo W}.
Context {SSL : OpenSSL} {SHA : Sha256} {BP : BuildProfile} {GS : GostSys}.
Context {SK : OpenSSLKeys} {PS : PemStack}.
Implicit Types (d : Deps) (s : FlowState W).

Lemma quiet_tell_user msg : quiet (W := W) (tell_user msg).
Proof. unfold tell_user. auto with flow. Qed.

Lemma quiet_prove_possession d loaded : quiet (W := W) (prove_possession d loaded).
Proof. unfold prove_possession. auto with flow. Qed.

Lemma quiet_trust_step d leaf presented : quiet (W := W) (trust_step d leaf presented).
Proof. unfold trust_step. auto with flow. Qed.

Lemma quiet_host_step d leaf : quiet (W := W) (host_step d leaf).
Proof.
  unfold host_step. destruct (verify_host_binding _ _); auto using quiet_tell_user with flow.
Qed.

Lemma quiet_emit_notices ns : quiet (W := W) (emit_notices ns).
Proof. induction ns; simpl; auto with flow. Qed.

Lemma quiet_capture_integrity u x : quiet (W := W) (capture_integrity u x).
Proof.
  unfold capture_integrity. destruct (extract_max_integrity x) as [ns [l|e|]];
    auto using quiet_emit_notices with flow.
Qed.

Lemma quiet_assemble_context d u svc sid leaf vc usb vp :
  quiet (W := W) (assemble_context d u svc sid leaf vc usb vp).
Proof.
  unfold assemble_context, resolve_home_dir. auto 10 using quiet_capture_integrity with flow.
Qed.

Lemma quiet_session_open_extras leaf u : quiet (W := W) (session_open_extras leaf u).
Proof. unfold session_open_extras, resolve_uid. auto with flow. Qed.

(** Every hook that runs is one of the stage. *)
Lemma hooks_step_moves {P} (step : P → FlowEvent → option P) d stage vars g p q :
  (∀ h v, hk_stage h = stage → step p (EvHook h v) = Some q ∧ step q (EvHook h v) = Some q) →
  moves step (hooks_step (W := W) d stage vars g) p (λ _ x, x = p ∨ x = q).
Proof.
  intros Hstep s s' r H. unfold hooks_step, on_state, run_hooks_for_stage in H.
  destruct (run_hooks _ _ _ _) as [s1 r1] eqn:Hr. injection H as <- _.
  assert (Forall (λ h, hk_stage h = stage) (hooks_at stage (cfg_hooks (d_cfg d)))) as Hall.
  { apply Forall_forall. intros h Hh.
    by apply list_elem_of_In, filter_In in Hh as [_ ?%bool_decide_eq_true]. }
  revert p s Hr Hstep. induction Hall as [|h hs Hh _ IH]; intros p s Hr Hstep; simpl in Hr.
  { injection Hr as <- _. exists [], p. rewrite app_nil_r. auto. }
  unfold logged_hook in Hr at 1. destruct (execute_hook _ _ _) as [w o].
  destruct (Hstep h vars Hh) as [Hp Hq].
  destruct (apply_on_failure _ _) as [[]|e|].
  2,3: injection Hr as <- _; exists [EvHook h vars], q; simpl; rewrite Hp; auto.
  destruct (IH q _ Hr) as (t & x & Ht & Hx & Hor).
  { intros h' v' Hs'. destruct (Hstep h' v' Hs'). by split. }
  exists (EvHook h vars :: t), x. simpl. rewrite Hp. rewrite Ht. simpl. rewrite <-app_assoc.
  split_and!; [done..|]. right. by destruct Hor.
Qed.

(** The PIN loop emits one prompt per PIN. *)
Lemma acquire_p12_prompts s bytes n s' r :
  acquire_p12_material_with_prompter (W := FlowState W) logged_prompt s bytes n = (s', r) →
  ∃ k, fs_trace s' = fs_trace s ++ replicate k (EvPrompt "Smart-card PIN: ") ∧ (k ≤ n)%nat ∧
    (n ≠ 0 → 1 ≤ k)%nat.
Proof.
  revert s. induction n as [|n IH]; intros s; cbn [acquire_p12_material_with_prompter].
  { intros [= <- _]. exists 0%nat. simpl. rewrite app_nil_r. split_and!; [done|lia|lia]. }
  unfold logged_prompt at 1. destruct (prompt_pin _ _) as [w [e|pin]].
  { intros [= <- _]. exists 1%nat. split_and!; [done|lia|lia]. }
  destruct (from_p12 bytes pin) as [m|[]|].
  2: { intros (k & Ht & Hk & _)%IH. exists (S k). cbn [fs_trace] in Ht. rewrite Ht.
       rewrite <-app_assoc. split_and!; [done|lia|lia]. }
  all: intros [= <- _]; exists 1%nat; split_and!; [done|lia|lia].
Qed.

Lemma usb_message p e : is_message e = true → usb_step p e = Some p.
Proof. unfold usb_step. by intros ->. Qed.

Lemma run_prompts mp k prompt :
  (1 ≤ k ≤ 3)%nat → run usb_step (Holding mp) (replicate k (EvPrompt prompt)) = Some (Asking mp k).
Proof. intros Hk. destruct k as [|[|[|[|k]]]]; (lia || done). Qed.

(** The bound partition is in use: PINs were asked, or later hooks ran. *)
Definition in_use (mp : string) (q : usb_phase) : Prop :=
  q = Passed mp ∨ ∃ k, q = Asking mp k.

Lemma unlock_p12_moves mp creds :
  moves usb_step (unlock_p12 (W := W) creds) (Holding mp) (ends (λ _, in_use mp) (in_use mp)).
Proof.
  intros s s' r. unfold unlock_p12.
  destruct (acquire_p12_material_with_prompter _ _ _ _) as [s1 r1] eqn:Ha.
  apply acquire_p12_prompts in Ha as (k & Ht & Hk & Hk1).
  assert (run usb_step (Holding mp) (replicate k (EvPrompt "Smart-card PIN: ")) = Some (Asking mp k))
    as Hrun by (apply run_prompts; lia).
  assert (in_use mp (Asking mp k)) as Hu by (right; eauto).
  destruct r1 as [m|[]|].
  2: { intros H. eapply (moves_quiet usb_step) with (K := λ _, in_use mp) (F := in_use mp) in H
         as (t & q & Ht2 & Hq & HQ); [|apply usb_message|auto 10 using quiet_tell_user with flow|done..].
       exists (replicate k (EvPrompt "Smart-card PIN: ") ++ t), q.
       rewrite Ht2, Ht, app_assoc. split_and!; [done| |done].
       by rewrite (run_app _ _ _ _ _ Hrun). }
  all: intros [= <- <-]; exists (replicate k (EvPrompt "Smart-card PIN: ")), (Asking mp k);
    by split_and!.
Qed.

Lemma unmount_moves mp p q (K : unit → usb_phase → Prop) F :
  usb_step p (EvUnmount mp) = Some q → K tt q →
  moves usb_step (unmount (W := W) mp) p (ends K F).
Proof.
  intros Hs HK. eapply moves_bind; [by apply moves_act with (K := λ _ x, x = p)|].
  intros a x ->. by eapply moves_emit.
Qed.

(** No partition is mounted yet, or none any more. *)
Definition probing (q : usb_phase) : Prop := q = Fresh ∨ q = Probing.

Lemma probe_partitions_moves pattern u devices le ld p :
  probing p →
  moves usb_step (probe_partitions (W := W) pattern u devices le ld) p
    (ends (λ b q, q = Holding b.1.2) probing).
Proof.
  revert le ld p. induction devices as [|c rest IH]; intros le ld p Hp; simpl.
  { by apply moves_fail. }
  eapply moves_bind; [by apply moves_act with (K := λ _ x, x = p)|]. intros m x ->.
  eapply moves_bind; [by apply moves_lift with (K := λ _ x, x = p)|]. intros mp x ->.
  eapply moves_bind with (K := λ _ x, x = Holding mp).
  { eapply moves_emit; [|done]. by destruct Hp as [->| ->]. }
  intros [] x ->.
  eapply moves_bind; [by apply moves_act with (K := λ _ x, x = Holding mp)|]. intros found x ->.
  assert (∀ B (k : flow W B) K, moves usb_step k Probing (ends K probing) →
    moves usb_step (do! unmount mp; k) (Holding mp) (ends K probing)) as Hun.
  { intros B k K Hk. eapply moves_bind with (K := λ _ x, x = Probing); [|by intros [] x ->].
    eapply unmount_moves; [simpl; unfold usb_step; simpl; by rewrite decide_True|done]. }
  assert (probing Probing) as HP by by right.
  destruct found as [creds|[e|path|n|n]|].
  - destruct (validate_p12_envelope _) as [[]|e|] eqn:Hv.
    + by apply moves_fret.
    + by apply Hun, IH.
    + exfalso. unfold validate_p12_envelope in Hv. by destruct (Pkcs12_from_der _).
  - by apply Hun, moves_fail.
  - by apply Hun, IH.
  - by apply Hun, moves_fail.
  - by apply Hun, moves_fail.
  - by apply Hun, moves_panic.
Qed.

(** Leaving the scope by an error unmounts. *)
Lemma owning_mount_moves {A} mp (c : flow W A) p K F :
  moves usb_step c p (ends K (in_use mp)) → F Released →
  moves usb_step (owning_mount mp c) p (ends K F).
Proof.
  intros Hc HF s s' r H. unfold owning_mount in H. destruct (c s) as [s1 r1] eqn:Hs.
  apply Hc in Hs as (t & q & Ht & Hq & HQ).
  assert (in_use mp q → fs_trace (unmount (E := FlowError) mp s1).1 = fs_trace s ++ t ++ [EvUnmount mp] ∧
    run usb_step p (t ++ [EvUnmount mp]) = Some Released) as Hrel.
  { intros Hu. unfold unmount, fbind, act, emit. simpl. rewrite Ht, app_assoc. split; [done|].
    rewrite (run_app _ _ _ _ _ Hq). unfold run, usb_step. simpl.
    by destruct Hu as [->|[k ->]]; rewrite decide_True. }
  destruct r1 as [a|e|]; injection H as <- <-; [by exists t, q|..].
  all: destruct (Hrel HQ) as [Htr Hrun]; by exists (t ++ [EvUnmount mp]), Released.
Qed.

Lemma quiet_in_use {A} mp (c : flow W A) q :
  quiet c → in_use mp q → moves usb_step c q (ends (λ _, in_use mp) (in_use mp)).
Proof. intros Hc Hq. apply moves_quiet; auto using usb_message. Qed.

Lemma notify_step_moves {P} (step : P → FlowEvent → option P) d u svc leaf ctx usb p q F :
  (∀ e, is_message e = true → step p e = Some p) → (∀ i, step p (EvNotify i) = Some q) → F p →
  moves step (notify_step (W := W) d u svc leaf ctx usb) p (ends (λ _ x, x = q) F).
Proof.
  intros Hm Hn HF. unfold notify_step. eapply moves_bind with (K := λ _ x, x = p).
  { by apply moves_quiet; auto using quiet_session_open_extras. }
  intros ex x ->. eapply moves_bind; [by apply moves_act with (K := λ _ x, x = p)|].
  intros b x ->. by eapply moves_emit.
Qed.

Lemma post_auth_in_use d u ctx mp q :
  in_use mp q →
  moves usb_step (post_auth_step (W := W) d u ctx) q (ends (λ _, in_use mp) (in_use mp)).
Proof.
  intros Hq. eapply moves_weaken with (Q := λ _ x, x = q ∨ x = Passed mp).
  - apply hooks_step_moves. intros h v Hh. unfold usb_step. simpl.
    destruct Hq as [->|[k ->]]; by rewrite decide_True.
  - assert (in_use mp (Passed mp)) by by left.
    intros r x [->| ->]; destruct r; done.
Qed.

Lemma pre_auth_moves {P} (step : P → FlowEvent → option P) d u svc p F :
  (∀ h v, hk_stage h = PreAuth → step p (EvHook h v) = Some p) → F p →
  moves step (pre_auth_step (W := W) d u svc) p (ends (λ _ x, x = p) F).
Proof.
  intros Hs HF. eapply moves_weaken with (Q := λ _ x, x = p ∨ x = p).
  - apply hooks_step_moves. auto.
  - intros r x [->| ->]; by destruct r.
Qed.

Lemma authenticate_pkcs12_moves d u svc sid :
  moves usb_step (authenticate_pkcs12 (W := W) d u svc sid) Fresh
    (ends (λ out q, ∃ mp, fo_mount out = Some mp ∧ q = Told mp) usb_idle).
Proof.
  unfold authenticate_pkcs12. eapply moves_bind.
  { apply pre_auth_moves; [|done]. intros h v Hh. unfold usb_step. simpl. by rewrite decide_True. }
  intros [] x ->. eapply moves_bind; [by apply moves_act with (K := λ _ x, x = Fresh)|].
  intros found x ->. eapply moves_bind; [by apply moves_lift with (K := λ _ x, x = Fresh)|].
  intros devices x ->. eapply moves_bind with (K := λ b q, q = Holding b.1.2).
  { eapply moves_weaken; [apply probe_partitions_moves; by left|].
    intros [b|e|] q Hq; [done|destruct Hq as [->| ->]; done..]. }
  intros [[dev mp] creds] x ->. cbn [fst snd]. apply owning_mount_moves; [|done].
  eapply moves_bind; [apply unlock_p12_moves|]. intros loaded q1 H1.
  eapply moves_bind; [eauto using quiet_in_use, quiet_prove_possession|]. intros _u q2 H2.
  eapply moves_bind; [eauto using quiet_in_use, quiet_lift|]. intros presented q3 H3.
  eapply moves_bind; [eauto using quiet_in_use, quiet_trust_step|]. intros vc q4 H4.
  eapply moves_bind; [eauto using quiet_in_use, quiet_host_step|]. intros _v q5 H5.
  eapply moves_bind; [eauto using quiet_in_use, quiet_lift|]. intros _w q6 H6.
  eapply moves_bind; [eauto using quiet_in_use, quiet_assemble_context|]. intros ctx q7 H7.
  eapply moves_bind; [by apply post_auth_in_use|]. intros _x q8 H8.
  eapply moves_bind with (K := λ _ x, x = Told mp).
  { apply notify_step_moves; [apply usb_message| |done]. by destruct H8 as [->|[k ->]]. }
  intros _y q9 ->. apply moves_fret. eauto.
Qed.

Context {CK : Cryptoki} {TIO : Pkcs11Io W}.

Lemma token_message max p e : is_message e = true → token_step max p e = Some p.
Proof. unfold token_step. by intros ->. Qed.

(** [k] PINs were asked for. *)
Definition asked (k : nat) : token_phase :=
  match k with O => TFresh | _ => TAsking k end.

Lemma token_acquire_moves d slot s s' r k n max :
  acquire_pkcs11_session (token_prompt (W := W) d) (logged_open slot) s n = (s', r) →
  (k + n ≤ max)%nat →
  ∃ t q, fs_trace s' = fs_trace s ++ t ∧ run (token_step max) (asked k) t = Some q ∧
    match r with Ok _ => q = TOpen | _ => token_idle q end.
Proof.
  revert s k. induction n as [|n IH]; intros s k H Hk; simpl in H.
  { injection H as <- <-. exists [], (asked k). rewrite app_nil_r. by destruct k. }
  unfold token_prompt in H at 1. unfold logged_prompt in H at 1.
  destruct (prompt_pin _ _) as [w [e|pin]] eqn:Hpr.
  all: set (ev := EvPrompt _) in H.
  all: assert (token_step max (asked k) ev = Some (asked (S k))) as Hev
    by (destruct k; unfold token_step; simpl; rewrite decide_True by lia; done).
  { injection H as <- <-. exists [ev], (asked (S k)). simpl. by rewrite Hev. }
  unfold logged_open in H at 1. cbn [fs_world fs_cell fs_trace] in H.
  destruct (open_with_pin w slot pin) as [w' [e|session]].
  2: { injection H as <- <-. exists [ev; EvLogin], TOpen. simpl. rewrite Hev.
       by rewrite <-app_assoc. }
  assert (∃ t q, fs_trace s ++ [ev] = fs_trace s ++ t ∧
    run (token_step max) (asked k) t = Some q ∧ token_idle q) as Hstop
    by (exists [ev], (asked (S k)); simpl; by rewrite Hev).
  destruct e; try (injection H as <- <-; exact Hstop).
  apply (IH _ (S k)) in H as (t & q & Ht & Hq & HQ); [|lia]. exists (ev :: t), q.
  simpl. rewrite Hev, Ht. cbn [fs_trace]. by rewrite <-app_assoc.
Qed.

(** The session is closed however its scope is left. *)
Lemma owning_session_moves {A} max session (c : flow W A) :
  quiet c →
  moves (token_step max) (owning_session session c) TOpen (λ _ q, q = TClosed).
Proof.
  intros Hc s s' r H. unfold owning_session in H. destruct (c s) as [s1 r1] eqn:Hs.
  eapply (moves_quiet (token_step max) c TOpen (λ _ q, q = TOpen) (λ q, q = TOpen)) in Hs
    as (t & q & Ht & Hq & HQ); [|apply token_message|done..].
  injection H as <- <-. exists (t ++ [EvLogout]), TClosed. simpl. rewrite Ht, app_assoc.
  split_and!; [done| |done]. rewrite (run_app _ _ _ _ _ Hq). by destruct r1; simpl in HQ; subst q.
Qed.

Lemma authenticate_pkcs11_moves d u svc sid :
  moves (token_step (Z.to_nat (cfg_pkcs11_max_pin_attempts (d_cfg d))))
    (authenticate_pkcs11 (W := W) d u svc sid) TFresh
    (ends (λ out q, fo_mount out = None ∧ q = TTold) token_idle).
Proof.
  set (max := Z.to_nat (cfg_pkcs11_max_pin_attempts _)). unfold authenticate_pkcs11. eapply moves_bind.
  { apply pre_auth_moves; [|done]. intros h v Hh. unfold token_step. simpl.
    by rewrite decide_True. }
  intros [] x ->. eapply moves_bind; [by apply moves_act with (K := λ _ x, x = TFresh)|].
  intros f x ->. eapply moves_bind; [by apply moves_lift with (K := λ _ x, x = TFresh)|].
  intros slot x ->. eapply moves_bind; [by apply moves_act with (K := λ _ x, x = TFresh)|].
  intros i x ->. eapply moves_bind; [by apply moves_lift with (K := λ _ x, x = TFresh)|].
  intros serial x ->. eapply moves_bind with (K := λ _ x, x = TOpen).
  { intros s s' r H. unfold on_state in H.
    destruct (acquire_pkcs11_session _ _ _ _) as [s1 r1] eqn:Ha. injection H as <- <-.
    apply (token_acquire_moves _ _ _ _ _ 0 _ max) in Ha as (t & q & ? & ? & HQ); [|done].
    exists t, q. by destruct r1. }
  intros session x ->. eapply moves_bind with (K := λ _ x, x = TClosed).
  { eapply moves_weaken; [apply owning_session_moves|by intros [|e|] q ->].
    unfold token_checks. eauto 30 using quiet_trust_step, quiet_assemble_context with flow. }
  intros [leaf ctx] x ->. eapply moves_bind with (K := λ _ q, q = TClosed ∨ q = TPassed).
  { eapply moves_weaken; [apply hooks_step_moves with (q := TPassed)|].
    - intros h v Hh. unfold token_step. simpl. by rewrite decide_True.
    - intros [|e|] q Hq; [done|by destruct Hq as [->| ->]..]. }
  intros _x x Hx. eapply moves_bind with (K := λ _ x, x = TTold).
  { apply notify_step_moves; [apply token_message|..]; by destruct Hx as [->| ->]. }
  intros _y y ->. by apply moves_fret.
Qed.

End protocol.

(** ** A sample run

    A stick with two partitions, the second with alice's bundle; a token with
    the same certificate. *)

Module FlowSample.

Definition oid (s : string) : list byte :=
  match Sample.oid_lookup s with inr bs => bs | inl _ => [] end.

Definition names (o : string) (ss : list string) : extension :=
  MkExt (oid o) false (encode_utf8_seq ss).

Definition mk (xs : list extension) (subject issuer serial key signer : string) : Sample.cert :=
  Sample.MkCert (encode_cert [(TAG_INTEGER, bytes_of serial)] xs []) subject issuer None serial
    0 1000 "ecdsa-with-SHA256" key signer.

Definition leaf : Sample.cert :=
  mk [TrustSample.ku 0x80; TrustSample.eku; names HOST_BINDING_OID ["*"];
      names USER_BINDING_OID ["alice"; "root"]] "alice" "root" "0A" "ka" "kr".
Definition root : Sample.cert :=
  mk [TrustSample.ku 0x04; TrustSample.ca] "root" "root" "0C" "kr" "kr".


(** A certificate whose host entry has a character across byte 7. *)
Definition cyrillic : Sample.cert :=
  mk [names HOST_BINDING_OID ["банкомат"]] "eve" "root" "0E" "ke" "ke".

Definition openssl : OpenSSL := Sample.openssl_over [leaf; root; cyrillic].

Definition cert (c : Sample.cert) : Certificate (H := openssl) :=
  MkCertificate (H := openssl) c (Sample.c_der c).

Definition verifier : OpensslVerifier (SSL := openssl) :=
  MkVerifier (SSL := openssl) [cert root] [] [] (MkRevocation false)
    (MkPreValidate (60 * NANOS_PER_SEC) ["ecdsa-with-SHA256"]) [] 3 None.

(** Without a PIN the bundle shows the second certificate. *)
Definition parse (pin : string)
    : ErrorStack + (option string * option (@X509 openssl) * option (list (@X509 openssl))) :=
  if decide (pin = "1234") then inr (Some "ka", Some leaf, None)
  else if decide (pin = "") then inr (None, Some cyrillic, None)
  else inl "PKCS12: mac verify failure".

Definition keys : @OpenSSLKeys openssl := {|
  PrivateKey := string;
  Pkcs12 := list byte;
  Pkcs12_from_der bs := if decide (bs = []) then inl "asn1" else inr bs;
  Pkcs12_parse2 _ pin := parse pin;
  private_key_to_pkcs8 k := inr (bytes_of k);
  private_key_from_pkcs8 bs := inr (text_of bs);
  PKey_id _ := ID_RSA;
  PKey_ec_curve _ := inr None;
  digest_from_nid _ := None;
  sign _ k msg := inr (bytes_of k ++ msg);
  Verifier := list byte;
  verifier_new _ k msg := inr (bytes_of k ++ msg);
  verifier_verify v sig := inr (bool_decide (sig = v));
  ecdsa_sig_der r s := inr (r ++ s);
  hasher_digest _ msg := inr msg;
|}.

Definition pem : @PemStack openssl := λ _, inl "no PEM reader".

Definition dev (node : string) : UsbDevice :=
  MkUsbDevice node (Some "S1") 0x0951 0x1666 (Some "vfat").

(** The world is the list of PINs that will be typed. *)
Definition io : FlowIo (list string) := {|
  wait_for_usb w := (w, Ok [dev "/dev/sda1"; dev "/dev/sda2"]);
  mount w d := (w, Ok ("/run" +:+ devnode d));
  drop_mount w _ := w;
  discover w mp pattern _ :=
    (w, if decide (mp = "/run/dev/sda2") then Ok (MkCreds pattern [zb 1] None)
        else Err (P12NotFound pattern));
  show_info w _ := w;
  prompt_pin w p := KeySample.prompter w p;
  execute_hook w h _ := (w, Ok (MkHookOutcome (hk_stage h) (hk_command h) 0 false 0 0 0));
  monitor_open_session w _ := (w, true);
  sys_rng w _ := (w, inr (bytes_of "nonce"));
  system_now w := (w, TrustSample.now);
  user_from_name w _ := (w, Some (1000, "/home/alice"));
|}.

Definition token : Cryptoki := {|
  Slot := nat;
  Session := unit;
  ObjectHandle := nat;
  find_objects _ _ := inr [0%nat];
  get_attributes _ _ _ := inr [AttrValue (Sample.c_der leaf); AttrId [zb 7]; AttrKeyType KEY_RSA];
  token_sign _ _ _ msg := inr (bytes_of "ka" ++ msg);
|}.

Definition token_io : @Pkcs11Io (list string) token := {|
  backend_load w _ _ := (w, Ok tt);
  wait_for_token w _ _ := (w, Ok (0%nat : @Slot token));
  get_token_serial w _ := (w, inr "T1");
  open_with_pin w _ pin :=
    (w, if decide (pin = "1234") then inr (tt : @Session token) else inl PinIncorrect);
  drop_session w _ := w;
|}.

Definition config (m : Mode) : ValidatedConfig :=
  ConfigSample.config m (MkMacPolicy Optional None true RuntimeAuto).

Definition deps (m : Mode) : Deps (SSL := openssl) :=
  MkDeps (SSL := openssl) (config m) verifier "abcdef0123" MachineId [] TargetUnknown.

Definition start (pins : list string) : @FlowState (list string) GostSample.gost :=
  @MkFlow (list string) GostSample.gost pins GostSample.cell0 [].

Abbreviation login m pins :=
  (authenticate (IO := io) (SSL := openssl) (SHA := Sample.digest) (BP := Sample.release)
    (GS := GostSample.gost) (SK := keys) (PS := pem) (CK := token) (TIO := token_io)
    (deps m) "alice" "login" "sid" (start pins)).

End FlowSample.

(** ** Theorems *)

Lemma authenticate_mode_sound {W} {IO : FlowIo W} {SSL : OpenSSL} {SHA : Sha256} {BP : BuildProfile}
    {GS : GostSys} {SK : OpenSSLKeys} {PS : PemStack} {CK : Cryptoki} {TIO : Pkcs11Io W}
    (d : Deps) u svc sid (s s' : FlowState W) out
    (Hdepth : 0 ≤ max_depth (d_trust d))
    (Hok : authenticate d u svc sid s = (s', Ok out)) :
  match cfg_mode (d_cfg d) with
  | ModePkcs12 => p12_authenticated s s' d u svc sid out
  | ModePkcs11 => cfg_crypto_backend (d_cfg d) = Pkcs11Native ∧ token_authenticated s s' d u svc sid out
  end.
Proof.
  unfold authenticate in Hok. peel_run Hok s1 px Hp. peel_run Hok s2 v Hv.
  destruct (cfg_mode (d_cfg d)).
  { eapply authenticate_pkcs12_Ok; [done| |exact Hok]. chain_runs. }
  destruct (cfg_crypto_backend (d_cfg d)); [done|]. peel_run Hok s3 w Hw. split; [done|].
  eapply authenticate_pkcs11_Ok; [done| |exact Hok]. chain_runs.
Qed.

(** C2: A successful [authenticate] passed every gate, and all of them with one
    certificate.  With PKCS#12 it is the end entity of the bundle on the first
    partition that has a well-formed one, opened by a PIN that was typed; its
    key signed the 32 bytes that the random source returned; it chains to a
    configured anchor at the time the clock showed, names this host, and the
    user is named by it or mapped to it; the context handed on describes it.
    With PKCS#11 (native backend only) it is the object of a token session
    opened with a PIN that was typed, and the key with its identifier signed
    the 32 random bytes.  The waits, mounts, PINs, random bytes and clock
    readings are all calls made in this run, between its first and last state. *)
Theorem authenticate_sound {W} {IO : FlowIo W} {SSL : OpenSSL} {SHA : Sha256} {BP : BuildProfile}
    {GS : GostSys} {SK : OpenSSLKeys} {PS : PemStack} {CK : Cryptoki} {TIO : Pkcs11Io W}
    (d : Deps) u svc sid (s s' : FlowState W) out
    (Hdepth : 0 ≤ max_depth (d_trust d))
    (Hok : authenticate d u svc sid s = (s', Ok out)) :
  match cfg_mode (d_cfg d) with
  | ModePkcs12 => p12_authenticated s s' d u svc sid out
  | ModePkcs11 => cfg_crypto_backend (d_cfg d) = Pkcs11Native ∧ token_authenticated s s' d u svc sid out
  end.
Proof. by apply (authenticate_mode_sound d u svc sid s s' out). Qed.

Lemma authenticate_sound_witness :
  match FlowSample.login ModePkcs12 ["0000"; "1234"] with
  | (s', Ok out) =>
      p12_authenticated (IO := FlowSample.io) (SHA := Sample.digest) (BP := Sample.release)
        (GS := GostSample.gost) (SK := FlowSample.keys) (PS := FlowSample.pem)
        (CK := FlowSample.token) (TIO := FlowSample.token_io)
        (FlowSample.start ["0000"; "1234"]) s' (FlowSample.deps ModePkcs12) "alice" "login" "sid" out
  | _ => False
  end.
Proof.
  assert (is_ok (FlowSample.login ModePkcs12 ["0000"; "1234"]).2 = true) as Hok
    by (vm_compute; reflexivity).
  destruct (FlowSample.login ModePkcs12 ["0000"; "1234"]) as [s' [out|e|]] eqn:H; [|done..].
  assert (0 ≤ max_depth (d_trust (FlowSample.deps ModePkcs12))) as Hd by (vm_compute; done).
  pose proof (authenticate_sound (IO := FlowSample.io) (TIO := FlowSample.token_io)
    (FlowSample.deps ModePkcs12) "alice" "login" "sid" _ s' out Hd H) as Hs.
  cbn [cfg_mode d_cfg FlowSample.deps FlowSample.config] in Hs. exact Hs.
Defined.



(** Three wrong PINs on a bundle that shows, without a PIN, a certificate
    whose host extension makes the parser panic unwind the flow: the
    diagnostic is computed before [MaxTries] is returned. *)
Theorem wrong_pin_diagnostic_panics {W} {IO : FlowIo W} {SSL : OpenSSL} {SHA : Sha256}
    {GS : GostSys} {SK : OpenSSLKeys} creds (s s' : FlowState W) cert
    (Hmax : acquire_p12_material_with_prompter logged_prompt s (p12_bytes creds) 3 =
            (s', Err MaxTries))
    (Hcert : try_extract_cert_without_pin (p12_bytes creds) = Some cert)
    (Hpanic : host_binding_parse (inner cert) = Panic) :
  unlock_p12 creds s = (s', Panic).
Proof.
  unfold unlock_p12. rewrite Hmax. unfold p12_wrong_pin_diagnostic. rewrite Hcert.
  by rewrite Hpanic.
Qed.

Lemma wrong_pin_diagnostic_panics_witness :
  unlock_p12 (IO := FlowSample.io) (SK := FlowSample.keys) (MkCreds "" [zb 1] None)
    (FlowSample.start ["1"; "2"; "3"]) =
  (@MkFlow _ GostSample.gost [] GostSample.cell0 (replicate 3 (EvPrompt "Smart-card PIN: ")), Panic).
Proof.
  apply (wrong_pin_diagnostic_panics (IO := FlowSample.io) (SK := FlowSample.keys)
    (SHA := Sample.digest) (MkCreds "" [zb 1] None) (FlowSample.start ["1"; "2"; "3"]) _
    (FlowSample.cert FlowSample.cyrillic)); reflexivity.
Defined.
