(* ===== verification/Entry.v ===== *)
(** * PAM entry points ([pam_certauth/src/{entry,session,panic_guard,lib,xdg_capture}.rs])

    The five [pam_sm_*] entries over the flow: [run_pam] turns a panic into
    [PAM_AUTHINFO_UNAVAIL], an early return is an [Err] that carries the code.
    The host they run on is the class [ModuleWorld]; configuration loading,
    self-check, host identity, wiring, the PAM handle and the monitor client are
    the definitions of the files before. *)

From S2P Require Import Prelude Text Sys Logging Errors Openssl Der Sample X509Ext Certificate HostBinding.
From S2P Require Import Gost Trust MacLabel MacOrchestrator Proto Hooks RawConfig Config Client Usb.
From S2P Require Import HostIdentity Pkcs12 Pkcs11 Token PamHandle Wiring Flow FlowSpec.
Local Open Scope Z_scope.

Definition PAM_SYSTEM_ERR : Z := 4.
Definition PAM_AUTH_ERR : Z := 7.
Definition PAM_AUTHINFO_UNAVAIL : Z := 9.
Definition PAM_ACCT_EXPIRED : Z := 13.
Definition PAM_SESSION_ERR : Z := 14.

(** The frame of [pam_sm_authenticate]: creating the mount base, whose failure
    is logged, and [RealFlowIo::new(..).with_pamh(..)] for the session. *)
Class PamFrame (W : Type) := flow_io_new : ValidatedConfig → string → W → W.

(** What the module runs on, and the crates it uses. *)
Class ModuleWorld (W : Type) `{Cryptoki} := {
  mw_fs :: Fs W;
  mw_clock :: Clock W;
  mw_processes :: Processes W;
  mw_pkcs11 :: Pkcs11Lib W;
  mw_socket :: SocketSys W;
  mw_wall_clock :: WallClock W;
  mw_pam :: PamSys W;
  mw_frame :: PamFrame W;
  mw_syslog :: SyslogSys W;
}.

Class ModuleCrates := {
  mc_unicode :: UnicodeTables;
  mc_regex :: RegexCrate;
  mc_toml :: Toml;
  mc_hex :: HexDecode;
  mc_uuid :: UuidCrate;
  mc_version :: CorePkg;
  mc_json_client :: Json ClientMessage;
  mc_json_server :: Json ServerMessage;
}.

(** ** Arguments *)

(** The C strings of [argv]; null pointers are skipped. *)
Fixpoint collect_args_from (args : gmap string string) (argv : list (option string))
    : gmap string string :=
  match argv with
  | [] => args
  | None :: r => collect_args_from args r
  | Some s :: r =>
      match split_once_bytes (zb 0x3D) (bytes_of s) with
      | (k, Some v) => collect_args_from (<[text_of k := text_of v]> args) r
      | (_, None) => collect_args_from args r
      end
  end.

Definition collect_args : list (option string) → gmap string string := collect_args_from ∅.

Definition config_path_from_args (args : gmap string string) : string :=
  default "/etc/pam_certauth/config.toml" (args !! "config").

Definition parse_pam_tty (tty : option string) : SessionTarget :=
  match tty with
  | None => TargetUnknown
  | Some s => if is_prefix_bytes [zb 0x3A] (bytes_of s) then Display s else Tty s
  end.

Definition fresh_session_id (rng : string + list byte) : option string :=
  match rng with
  | inl _ => None
  | inr buf => Some ("sess-" +:+ hex_encode buf)
  end.

(** ** Account management *)

Definition acct_mgmt_core (ctx : AuthContext) (now : Z) : Z :=
  match ac_cert_not_after ctx with
  | Some na => if decide (na < now) then PAM_ACCT_EXPIRED else PAM_SUCCESS
  | None => PAM_SUCCESS
  end.

(** ** The open-session pipeline *)

(** [build_backend]: [astra] is the build feature, [parsec] the kernel's
    backend; with the events it emits. *)
Definition build_backend (astra : bool) (parsec : MacBackend) (mode : MacRuntimeMode)
    : list FlowEvent * (Z + MacBackend) :=
  if astra then
    match mode with
    | RuntimeDisabled => ([EvRuntime "mac_runtime_disabled" ""], inr StubBackend)
    | RuntimeRequiredMode =>
        if decide (@probe parsec = Active) then ([], inr parsec)
        else ([EvRuntime "mac_runtime_required" "kernel parsec subsystem not active"],
              inl PAM_AUTH_ERR)
    | RuntimeAuto =>
        if decide (@probe parsec = Active) then ([], inr parsec)
        else ([EvRuntime "mac_runtime_fallback"
                 "kernel parsec subsystem not active (parsec_strict_mode != 1)"],
              inr StubBackend)
    end
  else ([], inr StubBackend).

Definition session_cert_ident (ctx : AuthContext) : CertIdent :=
  default (MkCertIdent (default "" (ac_cert_serial ctx)) "" (default "" (ac_cert_cn ctx)) "")
    (ac_cert_ident ctx).

Inductive CaptureOutcome : Type :=
| Pushed
| PushFailed
| CaptureSkipped.

Definition session_uuid_from_string `{UuidCrate} (s : string) : Uuid :=
  default (Uuid_new_v5_oid (bytes_of s)) (Uuid_parse_str s).

Section entry.
Context {W : Type} {IO : FlowIo W}.
Context {SSL : OpenSSL} {SHA : Sha256} {BP : BuildProfile} {GS : GostSys}.
Context {SK : OpenSSLKeys} {PS : PemStack} {CK : Cryptoki} {TIO : Pkcs11Io W}.
Context {MW : ModuleWorld W} {MC : ModuleCrates}.

Fixpoint emit_all {E} (es : list FlowEvent) : eflow W E unit :=
  match es with
  | [] => fret tt
  | e :: r => do! emit e; emit_all r
  end.

(** The body of an entry: an [Err] is an early return. *)
Definition run_pam (body : eflow W Z Z) (s : FlowState W) : FlowState W * Z :=
  match body s with
  | (s', Ok code) | (s', Err code) => (s', code)
  | (s', Panic) => (s', PAM_AUTHINFO_UNAVAIL)
  end.

(** A call on the world, or on the world and the engine cell; an error is
    logged and becomes the code. *)
Definition on_io {E A} (code : Z) (c : io W E A) : eflow W Z A := λ s,
  let (w, r) := c (fs_world s) in (MkFlow w (fs_cell s) (fs_trace s), map_err (λ _, code) r).

Definition on_host {E A} (code : Z) (c : io (host W) E A) : eflow W Z A := λ s,
  let (h, r) := c (fs_world s, fs_cell s) in
  (MkFlow h.1 h.2 (fs_trace s), map_err (λ _, code) r).

(** A call whose error is only logged. *)
Definition try_io {E A} (c : io W E A) : eflow W Z (option A) := λ s,
  let (w, r) := io_ok (F := Z) c (fs_world s) in (MkFlow w (fs_cell s) (fs_trace s), r).

Definition close_monitor_session (monitor : MonitorClient W) (session_id reason : string)
    : eflow W Z unit :=
  let! _ := try_io (mc_close_session monitor session_id reason) in
  emit (EvClose session_id reason).

Definition run_open_session_pipeline_with_backend_and_monitor (backend : MacBackend)
    (monitor : option (MonitorClient W)) (cfg : ValidatedConfig) (ctx : AuthContext) (pam_user : string)
    : eflow W Z unit :=
  let sctx := MkSessionContext pam_user (ac_pam_service ctx) (session_cert_ident ctx)
                (ac_home_dir ctx) in
  let (events, outcome) :=
    apply_session_policy (H := backend) (cfg_mac cfg) (ac_cert_max_integrity ctx) sctx in
  do! emit_all (EvMac <$> events);
  match outcome with
  | Panic => lift Panic
  | Ok _ => fret tt
  | Err e =>
      let code := match e with
        | CertLacksExt | RuntimeRequired _ => PAM_AUTH_ERR
        | ApplyFailed _ => PAM_SESSION_ERR
        end in
      do! match monitor with
          | Some m => close_monitor_session m (ac_session_id ctx) "mac_denied"
          | None => fret tt
          end;
      lift (Err code)
  end.

Definition run_open_session_pipeline (astra : bool) (parsec : MacBackend) (cfg : ValidatedConfig)
    (ctx : AuthContext) (pam_user : string) : eflow W Z unit :=
  let (events, backend) := build_backend astra parsec (mac_runtime (cfg_mac cfg)) in
  do! emit_all events;
  let! backend := lift (of_sum backend) in
  run_open_session_pipeline_with_backend_and_monitor backend (Some (Di.monitor_client cfg)) cfg ctx
    pam_user.

Definition run_open_session_pipeline_with_backend (backend : MacBackend) (cfg : ValidatedConfig)
    (ctx : AuthContext) (pam_user : string) : eflow W Z unit :=
  run_open_session_pipeline_with_backend_and_monitor backend None cfg ctx pam_user.

Definition capture_xdg (session_id : Uuid) (xdg_session_id : option string)
    (push : SessionTarget → io W IpcError unit) : eflow W Z CaptureOutcome :=
  match xdg_session_id with
  | None | Some EmptyString => fret CaptureSkipped
  | Some xdg =>
      let target := LogindSession xdg in
      let! ok := try_io (push target) in
      do! emit (EvUpdateTarget session_id target);
      fret (if ok is Some _ then Pushed else PushFailed)
  end.

(** The closure [pam_sm_open_session] pushes with. *)
Definition push_target (cfg : ValidatedConfig) (session_id : Uuid) (target : SessionTarget)
    : io W IpcError unit :=
  let! client := monitord_connect (mon_socket_path (cfg_monitor cfg)) (mon_timeout (cfg_monitor cfg)) in
  send_update_session_target client session_id target.

(** ** The entries *)

(** [logging::init_once()], the first call of every entry. *)
Definition log_init {E} : eflow W E unit := act (λ w, (init_once w, tt)).

Definition load_config (astra : bool) (argv : list (option string)) (code : Z)
    : eflow W Z ValidatedConfig :=
  on_io code (load_validated_config astra (config_path_from_args (collect_args argv))).

(** The outcome's mount guard is dropped at the end of the entry. *)
Definition drop_outcome_mount (mount : option string) : eflow W Z unit :=
  match mount with
  | Some mp => unmount mp
  | None => fret tt
  end.

(** Step 9: store the context. *)
Definition finish_authenticate (out : FlowOutcome) : eflow W Z Z :=
  let! stored := try_io (set_auth_context (fo_auth_ctx out)) in
  match stored with
  | Some _ =>
      do! emit (EvStore (fo_auth_ctx out));
      do! drop_outcome_mount (fo_mount out);
      fret PAM_SUCCESS
  | None =>
      do! drop_outcome_mount (fo_mount out);
      lift (Err PAM_SYSTEM_ERR)
  end.

(** Steps 1 to 7: what the flow is called with.  The session identifier is made
    of 16 random bytes. *)
Definition prepare_login (astra : bool) (argv : list (option string))
    : eflow W Z (Deps * string * string * string) :=
  do! log_init;
  let! cfg := load_config astra argv PAM_AUTHINFO_UNAVAIL in
  do! on_host PAM_AUTHINFO_UNAVAIL (self_check cfg);
  let! pam_user := on_io PAM_AUTH_ERR pam_get_user_string in
  let! service := try_io pam_get_service_string in
  let! tty := try_io pam_get_tty_string in
  let! identity := on_io PAM_AUTHINFO_UNAVAIL (resolve_host_identity (cfg_host_identity cfg)) in
  let '(host_id_source, _, host_id_hash) := identity in
  let! wired := on_io PAM_AUTHINFO_UNAVAIL (Di.wire cfg) in
  let cfg := Di.wi_cfg wired in
  let! rng := act (λ w, sys_rng w 16) in
  let! session_id := lift (ok_or (fresh_session_id rng) PAM_AUTHINFO_UNAVAIL) in
  do! act (λ w, (flow_io_new cfg session_id w, tt));
  fret (MkDeps cfg (Di.wi_trust wired) host_id_hash host_id_source (cfg_user_mappings cfg)
          (parse_pam_tty (mjoin tty)),
        pam_user, default "unknown" service, session_id).

Definition authenticate_body (astra : bool) (argv : list (option string)) : eflow W Z Z :=
  let! prepared := prepare_login astra argv in
  let '(d, pam_user, pam_service, session_id) := prepared in
  let! out := on_state pam_code (authenticate d pam_user pam_service session_id) in
  finish_authenticate out.

Definition pam_sm_authenticate (astra : bool) (argv : list (option string))
    : FlowState W → FlowState W * Z :=
  run_pam (authenticate_body astra argv).

Definition pam_sm_setcred : FlowState W → FlowState W * Z :=
  run_pam (do! log_init; fret PAM_SUCCESS).

Definition pam_sm_acct_mgmt : FlowState W → FlowState W * Z :=
  run_pam
    (do! log_init;
     let! ctx := act get_auth_context in
     let! ctx := lift (ok_or ctx PAM_AUTHINFO_UNAVAIL) in
     let! now := act system_now in
     let code := acct_mgmt_core ctx now in
     fret (if decide (code = PAM_SUCCESS) then PAM_SUCCESS
           else if decide (code = PAM_ACCT_EXPIRED) then PAM_ACCT_EXPIRED
           else PAM_SYSTEM_ERR)).

Definition open_session_body (astra : bool) (parsec : MacBackend) (argv : list (option string))
    : eflow W Z Z :=
  do! log_init;
  let! cfg := load_config astra argv PAM_AUTHINFO_UNAVAIL in
  let! ctx := act get_auth_context in
  let! ctx := lift (ok_or ctx PAM_AUTHINFO_UNAVAIL) in
  let! user := try_io pam_get_user_string in
  let pam_user := default (default "" (ac_cert_cn ctx)) user in
  do! run_open_session_pipeline astra parsec cfg ctx pam_user;
  let! xdg := try_io (pam_get_env_string "XDG_SESSION_ID") in
  let session_uuid := session_uuid_from_string (ac_session_id ctx) in
  let! _ := capture_xdg session_uuid (mjoin xdg) (push_target cfg session_uuid) in
  do! on_state (λ _, PAM_SESSION_ERR)
    (λ s, run_hooks_for_stage logged_hook s (cfg_hooks cfg) SessionOpenStage
            (for_session_open pam_user ctx));
  fret PAM_SUCCESS.

Definition pam_sm_open_session (astra : bool) (parsec : MacBackend) (argv : list (option string))
    : FlowState W → FlowState W * Z :=
  run_pam (open_session_body astra parsec argv).

(** A failed hook is logged only. *)
Definition close_session_body (astra : bool) (argv : list (option string)) : eflow W Z Z :=
  do! log_init;
  let! cfg := load_config astra argv PAM_SUCCESS in
  let! ctx := act get_auth_context in
  match ctx with
  | None => fret PAM_SUCCESS
  | Some ctx =>
      let! user := try_io pam_get_user_string in
      let pam_user := default (default "" (ac_cert_cn ctx)) user in
      λ s,
        match run_hooks_for_stage logged_hook s (cfg_hooks cfg) SessionCloseStage
                (for_session_close pam_user ctx) with
        | (s', Panic) => (s', Panic)
        | (s', _) => (s', Ok PAM_SUCCESS)
        end
  end.

Definition pam_sm_close_session (astra : bool) (argv : list (option string))
    : FlowState W → FlowState W * Z :=
  run_pam (close_session_body astra argv).

End entry.

(** ** Traces of the entries *)

Definition is_store (e : FlowEvent) : bool := match e with EvStore _ => true | _ => false end.

Definition stores (t : list FlowEvent) : bool := existsb is_store t.

(** What is mounted after an event. *)
Definition mounted (acc : option string) (e : FlowEvent) : option string :=
  match e with
  | EvMount mp => Some mp
  | EvUnmount mp => if decide (acc = Some mp) then None else acc
  | _ => acc
  end.

Definition held (p : usb_phase) : option string :=
  match p with
  | Holding mp | Asking mp _ | Passed mp | Told mp => Some mp
  | _ => None
  end.

Lemma usb_run_held p t q :
  run usb_step p t = Some q → foldl mounted (held p) t = held q ∧ stores t = false.
Proof.
  revert p. induction t as [|e t IH]; intros p H; simpl in H; [by simplify_eq|].
  destruct (usb_step p e) as [p'|] eqn:Hs; [|done]. apply IH in H as [Hf Hst].
  assert (mounted (held p) e = held p' ∧ is_store e = false) as [Hm He].
  { unfold usb_step in Hs. destruct p, e; simpl in *; repeat case_decide; simplify_eq/=;
      try done; by rewrite ?decide_True. }
  unfold stores in *. simpl. by rewrite Hm, He.
Qed.

Lemma token_run_held max p t q :
  run (token_step max) p t = Some q → foldl mounted None t = None ∧ stores t = false.
Proof.
  revert p. induction t as [|e t IH]; intros p H; simpl in H; [done|].
  destruct (token_step max p e) as [p'|] eqn:Hs; [|done]. apply IH in H as [Hf Hst].
  assert (mounted None e = None ∧ is_store e = false) as [Hm He].
  { unfold token_step in Hs. destruct p, e; simpl in *; repeat case_decide; by simplify_eq/=. }
  unfold stores in *. simpl. by rewrite Hm, He.
Qed.

Section traces.
Context {W : Type} {IO : FlowIo W}.
Context {SSL : OpenSSL} {SHA : Sha256} {BP : BuildProfile} {GS : GostSys}.
Context {SK : OpenSSLKeys} {PS : PemStack} {CK : Cryptoki} {TIO : Pkcs11Io W}.
Context {MW : ModuleWorld W} {MC : ModuleCrates}.

Lemma messages_mounted t acc :
  Forall (λ e, is_message e = true) t → foldl mounted acc t = acc ∧ stores t = false.
Proof.
  revert acc. induction t as [|e t IH]; intros acc H; [done|]. inversion_clear H as [|? ? He Ht].
  unfold stores in *. simpl. destruct e; try done; by apply IH.
Qed.

(** The flow stores nothing, and leaves mounted what it returns. *)
Definition flow_trace (out : res FlowError FlowOutcome) (t : list FlowEvent) : Prop :=
  stores t = false ∧
  foldl mounted None t = match out with Ok o => fo_mount o | _ => None end.

Definition traced (c : flow W FlowOutcome) : Prop :=
  ∀ s s' r, c s = (s', r) → ∃ t, fs_trace s' = fs_trace s ++ t ∧ flow_trace r t.

Lemma traced_fail e : traced (lift (Err e)).
Proof. intros s s' r [= <- <-]. exists []. by rewrite app_nil_r. Qed.

Lemma traced_bind {A} (c : flow W A) (k : A → flow W FlowOutcome) :
  quiet c → (∀ a, traced (k a)) → traced (fbind c k).
Proof.
  intros Hc Hk s s' r H. unfold fbind in H. destruct (c s) as [s1 r1] eqn:Hs.
  apply Hc in Hs as (t1 & Ht1 & Hm). apply (messages_mounted t1 None) in Hm as [Hm1 Hs1].
  destruct r1 as [a|e|]; [|by injection H as <- <-; exists t1..].
  apply Hk in H as (t2 & Ht2 & Hs2 & Hm2). exists (t1 ++ t2). rewrite Ht2, Ht1, app_assoc.
  split; [done|]. split; [|by rewrite foldl_app, Hm1].
  unfold stores in *. by rewrite existsb_app, Hs1.
Qed.

Lemma authenticate_traced d u svc sid : traced (authenticate d u svc sid).
Proof.
  unfold authenticate. apply traced_bind; [apply quiet_lift|intros px].
  apply traced_bind; [apply quiet_tell_user|intros _].
  destruct (cfg_mode (d_cfg d)).
  - intros s s' r (t & p & Ht & Hp & HQ)%authenticate_pkcs12_moves. exists t.
    apply usb_run_held in Hp as [Hh Hs]. split; [done|]. split; [done|].
    simpl in Hh. rewrite Hh.
    destruct r as [out|e|]; [destruct HQ as (mp & -> & ->); done|by destruct p..].
  - destruct (cfg_crypto_backend (d_cfg d)); [apply traced_fail|].
    apply traced_bind; [unfold real_pkcs11_io; auto 10 with flow|]. intros _.
    intros s s' r (t & p & Ht & Hp & HQ)%authenticate_pkcs11_moves. exists t.
    apply token_run_held in Hp as [Hh Hs]. split; [done|]. split; [done|]. rewrite Hh.
    destruct r; [by destruct HQ as [-> _]|done..].
Qed.

(** An entry: the code, whether it stored a context, and that nothing stays
    mounted. *)
Definition entry_trace (r : res Z Z) (t : list FlowEvent) : Prop :=
  foldl mounted None t = None ∧
  match r with
  | Ok code => code = PAM_SUCCESS ∧ stores t = true
  | Err code => code ∈ [4; 6; 7; 8; 9] ∧ stores t = false
  | Panic => stores t = false
  end.

Definition entered (c : eflow W Z Z) : Prop :=
  ∀ s s' r, c s = (s', r) → ∃ t, fs_trace s' = fs_trace s ++ t ∧ entry_trace r t.

(** A step before the flow: no event, and a code of the list on an error. *)
Definition readies {A} (c : eflow W Z A) : Prop :=
  ∀ s s' r, c s = (s', r) → fs_trace s' = fs_trace s ∧
    match r with Err code => code ∈ [4; 6; 7; 8; 9] | _ => True end.

Lemma readies_bind {A B} (c : eflow W Z A) (k : A → eflow W Z B) :
  readies c → (∀ a, readies (k a)) → readies (fbind c k).
Proof.
  intros Hc Hk s s' r H. unfold fbind in H. destruct (c s) as [s1 [a|e|]] eqn:Hs;
    apply Hc in Hs as [Ht Hcode].
  - apply Hk in H as [-> ?]. by rewrite Ht.
  - by injection H as <- <-.
  - by injection H as <- <-.
Qed.

Lemma readies_act {A} (f : W → W * A) : readies (act f).
Proof. intros s s' r H. unfold act in H. destruct (f _). by injection H as <- <-. Qed.

Lemma readies_fret {A} (a : A) : readies (fret a).
Proof. by intros s s' r [= <- <-]. Qed.

Lemma readies_on_io {E A} code (c : io W E A) :
  code ∈ [4; 6; 7; 8; 9] → readies (on_io code c).
Proof.
  intros Hc s s' r H. unfold on_io in H. destruct (c _) as [w [a|e|]]; by injection H as <- <-.
Qed.

Lemma readies_on_host {E A} code (c : io (host W) E A) :
  code ∈ [4; 6; 7; 8; 9] → readies (on_host code c).
Proof.
  intros Hc s s' r H. unfold on_host in H. destruct (c _) as [h [a|e|]]; by injection H as <- <-.
Qed.

Lemma readies_try_io {E A} (c : io W E A) : readies (try_io c).
Proof.
  intros s s' r H. unfold try_io, io_ok in H. destruct (c _) as [w [a|e|]]; by injection H as <- <-.
Qed.

Lemma readies_ok_or {A} (o : option A) (code : Z) :
  code ∈ [4; 6; 7; 8; 9] → readies (lift (ok_or o code)).
Proof. intros Hc s s' r H. destruct o; by injection H as <- <-. Qed.

Lemma entered_bind {A} (c : eflow W Z A) (k : A → eflow W Z Z) :
  readies c → (∀ a, entered (k a)) → entered (fbind c k).
Proof.
  intros Hc Hk s s' r H. unfold fbind in H. destruct (c s) as [s1 [a|e|]] eqn:Hs;
    apply Hc in Hs as [Ht Hcode].
  - apply Hk in H as (t & Ht' & He). exists t. by rewrite Ht', Ht.
  - injection H as <- <-. exists []. by rewrite Ht, app_nil_r.
  - injection H as <- <-. exists []. by rewrite Ht, app_nil_r.
Qed.

Lemma code_nonzero (c : Z) : c ∈ [4; 6; 7; 8; 9] → c ≠ PAM_SUCCESS.
Proof. unfold PAM_SUCCESS. rewrite !elem_of_cons, elem_of_nil. lia. Qed.

Lemma pam_code_values e : pam_code e ∈ [4; 6; 7; 8; 9].
Proof. destruct e as [| | | | | | | | | | | |[]|[]| | | |]; set_solver. Qed.

Lemma finish_authenticate_trace out (s s' : FlowState W) r :
  finish_authenticate out s = (s', r) →
  ∃ t, fs_trace s' = fs_trace s ++ t ∧ foldl mounted (fo_mount out) t = None ∧
    match r with
    | Ok code => code = PAM_SUCCESS ∧ stores t = true
    | Err code => code = PAM_SYSTEM_ERR ∧ stores t = false
    | Panic => False
    end.
Proof.
  unfold finish_authenticate, fbind, try_io, io_ok.
  pose proof (set_auth_context_safe (fo_auth_ctx out) (fs_world s)) as Hsafe.
  destruct (set_auth_context _ _) as [w [[]|e|]]; [..|done];
    unfold emit, drop_outcome_mount, unmount, fret, lift, fbind, act, emit;
    destruct (fo_mount out) as [mp|]; simpl; intros [= <- <-]; simpl; rewrite <-?app_assoc.
  - exists [EvStore (fo_auth_ctx out); EvUnmount mp]. simpl. by rewrite decide_True.
  - by exists [EvStore (fo_auth_ctx out)].
  - exists [EvUnmount mp]. simpl. by rewrite decide_True.
  - exists []. by rewrite app_nil_r.
Qed.

Lemma entered_authenticate d u svc sid :
  entered (fbind (on_state pam_code (authenticate d u svc sid)) finish_authenticate).
Proof.
  intros s s' r H. unfold fbind, on_state in H.
  destruct (authenticate d u svc sid s) as [s1 r1] eqn:Ha.
  apply authenticate_traced in Ha as (t1 & Ht1 & Hs1 & Hm1).
  destruct r1 as [out|e|]; simpl in H.
  - apply finish_authenticate_trace in H as (t2 & Ht2 & Hm2 & Hr).
    exists (t1 ++ t2). rewrite Ht2, Ht1, app_assoc. unfold entry_trace.
    rewrite foldl_app, Hm1. split; [done|]. split; [done|].
    unfold stores in *. rewrite existsb_app, Hs1. simpl.
    destruct r as [c|c|]; [done| |done]. destruct Hr as [-> ?]. split; [set_solver|done].
  - injection H as <- <-. exists t1. split; [done|]. split; [done|].
    split; [apply pam_code_values|done].
  - injection H as <- <-. by exists t1.
Qed.

Lemma prepare_login_readies astra argv : readies (prepare_login astra argv).
Proof.
  assert (Hcode : ∀ code : Z, code = 7 ∨ code = 9 → code ∈ [4; 6; 7; 8; 9])
    by (intros ? [->| ->]; repeat constructor).
  unfold prepare_login, log_init, load_config.
  repeat (apply readies_bind;
    [auto using readies_act, readies_on_io, readies_on_host, readies_try_io, readies_ok_or
    |first [intros [[source raw] hash]|intros ?]]).
  apply readies_fret.
Qed.

Lemma authenticate_body_entered astra argv : entered (authenticate_body astra argv).
Proof.
  apply entered_bind; [apply prepare_login_readies|]. intros [[[d u] svc] sid].
  apply entered_authenticate.
Qed.

Lemma on_io_Ok_inv {E A} code (c : io W E A) (s s' : FlowState W) a :
  on_io code c s = (s', Ok a) → c (fs_world s) = (fs_world s', Ok a).
Proof. unfold on_io. destruct (c _) as [w [b|e|]]; by intros [= <- <-]. Qed.

Lemma on_host_Ok_inv {E A} code (c : io (host W) E A) (s s' : FlowState W) a :
  on_host code c s = (s', Ok a) → c (fs_world s, fs_cell s) = ((fs_world s', fs_cell s'), Ok a).
Proof. unfold on_host. destruct (c _) as [[w cell] [b|e|]]; by intros [= <- <-]. Qed.

Lemma try_io_Some_inv {E A} (c : io W E A) (s s' : FlowState W) a :
  try_io c s = (s', Ok (Some a)) → c (fs_world s) = (fs_world s', Ok a).
Proof. unfold try_io, io_ok. destruct (c _) as [w [b|e|]]; by intros [= <- <-]. Qed.

(** What the entry established before the flow. *)
Record prepared (astra : bool) (argv : list (option string)) (d : Deps) (u : string) : Prop := {
  pr_config : ∃ w w', load_validated_config astra (config_path_from_args (collect_args argv)) w =
    (w', Ok (d_cfg d));
  pr_ready : ∃ cell, host_ready (d_cfg d) cell;
  pr_user : ∃ w w', pam_get_user_string w = (w', Ok u);
  pr_host : ∃ w w' raw, resolve_host_identity (cfg_host_identity (d_cfg d)) w =
    (w', Ok (d_host_id_source d, raw, d_host_id_hash d));
  pr_trust : wired_from (d_cfg d) (d_trust d);
  pr_mappings : d_user_mappings d = cfg_user_mappings (d_cfg d);
}.

Lemma prepare_login_Ok astra argv (s s' : FlowState W) d u svc sid :
  prepare_login astra argv s = (s', Ok (d, u, svc, sid)) → prepared astra argv d u.
Proof.
  intros H. unfold prepare_login in H.
  peel H s0 v0 Hv0. peel H s1 cfg Hcfg. apply on_io_Ok_inv in Hcfg. peel H s2 v2 Hch. destruct v2.
  apply on_host_Ok_inv, self_check_Ok in Hch. peel H s3 u' Hu. apply on_io_Ok_inv in Hu.
  peel H s4 svc' Hsvc. peel H s5 tty Htty. peel H s6 idn Hid. apply on_io_Ok_inv in Hid.
  destruct idn as [[source raw] hash]. peel H s7 wired Hw. apply on_io_Ok_inv, wire_Ok in Hw as [Hwc Hw].
  rewrite Hwc in H. peel H s8 rng Hr. peel H s9 sid' Hsid. peel H s10 v10 Hv10. injection H as _ <- <- _ _.
  split; cbn [d_cfg d_trust d_host_id_source d_host_id_hash d_user_mappings]; eauto.
Qed.

(** What is left of the mount of the outcome when the entry returns. *)
Definition dismount (mount : option string) (w : W) : W :=
  match mount with Some mp => drop_mount w mp | None => w end.

Lemma drop_outcome_mount_world mount (s s' : FlowState W) v :
  drop_outcome_mount mount s = (s', Ok v) → fs_world s' = dismount mount (fs_world s).
Proof.
  unfold drop_outcome_mount, unmount, fbind, act, emit, fret. destruct mount; by intros [= <- _].
Qed.

(** A run of the entry with a zero code: it prepared the login and ran the flow
    from there, and what the flow left stored the context, before the partition
    was unmounted. *)
Definition entry_run (astra : bool) (argv : list (option string)) (s s1 s2 s' : FlowState W)
    (d : Deps) (u svc sid : string) (out : FlowOutcome) : Prop :=
  prepare_login astra argv s = (s1, Ok (d, u, svc, sid)) ∧
  authenticate d u svc sid s1 = (s2, Ok out) ∧
  ∃ w, set_auth_context (fo_auth_ctx out) (fs_world s2) = (w, Ok tt) ∧
    fs_world s' = dismount (fo_mount out) w.

Lemma authenticate_body_Ok astra argv (s s' : FlowState W) c :
  authenticate_body astra argv s = (s', Ok c) →
  ∃ s1 s2 d u svc sid out, entry_run astra argv s s1 s2 s' d u svc sid out.
Proof.
  intros H. unfold authenticate_body in H. peel H s1 prep Hp. destruct prep as [[[d u] svc] sid].
  peel H s2 out Hout. unfold on_state in Hout.
  destruct (authenticate _ _ _ _ s1) as [s12 r12] eqn:Ha.
  injection Hout as -> Hout%map_err_Ok_inv. subst r12.
  exists s1, s2, d, u, svc, sid, out. split_and!; [done..|].
  unfold finish_authenticate in H. peel H s13 st Hst. destruct st as [[]|].
  - apply try_io_Some_inv in Hst. exists (fs_world s13). split; [done|].
    peel H s14 v14 Hv14. injection Hv14 as <- _. peel H s15 v15 Hv15. injection H as <- _.
    by apply drop_outcome_mount_world in Hv15.
  - by peel H s14 v14 Hv14.
Qed.

(** A zero code: what was prepared, and the gates that were passed. *)
Lemma pam_authenticate_Ok astra argv re (s s' : FlowState W) :
  (∀ text raw, toml_from_str text = inr raw → raw_typed raw) →
  Regex_new user_mapping_pattern = inr re →
  pam_sm_authenticate astra argv s = (s', PAM_SUCCESS) →
  ∃ s1 s2 d u svc sid out, entry_run astra argv s s1 s2 s' d u svc sid out ∧
    prepared astra argv d u ∧ config_wf astra (is_match re) (d_cfg d) ∧
    match cfg_mode (d_cfg d) with
    | ModePkcs12 => p12_authenticated s1 s2 d u svc sid out
    | ModePkcs11 => token_authenticated s1 s2 d u svc sid out
    end.
Proof.
  intros Htoml Hre Hok.
  unfold pam_sm_authenticate, run_pam in Hok.
  destruct (authenticate_body astra argv s) as [s0 r] eqn:Hb.
  pose proof (authenticate_body_entered astra argv s s0 r Hb) as (t & _ & _ & Ht).
  destruct r as [c|c|]; simplify_eq/=; [|by destruct Ht as [?%code_nonzero _]].
  apply authenticate_body_Ok in Hb as (s1 & s2 & d & u & svc & sid & out & He).
  pose proof He as (Hprep & Ha & _). apply prepare_login_Ok in Hprep as Hp.
  pose proof (pr_config _ _ _ _ Hp) as (w1 & w2 & Hc).
  apply (loaded_config_wf astra _ re) in Hc as Hwf; [|done..].
  exists s1, s2, d, u, svc, sid, out. split_and!; [done..|].
  assert (0 ≤ max_depth (d_trust d)) as Hd.
  { rewrite (wf_depth _ _ (pr_trust _ _ _ _ Hp)). pose proof (tw_depth _ (cw_trust _ _ _ Hwf)). lia. }
  pose proof (authenticate_mode_sound d u svc sid s1 s2 out Hd Ha) as Hg.
  by destruct (cfg_mode (d_cfg d)); [|destruct Hg].
Qed.

Lemma emit_all_spec {E} es (s : FlowState W) :
  emit_all (E := E) es s = (MkFlow (fs_world s) (fs_cell s) (fs_trace s ++ es), Ok tt).
Proof.
  revert s. induction es as [|e es IH]; intros s; [by destruct s; rewrite app_nil_r|].
  unfold emit_all, fbind, emit. fold (@emit_all W GS E). rewrite IH. simpl. by rewrite <-app_assoc.
Qed.

(** Every hook that ran is of the stage, in every outcome; only a hook unwinds. *)
Lemma run_hooks_trace (s s' : FlowState W) hooks stage vars r :
  run_hooks_for_stage logged_hook s hooks stage vars = (s', r) →
  ∃ t, fs_trace s' = fs_trace s ++ t ∧
    Forall (λ e, ∃ h, e = EvHook h vars ∧ hk_stage h = stage ∧ h ∈ hooks) t ∧ (r = Panic → t ≠ []).
Proof.
  unfold run_hooks_for_stage. assert (∀ h, h ∈ hooks_at stage hooks → hk_stage h = stage ∧ h ∈ hooks)
    as Hin.
  { intros h [? ?%bool_decide_eq_true]%list_elem_of_In%filter_In. by rewrite list_elem_of_In. }
  revert s Hin. induction (hooks_at stage hooks) as [|h hs IH]; intros s Hin H; simpl in H.
  { injection H as <- <-. exists []. by rewrite app_nil_r. }
  unfold logged_hook in H at 1. destruct (execute_hook _ _ _) as [w o].
  assert (∃ h', EvHook h vars = EvHook h' vars ∧ hk_stage h' = stage ∧ h' ∈ hooks) as Hh.
  { exists h. destruct (Hin h); [by left|done]. }
  destruct (apply_on_failure _ _) as [[]|e|].
  2,3: injection H as <- <-; exists [EvHook h vars]; split_and!; [done|by constructor|done].
  apply IH in H as (t & Ht & HF & _); [|intros h' ?; apply Hin; by right].
  exists (EvHook h vars :: t). rewrite Ht. simpl. rewrite <-app_assoc.
  split_and!; [done|by constructor|done].
Qed.

End traces.

(** ** A sample handle *)

Module EntrySample.

Definition files {W} : Fs W := {|
  fs_read path w := (w, ConfigSample.lookup_file path ConfigSample.disk);
  fs_metadata path w :=
    (w, match ConfigSample.lookup_file path ConfigSample.disk with
        | inr bs => inr (MkMetadata true false (zlen bs) 0x81A4)
        | inl e => inl e
        end);
|}.

Definition context : AuthContext :=
  MkAuthContext "sid" None None None None "login" "h" MachineId 0 (Some 100) None None None.

(** A handle for alice on the first display. *)
Definition pam {W} : PamSys W := {|
  pam_get_user w := (w, (0, Some (bytes_of "alice")));
  pam_get_item item w := (w, if decide (item = PAM_TTY) then (0, Some (bytes_of ":0")) else (29, None));
  pam_getenv _ w := (w, None);
  Ptr := unit;
  box_into_raw _ w := (w, tt);
  box_read _ _ := context;
  box_drop _ w := w;
  pam_set_data _ _ _ w := (w, 0);
  pam_get_data _ w := (w, (0, Some tt));
  ConvFn := unit;
  pam_get_conv w := (w, (0, None));
  CPtr := unit;
  conv_call _ _ _ w := (w, (19, None));
  resp_field _ _ := None;
  c_str _ _ := [];
  c_write_zeros _ _ w := w;
  c_free _ w := w;
|}.

Definition no_processes {W} : Processes W := {|
  Child := unit;
  spawn _ w := (w, inl (MkIoError KindNotFound ""));
  try_wait _ w := (w, inr None);
  kill_and_wait _ w := w;
  join_stdout _ w := (w, []);
  join_stderr _ w := (w, []);
|}.

Definition lib {W} : @Pkcs11Lib W FlowSample.token := {|
  pl_lock := LibSample.alone;
  Ctx := unit;
  Pkcs11_new _ w := (w, Ok tt);
  ctx_initialize _ w := (w, inr tt);
  get_slots_with_token _ w := (w, inr []);
  get_token_info _ _ w := (w, inr (MkTokenInfo "" ""));
  open_rw_session _ _ w := (w, inr (tt : @Session FlowSample.token));
  session_login _ _ w := (w, inr tt);
  session_logout _ w := (w, inr tt);
  session_close _ w := w;
  ctx_finalize _ w := w;
|}.

Definition world : @ModuleWorld (list string) FlowSample.token := {|
  mw_fs := files;
  mw_clock := {| instant_now w := (w, 0); sleep _ w := w |};
  mw_processes := no_processes;
  mw_pkcs11 := lib;
  mw_socket := WiringSample.no_socket;
  mw_wall_clock := WiringSample.wall;
  mw_pam := pam;
  mw_frame _ _ w := w;
  mw_syslog := LoggingSample.silent;
|}.

Definition crates : ModuleCrates := {|
  mc_unicode := λ c, c;
  mc_regex := ConfigSample.regex;
  mc_toml := ConfigSample.toml;
  mc_hex := WiringSample.hex;
  mc_uuid := ClientSample.uuid;
  mc_version := ClientSample.crate;
  mc_json_client := ClientSample.client_json;
  mc_json_server := ClientSample.server_json;
|}.

(** A kernel without the integrity subsystem. *)
Definition parsec : MacBackend := StubBackend.

Abbreviation enter pins :=
  (pam_sm_authenticate (IO := FlowSample.io) (SSL := FlowSample.openssl) (SHA := Sample.digest)
    (BP := Sample.release) (GS := GostSample.gost) (SK := FlowSample.keys) (PS := FlowSample.pem)
    (CK := FlowSample.token) (TIO := FlowSample.token_io) (MW := world) (MC := crates) false [Some "debug"]
    (FlowSample.start pins)).

End EntrySample.

(** ** Theorems *)

(** [PAM_SUCCESS] from [pam_sm_authenticate] means: the configuration at the
    given path was valid and the host passed the self-check for it; the host
    identity and the verifier are the ones of that configuration; the user
    that PAM named passed every gate of the flow with them; and the context
    of that very authentication was stored in the handle. *)
Theorem pam_authenticate_sound {W} {IO : FlowIo W} {SSL : OpenSSL} {SHA : Sha256}
    {BP : BuildProfile} {GS : GostSys} {SK : OpenSSLKeys} {PS : PemStack} {CK : Cryptoki}
    {TIO : Pkcs11Io W} {MW : ModuleWorld W} {MC : ModuleCrates} astra argv re (s s' : FlowState W)
    (Htoml : ∀ text raw, toml_from_str text = inr raw → raw_typed raw)
    (Hre : Regex_new user_mapping_pattern = inr re)
    (Hok : pam_sm_authenticate astra argv s = (s', PAM_SUCCESS)) :
  ∃ s1 s2 d u svc sid out, entry_run astra argv s s1 s2 s' d u svc sid out ∧
    prepared astra argv d u ∧ config_wf astra (is_match re) (d_cfg d) ∧
    match cfg_mode (d_cfg d) with
    | ModePkcs12 => p12_authenticated s1 s2 d u svc sid out
    | ModePkcs11 => token_authenticated s1 s2 d u svc sid out
    end.
Proof. by apply (pam_authenticate_Ok astra argv re s s'). Qed.

Lemma pam_authenticate_sound_witness :
  (EntrySample.enter ["1234"]).2 = PAM_SUCCESS ∧
  ∃ s1 s2 d u svc sid out,
    entry_run (IO := FlowSample.io) (SSL := FlowSample.openssl) (SHA := Sample.digest)
      (BP := Sample.release) (GS := GostSample.gost) (SK := FlowSample.keys) (PS := FlowSample.pem)
      (TIO := FlowSample.token_io) (MW := EntrySample.world) (MC := EntrySample.crates)
      false [Some "debug"] (FlowSample.start ["1234"]) s1 s2 (EntrySample.enter ["1234"]).1
      d u svc sid out ∧
    prepared (SSL := FlowSample.openssl) (SK := FlowSample.keys) (SHA := Sample.digest)
      (GS := GostSample.gost) (MW := EntrySample.world) (MC := EntrySample.crates)
      false [Some "debug"] d u ∧
    config_wf false ConfigSample.user_shape (d_cfg d) ∧
    match cfg_mode (d_cfg d) with
    | ModePkcs12 =>
        p12_authenticated (IO := FlowSample.io) (SHA := Sample.digest) (BP := Sample.release)
          (GS := GostSample.gost) (SK := FlowSample.keys) (PS := FlowSample.pem)
          (TIO := FlowSample.token_io) s1 s2 d u svc sid out
    | ModePkcs11 =>
        token_authenticated (IO := FlowSample.io) (SHA := Sample.digest) (BP := Sample.release) (GS := GostSample.gost)
          (SK := FlowSample.keys) (PS := FlowSample.pem) (TIO := FlowSample.token_io)
          s1 s2 d u svc sid out
    end.
Proof.
  assert ((EntrySample.enter ["1234"]).2 = PAM_SUCCESS) as Hc by (vm_compute; reflexivity).
  split; [exact Hc|]. destruct (EntrySample.enter ["1234"]) as [s' c] eqn:H. simpl in Hc. subst c.
  refine (pam_authenticate_sound (MW := EntrySample.world) (MC := EntrySample.crates) false
            [Some "debug"] tt _ s' _ eq_refl H).
  intros text raw [= <-]. unfold raw_typed.
  split_and!; first [simpl; lia | by intros | apply Forall_nil_2].
Defined.

(** C10: [pam_sm_authenticate] fails closed: whatever the collaborators answer, its
    code is zero or one of 4, 6, 7, 8 and 9, a panic included; a context is
    stored exactly when the code is zero; and when it returns, no partition
    is mounted. *)
Theorem pam_authenticate_fails_closed {W} {IO : FlowIo W} {SSL : OpenSSL} {SHA : Sha256}
    {BP : BuildProfile} {GS : GostSys} {SK : OpenSSLKeys} {PS : PemStack} {CK : Cryptoki}
    {TIO : Pkcs11Io W} {MW : ModuleWorld W} {MC : ModuleCrates} astra argv (s : FlowState W) :
  let (s', code) := pam_sm_authenticate astra argv s in
  ∃ t, fs_trace s' = fs_trace s ++ t ∧ (code = PAM_SUCCESS ∨ code ∈ [4; 6; 7; 8; 9]) ∧
    (code = PAM_SUCCESS ↔ stores t = true) ∧ foldl mounted None t = None.
Proof.
  unfold pam_sm_authenticate, run_pam.
  destruct (authenticate_body astra argv s) as [s1 r] eqn:Hb.
  apply authenticate_body_entered in Hb as (t & Ht & Hm & Hr).
  destruct r as [c|c|]; exists t.
  - destruct Hr as [-> Hs]. rewrite Hs. split_and!; [done|by left|done|done].
  - destruct Hr as [Hc Hs]. rewrite Hs. apply code_nonzero in Hc as Hz.
    split_and!; [done|by right|by split|done].
  - rewrite Hr. split_and!; [done| |by split|done]. right. repeat constructor.
Qed.

(** [pam_sm_acct_mgmt] answers by the stored context alone: no context is
    [PAM_AUTHINFO_UNAVAIL], an expired certificate [PAM_ACCT_EXPIRED], and
    otherwise it succeeds; the last instant of validity still counts. *)
Theorem acct_mgmt_spec {W} {IO : FlowIo W} {GS : GostSys} {CK : Cryptoki} {MW : ModuleWorld W}
    (s : FlowState W) :
  let (w, stored) := get_auth_context (init_once (fs_world s)) in
  let code := (pam_sm_acct_mgmt s).2 in
  match stored with
  | None => code = 9
  | Some ctx =>
      (code = 0 ∨ code = 13) ∧
      (code = 13 ↔ ∃ na, ac_cert_not_after ctx = Some na ∧ na < (system_now w).2)
  end.
Proof.
  destruct (get_auth_context (init_once (fs_world s))) as [w [ctx|]] eqn:Hd;
    unfold pam_sm_acct_mgmt, run_pam, log_init, fbind, act, lift, ok_or;
    cbn [fs_world fs_cell fs_trace]; rewrite Hd; [|done].
  simpl. destruct (system_now w) as [w' now]. unfold acct_mgmt_core. simpl.
  destruct (ac_cert_not_after ctx) as [na|]; [destruct (decide (na < now))|]; simpl;
    (split; [auto|]); split; [eauto|done|done| |done|]; intros (na' & ? & ?); simplify_eq; lia.
Qed.

(** A refusal of the MAC orchestrator reaches PAM unaltered (7 for a broken
    policy contract, 14 for a failed application) and releases the session
    the monitor recorded at authentication; a session that is allowed is not
    closed. *)
Theorem mac_denial_closes_session {W} {GS : GostSys} {CK : Cryptoki} {MW : ModuleWorld W}
    {MC : ModuleCrates} backend cfg ctx u (s : FlowState W) :
  let sctx := MkSessionContext u (ac_pam_service ctx) (session_cert_ident ctx) (ac_home_dir ctx) in
  let (events, outcome) :=
    apply_session_policy (H := backend) (cfg_mac cfg) (ac_cert_max_integrity ctx) sctx in
  let (s', r) := run_open_session_pipeline_with_backend_and_monitor backend
                   (Some (Di.monitor_client cfg)) cfg ctx u s in
  let closed := fs_trace s ++ (EvMac <$> events) ++ [EvClose (ac_session_id ctx) "mac_denied"] in
  match outcome with
  | Ok _ => r = Ok tt ∧ fs_trace s' = fs_trace s ++ (EvMac <$> events)
  | Err (CertLacksExt | RuntimeRequired _) => r = Err 7 ∧ fs_trace s' = closed
  | Err (ApplyFailed _) => r = Err 14 ∧ fs_trace s' = closed
  | Panic => r = Panic
  end.
Proof.
  cbv zeta. unfold run_open_session_pipeline_with_backend_and_monitor.
  destruct (apply_session_policy _ _ _) as [events outcome].
  unfold fbind. rewrite emit_all_spec. unfold close_monitor_session, fbind, act, emit, lift, fret.
  cbn [fs_world fs_cell fs_trace]. destruct outcome as [k|[]|]; [done|..|done].
  all: unfold try_io, io_ok; cbn [fs_world];
    pose proof (close_session_safe (mon_socket_path (cfg_monitor cfg)) (mon_timeout (cfg_monitor cfg))
      (mon_fail_mode (cfg_monitor cfg)) (ac_session_id ctx) "mac_denied" (fs_world s)) as Hsafe;
    unfold Di.monitor_client; destruct (mc_close_session _ _ _ _) as [w [[]|e'|]]; [..|done];
    cbn [fs_trace]; by rewrite <-app_assoc.
Qed.

(** With [runtime = "required"] and an inactive kernel subsystem the session
    is refused before the pipeline that would release it: the monitor is not
    told, and its record of the session stays. *)
Theorem required_runtime_leaks_session {W} {GS : GostSys} {CK : Cryptoki} {MW : ModuleWorld W}
    {MC : ModuleCrates} parsec cfg ctx u (s : FlowState W)
    (Hmode : mac_runtime (cfg_mac cfg) = RuntimeRequiredMode) (Hprobe : @probe parsec ≠ Active) :
  run_open_session_pipeline true parsec cfg ctx u s =
  (MkFlow (fs_world s) (fs_cell s)
     (fs_trace s ++ [EvRuntime "mac_runtime_required" "kernel parsec subsystem not active"]),
   Err 7).
Proof.
  unfold run_open_session_pipeline, build_backend. rewrite Hmode. rewrite decide_False by done.
  unfold fbind. by rewrite emit_all_spec.
Qed.

Lemma required_runtime_leaks_session_witness :
  run_open_session_pipeline (MW := EntrySample.world) (MC := EntrySample.crates) true EntrySample.parsec
    (ConfigSample.config ModePkcs12 (MkMacPolicy Required None true RuntimeRequiredMode))
    (MkAuthContext "sid" None None None None "login" "h" MachineId 0 None None None None)
    "alice" (FlowSample.start []) =
  (@MkFlow _ GostSample.gost [] GostSample.cell0
     [EvRuntime "mac_runtime_required" "kernel parsec subsystem not active"], Err 7).
Proof.
  apply (required_runtime_leaks_session (MW := EntrySample.world) (MC := EntrySample.crates)
    EntrySample.parsec); [done|].
  vm_compute. discriminate.
Defined.

(** [pam_sm_close_session] succeeds unless a hook unwinds, runs [session_close]
    hooks and nothing else: the monitor is never told that the session ended. *)
Theorem close_session_not_reported {W} {IO : FlowIo W} {GS : GostSys} {CK : Cryptoki}
    {MW : ModuleWorld W} {MC : ModuleCrates} astra argv (s : FlowState W) :
  let (s', code) := pam_sm_close_session astra argv s in
  ∃ t, fs_trace s' = fs_trace s ++ t ∧ (code = PAM_SUCCESS ∨ code = PAM_AUTHINFO_UNAVAIL ∧ t ≠ []) ∧
    Forall (λ e, ∃ h vars, e = EvHook h vars ∧ hk_stage h = SessionCloseStage) t.
Proof.
  unfold pam_sm_close_session, run_pam, close_session_body, log_init, load_config, fbind, on_io, act, try_io, io_ok.
  pose proof (load_validated_config_safe astra (config_path_from_args (collect_args argv)) (init_once (fs_world s))) as Hl.
  destruct (load_validated_config _ _ _) as [w [cfg|e|]]; cbn [fs_world fs_cell fs_trace map_err]; [..|done].
  2: { exists []. rewrite app_nil_r. auto. }
  destruct (get_auth_context w) as [w1 [ctx|]]; cbn [fs_world fs_cell fs_trace].
  2: { exists []. rewrite app_nil_r. auto. }
  pose proof (pam_get_user_string_safe w1) as Hu.
  destruct (pam_get_user_string w1) as [w2 [user|e|]]; cbn [fs_world fs_cell fs_trace]; [..|done].
  all: destruct (run_hooks_for_stage _ _ _ _ _) as [s1 r] eqn:Hr;
    apply run_hooks_trace in Hr as (t & Ht & HF & Hp);
    destruct r as [|e'|]; exists t; split_and!; try done; try by auto;
    (eapply Forall_impl; [exact HF|]; intros e'' (h & -> & ? & _); eauto).
Qed.

Lemma parse_args_agree argv args out :
  args !! "config" = pa_config_path out →
  collect_args_from args argv !! "config" = pa_config_path (parse_pam_args_from out (omap id argv)).
Proof.
  revert args out. induction argv as [|[s|] argv IH]; intros args out Ha; [done|..|by apply IH].
  cbn [collect_args_from omap list_omap id parse_pam_args_from].
  destruct (split_once_bytes _ _) as [k [v|]]; [|by apply IH]. apply IH.
  case_decide as Hk; cbn [pa_config_path].
  - rewrite Hk. by rewrite lookup_insert_eq.
  - by rewrite lookup_insert_ne.
Qed.

(** The two readers of the module's arguments agree on the path of the
    configuration: the typed parser of [pam_args.rs] and the one the entries
    use. *)
Theorem config_path_agrees argv :
  config_path_from_args (collect_args argv) =
  default "/etc/pam_certauth/config.toml" (pa_config_path (parse_pam_args (omap id argv))).
Proof. unfold config_path_from_args. f_equal. by apply parse_args_agree. Qed.
