(* ===== verification/Real.v ===== *)
(** * The production adapters ([RealFlowIo], [RealPkcs11Io] of [flow.rs])

    The interfaces of the flow, [FlowIo] and [Pkcs11Io], implemented on the
    definitions of the components: udev and [mount(2)], the bundle on the
    stick, the PAM conversation, the hook executor, the monitor client and the
    PKCS#11 module.  The theorems say what a successful login means with these
    adapters in place. *)

From S2P Require Import Prelude Text Sys Logging Errors Openssl Der Sample X509Ext Certificate HostBinding.
From S2P Require Import Gost Trust MacLabel MacOrchestrator Proto Hooks RawConfig Config Exec Client Usb.
From S2P Require Import HostIdentity Pkcs12 Pkcs11 Token PamHandle Wiring Flow FlowRun FlowSpec Entry.
Local Open Scope Z_scope.

Definition MOUNT_BASE : string := "/run/pam_certauth/mounts".

(** The calls of the adapters that no component has: the random source, and
    [User::from_name] of [nix]. *)
Class FlowSys (W : Type) := {
  rng_fill : W → Z → W * (string + list byte);
  nix_user_from_name : W → string → W * option (Z * string);
}.

(** The locals of the entry that its adapters own: the configuration, the
    session identifier and the mount counter, the loaded module. *)
Class Locals (W : Type) `{Pkcs11Lib W} := {
  the_cfg : W → ValidatedConfig;
  the_session : W → string;
  the_seq : W → Z;
  the_backend : W → Pkcs11Backend;
  new_frame : ValidatedConfig → string → W → W;
  set_seq : Z → W → W;
  set_backend : Pkcs11Backend → W → W;
}.

(** The answer of a computation that does not unwind. *)
Definition answer_of {W E A} (c : io W E A) (Hc : io_safe c) (w : W) : W * (E + A) :=
  ((c w).1,
   match (c w).2 as r return no_panic r → E + A with
   | Ok a => λ _, inr a
   | Err e => λ _, inl e
   | Panic => λ safe, match safe eq_refl with end
   end (Hc w)).

Lemma answer_of_inr {W E A} (c : io W E A) (Hc : io_safe c) w a :
  (answer_of c Hc w).2 = inr a → c w = ((c w).1, Ok a).
Proof.
  unfold answer_of. cbn [snd]. generalize (Hc w). destruct (c w) as [w' [b|e|]]; cbn [fst snd].
  - by intros _ [= ->].
  - done.
  - by intros Hp.
Qed.

Lemma prompt_pin_safe {W} {PAM : PamSys W} prompt : io_safe (PamHandle.prompt_pin (W := W) prompt).
Proof.
  apply io_safe_bind.
  - apply io_safe_bind; [auto with rust|]. intros [rc [[f|]|]]; [case_decide|..]; by intros w.
  - intros f. destruct (has_nul prompt); [by intros w|]. apply io_safe_bind; [auto with rust|].
    intros [rc [resp|]]; [case_decide|]; [by intros w| |by intros w].
    intros w. destruct (resp_field resp w) as [buf|]; [|done]. cbn. apply ok_or_no_panic.
Qed.

Section adapters.
Context {W : Type} {CK : Cryptoki} {FS : Fs W} {CLK : Clock W} {LIB : Pkcs11Lib W} {LC : Locals W}.
Context {UD : Udev W} {MS : MountSys W} {PAM : PamSys W} {FY : FlowSys W}.
Context {PRS : ProcSys W} {UDB : UserDb W} {CS : ChildSys W} {ES : ExecSys W}.
Context {SKT : SocketSys W} {WC : WallClock W} {MC : ModuleCrates}.

(** The adapter the entry builds, with the counter it has reached. *)
Definition the_rio (w : W) : RealFlowIo :=
  let rio := real_flow_io_new (cfg_usb_wait (the_cfg w)) None (cfg_max_usb_partitions (the_cfg w))
               MOUNT_BASE (the_session w) in
  MkRealFlowIo (rio_timeout rio) (rio_filter rio) (rio_max_usb_partitions rio)
    (rio_mountpoint_base rio) (rio_session_id rio) (the_seq w).

(** Rounds of the udev loop and reaps of a killed child. *)
Context (rounds reaps : nat).

Definition real_wait_for_usb (w : W) : W * res UsbError (list UsbDevice) :=
  let rio := the_rio w in
  wait_for_usb_devices rounds (rio_timeout rio) (rio_filter rio) (rio_max_usb_partitions rio) w.

(** The mountpoint of the guard; the counter moves on in any case. *)
Definition real_mount_step (w : W) (dev : UsbDevice) : W * res MountError string :=
  let (w', out) := real_mount (the_rio w) dev w in
  (set_seq (rio_mount_seq out.1) w',
   match out.2 with
   | Ok g => Ok (mg_target g)
   | Err e => Err e
   | Panic => Panic
   end).

(** [open_session] of the wired monitor: an error is logged. *)
Definition real_open_session (w : W) (info : OpenSessionInfo) : W * bool :=
  let (w', r) := mc_open_session (Di.monitor_client (the_cfg w)) info w in (w', is_ok r).

#[export] Instance real_flow_io : FlowIo W := {|
  Flow.wait_for_usb := real_wait_for_usb;
  Flow.mount := real_mount_step;
  Flow.drop_mount w target := drop_guard RealMountOps (adopt target) w;
  Flow.discover w mp pattern pam_user := discover_credentials mp pattern pam_user w;
  Flow.show_info w msg := (PamHandle.show_info msg w).1;
  Flow.prompt_pin w prompt := answer_of (PamHandle.prompt_pin prompt) (prompt_pin_safe prompt) w;
  Flow.execute_hook w hook vars := execute reaps hook vars w;
  Flow.monitor_open_session := real_open_session;
  Flow.sys_rng := rng_fill;
  Flow.system_now := system_time_now;
  Flow.user_from_name := nix_user_from_name;
|}.

(** [Pkcs11Backend::load]: the backend is kept in the adapter. *)
Definition real_backend_load (w : W) (path : string) (mode : LockingMode)
    : W * res Pkcs11Error unit :=
  match Token.backend_load path mode w with
  | (w', Ok b) => (set_backend b w', Ok tt)
  | (w', Err e) => (w', Err e)
  | (w', Panic) => (w', Panic)
  end.

(** [Pkcs11Session::open]; the session handle is in the guard. *)
Definition open_session (b : Pkcs11Backend) (slot : Slot) (pin : string) : io W Pkcs11Error Session :=
  let! s := session_open b slot pin in
  match ps_inner s with
  | Some session => fret session
  | None => lift Panic
  end.

Lemma session_open_inner b slot pin (w w' : W) s :
  session_open b slot pin w = (w', Ok s) → is_Some (ps_inner s).
Proof.
  unfold session_open. intros H. peel H w1 session Hs.
  destruct (with_global_lock _ _ _) as [w2 [e|[]]]; [done|]. by injection H as _ <-.
Qed.

Lemma open_session_safe b slot pin : io_safe (open_session b slot pin).
Proof.
  intros w. unfold open_session. rewrite fbind_eq.
  assert (no_panic (session_open b slot pin w).2) as Hs.
  { revert w. change (io_safe (session_open b slot pin)). apply io_safe_bind; [auto with rust|].
    intros session w. by destruct (with_global_lock _ _ _) as [w2 [e|[]]]. }
  destruct (session_open b slot pin w) as [w1 [s|e|]] eqn:Ho; [|done..].
  apply session_open_inner in Ho as [session ->]. done.
Qed.

#[export] Instance real_token_io : Pkcs11Io W := {|
  Flow.backend_load := real_backend_load;
  Flow.wait_for_token w timeout label := Token.wait_for_token (the_backend w) timeout label w;
  Flow.get_token_serial w slot :=
    let b := the_backend w in
    let (w', info) := with_global_lock (be_locking_mode b) (get_token_info (be_ctx b) slot) w in
    (w', match info with inl e => inl e | inr i => inr (ti_serial_number i) end);
  Flow.open_with_pin w slot pin :=
    answer_of (open_session (the_backend w) slot pin) (open_session_safe (the_backend w) slot pin) w;
  Flow.drop_session w session :=
    session_drop (MkPkcs11Session CK (Some session) true (be_locking_mode (the_backend w))) w;
|}.

(** Step 7 of the entry. *)
#[export] Instance real_frame : PamFrame W := λ cfg session_id w,
  let (w, _) := fs_create_dir_all MOUNT_BASE w in
  set_seq 0 (new_frame cfg session_id w).

End adapters.

(** ** What the adapters answer *)

(** The bundle is the content of a file below the mountpoint. *)
Definition bundle_below {W} {FS : Fs W} (mp : string) (creds : DiscoveredCreds) : Prop :=
  ∃ rel w w' md w'', (p12_path creds = mp +:+ rel ∨ p12_path creds = mp +:+ "/" +:+ rel) ∧
    starts_with rel "/" = false ∧ Forall (λ seg, seg ≠ "..") (str_split (zb 0x2F) rel) ∧
    fs_metadata (p12_path creds) w = (w', inr md) ∧ md_len md ≤ MAX_P12_BYTES ∧
    fs_read (p12_path creds) w' = (w'', inr (p12_bytes creds)).

Section answers.
Context {W : Type} {CK : Cryptoki} {FS : Fs W} {CLK : Clock W} {LIB : Pkcs11Lib W} {LC : Locals W}.
Context {UD : Udev W} {MS : MountSys W} {PAM : PamSys W} {FY : FlowSys W}.
Context {PRS : ProcSys W} {UDB : UserDb W} {CS : ChildSys W} {ES : ExecSys W}.
Context {SKT : SocketSys W} {WC : WallClock W} {MC : ModuleCrates}.
Context {SSL : OpenSSL} {SHA : Sha256} {BP : BuildProfile} {GS : GostSys}.
Context {SK : OpenSSLKeys} {PS : PemStack}.
Context (rounds reaps : nat).

(** Somewhere in the run from [s] to [s'], between two calls. *)
Definition in_run (s s' : FlowState W) (P : W → Prop) : Prop :=
  ∃ w, during (IO := real_flow_io rounds reaps) (TIO := real_token_io) s s' w ∧ P w.

(** The [mount] called in [w] ended with the kernel mounting the partition there,
    read-only and without set-user-id programs, devices or executables. *)
Definition hardened (dev : UsbDevice) (mp : string) (w : W) : Prop :=
  ∃ w0 fs flags, mp = mount_target (the_rio w) ∧
    sys_mount (devnode dev) mp fs flags w0 = ((real_mount (the_rio w) dev w).1, inr tt) ∧
    fs ∈ ALLOWED_FS ∧ dev_fs_type dev = Some fs ∧
    Forall (λ bit, Z.land flags bit = bit) [MS_RDONLY; MS_NOSUID; MS_NODEV; MS_NOEXEC].

Lemma real_mount_step_Ok w dev mp : (real_mount_step w dev).2 = Ok mp → hardened dev mp w.
Proof.
  unfold real_mount_step. destruct (real_mount (the_rio w) dev w) as [w' [rio' [g|e|]]] eqn:Hm;
    simpl; [|done..]. intros [= <-].
  pose proof Hm as (-> & -> & w1 & fs & flags & Hs & Hfs & Hd & Hf)%real_mount_Ok.
  exists w1, fs, flags. by rewrite Hm.
Qed.

Lemma real_discover_Ok w w' mp pattern u creds :
  mp ≠ "" → pattern_wf pattern → no_dot_slash u →
  discover_credentials mp pattern u w = (w', Ok creds) → bundle_below mp creds.
Proof.
  intros Hmp Hp Hu Hd.
  destruct (discover_credentials_Ok mp pattern u w w' creds) as (rel & H1 & H2 & H3 & w1 & w2 & md & w3 & H4);
    [done..|]. by exists rel, w1, w2, md, w3.
Qed.

(** The run from [s] to [s'] with a stick: the certificate of a file on the
    partition it mounted, opened with the PIN it read; the key signed the random
    bytes it drew, and the chain is valid at the time it read off the clock. *)
Definition stick_login (s s' : FlowState W) (d : Deps) (u svc sid : string) (out : FlowOutcome)
    : Prop :=
  ∃ dev mp creds pin loaded key nonce presented now vc,
    let leaf := Pkcs12.end_entity loaded in
    let pattern := default DEFAULT_PKCS12_PATH_PATTERN (cfg_pkcs12_path_pattern (d_cfg d)) in
    fo_mount out = Some mp ∧ in_run s s' (hardened dev mp) ∧
    in_run s s' (λ w, ∃ w', discover_credentials mp pattern u w = (w', Ok creds)) ∧
    (no_dot_slash u → bundle_below mp creds) ∧
    in_run s s' (λ w, ∃ w', PamHandle.prompt_pin "Smart-card PIN: " w = (w', Ok pin)) ∧
    from_p12 (p12_bytes creds) pin = Ok loaded ∧ private_key loaded = Ok key ∧
    in_run s s' (λ w, (rng_fill w NONCE_SIZE).2 = inr nonce) ∧ possession leaf key nonce ∧
    presented_of loaded creds = Ok presented ∧
    in_run s s' (λ w, (system_time_now w).2 = now) ∧ trusted (d_trust d) leaf presented now vc ∧
    host_authorised leaf (d_host_id_hash d) ∧
    user_authorised (d_user_mappings d) leaf u ∧
    context_of d sid svc leaf (dev_serial dev) (fo_auth_ctx out).

(** The run with a token: the certificate of a session with the module's token
    of the configured label, opened with the PIN the run read; nonce and time
    as before. *)
Definition token_login (s s' : FlowState W) (d : Deps) (u svc sid : string) (out : FlowOutcome)
    : Prop :=
  ∃ b slot pin ses session serial cert key nonce now vc,
    let leaf := fc_certificate cert in
    in_run s s' (λ w, the_backend w = b ∧ ∃ w', Token.wait_for_token b
      (cfg_pkcs11_slot_wait (d_cfg d)) (cfg_pkcs11_token_label (d_cfg d)) w = (w', Ok slot)) ∧
    slot_matches b (cfg_pkcs11_token_label (d_cfg d)) slot ∧
    in_run s s' (λ w, ∃ w', PamHandle.prompt_pin
      (default DEFAULT_PROMPT (cfg_pkcs11_pin_prompt (d_cfg d))) w = (w', Ok pin)) ∧
    in_run s s' (λ w, ∃ w', session_open (the_backend w) slot pin w = (w', Ok ses)) ∧
    ps_inner ses = Some session ∧
    in_run s s' (λ w, ∃ w', read_serial (the_backend w) slot w = (w', Ok serial)) ∧
    find_certificate session (cfg_pkcs11_object_label (d_cfg d)) = Ok cert ∧
    find_private_key_for_cert session cert = Ok key ∧
    in_run s s' (λ w, (rng_fill w TOKEN_NONCE_SIZE).2 = inr nonce) ∧
    token_possession session leaf key nonce ∧
    in_run s s' (λ w, (system_time_now w).2 = now) ∧ trusted (d_trust d) leaf [] now vc ∧
    host_authorised leaf (d_host_id_hash d) ∧
    user_authorised (d_user_mappings d) leaf u ∧
    context_of d sid svc leaf (Some serial) (fo_auth_ctx out).

(** An answer of the adapters in the run. *)
Lemma answered_in_run {A} s s' (f : W → W * A) a (P : W → Prop) :
  answered (IO := real_flow_io rounds reaps) (TIO := real_token_io) s s' f a →
  (∀ w, (f w).2 = a → P w) → in_run s s' P.
Proof. intros (w & Hw & Ha) HP. exists w. auto. Qed.

Lemma prompt_in_run s s' prompt pin :
  answered (IO := real_flow_io rounds reaps) (TIO := real_token_io) s s'
    (λ w, Flow.prompt_pin (FlowIo := real_flow_io rounds reaps) w prompt) (inr pin) →
  in_run s s' (λ w, ∃ w', PamHandle.prompt_pin prompt w = (w', Ok pin)).
Proof. intros H. eapply answered_in_run; [exact H|]. intros w Ha%answer_of_inr. eauto. Qed.

Lemma mount_target_ne w : mount_target (the_rio w) ≠ "".
Proof.
  unfold mount_target, path_join. cbn [the_rio rio_mountpoint_base rio_session_id rio_mount_seq].
  set (sub := if decide _ then _ else _). destruct (starts_with sub "/") eqn:Hs; [|done].
  by intros ->.
Qed.

Lemma p12_stick_login s s' d u svc sid out :
  opt_wf pattern_wf (cfg_pkcs12_path_pattern (d_cfg d)) →
  p12_authenticated (IO := real_flow_io rounds reaps) (TIO := real_token_io) s s' d u svc sid out →
  stick_login s s' d u svc sid out.
Proof.
  intros Hp (devices & dev & mp & creds & pin & loaded & key & nonce & presented & now & vc & _ & Hf &
    Hpin & Hl & Hk & Hn & Hpos & Hpres & Hnow & Ht & Hh & Hu & Hc & Hm).
  destruct Hf as (_ & Hmount & Hdisc & _).
  exists dev, mp, creds, pin, loaded, key, nonce, presented, now, vc. split_and!; try done.
  - eapply answered_in_run; [exact Hmount|]. intros w Ha. exact (real_mount_step_Ok w dev mp Ha).
  - eapply answered_in_run; [exact Hdisc|]. cbn. intros w.
    destruct (discover_credentials _ _ _ _) as [w' r]. intros [= ->]. eauto.
  - intros Hu'. destruct Hmount as (w1 & _ & (w0 & fs & flags & -> & _)%real_mount_step_Ok).
    destruct Hdisc as (w2 & _ & Hd). cbn in Hd.
    destruct (discover_credentials _ _ _ _) as [w3 r3] eqn:Hd3. cbn in Hd. subst r3.
    eapply real_discover_Ok; [apply mount_target_ne| |exact Hu'|exact Hd3].
    destruct (cfg_pkcs12_path_pattern (d_cfg d)) as [p|] eqn:Hpat; cbn; [by apply Hp|].
    split; [done|split; [reflexivity|by repeat constructor]].
  - by apply prompt_in_run.
Qed.

Lemma token_token_login s s' d u svc sid out :
  token_authenticated (IO := real_flow_io rounds reaps) (TIO := real_token_io) s s' d u svc sid out →
  token_login s s' d u svc sid out.
Proof.
  intros (slot & pin & session & info & serial & cert & key & nonce & now & vc & (w1 & Hw1 & Hw) & Hpin &
    (w2 & Hw2 & Ho) & Hinfo & Hserial & Hcert & Hkey & Hn & Hpos & Hnow & Ht & Hh & Hu & Hc & _).
  cbn in Hw. destruct (Token.wait_for_token _ _ _ w1) as [w1' r1] eqn:Hwait. cbn in Hw. subst r1.
  pose proof Hwait as Hslot. unfold Token.wait_for_token in Hslot. peel Hslot w3 started Hs.
  apply wait_loop_Ok in Hslot as (w4 & w5 & Hfind). apply find_slot_Ok in Hfind.
  apply answer_of_inr in Ho. unfold open_session in Ho at 1. peel Ho w6 ses Hopen.
  destruct (ps_inner ses) as [session'|] eqn:Hin; [|done]. injection Ho as _ ->.
  exists (the_backend w1), slot, pin, ses, session, serial, cert, key, nonce, now, vc.
  split_and!; try done.
  - exists w1. split; [done|]. eauto.
  - by apply prompt_in_run.
  - exists w2. split; [done|]. eauto.
  - eapply answered_in_run; [exact Hinfo|]. cbn. intros w Hi. unfold read_serial, fbind, ask.
    destruct (with_global_lock _ _ w) as [w' i]. cbn in Hi. subst info. rewrite Hserial.
    unfold lift. eauto.
Qed.

End answers.

(** The module on its machine, with the adapters in place. *)
Definition real_world {W} {CK : Cryptoki} {FS : Fs W} {CLK : Clock W} {PR : Processes W}
    {LIB : Pkcs11Lib W} {SKT : SocketSys W} {WC : WallClock W} {PAM : PamSys W} {MS : MountSys W}
    {LC : Locals W} {SY : SyslogSys W} : ModuleWorld W := {|
  mw_fs := FS; mw_clock := CLK; mw_processes := PR; mw_pkcs11 := LIB; mw_socket := SKT;
  mw_wall_clock := WC; mw_pam := PAM; mw_frame := real_frame; mw_syslog := SY;
|}.

(** ** A sample machine with a stick *)

Module RealSample.

Import UsbSample.

Record host := MkHost {
  rh_machine : machine;
  rh_cfg : ValidatedConfig;
  rh_session : string;
  rh_seq : Z;
}.

Definition on_machine {A} (f : machine → machine * A) (h : host) : host * A :=
  let (m, a) := f (rh_machine h) in (MkHost m (rh_cfg h) (rh_session h) (rh_seq h), a).

(** The files of the root, and a bundle on whatever is mounted. *)
Definition lookup (path : string) (h : host) : IoError + list byte :=
  if existsb (λ m, bool_decide (path = m.1.1.2 +:+ "/certs/user.p12")) (mc_mounts (rh_machine h))
  then inr [zb 1] else ConfigSample.lookup_file path ConfigSample.disk.

Definition files : Fs host := {|
  fs_read path h := (h, lookup path h);
  fs_metadata path h :=
    match lookup path h with
    | inr bs => (h, inr (MkMetadata true false (zlen bs) 0x81A4))
    | inl _ => on_machine (fs_metadata path) h
    end;
|}.

Definition udev : Udev host := {|
  UDevice := udevice;
  Monitor := unit;
  udev_devnode := ud_node;
  udev_property d k := bytes_of <$> prop d k;
  udev_sysname d := bytes_of (ud_sysname d);
  udev_scan ms := on_machine (udev_scan ms);
  monitor_listen sub := on_machine (monitor_listen sub);
  monitor_drain m := on_machine (monitor_drain m);
  monitor_poll m ms := on_machine (monitor_poll m ms);
|}.

Definition mounts : MountSys host := {|
  sys_mount src tgt fs flags := on_machine (sys_mount src tgt fs flags);
  sys_umount_detach tgt := on_machine (sys_umount_detach tgt);
  fs_create_dir_all p := on_machine (fs_create_dir_all p);
  fs_remove_dir p := on_machine (fs_remove_dir p);
|}.

Definition clock : Clock host := {|
  instant_now := on_machine instant_now;
  sleep d h := (on_machine (λ m, (sleep d m, tt)) h).1;
|}.

(** The user types the right PIN. *)
Definition pam : PamSys host := {|
  pam_get_user h := (h, (0, Some (bytes_of "alice")));
  pam_get_item _ h := (h, (29, None));
  pam_getenv _ h := (h, None);
  Ptr := unit;
  box_into_raw _ h := (h, tt);
  box_read _ _ := EntrySample.context;
  box_drop _ h := h;
  pam_set_data _ _ _ h := (h, 0);
  pam_get_data _ h := (h, (0, Some tt));
  ConvFn := unit;
  pam_get_conv h := (h, (0, Some (Some tt)));
  CPtr := unit;
  conv_call _ _ _ h := (h, (0, Some tt));
  resp_field _ _ := Some tt;
  c_str _ _ := bytes_of "1234";
  c_write_zeros _ _ h := h;
  c_free _ h := h;
|}.

Definition flow_sys : FlowSys host := {|
  rng_fill h _ := (h, inr (bytes_of "nonce"));
  nix_user_from_name h _ := (h, Some (1000, "/home/alice"));
|}.

Definition lib : @Pkcs11Lib host FlowSample.token := EntrySample.lib.

Definition locals : @Locals host FlowSample.token lib := {|
  the_cfg := rh_cfg;
  the_session := rh_session;
  the_seq := rh_seq;
  the_backend _ := MkBackend host FlowSample.token lib tt "/lib/p11.so" LockOs;
  new_frame cfg sid h := MkHost (rh_machine h) cfg sid (rh_seq h);
  set_seq n h := MkHost (rh_machine h) (rh_cfg h) (rh_session h) n;
  set_backend _ h := h;
|}.

(** No hook is configured: nothing is forked. *)
Definition procs : ProcSys host := {|
  waitpid_nohang _ h := (h, inr (Exited 0));
  waitpid_block _ h := (h, inr (Exited 0));
  killpg _ _ h := (h, inr tt);
  setpgid _ _ h := h;
|}.

Definition users : UserDb host := {|
  User_from_name _ h := (h, inr None);
  getgrouplist _ _ h := (h, inr []);
|}.

Definition exec : ExecSys host := {|
  sys_pipe h := (h, inl 24);
  sys_fork _ h := (h, inl 11);
  spawn_thread _ h := (h, false);
  read_to_end _ h := (h, inr []);
|}.

Definition child : ChildSys host := {|
  sys_setpgid_self h := (h, true);
  sys_setsid h := (h, true);
  sys_open_devnull h := (h, None);
  sys_dup2 _ _ h := (h, false);
  sys_close _ h := h;
  sys_close_range h := (h, true);
  sys_getrlimit_nofile h := (h, None);
  sys_setrlimit _ _ h := (h, inr tt);
  sys_umask _ h := h;
  sys_no_new_privs h := (h, true);
  sys_setgroups _ h := (h, false);
  sys_setgid _ h := (h, false);
  sys_setuid _ h := (h, false);
  sys_execve _ _ _ h := (h, false);
|}.

Definition start : host :=
  MkHost (UsbSample.start [disk; part "1" "vfat"]) (FlowSample.config ModePkcs11) "" 5.

Definition wall : WallClock host := λ h, (h, TrustSample.now).

Definition io : FlowIo host :=
  real_flow_io (FS := files) (CLK := clock) (LIB := lib) (LC := locals) (UD := udev) (MS := mounts)
    (PAM := pam) (FY := flow_sys) (PRS := procs) (UDB := users) (CS := child) (ES := exec)
    (SKT := WiringSample.no_socket) (WC := wall) (MC := EntrySample.crates) 3 3.

Definition token_io : @Pkcs11Io host FlowSample.token :=
  real_token_io (FS := files) (CLK := clock) (LIB := lib) (LC := locals).

Definition world : @ModuleWorld host FlowSample.token :=
  real_world (FS := files) (CLK := clock) (PR := EntrySample.no_processes) (LIB := lib)
    (SKT := WiringSample.no_socket) (WC := wall) (PAM := pam) (MS := mounts) (LC := locals)
    (SY := LoggingSample.silent).

Definition login : @FlowState host GostSample.gost * Z :=
  pam_sm_authenticate (IO := io) (SSL := FlowSample.openssl) (SHA := Sample.digest)
    (BP := Sample.release) (GS := GostSample.gost) (SK := FlowSample.keys) (PS := FlowSample.pem)
    (CK := FlowSample.token) (TIO := token_io) (MW := world) (MC := EntrySample.crates) false []
    (@MkFlow host GostSample.gost start GostSample.cell0 []).

End RealSample.

(** ** The module as it is deployed *)

(** C1: [PAM_SUCCESS] from the entry point with its production adapters: the
    configuration was valid and the host prepared for it, the flow ran from
    there, and the context it returned was stored.  With PKCS#12 the
    certificate comes from a bundle that a PIN read in the conversation opened;
    its partition has an allowed file system and was mounted read-only, without
    set-user-id programs, devices and executables, and for a user name without
    dots and slashes the file lies below that mountpoint.  With PKCS#11 it is
    an object of a session opened by such a PIN on a slot whose token has the
    configured label.  The key signed 32 bytes that the random source returned
    during this login, the chain is valid at a time the clock showed during
    this login, and certificate, host and user passed the gates; the stored
    context describes that certificate. *)
Theorem module_login_sound {W} {CK : Cryptoki} {FS : Fs W} {CLK : Clock W} {PR : Processes W}
    {LIB : Pkcs11Lib W} {SKT : SocketSys W} {WC : WallClock W} {PAM : PamSys W} {MS : MountSys W}
    {LC : Locals W} {UD : Udev W} {FY : FlowSys W} {PRS : ProcSys W} {UDB : UserDb W}
    {CS : ChildSys W} {ES : ExecSys W} {SY : SyslogSys W} {MC : ModuleCrates} {SSL : OpenSSL}
    {SHA : Sha256} {BP : BuildProfile} {GS : GostSys} {SK : OpenSSLKeys} {PS : PemStack}
    rounds reaps astra argv re (s s' : FlowState W)
    (Htoml : ∀ text raw, toml_from_str text = inr raw → raw_typed raw)
    (Hre : Regex_new user_mapping_pattern = inr re)
    (Hok : pam_sm_authenticate (IO := real_flow_io rounds reaps) (TIO := real_token_io)
             (MW := real_world) astra argv s = (s', PAM_SUCCESS)) :
  ∃ s1 s2 d u svc sid out,
    entry_run (IO := real_flow_io rounds reaps) (TIO := real_token_io) (MW := real_world)
      astra argv s s1 s2 s' d u svc sid out ∧
    prepared (MW := real_world) astra argv d u ∧ config_wf astra (is_match re) (d_cfg d) ∧
    match cfg_mode (d_cfg d) with
    | ModePkcs12 => stick_login rounds reaps s1 s2 d u svc sid out
    | ModePkcs11 => token_login rounds reaps s1 s2 d u svc sid out
    end.
Proof.
  apply (pam_authenticate_Ok astra argv re) in Hok
    as (s1 & s2 & d & u & svc & sid & out & He & Hp & Hwf & Hm); [|done..].
  exists s1, s2, d, u, svc, sid, out. split_and!; [done..|].
  destruct (cfg_mode (d_cfg d)).
  - eapply p12_stick_login; [apply (cw_pattern _ _ _ Hwf)|exact Hm].
  - by apply token_token_login in Hm.
Qed.

Lemma module_login_sound_witness :
  RealSample.login.2 = PAM_SUCCESS ∧
  ∃ s1 s2 d u svc sid out,
    entry_run (IO := RealSample.io) (SSL := FlowSample.openssl) (SHA := Sample.digest)
      (BP := Sample.release) (GS := GostSample.gost) (SK := FlowSample.keys) (PS := FlowSample.pem)
      (TIO := RealSample.token_io) (MW := RealSample.world) (MC := EntrySample.crates) false []
      (@MkFlow RealSample.host GostSample.gost RealSample.start GostSample.cell0 []) s1 s2
      RealSample.login.1 d u svc sid out ∧
    prepared (SSL := FlowSample.openssl) (SK := FlowSample.keys) (SHA := Sample.digest)
      (GS := GostSample.gost) (MW := RealSample.world) (MC := EntrySample.crates) false [] d u ∧
    config_wf false ConfigSample.user_shape (d_cfg d) ∧
    match cfg_mode (d_cfg d) with
    | ModePkcs12 =>
        stick_login (FS := RealSample.files) (CLK := RealSample.clock) (LC := RealSample.locals) (UD := RealSample.udev)
          (MS := RealSample.mounts) (PAM := RealSample.pam) (FY := RealSample.flow_sys)
          (PRS := RealSample.procs) (UDB := RealSample.users) (CS := RealSample.child)
          (ES := RealSample.exec) (SKT := WiringSample.no_socket) (WC := RealSample.wall)
          (MC := EntrySample.crates) (SHA := Sample.digest) (BP := Sample.release)
          (GS := GostSample.gost) (SK := FlowSample.keys) (PS := FlowSample.pem)
          3 3 s1 s2 d u svc sid out
    | ModePkcs11 =>
        token_login (FS := RealSample.files) (CLK := RealSample.clock) (LC := RealSample.locals) (UD := RealSample.udev)
          (MS := RealSample.mounts) (PAM := RealSample.pam) (FY := RealSample.flow_sys)
          (PRS := RealSample.procs) (UDB := RealSample.users) (CS := RealSample.child)
          (ES := RealSample.exec) (SKT := WiringSample.no_socket) (WC := RealSample.wall)
          (MC := EntrySample.crates) (SHA := Sample.digest) (BP := Sample.release)
          (GS := GostSample.gost) (SK := FlowSample.keys)
          3 3 s1 s2 d u svc sid out
    end.
Proof.
  assert (RealSample.login.2 = PAM_SUCCESS) as Hc by (vm_compute; reflexivity).
  split; [exact Hc|]. destruct RealSample.login as [s' c] eqn:H. simpl in Hc. subst c.
  refine (module_login_sound (LC := RealSample.locals) (SY := LoggingSample.silent) (PR := EntrySample.no_processes)
            (MC := EntrySample.crates) 3 3 false [] tt _ s' _ eq_refl H).
  intros text raw [= <-]. unfold raw_typed.
  split_and!; first [simpl; lia | by intros | apply Forall_nil_2].
Defined.
