(* ===== verification/Doubles.v ===== *)
(** * Test support that ships with the library

    The recording and replaying stand-ins that are compiled into the crates:
    the mounter of [mount/usb.rs], the in-memory stick of [flow.rs], the
    in-process server of [testing.rs] and the verifier of [trust/stub.rs].
    The theorems say how far a test that runs over them speaks about the
    production code: the mounter is asked what the kernel would be asked, and a
    login over the in-memory stick passes the gates of every login.  The
    mutexes of the stand-ins are not poisoned: nothing unwinds under them. *)

From S2P Require Import Prelude Text Sys Logging Errors Openssl Der Sample X509Ext Certificate HostBinding.
From S2P Require Import Gost Trust MacLabel MacOrchestrator MacAudit PdpFfi Proto Registry State Store Server.
From S2P Require Import Hooks RawConfig Config Exec Client Usb Events HostIdentity Startup Wallpaper Daemon.
From S2P Require Import Pkcs12 Pkcs11 Token PamHandle Wiring Flow FlowRun FlowSpec.
Local Open Scope Z_scope.

(** ** The mounter *)

Record MockMountCall := MkMockCall {
  mmc_source : string;
  mmc_target : string;
  mmc_fs_type : string;
  mmc_flags : Z;
}.

Record MockMounter := MkMockMounter {
  mm_calls : list MockMountCall;
  mm_fail_with : option ErrorKind;
}.

(** [{}] of an [ErrorKind]. *)
Definition error_kind_text (k : ErrorKind) : string :=
  match k with
  | KindNotFound => "entity not found"
  | KindPermissionDenied => "permission denied"
  | KindInvalidData => "invalid data"
  | KindInvalidInput => "invalid input parameter"
  | KindTimedOut => "timed out"
  | KindWouldBlock => "operation would block"
  | KindInterrupted => "operation interrupted"
  | KindOther => "other error"
  end.

(** The mounter next to the world it does not touch. *)
Definition mock_mount {W} (source target fs_type : string) (flags : Z)
    : io (W * MockMounter) MountError unit := λ '(w, m),
  match mm_fail_with m with
  | Some kind =>
      ((w, MkMockMounter (mm_calls m) None), Err (MountSyscall (inr (MkIoError kind (error_kind_text kind)))))
  | None =>
      ((w, MkMockMounter (mm_calls m ++ [MkMockCall source target fs_type flags]) None), Ok tt)
  end.

(** The files of the world. *)
Definition beside {W A} (fs : Fs W) : Fs (W * A) := {|
  fs_read path '(w, a) := let (w', r) := fs_read path w in ((w', a), r);
  fs_metadata path '(w, a) := let (w', r) := fs_metadata path w in ((w', a), r);
|}.

(** ** The in-memory stick *)

Definition NoopMountOps {W} : MountOps W :=
  {| ops_mount _ _ _ _ _ := fret tt;
     ops_umount _ := fret tt;
     ops_mkdir _ := fret tt;
     ops_rmdir _ := fret tt |}.

Record InMemoryFlowIo := MkInMemory {
  im_device : UsbDevice;
  im_mountpoint : string;
  im_usb_error : option UsbError;
  im_mount_error : option MountError;
}.

Definition in_memory_new (mountpoint : string) : InMemoryFlowIo :=
  MkInMemory (MkUsbDevice "/dev/sdz1" (Some "MOCK") 0x1234 0x5678 (Some "vfat")) mountpoint None None.

(** The text of an operating-system error is that of the C library. *)
Definition in_memory_wait_for_usb (errno_text : Z → string) (m : InMemoryFlowIo)
    : res UsbError (list UsbDevice) :=
  match im_usb_error m with
  | Some e =>
      Err match e with
          | UsbIo errno => UdevFailed ("io: " +:+ errno_text errno)
          | e => e
          end
  | None => Ok [im_device m]
  end.

Definition in_memory_mount (m : InMemoryFlowIo) (dev : UsbDevice) : res MountError MountGuard :=
  match im_mount_error m with
  | Some e =>
      Err match e with
          | UnsupportedFs s => UnsupportedFs s
          | MountpointInvalid p => MountpointInvalid p
          | MountUnsupportedPlatform => MountUnsupportedPlatform
          | _ => UnsupportedFs "(replay)"
          end
  | None => Ok (adopt (im_mountpoint m))
  end.

(** The flow over the stick: nothing is shown, credentials are discovered in
    the staged directory, the other collaborators are those of [rest]. *)
Definition in_memory_io {W} {FS : Fs W} (errno_text : Z → string) (m : InMemoryFlowIo) (rest : FlowIo W)
    : FlowIo W := {|
  Flow.wait_for_usb w := (w, in_memory_wait_for_usb errno_text m);
  Flow.mount w dev := (w, let? g := in_memory_mount m dev in Ok (mg_target g));
  Flow.drop_mount w mp := drop_guard NoopMountOps (adopt mp) w;
  Flow.discover w mp pattern pam_user := discover_credentials mp pattern pam_user w;
  Flow.show_info w _ := w;
  Flow.prompt_pin := @Flow.prompt_pin W rest;
  Flow.execute_hook := @Flow.execute_hook W rest;
  Flow.monitor_open_session := @Flow.monitor_open_session W rest;
  Flow.sys_rng := @Flow.sys_rng W rest;
  Flow.system_now := @Flow.system_now W rest;
  Flow.user_from_name := @Flow.user_from_name W rest;
|}.

(** ** The in-process server *)

Record TestServerHandle (H : Type) := MkTestServer {
  th_accept : H;
  th_state : H;
  th_action : H;
}.
Arguments MkTestServer {H}.
Arguments th_accept {H}.
Arguments th_state {H}.
Arguments th_action {H}.

(** Waiting for a task to end. *)
Class Await (W H : Type) := task_await : H → W → W.

(** Where the recording actions keep their calls. *)
Class Recorder (W : Type) := push_call : string → W → W.

Section server.
Context {W : Type} {SK : SocketFs W} {RT : Runtime W (@Listener W SK)} {AW : Await W (@JoinHandle W _ RT)}.
Context {RC : Recorder W} (set_fd_label : FdLabel W).

Definition spawn_inner (socket : string) (registry : SessionRegistry) (store : string) (udev : UdevQuery W)
    (on_removed : OnUsbRemoved) (enforce : bool) : io W IoError (TestServerHandle JoinHandle) :=
  let! listener := bind_listener set_fd_label socket in
  let cfg := MkStateConfig 1 5 on_removed in
  let! state_handle := spawned (StateTask cfg store registry udev) in
  let! action_handle := spawned (ActionTask (RecordingActions push_call)) in
  let cfg_accept := MkAcceptConfig enforce (idle_timeout accept_config_default)
                      (max_concurrent_connections accept_config_default) in
  let! accept_handle := spawned (AcceptTask listener cfg_accept) in
  fret (MkTestServer accept_handle state_handle action_handle).

Definition spawn_test_server_with (socket : string) (registry : SessionRegistry) (store : string)
    (udev : UdevQuery W) (on_removed : OnUsbRemoved) : io W IoError (TestServerHandle JoinHandle) :=
  spawn_inner socket registry store udev on_removed false.

Definition spawn_test_server (socket : string) (registry : SessionRegistry) (store : string)
    : io W IoError (TestServerHandle JoinHandle) :=
  spawn_test_server_with socket registry store AlwaysPresent Lock.

Definition spawn_test_server_enforcing (socket : string) (registry : SessionRegistry) (store : string)
    : io W IoError (TestServerHandle JoinHandle) :=
  spawn_inner socket registry store AlwaysPresent Lock true.

Definition shutdown_and_join (h : TestServerHandle JoinHandle) (w : W) : W :=
  task_await (th_action h) (task_await (th_state h) (task_await (th_accept h) (token_cancel w))).

End server.

(** [StateConfig::test_defaults]. *)
Definition test_defaults : StateConfig := MkStateConfig 5 30 Lock.

Definition noop_actions {W} : LogindActionsTrait W := NoopActions.

(** ** The stub of the trust verifier *)

Record VerifiedChain := MkVerifiedChain {
  vch_leaf : list byte;
  vch_chain : list (list byte);
}.

Definition stub_verify (leaf : list byte) (intermediates : list (list byte)) (host_id : list byte)
    : res ConfigTrustError VerifiedChain :=
  Err TrustNotImplemented.

(** ** Theorems *)

(** The mounter of the tests is asked for what the kernel would be asked for:
    where the mock entry point succeeds it has recorded one call, and the
    production entry point, in the same world, makes exactly that [mount(2)]
    call with the flags translated, then hands out the guard; where the mock
    entry point fails without an error being staged, the production one fails
    with the same error before any system call. *)
Theorem mount_double_agrees {W} {FS : Fs W} {MS : MountSys W} dev mp calls (w : W) :
  match mount_usb_device_with (FS := beside FS) mock_mount dev mp (w, MkMockMounter calls None) with
  | ((w1, m), Ok _) =>
      ∃ c, mm_calls m = calls ++ [c] ∧
        mount_usb_device dev mp w =
          (do! nix_mount (mmc_source c) (mmc_target c) (mmc_fs_type c) (mmc_flags c);
           fret (adopt mp)) w1
  | ((w1, m), Err e) => mm_calls m = calls ∧ mount_usb_device dev mp w = (w1, Err e)
  | (_, Panic) => False
  end.
Proof.
  unfold mount_usb_device_with, mount_usb_device. rewrite !fbind_eq. unfold path_exists. cbn [fs_metadata beside].
  destruct (fs_metadata mp w) as [w' [e|md]]; cbn [negb]; [done|].
  rewrite !fbind_eq. unfold lift. destruct (select_fs_type dev) as [fs|e|] eqn:Hs; cbn; [|done|].
  - destruct (bool_decide (fs ∈ ALLOWED_FS)); cbn; [|done]. by eexists.
  - unfold select_fs_type in Hs. by destruct (dev_fs_type dev).
Qed.

(** A login over the in-memory stick passed the gates of every login, with the
    certificate of the bundle that lies in the staged directory; the context
    names the staged serial, and nothing was mounted or is unmounted. *)
Theorem in_memory_login_sound {W} {FS : Fs W} {SSL : OpenSSL} {SHA : Sha256} {BP : BuildProfile}
    {GS : GostSys} {SK : OpenSSLKeys} {PS : PemStack} {CK : Cryptoki} {TIO : Pkcs11Io W}
    errno_text (m : InMemoryFlowIo) (rest : FlowIo W) (d : Deps) u svc sid (s s' : FlowState W) out
    (Hdepth : 0 ≤ max_depth (d_trust d)) (Hmode : cfg_mode (d_cfg d) = ModePkcs12)
    (Hok : authenticate (IO := in_memory_io errno_text m rest) d u svc sid s = (s', Ok out)) :
  ∃ creds pin loaded key nonce presented now vc w w',
    let leaf := Pkcs12.end_entity loaded in
    during (IO := in_memory_io errno_text m rest) s s' w ∧
    discover_credentials (im_mountpoint m)
      (default DEFAULT_PKCS12_PATH_PATTERN (cfg_pkcs12_path_pattern (d_cfg d))) u w = (w', Ok creds) ∧
    from_p12 (p12_bytes creds) pin = Ok loaded ∧ private_key loaded = Ok key ∧
    answered (IO := in_memory_io errno_text m rest) s s' (λ w, sys_rng w NONCE_SIZE) (inr nonce) ∧
    possession leaf key nonce ∧
    trusted (d_trust d) leaf presented now vc ∧ host_authorised leaf (d_host_id_hash d) ∧
    user_authorised (d_user_mappings d) leaf u ∧
    context_of d sid svc leaf (dev_serial (im_device m)) (fo_auth_ctx out) ∧
    fo_mount out = Some (im_mountpoint m) ∧
    drop_mount (FlowIo := in_memory_io errno_text m rest) (fs_world s') (im_mountpoint m) = fs_world s'.
Proof.
  apply (authenticate_mode_sound (IO := in_memory_io errno_text m rest)) in Hok; [|done]. rewrite Hmode in Hok.
  destruct Hok as (devices & dev & mp & creds & pin & loaded & key & nonce & presented & now & vc & (w0 & _ & Hd) & Hf &
    _ & Hl & Hk & Hn & Hp & _ & _ & Ht & Hh & Hu & Hc & Hm).
  destruct Hf as (Hin & (w1 & _ & Hmount) & (w2 & Hw2 & Hdisc) & _).
  cbn in Hd, Hmount, Hdisc. unfold in_memory_wait_for_usb in Hd. destruct (im_usb_error m); [done|].
  injection Hd as <-. unfold in_memory_mount in Hmount. destruct (im_mount_error m); [done|].
  injection Hmount as <-.
  destruct (discover_credentials _ _ _ w2) as [w3 r] eqn:Hdc. cbn in Hdisc. subst r.
  exists creds, pin, loaded, key, nonce, presented, now, vc, w2, w3. split_and!; try done.
  destruct Hin as (before & after & Hdev & _). destruct before; [|by destruct before].
  injection Hdev as Hdev _. by rewrite Hdev.
Qed.
